(** * Protocol Argus Cortex: flow tracking and behavioural scoring

    A shallow embedding of the Go packages

    - [internal/cortex] (engine.go: the simulated inference engine, and
      ml_engine.go: the ML-backed engine),
    - [pkg/ml] (engine.go: heuristic, SVM, neural-network and ensemble
      prediction and the prediction statistics),
    - [pkg/argus] (engine.go: the flow table, feature extraction, the
      analysis cycle and the idle sweep),
    - [internal/protocol] (parser.go: identification and parsing of
      packets) and the generator of training data of [pkg/ml],

    followed by the properties of the specification that concern them and by
    further properties of the code.

    Conventions.
    - Go's [float64] is an instance of the class [Float64] below.  Every
      numeric function is written once, over the class.  Two instances are
      given: [binary64] (IEEE 754 double precision, the primitive floats of
      Rocq, on which the functions are evaluated) and [exactQ] (the rationals,
      i.e. the same operations without rounding, NaN or infinities, on which
      the general theorems are stated).
    - Go's [int64]/[int] is [Z] with the wrap-around written out ([wrap64]).
    - [time.Time] is a number of nanoseconds ([Z]); every function that reads
      the clock takes the reading as its argument [now].
    - A Go result [(T, error)] is a value of [outcome T]; a run-time panic
      (nil dereference, shape mismatch in gonum) is the constructor [Panic].
    - Mutexes are not objects of the model: a function of the model is one
      critical section (or a sequence of them, see [Argus.exec]).  The
      exception is the mutex of the statistics of the ML cortex engine,
      which [Sync] models with the goroutines that share it.
    - A [[]byte] and a Go [string] are a [string] of bytes; the functions
      of [strings] that follow Unicode are modelled on ASCII.
    - The source of random numbers is a parameter of the generator of
      training data. *)

From Stdlib Require Import ZArith QArith Qabs Qround Qpower Lia Lqa Bool.
From Stdlib Require Import PrimFloat Uint63.
From Stdlib Require Import Ascii String DecimalString DecimalPos DecimalZ Decimal.
From stdpp Require Import gmap strings list fin_maps.

Set Default Proof Using "Type".

(* ===================================================================== *)
(** * Numbers *)
(* ===================================================================== *)

(** ** 64-bit signed integers *)

Definition wrap64 (z : Z) : Z :=
  ((z + 2 ^ 63) mod 2 ^ 64 - 2 ^ 63)%Z.

Definition max_int64 : Z := (2 ^ 63 - 1)%Z.
Definition min_int64 : Z := (- 2 ^ 63)%Z.

(** [x++] on an [int64]. *)
Definition incr64 (x : Z) : Z := wrap64 (x + 1).

(** [x + y] on an [int]. *)
Definition add64 (x y : Z) : Z := wrap64 (x + y).

(** ** Go's float64 *)

Class Float64 (F : Type) := {
  f_of_Z : Z -> F;             (* float64(n) for an integer n *)
  f_add : F -> F -> F;
  f_sub : F -> F -> F;
  f_mul : F -> F -> F;
  f_div : F -> F -> F;
  f_opp : F -> F;
  f_ltb : F -> F -> bool;      (* x < y *)
  f_leb : F -> F -> bool;      (* x <= y *)
  f_eqb : F -> F -> bool;      (* x == y *)
  math_Abs : F -> F;
  math_Min : F -> F -> F;
}.

Declare Scope f64_scope.
Delimit Scope f64_scope with f64.
Infix "+" := f_add : f64_scope.
Infix "-" := f_sub : f64_scope.
Infix "*" := f_mul : f64_scope.
Infix "/" := f_div : f64_scope.
Notation "- x" := (f_opp x) : f64_scope.
Infix "<?" := f_ltb : f64_scope.
Infix "<=?" := f_leb : f64_scope.
Infix "=?" := f_eqb : f64_scope.

(** A decimal literal [n/d] of the source ([0.7] is [lit 7 10]).  Division is
    correctly rounded in binary64, so [lit 7 10] is the double nearest to
    7/10, which is what the Go compiler produces for [0.7]. *)
Definition lit {F} `{Float64 F} (n d : Z) : F := (f_of_Z n / f_of_Z d)%f64.

Definition f_zero {F} `{Float64 F} : F := f_of_Z 0.
Definition f_one {F} `{Float64 F} : F := f_of_Z 1.

(** *** IEEE 754 binary64 *)

Module B64.

(** 2^63, the magnitude of the least [int64]. *)
Definition two63 : float :=
  PrimFloat.mul PrimFloat.two (PrimFloat.of_uint63 (Uint63.of_Z (2 ^ 62))).

(** [float64(n)] for [n] in the range of [int64]. *)
Definition of_Z (z : Z) : float :=
  match z with
  | Z0 => PrimFloat.zero
  | Zpos _ =>
      if (z <? 2 ^ 63)%Z then PrimFloat.of_uint63 (Uint63.of_Z z)
      else two63
  | Zneg p =>
      if (Zpos p <? 2 ^ 63)%Z
      then PrimFloat.opp (PrimFloat.of_uint63 (Uint63.of_Z (Zpos p)))
      else PrimFloat.opp two63
  end.

Definition signbit (x : float) : bool :=
  PrimFloat.ltb (PrimFloat.div PrimFloat.one x) PrimFloat.zero.

(** Go's [math.Min], with its special cases:
    Min(x, -Inf) = Min(-Inf, x) = -Inf; Min(x, NaN) = Min(NaN, x) = NaN;
    Min(-0, ±0) = Min(±0, -0) = -0. *)
Definition Min (x y : float) : float :=
  if PrimFloat.eqb x PrimFloat.neg_infinity || PrimFloat.eqb y PrimFloat.neg_infinity
  then PrimFloat.neg_infinity
  else if PrimFloat.is_nan x || PrimFloat.is_nan y then PrimFloat.nan
  else if PrimFloat.eqb x PrimFloat.zero && PrimFloat.eqb x y
  then (if signbit x then x else y)
  else if PrimFloat.ltb x y then x else y.

End B64.

#[export] Instance binary64 : Float64 float := {|
  f_of_Z := B64.of_Z;
  f_add := PrimFloat.add;
  f_sub := PrimFloat.sub;
  f_mul := PrimFloat.mul;
  f_div := PrimFloat.div;
  f_opp := PrimFloat.opp;
  f_ltb := PrimFloat.ltb;
  f_leb := PrimFloat.leb;
  f_eqb := PrimFloat.eqb;
  math_Abs := PrimFloat.abs;
  math_Min := B64.Min;
|}.

(** *** Exact arithmetic *)

Module Exact.

Definition ltb (x y : Q) : bool := negb (Qle_bool y x).

Definition Abs (x : Q) : Q := Qabs x.

Definition Min (x y : Q) : Q := if ltb x y then x else y.

End Exact.

#[export] Instance exactQ : Float64 Q := {|
  f_of_Z := inject_Z;
  f_add := Qplus;
  f_sub := Qminus;
  f_mul := Qmult;
  f_div := Qdiv;
  f_opp := Qopp;
  f_ltb := Exact.ltb;
  f_leb := Qle_bool;
  f_eqb := Qeq_bool;
  math_Abs := Exact.Abs;
  math_Min := Exact.Min;
|}.

(** ** Results of fallible calls *)

Inductive outcome (A : Type) : Type :=
| Ok (a : A)          (* (a, nil) *)
| Err (msg : string)  (* (nil, err) *)
| Panic.              (* the call panics *)
Arguments Ok {A} a.
Arguments Err {A} msg.
Arguments Panic {A}.

Definition is_Err {A} (o : outcome A) : bool :=
  match o with Err _ => true | _ => false end.

Definition time := Z.  (* nanoseconds *)
Bind Scope Z_scope with time.

Definition Second : Z := 1000000000.
Definition Minute : Z := 60 * Second.

(** [time.Time.Sub]: the difference as a [Duration], saturated to the range
    of [int64]. *)
Definition Sub (t u : time) : Z :=
  Z.max min_int64 (Z.min max_int64 (t - u)).

(** [Duration.Seconds]. *)
Definition Seconds {F} `{Float64 F} (d : Z) : F :=
  (f_of_Z (Z.quot d Second) + f_of_Z (Z.rem d Second) / f_of_Z Second)%f64.

(** The zero value of [time.Time] (January 1, year 1, 00:00 UTC). *)
Definition zeroTime : time := (-62135596800 * Second)%Z.

(** [%d] of [fmt.Sprintf] and [fmt.Errorf]. *)
Definition itoa (z : Z) : string := NilZero.string_of_int (Z.to_int z).

(** [len(s)] as a Go [int]. *)
Definition len {A} (s : list A) : Z := Z.of_nat (length s).

(** [s[i]] for an index the source has checked to be in range. *)
Definition at_index {F} `{Float64 F} (s : list F) (i : nat) : F :=
  default f_zero (s !! i).

(* ===================================================================== *)
(** * internal/cortex/engine.go *)
(* ===================================================================== *)

Module Cortex.
Section WithFloat.
Context {F : Type} `{Float64 F}.

Record CortexConfig := {
  ModelPath : string;
  DetectionThreshold : F;
  BatchSize : Z;
  InferenceTimeout : Z;
}.

Record DetectionResult := {
  IsBot : bool;
  Confidence : F;
  Features : list F;
  Reasoning : string;
  Timestamp : time;
  FlowID : string;
}.

Record Statistics := {
  TotalInferences : Z;
  BotDetections : Z;
  HumanDetections : Z;
  AverageConfidence : F;
  LastInference : time;
}.

Record Model := {
  Path : string;
  Version : string;
  InputSize : Z;
  OutputSize : Z;
  loaded : bool;
}.

Record Engine := {
  config : CortexConfig;
  model : option Model;   (* *Model, nil until loadModel *)
  stats : Statistics;
}.

(** [&Statistics{}] *)
Definition emptyStatistics : Statistics :=
  {| TotalInferences := 0; BotDetections := 0; HumanDetections := 0;
     AverageConfidence := f_zero; LastInference := zeroTime |}.

Definition loadModel (e : Engine) : Engine :=
  {| config := config e;
     model := Some {| Path := ModelPath (config e);
                      Version := "1.0.0";
                      InputSize := 128;
                      OutputSize := 2;
                      loaded := true |};
     stats := stats e |}.

(** [loadModel] never fails, so [NewEngine] always returns an engine. *)
Definition NewEngine (cfg : CortexConfig) : Engine :=
  loadModel {| config := cfg; model := None; stats := emptyStatistics |}.

(** [simulateInference]; [now] is the reading of [time.Now().UnixNano()]
    ([%] truncates towards zero in Go). *)
Definition simulateInference (now : time) (features : list F) : F * string :=
  let score := f_zero in
  let score :=
    if (10 <=? len features)%Z
    then (if (f_of_Z 1400 <? at_index features 0)%f64
          then (score + lit 3 10)%f64 else score)
    else score in
  let score :=
    if (20 <=? len features)%Z
    then (if (at_index features 10 <? lit 1 10)%f64
          then (score + lit 4 10)%f64 else score)
    else score in
  let score :=
    if (30 <=? len features)%Z
    then (if (at_index features 20 <? lit 5 10)%f64
          then (score + lit 2 10)%f64 else score)
    else score in
  let score := (score + f_of_Z (Z.rem now 100) / f_of_Z 1000)%f64 in
  let score := if (f_of_Z 1 <? score)%f64 then f_of_Z 1 else score in
  let reasoning :=
    if (lit 7 10 <? score)%f64
    then "High confidence bot detection based on automated behavior patterns"
    else if (lit 4 10 <? score)%f64
    then "Suspicious activity detected, moderate confidence"
    else "Appears to be human traffic based on behavioral analysis" in
  (score, reasoning).

Definition updateStats (s : Statistics) (result : DetectionResult) : Statistics :=
  let total_inferences := incr64 (TotalInferences s) in
  let bot := if IsBot result then incr64 (BotDetections s) else BotDetections s in
  let human := if IsBot result then HumanDetections s else incr64 (HumanDetections s) in
  let total := f_of_Z total_inferences in
  {| TotalInferences := total_inferences;
     BotDetections := bot;
     HumanDetections := human;
     AverageConfidence :=
       ((AverageConfidence s * (total - f_of_Z 1) + Confidence result) / total)%f64;
     LastInference := Timestamp result |}.

Definition with_stats (e : Engine) (s : Statistics) : Engine :=
  {| config := config e; model := model e; stats := s |}.

(** [Analyze]: the outcome and the engine after the call.  The two readings
    of the clock (in [simulateInference] and for the timestamp) are one
    argument [now]. *)
Definition Analyze (now : time) (e : Engine) (features : list F) (flowID : string)
  : outcome DetectionResult * Engine :=
  match model e with
  | None => (Panic, e)
  | Some m =>
      if negb (loaded m) then (Err "model not loaded", e)
      else if negb (len features =? InputSize m)%Z
      then (Err ("invalid feature vector size: got " +:+ itoa (len features)
                 +:+ ", expected " +:+ itoa (InputSize m)), e)
      else
        let '(confidence, reasoning) := simulateInference now features in
        let isBot := (DetectionThreshold (config e) <=? confidence)%f64 in
        let result := {| IsBot := isBot; Confidence := confidence;
                         Features := features; Reasoning := reasoning;
                         Timestamp := now; FlowID := flowID |} in
        (Ok result, with_stats e (updateStats (stats e) result))
  end.

(** [GetStatistics] returns a copy. *)
Definition GetStatistics (e : Engine) : Statistics := stats e.

End WithFloat.
Arguments CortexConfig : clear implicits.
Arguments DetectionResult : clear implicits.
Arguments Statistics : clear implicits.
Arguments Engine : clear implicits.
End Cortex.

(* ===================================================================== *)
(** * pkg/ml/engine.go *)
(* ===================================================================== *)

Module ML.
Section WithFloat.
Context {F : Type} `{Float64 F}.

(** [math.Exp], of Go's standard library. *)
Variable math_Exp : F -> F.

Record MLConfig := {
  ModelType : string;   (* "neural_network", "svm", "ensemble" *)
  DetectionThreshold : F;
  BatchSize : Z;
  TrainingEpochs : Z;
  LearningRate : F;
  FeatureSize : Z;
  GenerateFakeData : bool;
  FakeDataSize : Z;
}.

Record MLStatistics := {
  TotalPredictions : Z;
  BotDetections : Z;
  HumanDetections : Z;
  AverageConfidence : F;
  ModelAccuracy : F;
  TrainingTime : Z;
  LastPrediction : time;
}.

(** The Gorgonia graph and its tape machine are outside this repository.
    [forward features] stands for what [predictNeuralNetwork] does with
    them: bind the input tensor, [vm.RunAll()], read [output.Value()];
    [Ok c] when the output tensor starts with [c], [Err] for a failed run
    or an output that cannot be read. *)
Record NeuralNetwork := {
  forward : list F -> outcome F;
  nn_trained : bool;
}.

Record SVMClassifier := {
  weights : list F;   (* *mat.VecDense *)
  bias : F;
  svm_trained : bool;
}.

Record DetectionResult := {
  IsBot : bool;
  Confidence : F;
  Features : list F;
  Reasoning : string;
  ModelUsed : string;
  Timestamp : time;
  FlowID : string;
}.

Record MLEngine := {
  nnModel : option NeuralNetwork;
  svmModel : option SVMClassifier;
  config : MLConfig;
  stats : MLStatistics;
}.

Definition emptyStatistics : MLStatistics :=
  {| TotalPredictions := 0; BotDetections := 0; HumanDetections := 0;
     AverageConfidence := f_zero; ModelAccuracy := f_zero;
     TrainingTime := 0; LastPrediction := zeroTime |}.

(** ** Models *)

Definition initializeNeuralNetwork (graph : list F -> outcome F) (e : MLEngine) : MLEngine :=
  {| nnModel := Some {| forward := graph; nn_trained := false |};
     svmModel := svmModel e; config := config e; stats := stats e |}.

(** [mat.NewVecDense(n, nil)] panics unless [n] is positive. *)
Definition initializeSVM (e : MLEngine) : outcome MLEngine :=
  if (FeatureSize (config e) <=? 0)%Z then Panic
  else Ok {| nnModel := nnModel e;
             svmModel := Some {| weights := replicate (Z.to_nat (FeatureSize (config e))) f_zero;
                                 bias := f_zero; svm_trained := false |};
             config := config e; stats := stats e |}.

Definition initializeEnsemble (graph : list F -> outcome F) (e : MLEngine) : outcome MLEngine :=
  initializeSVM (initializeNeuralNetwork graph e).

Definition initializeModels (graph : list F -> outcome F) (e : MLEngine) : outcome MLEngine :=
  if String.eqb (ModelType (config e)) "neural_network"
  then Ok (initializeNeuralNetwork graph e)
  else if String.eqb (ModelType (config e)) "svm" then initializeSVM e
  else if String.eqb (ModelType (config e)) "ensemble" then initializeEnsemble graph e
  else Err ("unsupported model type: " +:+ ModelType (config e)).

(** ** Prediction *)

Fixpoint simulatePrediction_loop (i : nat) (features : list F) (score : F) : F :=
  match features with
  | [] => score
  | feature :: rest =>
      let score :=
        if (i <? 10)%nat && (lit 7 10 <? feature)%f64
        then (score + lit 1 10)%f64 else score in
      let score :=
        if (10 <=? i)%nat && (i <? 20)%nat && (feature <? lit 3 10)%f64
        then (score + lit 1 10)%f64 else score in
      let score :=
        if (20 <=? i)%nat && (i <? 30)%nat
           && (math_Abs (feature - lit 5 10) <? lit 1 10)%f64
        then (score + lit 1 10)%f64 else score in
      simulatePrediction_loop (S i) rest score
  end.

(** The heuristic fallback. *)
Definition simulatePrediction (features : list F) : F :=
  math_Min (simulatePrediction_loop 0 features f_zero) (f_of_Z 1).

Definition predictNeuralNetwork (e : MLEngine) (features : list F) : outcome F :=
  match nnModel e with
  | None => Ok (simulatePrediction features)
  | Some nn =>
      if negb (nn_trained nn) then Ok (simulatePrediction features)
      else match forward nn features with
           | Ok c => Ok c
           | Err msg => Err ("neural network inference failed: " +:+ msg)
           | Panic => Panic
           end
  end.

(** [mat.Dot]: panics when the two vectors differ in length. *)
Definition Dot (a b : list F) : option F :=
  if (length a =? length b)%nat
  then Some (fold_left (fun acc '(x, y) => (acc + x * y)%f64) (combine a b) f_zero)
  else None.

Definition predictSVM (e : MLEngine) (features : list F) : outcome F :=
  match svmModel e with
  | None => Ok (simulatePrediction features)
  | Some svm =>
      if negb (svm_trained svm) then Ok (simulatePrediction features)
      else
        (* mat.NewVecDense(len(features), features) panics on length 0 *)
        if (len features =? 0)%Z then Panic
        else match Dot (weights svm) features with
             | None => Panic
             | Some d =>
                 let prediction := (d + bias svm)%f64 in
                 Ok (f_of_Z 1 / (f_of_Z 1 + math_Exp (- prediction)))%f64
             end
  end.

Definition predictEnsemble (e : MLEngine) (features : list F) : outcome F :=
  match predictNeuralNetwork e features with
  | Panic => Panic
  | nn =>
      let predictions := match nn with Ok p => [p] | _ => [] end in
      match predictSVM e features with
      | Panic => Panic
      | svm =>
          let predictions :=
            match svm with Ok p => predictions ++ [p] | _ => predictions end in
          if (len predictions =? 0)%Z then Ok (simulatePrediction features)
          else
            let sum := fold_left (fun sum pred => (sum + pred)%f64) predictions f_zero in
            Ok (sum / f_of_Z (len predictions))%f64
      end
  end.

Definition generateReasoning (features : list F) (confidence : F) (modelUsed : string) : string :=
  let reasoning :=
    if (lit 8 10 <? confidence)%f64 then "High confidence bot detection based on "
    else if (lit 6 10 <? confidence)%f64 then "Moderate confidence bot detection based on "
    else if (lit 4 10 <? confidence)%f64 then "Low confidence bot detection based on "
    else "Human-like behavior detected based on " in
  let reasoning := reasoning +:+ modelUsed +:+ " model analysis. " in
  if (0 <? len features)%Z
  then reasoning +:+ "Key indicators include packet timing patterns, "
         +:+ "protocol behavior consistency, and flow characteristics."
  else reasoning.

Definition updateStats (s : MLStatistics) (result : DetectionResult) : MLStatistics :=
  let total_predictions := incr64 (TotalPredictions s) in
  let bot := if IsBot result then incr64 (BotDetections s) else BotDetections s in
  let human := if IsBot result then HumanDetections s else incr64 (HumanDetections s) in
  let total := f_of_Z total_predictions in
  {| TotalPredictions := total_predictions;
     BotDetections := bot;
     HumanDetections := human;
     AverageConfidence :=
       ((AverageConfidence s * (total - f_of_Z 1) + Confidence result) / total)%f64;
     ModelAccuracy := ModelAccuracy s;
     TrainingTime := TrainingTime s;
     LastPrediction := Timestamp result |}.

Definition with_stats (e : MLEngine) (s : MLStatistics) : MLEngine :=
  {| nnModel := nnModel e; svmModel := svmModel e; config := config e; stats := s |}.

(** [Predict]: the outcome and the engine after the call. *)
Definition Predict (now : time) (e : MLEngine) (features : list F) (flowID : string)
  : outcome DetectionResult * MLEngine :=
  let scored : outcome (F * string) :=
    if String.eqb (ModelType (config e)) "neural_network" then
      match predictNeuralNetwork e features with
      | Ok conf => Ok (conf, "neural_network") | Err m => Err m | Panic => Panic
      end
    else if String.eqb (ModelType (config e)) "svm" then
      match predictSVM e features with
      | Ok conf => Ok (conf, "svm") | Err m => Err m | Panic => Panic
      end
    else if String.eqb (ModelType (config e)) "ensemble" then
      match predictEnsemble e features with
      | Ok conf => Ok (conf, "ensemble") | Err m => Err m | Panic => Panic
      end
    else Err ("unsupported model type: " +:+ ModelType (config e)) in
  match scored with
  | Ok (confidence, modelUsed) =>
      let isBot := (DetectionThreshold (config e) <? confidence)%f64 in
      let reasoning := generateReasoning features confidence modelUsed in
      let result := {| IsBot := isBot; Confidence := confidence; Features := features;
                       Reasoning := reasoning; ModelUsed := modelUsed;
                       Timestamp := now; FlowID := flowID |} in
      (Ok result, with_stats e (updateStats (stats e) result))
  | Err m => (Err m, e)
  | Panic => (Panic, e)
  end.

Definition GetStatistics (e : MLEngine) : MLStatistics := stats e.

(** ** Training *)

Definition trainNeuralNetwork (e : MLEngine) : outcome MLEngine :=
  match nnModel e with
  | None => Panic
  | Some nn =>
      Ok {| nnModel := Some {| forward := forward nn; nn_trained := true |};
            svmModel := svmModel e; config := config e; stats := stats e |}
  end.

(** One sample of the inner loop of [trainSVM]:
    [weights[k] += 0.01 * label * feature[k]] for [k] in range of both. *)
Fixpoint svm_step (label : F) (w feature : list F) : list F :=
  match w, feature with
  | wk :: w', f :: feature' =>
      (wk + lit 1 100 * label * f)%f64 :: svm_step label w' feature'
  | _, _ => w
  end.

(** One pass over the data set; samples without a label are skipped. *)
Fixpoint svm_pass (w : list F) (features : list (list F)) (labels : list Z) : list F :=
  match features, labels with
  | feature :: features', l :: labels' =>
      let label := f_of_Z l in
      let label := if (label =? f_zero)%f64 then f_of_Z (-1) else label in
      svm_pass (svm_step label w feature) features' labels'
  | _, _ => w
  end.

Definition trainSVM (e : MLEngine) (features : list (list F)) (labels : list Z)
  : outcome MLEngine :=
  if (len features =? 0)%Z || (len labels =? 0)%Z then Err "no training data provided"
  else match svmModel e with
       | None => Panic
       | Some svm =>
           let w := Nat.iter 100 (fun w => svm_pass w features labels) (weights svm) in
           Ok {| nnModel := nnModel e;
                 svmModel := Some {| weights := w; bias := bias svm; svm_trained := true |};
                 config := config e; stats := stats e |}
       end.

Definition trainEnsemble (e : MLEngine) (features : list (list F)) (labels : list Z)
  : outcome MLEngine :=
  match trainNeuralNetwork e with
  | Ok e' => trainSVM e' features labels
  | o => o
  end.

(** [TrainOnFakeData]; the generated data set [(features, labels)] is the
    argument.  Every branch of the switch returns, so the statements after
    it (recording the training time) are never reached. *)
Definition TrainOnFakeData (e : MLEngine) (features : list (list F)) (labels : list Z)
  : outcome MLEngine :=
  if String.eqb (ModelType (config e)) "neural_network" then trainNeuralNetwork e
  else if String.eqb (ModelType (config e)) "svm" then trainSVM e features labels
  else if String.eqb (ModelType (config e)) "ensemble" then trainEnsemble e features labels
  else Err ("unsupported model type for training: " +:+ ModelType (config e)).

Definition NewMLEngine (graph : list F -> outcome F)
    (features : list (list F)) (labels : list Z) (cfg : MLConfig) : outcome MLEngine :=
  let engine := {| nnModel := None; svmModel := None; config := cfg;
                   stats := emptyStatistics |} in
  match initializeModels graph engine with
  | Err m => Err ("failed to initialize models: " +:+ m)
  | Panic => Panic
  | Ok engine =>
      if GenerateFakeData cfg then
        match TrainOnFakeData engine features labels with
        | Err m => Err ("failed to train on fake data: " +:+ m)
        | o => o
        end
      else Ok engine
  end.

End WithFloat.
Arguments MLConfig : clear implicits.
Arguments MLStatistics : clear implicits.
Arguments NeuralNetwork : clear implicits.
Arguments SVMClassifier : clear implicits.
Arguments DetectionResult : clear implicits.
Arguments MLEngine : clear implicits.
End ML.

(* ===================================================================== *)
(** * pkg/config/ml_config.go and internal/cortex/ml_engine.go *)
(* ===================================================================== *)

(** ** sync.RWMutex

    The functions of this file take the mutex of the statistics.  A mutex is
    seen from one goroutine, the caller: the read locks and the write lock
    it holds itself, and those held by the other goroutines.  Every
    goroutine releases only what it holds, as every function of the
    repository does. *)

Module Sync.

Record RWMutex := {
  held_r : nat;     (* read locks held by the caller *)
  held_w : bool;    (* the write lock is held by the caller *)
  others_r : nat;   (* read locks held by the other goroutines *)
  others_w : bool;  (* the write lock is held by another goroutine *)
}.

Definition write_locked (m : RWMutex) : bool := held_w m || others_w m.
Definition read_locked (m : RWMutex) : bool := (0 <? held_r m + others_r m)%nat.

Section WithMemory.

(** The memory the goroutines share, and the local variables of the caller. *)
Context {S : Type}.

(** A statement of the caller. *)
Inductive op :=
| RLock | RUnlock | Lock | Unlock
| Do (f : S -> S).   (* statements that take no lock *)

(** The caller runs a lock operation: [None] when the call blocks.
    [RLock] blocks while the write lock is held; [Lock] blocks while the
    mutex is locked for reading or writing. *)
Definition acquire (o : op) (m : RWMutex) : option RWMutex :=
  match o with
  | RLock =>
      if write_locked m then None
      else Some {| held_r := Datatypes.S (held_r m); held_w := held_w m;
                   others_r := others_r m; others_w := others_w m |}
  | Lock =>
      if write_locked m || read_locked m then None
      else Some {| held_r := held_r m; held_w := true;
                   others_r := others_r m; others_w := others_w m |}
  | RUnlock =>
      match held_r m with
      | O => None   (* fatal error: RUnlock of unlocked RWMutex *)
      | Datatypes.S n => Some {| held_r := n; held_w := held_w m;
                                 others_r := others_r m; others_w := others_w m |}
      end
  | Unlock =>
      if held_w m
      then Some {| held_r := held_r m; held_w := false;
                   others_r := others_r m; others_w := others_w m |}
      else None     (* fatal error: Unlock of unlocked RWMutex *)
  | Do _ => Some m
  end.

(** What another goroutine does. *)
Inductive other :=
| OtherRLock | OtherRUnlock | OtherLock | OtherUnlock
| OtherDo (f : S -> S).

Definition interfere (o : other) (m : RWMutex) : option RWMutex :=
  match o with
  | OtherRLock =>
      if write_locked m then None
      else Some {| held_r := held_r m; held_w := held_w m;
                   others_r := Datatypes.S (others_r m); others_w := others_w m |}
  | OtherLock =>
      if write_locked m || read_locked m then None
      else Some {| held_r := held_r m; held_w := held_w m;
                   others_r := others_r m; others_w := true |}
  | OtherRUnlock =>
      match others_r m with
      | O => None
      | Datatypes.S n => Some {| held_r := held_r m; held_w := held_w m;
                                 others_r := n; others_w := others_w m |}
      end
  | OtherUnlock =>
      if others_w m
      then Some {| held_r := held_r m; held_w := held_w m;
                   others_r := others_r m; others_w := false |}
      else None
  | OtherDo _ => Some m
  end.

(** The caller in the middle of a call: the mutex, the memory and the
    statements still to run. *)
Record Call := {
  mu : RWMutex;
  mem : S;
  code : list op;
}.

(** Whose turn it is. *)
Inductive turn :=
| Caller
| Other (o : other).

(** One turn; a goroutine whose operation blocks stays where it is. *)
Definition step (c : Call) (t : turn) : Call :=
  match t with
  | Caller =>
      match code c with
      | [] => c
      | o :: rest =>
          match acquire o (mu c) with
          | None => c
          | Some m =>
              {| mu := m;
                 mem := match o with Do f => f (mem c) | _ => mem c end;
                 code := rest |}
          end
      end
  | Other o =>
      match interfere o (mu c) with
      | None => c
      | Some m =>
          {| mu := m;
             mem := match o with OtherDo f => f (mem c) | _ => mem c end;
             code := code c |}
      end
  end.

Definition run (c : Call) (schedule : list turn) : Call := fold_left step schedule c.

(** The call has returned. *)
Definition returned (c : Call) : bool :=
  match code c with [] => true | _ => false end.

(** A call on a mutex of which the caller holds nothing. *)
Definition call (readers : nat) (writer : bool) (m : S) (body : list op) : Call :=
  {| mu := {| held_r := 0; held_w := false; others_r := readers; others_w := writer |};
     mem := m; code := body |}.

End WithMemory.
Arguments op : clear implicits.
Arguments other : clear implicits.
Arguments Call : clear implicits.
Arguments turn : clear implicits.

End Sync.

Module Config.
Section WithFloat.
Context {F : Type} `{Float64 F}.

Record MLConfig := {
  ModelType : string;
  DetectionThreshold : F;
  BatchSize : Z;
  TrainingEpochs : Z;
  LearningRate : F;
  FeatureSize : Z;
  GenerateFakeData : bool;
  FakeDataSize : Z;
  ModelPath : string;
  SaveModel : bool;
  LoadModel : bool;
  EnableGPU : bool;
  MaxConcurrency : Z;
  EnableMetrics : bool;
  LogPredictions : bool;
}.

Definition DefaultMLConfig : MLConfig :=
  {| ModelType := "ensemble"; DetectionThreshold := lit 6 10; BatchSize := 32;
     TrainingEpochs := 100; LearningRate := lit 1 1000; FeatureSize := 128;
     GenerateFakeData := true; FakeDataSize := 1000;
     ModelPath := "./models/bot_detection_model"; SaveModel := true;
     LoadModel := false; EnableGPU := false; MaxConcurrency := 4;
     EnableMetrics := true; LogPredictions := false |}.

Definition validModels : list string :=
  ["neural_network"; "random_forest"; "knn"; "svm"; "ensemble"].

(** [ValidateMLConfig]: [None] is the nil error. *)
Definition ValidateMLConfig (c : MLConfig) : option string :=
  if negb (existsb (String.eqb (ModelType c)) validModels)
  then Some ("invalid model type: " +:+ ModelType c)
  else if (DetectionThreshold c <? f_zero)%f64 || (f_one <? DetectionThreshold c)%f64
  then Some "detection threshold must be between 0 and 1"
  else if (LearningRate c <=? f_zero)%f64 then Some "learning rate must be positive"
  else if (BatchSize c <=? 0)%Z then Some "batch size must be positive"
  else if (FeatureSize c <=? 0)%Z then Some "feature size must be positive"
  else if (FakeDataSize c <=? 0)%Z then Some "fake data size must be positive"
  else if (TrainingEpochs c <=? 0)%Z then Some "training epochs must be positive"
  else if (MaxConcurrency c <=? 0)%Z then Some "max concurrency must be positive"
  else None.

End WithFloat.
Arguments MLConfig : clear implicits.
End Config.

Module MLCortex.
Section WithFloat.
Context {F : Type} `{Float64 F}.
Variable math_Exp : F -> F.

Record MLCortexStatistics := {
  TotalInferences : Z;
  BotDetections : Z;
  HumanDetections : Z;
  AverageConfidence : F;
  ModelAccuracy : F;
  TrainingTime : Z;
  LastInference : time;
  ModelType : string;
}.

Record MLCortexEngine := {
  mlEngine : ML.MLEngine F;
  config : Config.MLConfig F;
  stats : MLCortexStatistics;
}.

Definition mlConfig (cfg : Config.MLConfig F) : ML.MLConfig F :=
  {| ML.ModelType := Config.ModelType cfg;
     ML.DetectionThreshold := Config.DetectionThreshold cfg;
     ML.BatchSize := Config.BatchSize cfg;
     ML.TrainingEpochs := Config.TrainingEpochs cfg;
     ML.LearningRate := Config.LearningRate cfg;
     ML.FeatureSize := Config.FeatureSize cfg;
     ML.GenerateFakeData := Config.GenerateFakeData cfg;
     ML.FakeDataSize := Config.FakeDataSize cfg |}.

Definition NewMLCortexEngine (graph : list F -> outcome F)
    (features : list (list F)) (labels : list Z) (cfg : Config.MLConfig F)
  : outcome MLCortexEngine :=
  match ML.NewMLEngine graph features labels (mlConfig cfg) with
  | Err m => Err ("failed to initialize ML engine: " +:+ m)
  | Panic => Panic
  | Ok ml =>
      Ok {| mlEngine := ml; config := cfg;
            stats := {| TotalInferences := 0; BotDetections := 0; HumanDetections := 0;
                        AverageConfidence := f_zero; ModelAccuracy := f_zero;
                        TrainingTime := 0; LastInference := zeroTime;
                        ModelType := Config.ModelType cfg |} |}
  end.

Definition updateStats (s : MLCortexStatistics) (result : Cortex.DetectionResult F)
  : MLCortexStatistics :=
  let total_inferences := incr64 (TotalInferences s) in
  let bot := if Cortex.IsBot result then incr64 (BotDetections s) else BotDetections s in
  let human := if Cortex.IsBot result then HumanDetections s else incr64 (HumanDetections s) in
  let total := f_of_Z total_inferences in
  {| TotalInferences := total_inferences;
     BotDetections := bot;
     HumanDetections := human;
     AverageConfidence :=
       ((AverageConfidence s * (total - f_of_Z 1) + Cortex.Confidence result) / total)%f64;
     ModelAccuracy := ModelAccuracy s;
     TrainingTime := TrainingTime s;
     LastInference := Cortex.Timestamp result;
     ModelType := ModelType s |}.

(** [Analyze]: the outcome and the engine after the call. *)
Definition Analyze (now : time) (e : MLCortexEngine) (features : list F) (flowID : string)
  : outcome (Cortex.DetectionResult F) * MLCortexEngine :=
  if negb (len features =? Config.FeatureSize (config e))%Z
  then (Err ("invalid feature vector size: got " +:+ itoa (len features)
             +:+ ", expected " +:+ itoa (Config.FeatureSize (config e))), e)
  else
    match ML.Predict math_Exp now (mlEngine e) features flowID with
    | (Err m, ml) =>
        (Err ("ML prediction failed: " +:+ m),
         {| mlEngine := ml; config := config e; stats := stats e |})
    | (Panic, ml) => (Panic, {| mlEngine := ml; config := config e; stats := stats e |})
    | (Ok mlResult, ml) =>
        let result := {| Cortex.IsBot := ML.IsBot mlResult;
                         Cortex.Confidence := ML.Confidence mlResult;
                         Cortex.Features := ML.Features mlResult;
                         Cortex.Reasoning := ML.Reasoning mlResult;
                         Cortex.Timestamp := ML.Timestamp mlResult;
                         Cortex.FlowID := ML.FlowID mlResult |} in
        (Ok result,
         {| mlEngine := ml; config := config e; stats := updateStats (stats e) result |})
    end.

(** [UpdateConfig]: replaces the configuration of the cortex engine (not
    that of the ML engine it wraps) when the new one validates. *)
Definition UpdateConfig (e : MLCortexEngine) (newConfig : Config.MLConfig F)
  : option string * MLCortexEngine :=
  match Config.ValidateMLConfig newConfig with
  | Some m => (Some ("invalid configuration: " +:+ m), e)
  | None => (None, {| mlEngine := mlEngine e; config := newConfig; stats := stats e |})
  end.

(** [GetMLStatistics]: the statistics of the ML engine. *)
Definition GetMLStatistics (e : MLCortexEngine) : ML.MLStatistics F :=
  ML.GetStatistics (mlEngine e).

Definition GetConfig (e : MLCortexEngine) : Config.MLConfig F := config e.

(** [HealthCheck]: a prediction by the ML engine on [FeatureSize] values
    0.5, under the flow ID "health_check"; its error, if any, is the result.
    The ML engine is set by [NewMLCortexEngine] and never nil afterwards;
    [make([]float64, n)] panics for a negative [n]. *)
Definition HealthCheck (now : time) (e : MLCortexEngine) : outcome unit * MLCortexEngine :=
  if (Config.FeatureSize (config e) <? 0)%Z then (Panic, e)
  else
    let testFeatures := replicate (Z.to_nat (Config.FeatureSize (config e))) (lit 5 10) in
    match ML.Predict math_Exp now (mlEngine e) testFeatures "health_check" with
    | (Ok _, ml) => (Ok tt, {| mlEngine := ml; config := config e; stats := stats e |})
    | (Err m, ml) => (Err m, {| mlEngine := ml; config := config e; stats := stats e |})
    | (Panic, ml) => (Panic, {| mlEngine := ml; config := config e; stats := stats e |})
    end.

(** [GetStatistics], statement by statement, on the mutex [e.stats.mu].
    The memory is the engine, the local [mlStats] and the value returned.
    The deferred [RUnlock] runs last. *)
Definition GetStatistics
  : list (Sync.op (MLCortexEngine * option (ML.MLStatistics F) * option MLCortexStatistics)) :=
  [ Sync.RLock;                                   (* e.stats.mu.RLock() *)
    Sync.Do (fun '(e, _, r) =>                    (* mlStats := e.mlEngine.GetStatistics() *)
               (e, Some (ML.GetStatistics (mlEngine e)), r));
    Sync.Lock;                                    (* e.stats.mu.Lock() *)
    Sync.Do (fun '(e, mlStats, r) =>
               match mlStats with
               | None => (e, mlStats, r)
               | Some st =>
                   ({| mlEngine := mlEngine e; config := config e;
                       stats := {| TotalInferences := ML.TotalPredictions st;
                                   BotDetections := ML.BotDetections st;
                                   HumanDetections := ML.HumanDetections st;
                                   AverageConfidence := ML.AverageConfidence st;
                                   ModelAccuracy := ML.ModelAccuracy st;
                                   TrainingTime := ML.TrainingTime st;
                                   LastInference := ML.LastPrediction st;
                                   ModelType := ModelType (stats e) |} |},
                    mlStats, r)
               end);
    Sync.Unlock;                                  (* e.stats.mu.Unlock() *)
    Sync.Do (fun '(e, mlStats, _) =>              (* stats := *e.stats; return &stats *)
               (e, mlStats, Some (stats e)));
    Sync.RUnlock ].                               (* deferred *)

(** [updateStats] as [Analyze] calls it, on the same mutex. *)
Definition updateStats_call (result : Cortex.DetectionResult F)
  : list (Sync.op (MLCortexEngine * option (ML.MLStatistics F) * option MLCortexStatistics)) :=
  [ Sync.Lock;
    Sync.Do (fun '(e, mlStats, r) =>
               ({| mlEngine := mlEngine e; config := config e;
                   stats := updateStats (stats e) result |}, mlStats, r));
    Sync.Unlock ].

End WithFloat.
Arguments MLCortexStatistics : clear implicits.
Arguments MLCortexEngine : clear implicits.
End MLCortex.

(* ===================================================================== *)
(** * pkg/argus/engine.go *)
(* ===================================================================== *)

Module Argus.

(** The [Headers] map of a packet and the address, port, protocol and
    feature fields of a flow are never read or written by the engine and
    are left out. *)
Record Packet := {
  Timestamp : time;
  Size : Z;
  Direction : string;   (* "inbound" or "outbound" *)
  Protocol : string;
}.

Record Flow := {
  ID : string;
  Packets : list Packet;
  StartTime : time;
  LastSeen : time;
  AnalysisPending : bool;
}.

Record CaptureStats := {
  TotalPackets : Z;
  ActiveFlows : Z;
  AnalyzedFlows : Z;
  LastPacket : time;
}.

(** [generateFlowID]: [fmt.Sprintf("%s:%d-%s:%d", srcIP, srcPort, dstIP, dstPort)];
    the ports are [uint16]. *)
Definition generateFlowID (srcIP dstIP : string) (srcPort dstPort : Z) : string :=
  srcIP +:+ ":" +:+ itoa srcPort +:+ "-" +:+ dstIP +:+ ":" +:+ itoa dstPort.

Definition uint16 (p : Z) : Prop := (0 <= p < 65536)%Z.

Section WithFloat.
Context {F : Type} `{Float64 F}.

(** The flow table is a [map[string]*Flow]: the flows are shared objects,
    reached from the table and from the goroutines that hold a pointer.
    [heap] holds the [Flow] objects allocated so far, a [*Flow] is an index
    into it, and an object that leaves the table stays in the heap (there is
    no garbage collection in the model). *)
Record Engine := {
  cortex : Cortex.Engine F;
  heap : list Flow;
  flows : gmap string nat;
  stats : CaptureStats;
}.

(** The flow stored under [id]. *)
Definition flow_of (e : Engine) (id : string) : option Flow :=
  flows e !! id ≫= fun p => heap e !! p.

Definition with_stats (e : Engine) (s : CaptureStats) : Engine :=
  {| cortex := cortex e; heap := heap e; flows := flows e; stats := s |}.

Definition NewEngine (cortexEngine : Cortex.Engine F) : Engine :=
  {| cortex := cortexEngine; heap := []; flows := ∅;
     stats := {| TotalPackets := 0; ActiveFlows := 0; AnalyzedFlows := 0;
                 LastPacket := zeroTime |} |}.

(** ** Ingestion *)

(** [flow.Packets = append(flow.Packets, packet); flow.LastSeen = packet.Timestamp] *)
Definition append_packet (packet : Packet) (flow : Flow) : Flow :=
  {| ID := ID flow; Packets := Packets flow ++ [packet];
     StartTime := StartTime flow; LastSeen := Timestamp packet;
     AnalysisPending := AnalysisPending flow |}.

Definition addPacketToFlow (now : time) (flowID : string) (packet : Packet) (e : Engine)
  : Engine :=
  let '(p, hp, fl) :=
    match flows e !! flowID with
    | Some p => (p, heap e, flows e)
    | None =>
        (length (heap e),
         heap e ++ [{| ID := flowID; Packets := []; StartTime := now;
                       LastSeen := zeroTime; AnalysisPending := false |}],
         <[flowID := length (heap e)]> (flows e))
    end in
  {| cortex := cortex e;
     heap := alter (append_packet packet) p hp;
     flows := fl;
     stats := {| TotalPackets := TotalPackets (stats e);
                 ActiveFlows := Z.of_nat (size fl);
                 AnalyzedFlows := AnalyzedFlows (stats e);
                 LastPacket := LastPacket (stats e) |} |}.

Definition simulated_packets : list (string * string * Z * Z * Z) :=
  [("192.168.1.100", "8.8.8.8", 54321, 443, 1200);
   ("10.0.0.50", "1.1.1.1", 12345, 80, 800);
   ("172.16.0.10", "208.67.222.222", 65432, 53, 512)]%Z.

(** One tick of the simulated capture; the readings of the clock within the
    tick are one argument [now]. *)
Definition simulatePacketCapture (now : time) (e : Engine) : Engine :=
  let e :=
    fold_left
      (fun e '(srcIP, dstIP, srcPort, dstPort, size) =>
         let flowID := generateFlowID srcIP dstIP srcPort dstPort in
         let packet := {| Timestamp := now; Size := size;
                          Direction := "outbound"; Protocol := "TCP" |} in
         addPacketToFlow now flowID packet e)
      simulated_packets e in
  with_stats e {| TotalPackets := add64 (TotalPackets (stats e)) (len simulated_packets);
                  ActiveFlows := ActiveFlows (stats e);
                  AnalyzedFlows := AnalyzedFlows (stats e);
                  LastPacket := now |}.

(** ** Feature extraction *)

Definition feature_size : nat := 128.

(** The inter-arrival times of consecutive packets, in seconds. *)
Fixpoint intervals (packets : list Packet) : list F :=
  match packets with
  | p0 :: (p1 :: _) as rest =>
      Seconds (Sub (Timestamp p1) (Timestamp p0)) :: intervals rest
  | _ => []
  end.

(** The assignments of computed values, before the last loop. *)
Definition computed_features (flow : Flow) : list F :=
  let features := replicate feature_size f_zero in
  let totalSize := fold_left (fun total pkt => add64 total (Size pkt)) (Packets flow) 0%Z in
  let avgSize := (f_of_Z totalSize / f_of_Z (len (Packets flow)))%f64 in
  let features := <[0%nat := avgSize]> features in
  let features :=
    if (1 <? len (Packets flow))%Z then
      let ivs := intervals (Packets flow) in
      let '(sum, sumSq) :=
        fold_left (fun '(sum, sumSq) interval =>
                     ((sum + interval)%f64, (sumSq + interval * interval)%f64))
                  ivs (f_zero, f_zero) in
      let mean := (sum / f_of_Z (len ivs))%f64 in
      let variance := (sumSq / f_of_Z (len ivs) - mean * mean)%f64 in
      <[10%nat := variance]> features
    else features in
  let features := <[20%nat := f_of_Z (len (Packets flow))]> features in
  <[21%nat := Seconds (Sub (LastSeen flow) (StartTime flow))]> features.

(** The value the last loop writes into a slot that holds zero. *)
Definition filler (i : nat) : F := (f_of_Z (Z.rem (Z.of_nat i) 10) / f_of_Z 10)%f64.

(** The last loop of [extractFeatures] ("add some realistic noise"). *)
Definition fill (features : list F) : list F :=
  imap (fun i x => if (x =? f_zero)%f64 then filler i else x) features.

Definition extractFeatures (flow : Flow) : list F :=
  if (len (Packets flow) =? 0)%Z then replicate feature_size f_zero
  else fill (computed_features flow).

(** ** The analysis cycle *)

(** The condition under which [performFlowAnalysis] selects a flow. *)
Definition ready (flow : Flow) : bool :=
  negb (AnalysisPending flow) && (10 <=? len (Packets flow))%Z.

Definition ready_at (e : Engine) (p : nat) : bool :=
  match heap e !! p with
  | Some flow => ready flow
  | None => false
  end.

(** First loop of [performFlowAnalysis] (one critical section, under the
    read lock of the table): the flows that are ready, as pointers.  Go
    iterates over the map in an unspecified order; here it is the order of
    [map_to_list]. *)
Definition eligible (e : Engine) : list nat :=
  (filter (fun kv : string * nat => ready_at e kv.2 = true) (map_to_list (flows e))).*2.

(** A goroutine started by [performFlowAnalysis], with its two arguments. *)
Record Task := {
  task_flow : nat;            (* f *Flow *)
  task_features : list F;     (* feat []float64 *)
}.

Definition set_pending (flow : Flow) : Flow :=
  {| ID := ID flow; Packets := Packets flow; StartTime := StartTime flow;
     LastSeen := LastSeen flow; AnalysisPending := true |}.

(** [flow.AnalysisPending = true], through the pointer. *)
Definition markPending (p : nat) (e : Engine) : Engine :=
  {| cortex := cortex e; heap := alter set_pending p (heap e);
     flows := flows e; stats := stats e |}.

(** One iteration of the second loop of [performFlowAnalysis]: mark the
    flow, extract its features, start the goroutine.  The iteration takes the
    lock of the flow twice (to mark, then to read the packets); the two
    sections are one step here, so the features are those of the packets
    present when the flow is marked. *)
Definition dispatch (p : nat) (e : Engine) : Engine * option Task :=
  let e := markPending p e in
  match heap e !! p with
  | Some flow => (e, Some {| task_flow := p; task_features := extractFeatures flow |})
  | None => (e, None)
  end.

Definition dispatch_all (ps : list nat) (e : Engine) : Engine * list Task :=
  fold_left (fun '(e, tasks) p =>
               let '(e, t) := dispatch p e in (e, tasks ++ option_list t))
            ps (e, []).

(** [performFlowAnalysis]: the engine when it returns and the goroutines it
    has started. *)
Definition performFlowAnalysis (e : Engine) : Engine * list Task :=
  dispatch_all (eligible e) e.

(** The body of a goroutine: [Analyze] under the ID of the flow, then on
    success count the flow; on an error, log and return.  The second
    component tells how the scoring ended. *)
Definition runTask (now : time) (t : Task) (e : Engine) : Engine * outcome unit :=
  match heap e !! task_flow t with
  | None => (e, Panic)
  | Some flow =>
      match Cortex.Analyze now (cortex e) (task_features t) (ID flow) with
      | (Ok _, c) =>
          ({| cortex := c; heap := heap e; flows := flows e;
              stats := {| TotalPackets := TotalPackets (stats e);
                          ActiveFlows := ActiveFlows (stats e);
                          AnalyzedFlows := incr64 (AnalyzedFlows (stats e));
                          LastPacket := LastPacket (stats e) |} |}, Ok tt)
      | (Err m, c) =>
          ({| cortex := c; heap := heap e; flows := flows e; stats := stats e |}, Err m)
      | (Panic, c) => (e, Panic)
      end
  end.

(** ** The idle sweep *)

Definition idle_timeout : Z := 5 * Minute.

(** [flow.LastSeen.Before(cutoff)] *)
Definition stale (cutoff : time) (flow : Flow) : bool := (LastSeen flow <? cutoff)%Z.

Definition stale_at (cutoff : time) (e : Engine) (p : nat) : bool :=
  match heap e !! p with
  | Some flow => stale cutoff flow
  | None => false
  end.

Definition removeOldFlows (now : time) (e : Engine) : Engine :=
  let cutoff := (now - idle_timeout)%Z in
  let fl := filter (fun kv : string * nat => stale_at cutoff e kv.2 = false) (flows e) in
  {| cortex := cortex e; heap := heap e; flows := fl;
     stats := {| TotalPackets := TotalPackets (stats e);
                 ActiveFlows := Z.of_nat (size fl);
                 AnalyzedFlows := AnalyzedFlows (stats e);
                 LastPacket := LastPacket (stats e) |} |}.

Definition GetStatistics (e : Engine) : CaptureStats := stats e.

(** ** Interleavings

    [Start] runs ingestion, the analysis cycle and the sweep as goroutines
    over the same engine.  A [System] is the engine together with the
    control state of the running code: for each running call of
    [performFlowAnalysis] the flows it has selected and not yet dispatched,
    the goroutines started and not yet finished, and a log of the scorings
    that have finished.  An [event] is one critical section of the code, so
    a run is an interleaving at the granularity of the locks. *)

Record System := {
  engine : Engine;
  cycles : gmap nat (list nat);
  tasks : list Task;
  completed : list (nat * outcome unit);
}.

Inductive event :=
| Ingest (now : time) (flowID : string) (packet : Packet)
    (* addPacketToFlow *)
| Capture (now : time)
    (* a tick of processPackets: simulatePacketCapture *)
| Query (c : nat)
    (* call [c] of performFlowAnalysis runs its first loop *)
| Dispatch (c : nat)
    (* call [c] runs one iteration of its second loop, or returns *)
| Finish (now : time) (k : nat)
    (* the [k]-th running goroutine runs to its end *)
| Sweep (now : time).
    (* a tick of cleanupFlows: removeOldFlows *)

Definition with_engine (s : System) (e : Engine) : System :=
  {| engine := e; cycles := cycles s; tasks := tasks s; completed := completed s |}.

Definition exec (s : System) (ev : event) : System :=
  match ev with
  | Ingest now flowID packet =>
      with_engine s (addPacketToFlow now flowID packet (engine s))
  | Capture now => with_engine s (simulatePacketCapture now (engine s))
  | Query c =>
      match cycles s !! c with
      | Some _ => s
      | None =>
          {| engine := engine s; cycles := <[c := eligible (engine s)]> (cycles s);
             tasks := tasks s; completed := completed s |}
      end
  | Dispatch c =>
      match cycles s !! c with
      | None => s
      | Some [] =>
          {| engine := engine s; cycles := delete c (cycles s);
             tasks := tasks s; completed := completed s |}
      | Some (p :: rest) =>
          let '(e, t) := dispatch p (engine s) in
          {| engine := e; cycles := <[c := rest]> (cycles s);
             tasks := tasks s ++ option_list t; completed := completed s |}
      end
  | Finish now k =>
      match tasks s !! k with
      | None => s
      | Some t =>
          let '(e, o) := runTask now t (engine s) in
          {| engine := e; cycles := cycles s; tasks := delete k (tasks s);
             completed := completed s ++ [(task_flow t, o)] |}
      end
  | Sweep now => with_engine s (removeOldFlows now (engine s))
  end.

Definition run (s : System) (evs : list event) : System := fold_left exec evs s.

Definition start (e : Engine) : System :=
  {| engine := e; cycles := ∅; tasks := []; completed := [] |}.

(** The flows for which a goroutine has been started: those whose scoring
    has finished, then those still being scored. *)
Definition dispatched (s : System) : list nat :=
  (completed s).*1 ++ (task_flow <$> tasks s).

End WithFloat.
Arguments Engine : clear implicits.
Arguments Task : clear implicits.
Arguments System : clear implicits.
End Argus.

(* ===================================================================== *)
(** * internal/protocol/parser.go *)
(* ===================================================================== *)

Module Protocol.

(** A [[]byte] and a Go [string] are sequences of bytes, and so is a
    [string] here: [string(data)] is the identity. *)

Definition slen (s : string) : Z := Z.of_nat (String.length s).

(** [data[i]] as a number, for an index the source has checked. *)
Definition byte_at (data : string) (i : nat) : Z :=
  match String.get i data with
  | Some c => Z.of_N (N_of_ascii c)
  | None => 0
  end.

(** ** The functions of [bytes], [strings] and [encoding/binary] in use *)

(** [bytes.HasPrefix], [strings.HasPrefix]. *)
Definition HasPrefix (s p : string) : bool := String.prefix p s.

(** [strings.Contains]. *)
Fixpoint Contains (s sub : string) : bool :=
  String.prefix sub s
  || match s with
     | EmptyString => false
     | String _ s' => Contains s' sub
     end.

(** [strings.Index]: the index of the first occurrence, or -1. *)
Fixpoint Index (s sub : string) : Z :=
  if String.prefix sub s then 0
  else match s with
       | EmptyString => -1
       | String _ s' => let i := Index s' sub in if (i <? 0)%Z then -1 else (i + 1)%Z
       end.

Definition CR : ascii := "013"%char.
Definition LF : ascii := "010"%char.

(** [strings.Split(s, "\r\n")]. *)
Fixpoint SplitCRLF (s : string) : list string :=
  match s with
  | EmptyString => [EmptyString]
  | String c rest =>
      let generic :=
        match SplitCRLF rest with
        | l :: ls => String c l :: ls
        | [] => [String c EmptyString]
        end in
      match rest with
      | String c' rest' =>
          if Ascii.eqb c CR && Ascii.eqb c' LF then EmptyString :: SplitCRLF rest'
          else generic
      | EmptyString => generic
      end
  end.

(** White space, for a string of ASCII characters: the functions of
    [strings] below follow Unicode, and on ASCII they are these. *)
Definition isSpace (c : ascii) : bool :=
  existsb (Ascii.eqb c) ["009"; "010"; "011"; "012"; "013"; " "]%char.

(** [strings.Fields] on ASCII. *)
Fixpoint Fields (s : string) : list string :=
  match s with
  | EmptyString => []
  | String c rest =>
      if isSpace c then Fields rest
      else match rest with
           | EmptyString => [String c EmptyString]
           | String c' _ =>
               if isSpace c' then String c EmptyString :: Fields rest
               else match Fields rest with
                    | f :: fs => String c f :: fs
                    | [] => [String c EmptyString]
                    end
           end
  end.

Fixpoint TrimLeft (s : string) : string :=
  match s with
  | EmptyString => EmptyString
  | String c rest => if isSpace c then TrimLeft rest else s
  end.

Fixpoint TrimRight (s : string) : string :=
  match s with
  | EmptyString => EmptyString
  | String c rest =>
      match TrimRight rest with
      | EmptyString => if isSpace c then EmptyString else String c EmptyString
      | t => String c t
      end
  end.

(** [strings.TrimSpace] on ASCII. *)
Definition TrimSpace (s : string) : string := TrimRight (TrimLeft s).

Definition lower (c : ascii) : ascii :=
  let n := N_of_ascii c in
  if (65 <=? n)%N && (n <=? 90)%N then ascii_of_N (n + 32) else c.

(** [strings.ToLower] on ASCII. *)
Fixpoint ToLower (s : string) : string :=
  match s with
  | EmptyString => EmptyString
  | String c rest => String (lower c) (ToLower rest)
  end.

(** [strings.EqualFold] on ASCII. *)
Definition EqualFold (s t : string) : bool := String.eqb (ToLower s) (ToLower t).

(** [binary.BigEndian.Uint16(data[i:i+2])] and [Uint32(data[i:i+4])]. *)
Definition Uint16 (data : string) (i : nat) : Z :=
  Z.lor (byte_at data (i + 1)) (Z.shiftl (byte_at data i) 8).

Definition Uint32 (data : string) (i : nat) : Z :=
  Z.lor (Z.lor (Z.lor (byte_at data (i + 3)) (Z.shiftl (byte_at data (i + 2)) 8))
               (Z.shiftl (byte_at data (i + 1)) 16))
        (Z.shiftl (byte_at data i) 24).

(** ** The parser *)

(** The values of the [Features] map ([interface{}]). *)
Inductive value :=
| VInt (n : Z)          (* int, uint8, uint16, uint32 *)
| VBool (b : bool)
| VString (s : string).

(** A nil map is [None]. *)
Record ProtocolInfo := {
  Protocol : string;
  Version : string;
  Headers : option (gmap string string);
  Method : string;
  Path : string;
  StatusCode : Z;
  UserAgent : string;
  RawData : string;
  Features : option (gmap string value);
}.

Definition supportedProtocols : gmap string bool :=
  {[ "HTTP/1.1" := true; "HTTP/2" := true; "HTTP/3" := true; "QUIC" := true; "TLS" := true ]}.

(** [IsSupportedProtocol]: the lookup of a missing key gives [false]. *)
Definition IsSupportedProtocol (protocol : string) : bool :=
  default false (supportedProtocols !! protocol).

(** [identifyProtocol]; its error is always nil. *)
Definition identifyProtocol (data : string) : string :=
  if (5 <=? slen data)%Z && (byte_at data 0 =? 22)%Z then "TLS"
  else if HasPrefix data "GET " || HasPrefix data "POST " || HasPrefix data "HTTP/1.1"
  then "HTTP/1.1"
  else if HasPrefix data "PRI * HTTP/2.0" then "HTTP/2"
  else if (4 <=? slen data)%Z && (Z.land (byte_at data 0) 192 =? 64)%Z then "QUIC"
  else if (8 <=? slen data)%Z && (Z.land (byte_at data 0) 192 =? 64)%Z then "HTTP/3"
  else "Unknown".

Definition botKeywords : list string :=
  ["bot"; "crawler"; "spider"; "scraper"; "automation";
   "headless"; "selenium"; "phantom"; "puppet"].

Definition hasBotKeywords (userAgent : string) : bool :=
  let lowerUA := ToLower userAgent in
  existsb (Contains lowerUA) botKeywords.

Definition extractHTTP11Features (info : ProtocolInfo) : gmap string value :=
  let features : gmap string value := ∅ in
  let features := <["header_count" := VInt (Z.of_nat (size (default ∅ (Headers info))))]> features in
  let features :=
    if negb (String.eqb (UserAgent info) "")
    then <["has_bot_keywords" := VBool (hasBotKeywords (UserAgent info))]>
           (<["user_agent_length" := VInt (slen (UserAgent info))]> features)
    else features in
  let features :=
    if negb (String.eqb (Method info) "")
    then <["is_post" := VBool (String.eqb (Method info) "POST")]>
           (<["is_get" := VBool (String.eqb (Method info) "GET")]>
              (<["method" := VString (Method info)]> features))
    else features in
  if negb (String.eqb (Path info) "")
  then <["has_query_params" := VBool (Contains (Path info) "?")]>
         (<["path_length" := VInt (slen (Path info))]> features)
  else features.

Definition set_request (info : ProtocolInfo) (parts : list string) : ProtocolInfo :=
  {| Protocol := Protocol info;
     Version := match parts with _ :: _ :: v :: _ => v | _ => Version info end;
     Headers := Headers info;
     Method := match parts with m :: _ => m | [] => Method info end;
     Path := match parts with _ :: p :: _ => p | _ => Path info end;
     StatusCode := StatusCode info; UserAgent := UserAgent info;
     RawData := RawData info; Features := Features info |}.

Definition set_response (info : ProtocolInfo) (parts : list string) : ProtocolInfo :=
  match parts with
  | v :: _ :: _ =>
      {| Protocol := Protocol info; Version := v; Headers := Headers info;
         Method := Method info; Path := Path info; StatusCode := 200;
         UserAgent := UserAgent info; RawData := RawData info; Features := Features info |}
  | _ => info
  end.

Definition set_header (info : ProtocolInfo) (key value : string) : ProtocolInfo :=
  {| Protocol := Protocol info; Version := Version info;
     Headers := Some (<[key := value]> (default ∅ (Headers info)));
     Method := Method info; Path := Path info; StatusCode := StatusCode info;
     UserAgent := if EqualFold key "User-Agent" then value else UserAgent info;
     RawData := RawData info; Features := Features info |}.

(** The loop over the header lines: it stops at the first empty line and
    skips a line without a colon after its first character. *)
Fixpoint parse_headers (lines : list string) (info : ProtocolInfo) : ProtocolInfo :=
  match lines with
  | [] => info
  | line :: rest =>
      if String.eqb line "" then info
      else
        let idx := Index line ":" in
        if (0 <? idx)%Z
        then
          let key := TrimSpace (String.substring 0 (Z.to_nat idx) line) in
          let value := TrimSpace (String.substring (Z.to_nat idx + 1)
                                    (String.length line - (Z.to_nat idx + 1)) line) in
          parse_headers rest (set_header info key value)
        else parse_headers rest info
  end.

(** The functions that parse return the info with the error, if any. *)
Definition parseHTTP11 (data : string) (info : ProtocolInfo) : ProtocolInfo * option string :=
  let lines := SplitCRLF data in
  if (len lines <? 2)%Z then (info, Some "invalid HTTP/1.1 format")
  else
    let firstLine := hd EmptyString lines in
    let parts := Fields firstLine in
    if (len parts <? 2)%Z then (info, Some "invalid HTTP/1.1 first line")
    else
      let info :=
        if HasPrefix firstLine "HTTP/" then set_response info parts
        else set_request info parts in
      let info :=
        {| Protocol := Protocol info; Version := Version info; Headers := Some ∅;
           Method := Method info; Path := Path info; StatusCode := StatusCode info;
           UserAgent := UserAgent info; RawData := RawData info;
           Features := Features info |} in
      let info := parse_headers (tl lines) info in
      ({| Protocol := Protocol info; Version := Version info; Headers := Headers info;
          Method := Method info; Path := Path info; StatusCode := StatusCode info;
          UserAgent := UserAgent info; RawData := RawData info;
          Features := Some (extractHTTP11Features info) |}, None).

Definition with_version (info : ProtocolInfo) (version : string)
    (features : option (gmap string value)) : ProtocolInfo :=
  {| Protocol := Protocol info; Version := version; Headers := Headers info;
     Method := Method info; Path := Path info; StatusCode := StatusCode info;
     UserAgent := UserAgent info; RawData := RawData info; Features := features |}.

Definition parseHTTP2 (data : string) (info : ProtocolInfo) : ProtocolInfo * option string :=
  (with_version info "HTTP/2"
     (if (9 <=? slen data)%Z
      then Some {[ "frame_type" := VInt (byte_at data 3);
                   "flags" := VInt (byte_at data 4);
                   "stream_id" := VInt (Uint32 data 5) ]}
      else Features info), None).

Definition parseHTTP3 (data : string) (info : ProtocolInfo) : ProtocolInfo * option string :=
  (with_version info "HTTP/3"
     (Some {[ "quic_version" := VString "unknown"; "stream_type" := VString "unknown" ]}),
   None).

Definition parseQUIC (data : string) (info : ProtocolInfo) : ProtocolInfo * option string :=
  (with_version info "QUIC"
     (if (1 <=? slen data)%Z
      then Some {[ "header_form" := VInt (Z.shiftr (Z.land (byte_at data 0) 128) 7);
                   "packet_type" := VInt (Z.land (byte_at data 0) 127) ]}
      else Features info), None).

Definition parseTLS (data : string) (info : ProtocolInfo) : ProtocolInfo * option string :=
  (with_version info "TLS"
     (if (5 <=? slen data)%Z
      then Some {[ "content_type" := VInt (byte_at data 0);
                   "version" := VInt (Uint16 data 1);
                   "length" := VInt (Uint16 data 3) ]}
      else Features info), None).

(** [ParsePacket]: the info, nil or not, and the error, nil or not. *)
Definition ParsePacket (data : string) : option ProtocolInfo * option string :=
  if (slen data <? 20)%Z then (None, Some "packet too small to parse")
  else
    let protocol := identifyProtocol data in
    let info := {| Protocol := protocol; Version := ""; Headers := None; Method := "";
                   Path := ""; StatusCode := 0; UserAgent := ""; RawData := data;
                   Features := None |} in
    let '(info, err) :=
      if String.eqb protocol "HTTP/1.1" then parseHTTP11 data info
      else if String.eqb protocol "HTTP/2" then parseHTTP2 data info
      else if String.eqb protocol "HTTP/3" then parseHTTP3 data info
      else if String.eqb protocol "QUIC" then parseQUIC data info
      else if String.eqb protocol "TLS" then parseTLS data info
      else (info, None) in
    (Some info, err).

End Protocol.

(* ===================================================================== *)
(** * pkg/ml: the generator of training data *)
(* ===================================================================== *)

Module DataGenerator.

Section WithSource.
Context {F} `{Float64 F}.

(** The source of random numbers ([*rand.Rand]): [G] is its state, and a
    draw gives a number and the state after it.  [rand_Float64] is
    [Float64()], and [rand_Intn n] is [Intn(n)] for a positive [n]. *)
Variable G : Type.
Variable rand_Float64 : G -> F * G.
Variable rand_Intn : Z -> G -> Z * G.

(** A computation that draws from the source, and may panic. *)
Definition M (A : Type) : Type := G -> outcome A * G.

Definition ret {A} (a : A) : M A := fun g => (Ok a, g).

Definition bind {A B} (m : M A) (k : A -> M B) : M B :=
  fun g =>
    match m g with
    | (Ok a, g') => k a g'
    | (Err msg, g') => (Err msg, g')
    | (Panic, g') => (Panic, g')
    end.

Notation "x <- m ;; k" := (bind m (fun x => k))
  (at level 200, m at level 99, k at level 200, only parsing).

Definition Float64 : M F := fun g => let (x, g') := rand_Float64 g in (Ok x, g').

(** [Intn] panics if its argument is not positive. *)
Definition Intn (n : Z) : M Z :=
  fun g => if (n <=? 0)%Z then (Panic, g)
           else let (j, g') := rand_Intn n g in (Ok j, g').

(** [make([]T, n)], which panics for a negative [n]. *)
Definition make {A} (n : Z) (zero : A) : M (list A) :=
  fun g => if (n <? 0)%Z then (Panic, g) else (Ok (replicate (Z.to_nat n) zero), g).

(** [s[i] = x]; a panic if [i] is out of range. *)
Definition set {A} (s : list A) (i : Z) (x : A) : M (list A) :=
  fun g => if (0 <=? i)%Z && (i <? len s)%Z then (Ok (<[Z.to_nat i := x]> s), g)
           else (Panic, g).

(** [for i := lo; i < hi; i++ { a = body i a }], with [n] rounds to go. *)
Fixpoint for_loop {A} (n : nat) (i : Z) (body : Z -> A -> M A) (a : A) : M A :=
  match n with
  | O => ret a
  | S n' => a' <- body i a;; for_loop n' (i + 1)%Z body a'
  end.

Definition for_range {A} (lo hi : Z) (body : Z -> A -> M A) (a : A) : M A :=
  for_loop (Z.to_nat (hi - lo)) lo body a.

(** [base + Float64()*span] *)
Definition affine (base span : F) : M F :=
  r <- Float64;; ret (base + r * span)%f64.

(** The timing and size features:
    [b := base + Float64()*span; v := low + Float64()*width;
     b + (Float64()-0.5)*v]. *)
Definition spread (base span low width : F) : M F :=
  b <- affine base span;;
  v <- affine low width;;
  r <- Float64;;
  ret (b + (r - lit 5 10) * v)%f64.

(** [for i := lo; i < hi; i++ { if i < featureSize { features[i] = ... } }] *)
Definition band (lo hi featureSize : Z) (gen : M F) (features : list F) : M (list F) :=
  for_range lo hi
    (fun i features =>
       if (i <? featureSize)%Z then x <- gen;; set features i x else ret features)
    features.

(** [for i := 120; i < featureSize; i++ { features[i] = ... }] *)
Definition tail (featureSize : Z) (gen : M F) (features : list F) : M (list F) :=
  for_range 120 featureSize (fun i features => x <- gen;; set features i x) features.

Definition generateBotFeatures (featureSize : Z) : M (list F) :=
  features <- make featureSize f_zero;;
  features <- band 0 20 featureSize
                (spread (lit 1 10) (lit 2 10) (lit 1 100) (lit 5 100)) features;;
  features <- band 20 40 featureSize
                (spread (lit 3 10) (lit 4 10) (lit 5 100) (lit 1 10)) features;;
  features <- band 40 60 featureSize (affine (lit 7 10) (lit 3 10)) features;;
  features <- band 60 80 featureSize (affine (lit 8 10) (lit 2 10)) features;;
  features <- band 80 100 featureSize (affine (lit 6 10) (lit 4 10)) features;;
  features <- band 100 120 featureSize (affine (lit 2 10) (lit 3 10)) features;;
  tail featureSize (r <- Float64;; ret (r * lit 8 10)%f64) features.

Definition generateHumanFeatures (featureSize : Z) : M (list F) :=
  features <- make featureSize f_zero;;
  features <- band 0 20 featureSize
                (spread (lit 5 10) (lit 5 10) (lit 2 10) (lit 3 10)) features;;
  features <- band 20 40 featureSize
                (spread (lit 1 10) (lit 9 10) (lit 3 10) (lit 4 10)) features;;
  features <- band 40 60 featureSize (affine (lit 1 10) (lit 4 10)) features;;
  features <- band 60 80 featureSize (affine (lit 3 10) (lit 5 10)) features;;
  features <- band 80 100 featureSize (affine (lit 1 10) (lit 6 10)) features;;
  features <- band 100 120 featureSize (affine (lit 5 10) (lit 5 10)) features;;
  tail featureSize (affine (lit 2 10) (lit 8 10)) features.

(** [s[i], s[j] = s[j], s[i]] *)
Definition swap {A} (s : list A) (i j : Z) : M (list A) :=
  fun g =>
    if (0 <=? i)%Z && (0 <=? j)%Z then
      match s !! Z.to_nat i, s !! Z.to_nat j with
      | Some a, Some b => (Ok (<[Z.to_nat j := a]> (<[Z.to_nat i := b]> s)), g)
      | _, _ => (Panic, g)
      end
    else (Panic, g).

(** [for ; i > 0; i-- { j := Intn(i + 1); swap i and j in both }] *)
Fixpoint shuffle_from (i : nat) (features : list (list F)) (labels : list Z)
  : M (list (list F) * list Z) :=
  match i with
  | O => ret (features, labels)
  | S i' =>
      j <- Intn (Z.of_nat i + 1);;
      features <- swap features (Z.of_nat i) j;;
      labels <- swap labels (Z.of_nat i) j;;
      shuffle_from i' features labels
  end.

(** [shuffleData]; the loop starts at [len(features) - 1]. *)
Definition shuffleData (features : list (list F)) (labels : list Z)
  : M (list (list F) * list Z) :=
  shuffle_from (length features - 1) features labels.

(** [GenerateFakeData]: the first half of the rows are bots with the label
    1, the rest are humans with the label 0, and then the rows are
    shuffled. *)
Definition GenerateFakeData (size featureSize : Z) : M (list (list F) * list Z) :=
  features <- make size ([] : list F);;
  labels <- make size 0%Z;;
  let botCount := Z.quot size 2 in
  data <- for_range 0 botCount
            (fun i '(features, labels) =>
               row <- generateBotFeatures featureSize;;
               features <- set features i row;;
               labels <- set labels i 1%Z;;
               ret (features, labels))
            (features, labels);;
  data <- for_range botCount size
            (fun i '(features, labels) =>
               row <- generateHumanFeatures featureSize;;
               features <- set features i row;;
               labels <- set labels i 0%Z;;
               ret (features, labels))
            data;;
  shuffleData (fst data) (snd data).

End WithSource.

End DataGenerator.

(* ===================================================================== *)
(** * Vocabulary of the specification *)
(* ===================================================================== *)

(** The arithmetic mean of a sequence of confidences. *)
Definition mean {F} `{Float64 F} (cs : list F) : F :=
  (fold_left f_add cs f_zero / f_of_Z (len cs))%f64.

(** Statistics: the three counters are non-negative and the bot and human
    counts add up to the total. *)
Definition counters_ok (total bot human : Z) : Prop :=
  (0 <= total /\ 0 <= bot /\ 0 <= human /\ bot + human = total)%Z.

Definition cortex_counters_ok {F} (s : Cortex.Statistics F) : Prop :=
  counters_ok (Cortex.TotalInferences s) (Cortex.BotDetections s) (Cortex.HumanDetections s).

Definition ml_counters_ok {F} (s : ML.MLStatistics F) : Prop :=
  counters_ok (ML.TotalPredictions s) (ML.BotDetections s) (ML.HumanDetections s).

(** The statistics after the results [rs] have been recorded one by one,
    starting from the statistics of a new engine. *)
Definition cortex_feed {F} `{Float64 F} (rs : list (Cortex.DetectionResult F))
  : Cortex.Statistics F :=
  fold_left Cortex.updateStats rs Cortex.emptyStatistics.

Definition ml_feed {F} `{Float64 F} (rs : list (ML.DetectionResult F))
  : ML.MLStatistics F :=
  fold_left ML.updateStats rs ML.emptyStatistics.

(** The results of [TestUpdateStats]: confidences 0.9, 0.3, 0.8. *)
Definition test_results {F} `{Float64 F} : list (Cortex.DetectionResult F) :=
  [ {| Cortex.IsBot := true; Cortex.Confidence := lit 9 10; Cortex.Features := [];
       Cortex.Reasoning := ""; Cortex.Timestamp := 1%Z; Cortex.FlowID := "" |};
    {| Cortex.IsBot := false; Cortex.Confidence := lit 3 10; Cortex.Features := [];
       Cortex.Reasoning := ""; Cortex.Timestamp := 2%Z; Cortex.FlowID := "" |};
    {| Cortex.IsBot := true; Cortex.Confidence := lit 8 10; Cortex.Features := [];
       Cortex.Reasoning := ""; Cortex.Timestamp := 3%Z; Cortex.FlowID := "" |} ].

Definition ml_test_results {F} `{Float64 F} : list (ML.DetectionResult F) :=
  [ {| ML.IsBot := true; ML.Confidence := lit 9 10; ML.Features := [];
       ML.Reasoning := ""; ML.ModelUsed := "svm"; ML.Timestamp := 1%Z; ML.FlowID := "" |};
    {| ML.IsBot := false; ML.Confidence := lit 3 10; ML.Features := [];
       ML.Reasoning := ""; ML.ModelUsed := "svm"; ML.Timestamp := 2%Z; ML.FlowID := "" |};
    {| ML.IsBot := true; ML.Confidence := lit 8 10; ML.Features := [];
       ML.Reasoning := ""; ML.ModelUsed := "svm"; ML.Timestamp := 3%Z; ML.FlowID := "" |} ].

(** The confidences 0, 0, 0.9, 0.1, recorded as results that differ in
    their confidence only. *)
Definition drifting_results {F} `{Float64 F} : list (Cortex.DetectionResult F) :=
  (fun c => {| Cortex.IsBot := false; Cortex.Confidence := c; Cortex.Features := [];
               Cortex.Reasoning := ""; Cortex.Timestamp := 1%Z; Cortex.FlowID := "" |})
    <$> [f_zero; f_zero; lit 9 10; lit 1 10].

Definition ml_drifting_results {F} `{Float64 F} : list (ML.DetectionResult F) :=
  (fun c => {| ML.IsBot := false; ML.Confidence := c; ML.Features := [];
               ML.Reasoning := ""; ML.ModelUsed := "svm"; ML.Timestamp := 1%Z;
               ML.FlowID := "" |})
    <$> [f_zero; f_zero; lit 9 10; lit 1 10].

(** A confidence lies in the closed interval [0,1] (exact arithmetic). *)
Definition unit_interval (c : Q) : Prop := (0 <= c /\ c <= 1)%Q.

(** [math.Exp] never returns a negative number. *)
Definition exp_nonneg (math_Exp : Q -> Q) : Prop := forall x, (0 <= math_Exp x)%Q.

(** The weight vector of the SVM has the configured length, as
    [initializeSVM] makes it. *)
Definition svm_shaped {F} (e : ML.MLEngine F) : Prop :=
  forall svm, ML.svmModel e = Some svm -> len (ML.weights svm) = ML.FeatureSize (ML.config e).

(** No sub-backend reports trained. *)
Definition untrained {F} (e : ML.MLEngine F) : Prop :=
  (forall nn, ML.nnModel e = Some nn -> ML.nn_trained nn = false)
  /\ (forall svm, ML.svmModel e = Some svm -> ML.svm_trained svm = false).

(** The model of the cortex engine is loaded, as [NewEngine] leaves it. *)
Definition cortex_loaded {F} (c : Cortex.Engine F) : Prop :=
  exists m, Cortex.model c = Some m /\ Cortex.loaded m = true /\ Cortex.InputSize m = 128%Z.

(** [k] times 0.1, added up the way the heuristic adds its increments. *)
Definition tenths {F} `{Float64 F} (k : nat) : F :=
  Nat.iter k (fun score => (score + lit 1 10)%f64) f_zero.

(** A double lies in [0,1]. *)
Definition unit_interval_b64 (c : float) : Prop :=
  PrimFloat.leb 0 c = true /\ PrimFloat.leb c 1 = true.

(** The score of [simulateInference] as a function of the outcome of its
    three tests and of the last two digits of the clock. *)
Definition inference_score {F} `{Float64 F} (b1 b2 b3 : bool) (r : Z) : F :=
  let score := f_zero in
  let score := if b1 then (score + lit 3 10)%f64 else score in
  let score := if b2 then (score + lit 4 10)%f64 else score in
  let score := if b3 then (score + lit 2 10)%f64 else score in
  let score := (score + f_of_Z r / f_of_Z 1000)%f64 in
  if (f_of_Z 1 <? score)%f64 then f_of_Z 1 else score.

(** The slots of the feature vector that [extractFeatures] assigns a
    computed value: average size, timing variance, packet count, duration. *)
Definition assigned_slots : list nat := [0; 10; 20; 21]%nat.

(** The character [c] occurs in the string [s]. *)
Fixpoint contains (c : ascii) (s : string) : bool :=
  match s with
  | EmptyString => false
  | String x s' => Ascii.eqb x c || contains c s'
  end.

(** The flow for which a goroutine, if any, was started. *)
Definition task_ids {F} (t : option (Argus.Task F)) : list nat :=
  Argus.task_flow <$> option_list t.

(** The pending flag of the flow object [p]. *)
Definition flag_at {F} (e : Argus.Engine F) (p : nat) : option bool :=
  Argus.AnalysisPending <$> Argus.heap e !! p.

(** The pending flag of the flow stored under [id], if there is one. *)
Definition flag {F} (e : Argus.Engine F) (id : string) : option bool :=
  Argus.AnalysisPending <$> Argus.flow_of e id.

(** The pointers of the table point to allocated flows, and two IDs never
    share a flow. *)
Definition table_wf {F} (e : Argus.Engine F) : Prop :=
  (forall id p, Argus.flows e !! id = Some p -> (p < length (Argus.heap e))%nat)
  /\ (forall id id' p, Argus.flows e !! id = Some p -> Argus.flows e !! id' = Some p ->
        id = id').

(** The ID of the flow object [p]. *)
Definition id_of {F} (e : Argus.Engine F) (p : nat) : option string :=
  Argus.ID <$> Argus.heap e !! p.

(** The scorings that have finished, by the ID of the flow. *)
Definition completed_flows {F} `{Float64 F} (s : Argus.System F)
  : list (option string * outcome unit) :=
  (fun '(p, o) => (id_of (Argus.engine s) p, o)) <$> Argus.completed s.

(** The analysis cycles of a run do not overlap: a cycle starts only when no
    other is running, as when they are all run by the one goroutine that
    [Start] launches for [analyzeFlows]. *)
Fixpoint serial {F} `{Float64 F} (s : Argus.System F) (evs : list Argus.event) : Prop :=
  match evs with
  | [] => True
  | ev :: evs' =>
      match ev with
      | Argus.Query _ => Argus.cycles s = ∅
      | _ => True
      end /\ serial (Argus.exec s ev) evs'
  end.

(** What holds of the system while cycles do not overlap: the table is well
    formed; no flow has been dispatched twice; every dispatched flow has its
    flag set; at most one cycle is running, and the flows it still has to
    dispatch are distinct and have their flag clear. *)
Definition serial_inv {F} `{Float64 F} (s : Argus.System F) : Prop :=
  table_wf (Argus.engine s)
  /\ NoDup (Argus.dispatched s)
  /\ (forall p, p ∈ Argus.dispatched s -> flag_at (Argus.engine s) p = Some true)
  /\ (forall c ps, Argus.cycles s !! c = Some ps ->
        NoDup ps
        /\ (forall p, p ∈ ps -> flag_at (Argus.engine s) p = Some false)
        /\ (forall c', is_Some (Argus.cycles s !! c') -> c' = c)).

(** ** Sample data *)

(** The flow of the end-to-end scenario of the specification: packets of
    1200, 800 and 1400 bytes at t0, t0 + 1s, t0 + 2s. *)
Definition t0 : time := (1700000000 * Second)%Z.

Definition scenario_flow : Argus.Flow :=
  {| Argus.ID := "test-flow";
     Argus.Packets :=
       [ {| Argus.Timestamp := t0; Argus.Size := 1200;
            Argus.Direction := "outbound"; Argus.Protocol := "TCP" |};
         {| Argus.Timestamp := (t0 + Second)%Z; Argus.Size := 800;
            Argus.Direction := "inbound"; Argus.Protocol := "TCP" |};
         {| Argus.Timestamp := (t0 + 2 * Second)%Z; Argus.Size := 1400;
            Argus.Direction := "outbound"; Argus.Protocol := "TCP" |} ];
     Argus.StartTime := t0;
     Argus.LastSeen := (t0 + 2 * Second)%Z;
     Argus.AnalysisPending := false |}.

Definition scenario_features {F} `{Float64 F} : list F :=
  Argus.extractFeatures scenario_flow.

(** A rational stand-in for [math.Exp]: 2 to the integer part. *)
Definition exp_model (x : Q) : Q := (2 ^ Qfloor x)%Q.

(** A graph whose run always succeeds with 1/2. *)
Definition sample_graph {F} `{Float64 F} (x : list F) : outcome F := Ok (lit 1 2).

(** A graph whose run always fails. *)
Definition failing_graph {F} (x : list F) : outcome F := Err "node has no value".

Definition sample_config {F} `{Float64 F} (modelType : string) (fake : bool) : ML.MLConfig F :=
  {| ML.ModelType := modelType; ML.DetectionThreshold := lit 6 10; ML.BatchSize := 32;
     ML.TrainingEpochs := 100; ML.LearningRate := lit 1 1000; ML.FeatureSize := 128;
     ML.GenerateFakeData := fake; ML.FakeDataSize := 2 |}.

(** A data set of one bot-like and one human-like sample. *)
Definition sample_features {F} `{Float64 F} : list (list F) :=
  [replicate 128 (lit 8 10); replicate 128 (lit 2 10)].

Definition sample_labels : list Z := [1; 0]%Z.

(** The engine [NewMLEngine] builds for the model type, trained on the
    sample data when [fake] is set. *)
Definition sample_engine {F} `{Float64 F} (graph : list F -> outcome F)
    (modelType : string) (fake : bool) : ML.MLEngine F :=
  match ML.NewMLEngine graph sample_features sample_labels (sample_config modelType fake) with
  | Ok e => e
  | _ => {| ML.nnModel := None; ML.svmModel := None;
            ML.config := sample_config modelType fake; ML.stats := ML.emptyStatistics |}
  end.

(** An engine whose two models are trained. *)
Definition trained_engine {F} `{Float64 F} (graph : list F -> outcome F)
    (modelType : string) : ML.MLEngine F :=
  {| ML.nnModel := Some {| ML.forward := graph; ML.nn_trained := true |};
     ML.svmModel := Some {| ML.weights := replicate 128 (lit 1 100);
                            ML.bias := lit (-1) 2; ML.svm_trained := true |};
     ML.config := sample_config modelType true;
     ML.stats := ML.emptyStatistics |}.

(** The SVM engine [NewMLEngine] builds and trains on one bot-like sample
    whose features are all 2: every weight becomes 2 (and a few units in the
    last place). *)
Definition steep_engine : ML.MLEngine float :=
  match ML.NewMLEngine sample_graph [replicate 128 (f_of_Z 2)] [1%Z]
          (sample_config "svm" true) with
  | Ok e => e
  | _ => sample_engine sample_graph "svm" true
  end.

(** A vector of 128 finite features: 2^1023, -2^1023 and zeros. *)
Definition overflowing_features : list float :=
  [0x1p1023%float; (-0x1p1023)%float] ++ replicate 126 PrimFloat.zero.

Definition sample_cortex_config {F} `{Float64 F} : Cortex.CortexConfig F :=
  {| Cortex.ModelPath := "./test_model.onnx"; Cortex.DetectionThreshold := lit 85 100;
     Cortex.BatchSize := 32; Cortex.InferenceTimeout := 1000 |}.

(** The default configuration with the neural network as the model. *)
Definition neural_network_config {F} `{Float64 F} : Config.MLConfig F :=
  {| Config.ModelType := "neural_network"; Config.DetectionThreshold := lit 6 10;
     Config.BatchSize := 32; Config.TrainingEpochs := 100;
     Config.LearningRate := lit 1 1000; Config.FeatureSize := 128;
     Config.GenerateFakeData := true; Config.FakeDataSize := 1000;
     Config.ModelPath := "./models/bot_detection_model"; Config.SaveModel := true;
     Config.LoadModel := false; Config.EnableGPU := false; Config.MaxConcurrency := 4;
     Config.EnableMetrics := true; Config.LogPredictions := false |}.

(** The ML cortex engine [NewMLCortexEngine] builds for that configuration
    over a graph whose run fails. *)
Definition failing_network_engine : outcome (MLCortex.MLCortexEngine Q) :=
  MLCortex.NewMLCortexEngine failing_graph sample_features sample_labels
    neural_network_config.

(** A table of three flows: one last seen at [t0], two last seen ten
    minutes later. *)
Definition sweep_engine : Argus.Engine float :=
  Argus.engine
    (Argus.run (Argus.start (Argus.NewEngine (Cortex.NewEngine sample_cortex_config)))
       [ Argus.Ingest t0 "10.0.0.1:1000-10.0.0.9:80"
           {| Argus.Timestamp := t0; Argus.Size := 100;
              Argus.Direction := "outbound"; Argus.Protocol := "TCP" |};
         Argus.Ingest (t0 + 10 * Minute)%Z "10.0.0.2:1000-10.0.0.9:80"
           {| Argus.Timestamp := (t0 + 10 * Minute)%Z; Argus.Size := 100;
              Argus.Direction := "outbound"; Argus.Protocol := "TCP" |};
         Argus.Ingest (t0 + 10 * Minute)%Z "10.0.0.3:1000-10.0.0.9:80"
           {| Argus.Timestamp := (t0 + 10 * Minute)%Z; Argus.Size := 100;
              Argus.Direction := "outbound"; Argus.Protocol := "TCP" |} ]).

(** Ten ticks of the simulated capture, 100 ms apart, starting at [start]:
    each adds one packet to each of the three simulated flows. *)
Definition capture_ticks (start : time) : list Argus.event :=
  (fun k => Argus.Capture (start + Z.of_nat k * 100000000)%Z) <$> seq 0 10.

(** The engine after the first ten ticks: three flows of ten packets. *)
Definition busy_system : Argus.System float :=
  Argus.run (Argus.start (Argus.NewEngine (Cortex.NewEngine sample_cortex_config)))
    (capture_ticks t0).

(** One analysis cycle over [busy_system], run to its end, and the three
    goroutines it starts, each run to its end. *)
Definition one_cycle : list Argus.event :=
  [ Argus.Query 0; Argus.Dispatch 0; Argus.Dispatch 0; Argus.Dispatch 0; Argus.Dispatch 0;
    Argus.Finish (t0 + 5 * Second)%Z 0; Argus.Finish (t0 + 5 * Second)%Z 0;
    Argus.Finish (t0 + 5 * Second)%Z 0 ].

(** Two analysis cycles over [busy_system] that overlap: both select before
    either marks. *)
Definition two_overlapping_cycles : list Argus.event :=
  [ Argus.Query 0; Argus.Query 1; Argus.Dispatch 0; Argus.Dispatch 1;
    Argus.Finish (t0 + 5 * Second)%Z 0; Argus.Finish (t0 + 5 * Second)%Z 0 ].


(* ===================================================================== *)
(** * Further vocabulary *)
(* ===================================================================== *)

(** ** The flow table and its statistics *)

(** A scoring that ended with a result. *)
Definition succeeded (o : outcome unit) : bool :=
  match o with Ok _ => true | _ => false end.

(** The event is a tick of the simulated capture. *)
Definition is_capture (ev : Argus.event) : bool :=
  match ev with Argus.Capture _ => true | _ => false end.

(** The engine after the ticks of [processPackets] at the times [ts]. *)
Definition ticks {F} `{Float64 F} (ts : list time) (e : Argus.Engine F) : Argus.Engine F :=
  fold_left (fun e now => Argus.simulatePacketCapture now e) ts e.

(** The packet that a tick at [now] adds to a simulated flow. *)
Definition simulated_packet (size : Z) (now : time) : Argus.Packet :=
  {| Argus.Timestamp := now; Argus.Size := size;
     Argus.Direction := "outbound"; Argus.Protocol := "TCP" |}.

(** The simulated flow after the ticks [t :: ts]. *)
Definition simulated_flow (id : string) (size : Z) (t : time) (ts : list time) : Argus.Flow :=
  {| Argus.ID := id;
     Argus.Packets := simulated_packet size <$> (t :: ts);
     Argus.StartTime := t;
     Argus.LastSeen := List.last ts t;
     Argus.AnalysisPending := false |}.

(** The number of elements of [l] that satisfy [f]. *)
Definition count {A} (f : A -> bool) (l : list A) : Z := len (List.filter f l).

(** What holds of the goroutines and of the cortex engine in every run of
    the pipeline: the model is loaded, every goroutine holds a marked flow
    and a vector of 128 features, every scoring that has finished ended with
    a result, and the two engines have counted the same scorings. *)
Definition scoring_inv {F} `{Float64 F} (s : Argus.System F) : Prop :=
  cortex_loaded (Argus.cortex (Argus.engine s))
  /\ (forall t, t ∈ Argus.tasks s ->
        len (Argus.task_features t) = 128%Z
        /\ flag_at (Argus.engine s) (Argus.task_flow t) = Some true)
  /\ (forall r, r ∈ Argus.completed s -> r.2 = Ok tt)
  /\ Argus.AnalyzedFlows (Argus.stats (Argus.engine s)) = wrap64 (len (Argus.completed s))
  /\ Cortex.TotalInferences (Cortex.stats (Argus.cortex (Argus.engine s)))
     = wrap64 (len (Argus.completed s)).

(** The table of the three simulated flows, as the first tick builds it. *)
Definition simulated_table : gmap string nat :=
  {[ "192.168.1.100:54321-8.8.8.8:443" := 0%nat;
     "10.0.0.50:12345-1.1.1.1:80" := 1%nat;
     "172.16.0.10:65432-208.67.222.222:53" := 2%nat ]}.

(** The engine after the ticks [t :: ts], in closed form. *)
Definition ticked_engine {F} `{Float64 F} (c : Cortex.Engine F) (t : time) (ts : list time)
  : Argus.Engine F :=
  {| Argus.cortex := c;
     Argus.heap := [ simulated_flow "192.168.1.100:54321-8.8.8.8:443" 1200 t ts;
                     simulated_flow "10.0.0.50:12345-1.1.1.1:80" 800 t ts;
                     simulated_flow "172.16.0.10:65432-208.67.222.222:53" 512 t ts ];
     Argus.flows := simulated_table;
     Argus.stats := {| Argus.TotalPackets := wrap64 (3 * len (t :: ts));
                       Argus.ActiveFlows := 3;
                       Argus.AnalyzedFlows := 0;
                       Argus.LastPacket := List.last ts t |} |}.

(** ** Feature extraction *)

(** The population variance of a sequence: the mean of the squares less the
    square of the mean. *)
Definition variance (xs : list Q) : Q :=
  (mean ((fun x => x * x) <$> xs) - mean xs * mean xs)%Q.

(** The sum of the packet sizes of a flow, as the [int] the code adds up. *)
Definition total_size (flow : Argus.Flow) : Z :=
  fold_left (fun total pkt => add64 total (Argus.Size pkt)) (Argus.Packets flow) 0%Z.

(** The time between the start of a flow and its last packet. *)
Definition flow_duration (flow : Argus.Flow) : Z :=
  Sub (Argus.LastSeen flow) (Argus.StartTime flow).

(** What holds in every run of the pipeline over a cortex engine whose
    detection threshold exceeds 0.799 (exact arithmetic): the model is
    loaded and the threshold is the configured one; every flow a cycle has
    selected holds at least ten packets; every goroutine holds an allocated
    flow and a vector of 128 features whose slot 20 is at least 1/2; no bot
    has been reported. *)
Definition quiet_inv (s : Argus.System Q) : Prop :=
  cortex_loaded (Argus.cortex (Argus.engine s))
  /\ (799 # 1000 < Cortex.DetectionThreshold (Cortex.config (Argus.cortex (Argus.engine s))))%Q
  /\ (forall c ps p, Argus.cycles s !! c = Some ps -> p ∈ ps ->
        exists flow, Argus.heap (Argus.engine s) !! p = Some flow
                     /\ (10 <= len (Argus.Packets flow))%Z)
  /\ (forall t, t ∈ Argus.tasks s ->
        len (Argus.task_features t) = 128%Z
        /\ (1 # 2 <= at_index (Argus.task_features t) 20)%Q
        /\ is_Some (Argus.heap (Argus.engine s) !! Argus.task_flow t))
  /\ Cortex.BotDetections (Cortex.stats (Argus.cortex (Argus.engine s))) = 0%Z
  /\ Cortex.HumanDetections (Cortex.stats (Argus.cortex (Argus.engine s)))
     = wrap64 (len (Argus.completed s)).

(** The flows of [hp] are in [hp'], with at least as many packets. *)
Definition grows (hp hp' : list Argus.Flow) : Prop :=
  forall p flow, hp !! p = Some flow ->
    exists flow', hp' !! p = Some flow'
                  /\ (len (Argus.Packets flow) <= len (Argus.Packets flow'))%Z.

(** ** The ML engine *)

(** The model types for which [NewMLEngine] builds an engine. *)
Definition supported_models : list string := ["neural_network"; "svm"; "ensemble"].

(** The graph of the network never panics (it returns a value or an error). *)
Definition graph_safe {F} (graph : list F -> outcome F) : Prop :=
  forall x, graph x <> Panic.

(** The network of the engine, if it has one, runs on [graph]. *)
Definition runs_on {F} (e : ML.MLEngine F) (graph : list F -> outcome F) : Prop :=
  forall nn, ML.nnModel e = Some nn -> ML.forward nn = graph.

(** The configuration [c] with the model type replaced. *)
Definition with_model_type {F} (c : Config.MLConfig F) (modelType : string)
  : Config.MLConfig F :=
  {| Config.ModelType := modelType;
     Config.DetectionThreshold := Config.DetectionThreshold c;
     Config.BatchSize := Config.BatchSize c;
     Config.TrainingEpochs := Config.TrainingEpochs c;
     Config.LearningRate := Config.LearningRate c;
     Config.FeatureSize := Config.FeatureSize c;
     Config.GenerateFakeData := Config.GenerateFakeData c;
     Config.FakeDataSize := Config.FakeDataSize c;
     Config.ModelPath := Config.ModelPath c;
     Config.SaveModel := Config.SaveModel c;
     Config.LoadModel := Config.LoadModel c;
     Config.EnableGPU := Config.EnableGPU c;
     Config.MaxConcurrency := Config.MaxConcurrency c;
     Config.EnableMetrics := Config.EnableMetrics c;
     Config.LogPredictions := Config.LogPredictions c |}.

(** The weights after [trainSVM]: a hundred passes over the data set. *)
Definition trained_weights {F} `{Float64 F}
    (w : list F) (features : list (list F)) (labels : list Z) : list F :=
  Nat.iter 100 (fun w => ML.svm_pass w features labels) w.

(** A stand-in for [math.Exp] on doubles, used where a concrete engine is
    evaluated: the first terms of the exponential series. *)
Definition exp_series (x : float) : float :=
  (1 + x + x * x / 2)%float.

(** ** The ML cortex engine *)

(** The cortex engine and the ML engine it wraps have counted the same
    predictions. *)
Definition counters_agree {F} (e : MLCortex.MLCortexEngine F) : Prop :=
  MLCortex.TotalInferences (MLCortex.stats e)
  = ML.TotalPredictions (ML.stats (MLCortex.mlEngine e))
  /\ MLCortex.BotDetections (MLCortex.stats e)
     = ML.BotDetections (ML.stats (MLCortex.mlEngine e))
  /\ MLCortex.HumanDetections (MLCortex.stats e)
     = ML.HumanDetections (ML.stats (MLCortex.mlEngine e)).

(** The configuration [c] with the feature size replaced. *)
Definition with_feature_size {F} (c : Config.MLConfig F) (n : Z) : Config.MLConfig F :=
  {| Config.ModelType := Config.ModelType c;
     Config.DetectionThreshold := Config.DetectionThreshold c;
     Config.BatchSize := Config.BatchSize c;
     Config.TrainingEpochs := Config.TrainingEpochs c;
     Config.LearningRate := Config.LearningRate c;
     Config.FeatureSize := n;
     Config.GenerateFakeData := Config.GenerateFakeData c;
     Config.FakeDataSize := Config.FakeDataSize c;
     Config.ModelPath := Config.ModelPath c;
     Config.SaveModel := Config.SaveModel c;
     Config.LoadModel := Config.LoadModel c;
     Config.EnableGPU := Config.EnableGPU c;
     Config.MaxConcurrency := Config.MaxConcurrency c;
     Config.EnableMetrics := Config.EnableMetrics c;
     Config.LogPredictions := Config.LogPredictions c |}.

(** An ML cortex engine over a trained SVM of 128 weights. *)
Definition svm_cortex_engine : MLCortex.MLCortexEngine float :=
  {| MLCortex.mlEngine := trained_engine sample_graph "svm";
     MLCortex.config := with_model_type Config.DefaultMLConfig "svm";
     MLCortex.stats :=
       {| MLCortex.TotalInferences := 0; MLCortex.BotDetections := 0;
          MLCortex.HumanDetections := 0; MLCortex.AverageConfidence := f_zero;
          MLCortex.ModelAccuracy := f_zero; MLCortex.TrainingTime := 0;
          MLCortex.LastInference := zeroTime; MLCortex.ModelType := "svm" |} |}.

(** The label of a sample as [trainSVM] uses it: 0 stands for -1. *)
Definition signed_label (l : Z) : Q := if (l =? 0)%Z then (-1)%Q else inject_Z l.

(** The sum over the labelled samples of label times feature [k]; a sample
    that has no feature [k] counts as zero. *)
Definition sample_sum (features : list (list Q)) (labels : list Z) (k : nat) : Q :=
  fold_right (fun '(feature, l) acc => (signed_label l * default 0%Q (feature !! k) + acc)%Q)
             0%Q (combine features labels).

(** An untrained SVM of two weights, and a data set of one bot sample. *)
Definition small_svm_engine : ML.MLEngine Q :=
  {| ML.nnModel := None;
     ML.svmModel := Some {| ML.weights := [0; 0]%Q; ML.bias := 0%Q; ML.svm_trained := false |};
     ML.config := sample_config "svm" true;
     ML.stats := ML.emptyStatistics |}.

Definition small_features : list (list Q) := [[1; 2]%Q].
Definition small_labels : list Z := [1%Z].

Definition small_svm_trained : ML.MLEngine Q :=
  match ML.trainSVM small_svm_engine small_features small_labels with
  | Ok e => e
  | _ => small_svm_engine
  end.

(** The memory of a call of [MLCortexEngine.GetStatistics]. *)
Definition stats_memory (F : Type) : Type :=
  (MLCortex.MLCortexEngine F * option (ML.MLStatistics F)
   * option (MLCortex.MLCortexStatistics F))%type.

(** Where a call of [GetStatistics] can be: before its [RLock], with nothing
    held; or after it, before its [Lock], holding one read lock while no
    goroutine holds the write lock. *)
Definition reading {F} `{Float64 F} (c : Sync.Call (stats_memory F)) : Prop :=
  (Sync.code c = MLCortex.GetStatistics
   /\ Sync.held_r (Sync.mu c) = 0%nat /\ Sync.held_w (Sync.mu c) = false)
  \/ ((Sync.code c = drop 1 MLCortex.GetStatistics \/ Sync.code c = drop 2 MLCortex.GetStatistics)
      /\ Sync.held_r (Sync.mu c) = 1%nat /\ Sync.held_w (Sync.mu c) = false
      /\ Sync.others_w (Sync.mu c) = false).

(** ** The protocol parser *)

(** Every byte of the string is an ASCII character. *)
Fixpoint ascii_only (s : string) : bool :=
  match s with
  | EmptyString => true
  | String c rest => (N_of_ascii c <? 128)%N && ascii_only rest
  end.

(** The byte with the number [n]. *)
Definition byte (n : Z) : ascii := ascii_of_N (Z.to_N n).

(** [binary.BigEndian.PutUint16]: the two bytes of [v], high byte first. *)
Definition PutUint16 (v : Z) : string :=
  String (byte (v / 256)) (String (byte (v mod 256)) EmptyString).

(** A TLS record: content type 22, version, length, payload. *)
Definition tls_record (version length : Z) (payload : string) : string :=
  String (byte 22) (PutUint16 version +:+ PutUint16 length +:+ payload).

Definition CRLF : string := String Protocol.CR (String Protocol.LF EmptyString).

(** A response as a server sends it. *)
Definition not_found_response : string :=
  "HTTP/1.1 404 Not Found" +:+ CRLF +:+ "Content-Length: 0" +:+ CRLF +:+ CRLF.

(** A request with a method that is neither GET nor POST. *)
Definition put_request : string :=
  "PUT /index.html HTTP/1.1" +:+ CRLF +:+ "Host: example.com" +:+ CRLF +:+ CRLF.

(** The connection preface of an HTTP/2 client. *)
Definition http2_preface : string :=
  "PRI * HTTP/2.0" +:+ CRLF +:+ CRLF +:+ "SM" +:+ CRLF +:+ CRLF.

(** The info of a packet of which only the protocol and the features are
    known. *)
Definition bare_info (protocol : string) (data : string)
    (features : gmap string Protocol.value) : Protocol.ProtocolInfo :=
  {| Protocol.Protocol := protocol; Protocol.Version := protocol; Protocol.Headers := None;
     Protocol.Method := ""; Protocol.Path := ""; Protocol.StatusCode := 0;
     Protocol.UserAgent := ""; Protocol.RawData := data; Protocol.Features := Some features |}.

(** The user agent of a crawler. *)
Definition crawler_agent : string := "Mozilla/5.0 (compatible; GoogleBot/2.1)".

(** A word: not empty, and without white space. *)
Fixpoint no_space (s : string) : bool :=
  match s with
  | EmptyString => true
  | String c rest => negb (Protocol.isSpace c) && no_space rest
  end.

Definition is_word (s : string) : bool := negb (String.eqb s "") && no_space s.

(** The first line of a request. *)
Definition request_line (method path version : string) : string :=
  method +:+ " " +:+ path +:+ " " +:+ version.

(** A request: the first line, and what follows its CR LF. *)
Definition request (method path version rest : string) : string :=
  request_line method path version +:+ CRLF +:+ rest.

(** The header lines of a browser's request and the empty line after them. *)
Definition browser_headers : string :=
  "Host: example.com" +:+ CRLF +:+ "User-Agent: Mozilla/5.0" +:+ CRLF +:+ CRLF.

(** ** The generator of training data *)

(** The computation [m], started in the state [g] of the source, does not
    panic, and what it returns satisfies [P]. *)
Definition returns {G A} (m : DataGenerator.M G A) (g : G) (P : A -> Prop) : Prop :=
  exists a g', m g = (Ok a, g') /\ P a.

(** [Intn(n)] is in the range [0, n). *)
Definition in_range {G} (rand_Intn : Z -> G -> Z * G) : Prop :=
  forall n g, (0 < n)%Z -> (0 <= fst (rand_Intn n g) < n)%Z.

(** A source that counts its draws. *)
Definition counter_Float64 {F} `{Float64 F} (g : nat) : F * nat :=
  (lit (Z.of_nat g mod 10) 10, S g).

Definition counter_Intn (n : Z) (g : nat) : Z * nat := ((Z.of_nat g mod n)%Z, S g).
(* ===================================================================== *)
(** * Properties *)
(* ===================================================================== *)

(** ** Integers and rationals *)

Lemma wrap64_small z : (min_int64 <= z <= max_int64)%Z -> wrap64 z = z.
Proof.
  unfold wrap64, min_int64, max_int64. intros Hz.
  rewrite Z.mod_small by lia. lia.
Qed.

Lemma incr64_small x : (0 <= x < max_int64)%Z -> incr64 x = (x + 1)%Z.
Proof.
  intros Hx. unfold incr64. apply wrap64_small.
  unfold min_int64, max_int64 in *. lia.
Qed.

Lemma incr64_max : incr64 max_int64 = min_int64.
Proof. reflexivity. Qed.

Lemma exact_ltb_lt (x y : Q) : Exact.ltb x y = true <-> (x < y)%Q.
Proof.
  unfold Exact.ltb. rewrite negb_true_iff. split.
  - intros Hb. apply Qnot_le_lt. intros Hle.
    apply Qle_bool_iff in Hle. congruence.
  - intros Hlt. destruct (Qle_bool y x) eqn:Hb; [|reflexivity].
    apply Qle_bool_iff in Hb. exfalso. apply (Qlt_not_le _ _ Hlt Hb).
Qed.

Lemma exact_ltb_ge (x y : Q) : Exact.ltb x y = false <-> (y <= x)%Q.
Proof.
  unfold Exact.ltb. rewrite negb_false_iff. apply Qle_bool_iff.
Qed.

Lemma inject_Z_nonzero (n : Z) : (0 < n)%Z -> ~ (inject_Z n == 0)%Q.
Proof.
  intros Hn Heq.
  assert (Hlt : (inject_Z 0 < inject_Z n)%Q) by (rewrite <- Zlt_Qlt; lia).
  rewrite Heq in Hlt. apply (Qlt_irrefl _ Hlt).
Qed.

(** ** Statistics *)

Section RunningAverage.

(** One step of the running average in exact arithmetic: if [avg] is the
    mean of [k] values of sum [sum], the update with [n = k + 1] yields the
    mean of the [k + 1] values. *)
Lemma running_average_step (avg sum c : Q) (k : Z) :
  (0 <= k)%Z ->
  (avg * inject_Z k == sum)%Q ->
  ((avg * (inject_Z (k + 1) - inject_Z 1) + c) / inject_Z (k + 1) * inject_Z (k + 1)
   == sum + c)%Q.
Proof.
  intros Hk Havg.
  assert (Hnz : ~ (inject_Z (k + 1) == 0)%Q) by (apply inject_Z_nonzero; lia).
  rewrite Qmult_comm, Qmult_div_r by exact Hnz.
  rewrite inject_Z_plus. rewrite <- Havg. ring.
Qed.

Lemma mean_of_product (avg sum : Q) (n : Z) :
  (0 < n)%Z -> (avg * inject_Z n == sum)%Q -> (avg == sum / inject_Z n)%Q.
Proof.
  intros Hn Havg.
  assert (Hnz : ~ (inject_Z n == 0)%Q) by (apply inject_Z_nonzero; lia).
  rewrite <- Havg. field. exact Hnz.
Qed.

Lemma sum_snoc (cs : list Q) (c : Q) :
  fold_left Qplus (cs ++ [c]) 0%Q = (fold_left Qplus cs 0 + c)%Q.
Proof. rewrite fold_left_app. reflexivity. Qed.

End RunningAverage.

Section CortexStatistics.

Lemma cortex_update_counters {F} `{Float64 F}
    (s : Cortex.Statistics F) (r : Cortex.DetectionResult F) :
  cortex_counters_ok s ->
  (Cortex.TotalInferences s < max_int64)%Z ->
  cortex_counters_ok (Cortex.updateStats s r)
  /\ Cortex.TotalInferences (Cortex.updateStats s r) = (Cortex.TotalInferences s + 1)%Z
  /\ (if Cortex.IsBot r
      then Cortex.BotDetections (Cortex.updateStats s r) = (Cortex.BotDetections s + 1)%Z
           /\ Cortex.HumanDetections (Cortex.updateStats s r) = Cortex.HumanDetections s
      else Cortex.BotDetections (Cortex.updateStats s r) = Cortex.BotDetections s
           /\ Cortex.HumanDetections (Cortex.updateStats s r)
              = (Cortex.HumanDetections s + 1)%Z).
Proof.
  unfold cortex_counters_ok, counters_ok. intros (Ht & Hb & Hh & Hsum) Hmax.
  unfold Cortex.updateStats; cbn [Cortex.TotalInferences Cortex.BotDetections
                                    Cortex.HumanDetections].
  rewrite (incr64_small (Cortex.TotalInferences s)) by lia.
  destruct (Cortex.IsBot r).
  - rewrite (incr64_small (Cortex.BotDetections s)) by lia. lia.
  - rewrite (incr64_small (Cortex.HumanDetections s)) by lia. lia.
Qed.

(** After [n] results the total is [n] and the average, multiplied by [n],
    is the sum of the confidences. *)
Lemma cortex_feed_sum (rs : list (Cortex.DetectionResult Q)) :
  (len rs <= max_int64)%Z ->
  Cortex.TotalInferences (cortex_feed rs) = len rs
  /\ (Cortex.AverageConfidence (cortex_feed rs) * inject_Z (len rs)
      == fold_left Qplus (Cortex.Confidence <$> rs) 0)%Q.
Proof.
  induction rs as [|r rs IH] using rev_ind; intros Hlen.
  - split; [reflexivity|]. cbn. ring.
  - unfold len in *. rewrite length_app in Hlen. cbn [length] in Hlen.
    destruct IH as [IHt IHa]; [lia|].
    unfold cortex_feed in *. rewrite fold_left_app. cbn [fold_left].
    rewrite fmap_app, length_app. cbn [length fmap list_fmap].
    unfold Cortex.updateStats at 1 3;
      cbn [Cortex.TotalInferences Cortex.AverageConfidence].
    rewrite IHt. rewrite incr64_small by (unfold max_int64 in *; lia).
    replace (Z.of_nat (length rs + 1)) with (Z.of_nat (length rs) + 1)%Z by lia.
    split; [reflexivity|].
    rewrite sum_snoc. cbn [f_of_Z f_add f_sub f_mul f_div exactQ].
    apply running_average_step; [lia | exact IHa].
Qed.

End CortexStatistics.

Section MLStatistics.

Lemma ml_update_counters {F} `{Float64 F}
    (s : ML.MLStatistics F) (r : ML.DetectionResult F) :
  ml_counters_ok s ->
  (ML.TotalPredictions s < max_int64)%Z ->
  ml_counters_ok (ML.updateStats s r)
  /\ ML.TotalPredictions (ML.updateStats s r) = (ML.TotalPredictions s + 1)%Z
  /\ (if ML.IsBot r
      then ML.BotDetections (ML.updateStats s r) = (ML.BotDetections s + 1)%Z
           /\ ML.HumanDetections (ML.updateStats s r) = ML.HumanDetections s
      else ML.BotDetections (ML.updateStats s r) = ML.BotDetections s
           /\ ML.HumanDetections (ML.updateStats s r) = (ML.HumanDetections s + 1)%Z).
Proof.
  unfold ml_counters_ok, counters_ok. intros (Ht & Hb & Hh & Hsum) Hmax.
  unfold ML.updateStats; cbn [ML.TotalPredictions ML.BotDetections ML.HumanDetections].
  rewrite (incr64_small (ML.TotalPredictions s)) by lia.
  destruct (ML.IsBot r).
  - rewrite (incr64_small (ML.BotDetections s)) by lia. lia.
  - rewrite (incr64_small (ML.HumanDetections s)) by lia. lia.
Qed.

Lemma ml_feed_sum (rs : list (ML.DetectionResult Q)) :
  (len rs <= max_int64)%Z ->
  ML.TotalPredictions (ml_feed rs) = len rs
  /\ (ML.AverageConfidence (ml_feed rs) * inject_Z (len rs)
      == fold_left Qplus (ML.Confidence <$> rs) 0)%Q.
Proof.
  induction rs as [|r rs IH] using rev_ind; intros Hlen.
  - split; [reflexivity|]. cbn. ring.
  - unfold len in *. rewrite length_app in Hlen. cbn [length] in Hlen.
    destruct IH as [IHt IHa]; [lia|].
    unfold ml_feed in *. rewrite fold_left_app. cbn [fold_left].
    rewrite fmap_app, length_app. cbn [length fmap list_fmap].
    unfold ML.updateStats at 1 3; cbn [ML.TotalPredictions ML.AverageConfidence].
    rewrite IHt. rewrite incr64_small by (unfold max_int64 in *; lia).
    replace (Z.of_nat (length rs + 1)) with (Z.of_nat (length rs) + 1)%Z by lia.
    split; [reflexivity|].
    rewrite sum_snoc. cbn [f_of_Z f_add f_sub f_mul f_div exactQ].
    apply running_average_step; [lia | exact IHa].
Qed.

End MLStatistics.

(** In IEEE double precision the three results of [TestUpdateStats] leave
    the running average at the double nearest to 2/3, which is the value
    the Go compiler gives the constant [(0.9 + 0.3 + 0.8) / 3.0]; the test
    compares the two with [!=]. *)
Example test_update_stats_binary64 :
  Cortex.AverageConfidence (cortex_feed (F := float) test_results) = lit 2 3
  /\ ML.AverageConfidence (ml_feed (F := float) ml_test_results) = lit 2 3
  /\ Cortex.TotalInferences (cortex_feed (F := float) test_results) = 3%Z
  /\ Cortex.BotDetections (cortex_feed (F := float) test_results) = 2%Z
  /\ Cortex.HumanDetections (cortex_feed (F := float) test_results) = 1%Z.
Proof. vm_compute. repeat split; reflexivity. Qed.




(** C5. Counters: in the statistics of a new engine the three counters are
    zero, and an update from statistics that satisfy the invariant (bot +
    human = total, all non-negative; the [int64] total below its maximum)
    yields statistics that satisfy it, with the total and exactly one of the
    bot and human counts, chosen by [IsBot], incremented by one. *)
Theorem statistics_invariant {F} `{Float64 F}
    (s : Cortex.Statistics F) (r : Cortex.DetectionResult F)
    (m : ML.MLStatistics F) (p : ML.DetectionResult F) :
  cortex_counters_ok s -> (Cortex.TotalInferences s < max_int64)%Z ->
  ml_counters_ok m -> (ML.TotalPredictions m < max_int64)%Z ->
  cortex_counters_ok (F := F) Cortex.emptyStatistics
  /\ ml_counters_ok (F := F) ML.emptyStatistics
  /\ (cortex_counters_ok (Cortex.updateStats s r)
      /\ Cortex.TotalInferences (Cortex.updateStats s r) = (Cortex.TotalInferences s + 1)%Z
      /\ (if Cortex.IsBot r
          then Cortex.BotDetections (Cortex.updateStats s r) = (Cortex.BotDetections s + 1)%Z
               /\ Cortex.HumanDetections (Cortex.updateStats s r) = Cortex.HumanDetections s
          else Cortex.BotDetections (Cortex.updateStats s r) = Cortex.BotDetections s
               /\ Cortex.HumanDetections (Cortex.updateStats s r)
                  = (Cortex.HumanDetections s + 1)%Z))
  /\ (ml_counters_ok (ML.updateStats m p)
      /\ ML.TotalPredictions (ML.updateStats m p) = (ML.TotalPredictions m + 1)%Z
      /\ (if ML.IsBot p
          then ML.BotDetections (ML.updateStats m p) = (ML.BotDetections m + 1)%Z
               /\ ML.HumanDetections (ML.updateStats m p) = ML.HumanDetections m
          else ML.BotDetections (ML.updateStats m p) = ML.BotDetections m
               /\ ML.HumanDetections (ML.updateStats m p) = (ML.HumanDetections m + 1)%Z)).
Proof.
  intros Hs Hsmax Hm Hmmax.
  split; [|split; [|split]].
  - unfold cortex_counters_ok, counters_ok. cbn. lia.
  - unfold ml_counters_ok, counters_ok. cbn. lia.
  - apply cortex_update_counters; assumption.
  - apply ml_update_counters; assumption.
Qed.

Lemma statistics_invariant_witness :
  cortex_counters_ok (Cortex.updateStats (cortex_feed (F := float) test_results)
                        {| Cortex.IsBot := true; Cortex.Confidence := lit 7 10;
                           Cortex.Features := []; Cortex.Reasoning := "";
                           Cortex.Timestamp := 4%Z; Cortex.FlowID := "" |})
  /\ ml_counters_ok (ML.updateStats (ml_feed (F := float) ml_test_results)
                       {| ML.IsBot := false; ML.Confidence := lit 2 10;
                          ML.Features := []; ML.Reasoning := ""; ML.ModelUsed := "svm";
                          ML.Timestamp := 4%Z; ML.FlowID := "" |}).
Proof.
  assert (Hs : cortex_counters_ok (cortex_feed (F := float) test_results))
    by (vm_compute; repeat split; congruence).
  assert (Hsmax : (Cortex.TotalInferences (cortex_feed (F := float) test_results)
                   < max_int64)%Z) by (vm_compute; reflexivity).
  assert (Hm : ml_counters_ok (ml_feed (F := float) ml_test_results))
    by (vm_compute; repeat split; congruence).
  assert (Hmmax : (ML.TotalPredictions (ml_feed (F := float) ml_test_results)
                   < max_int64)%Z) by (vm_compute; reflexivity).
  destruct (statistics_invariant _
              {| Cortex.IsBot := true; Cortex.Confidence := lit 7 10;
                 Cortex.Features := []; Cortex.Reasoning := "";
                 Cortex.Timestamp := 4%Z; Cortex.FlowID := "" |}
              _
              {| ML.IsBot := false; ML.Confidence := lit 2 10;
                 ML.Features := []; ML.Reasoning := ""; ML.ModelUsed := "svm";
                 ML.Timestamp := 4%Z; ML.FlowID := "" |}
              Hs Hsmax Hm Hmmax) as (_ & _ & (Hc & _) & (Hl & _)).
  split; [exact Hc | exact Hl].
Defined.

(** ** Confidence of the heuristic predictors (exact arithmetic) *)

Section Heuristics.

Local Open Scope Q_scope.

Lemma tenth_nonneg : 0 <= lit (F := Q) 1 10.
Proof. vm_compute. discriminate. Qed.

Lemma exact_min_unit (x : Q) : 0 <= x -> unit_interval (math_Min x (f_of_Z 1)).
Proof.
  intros Hx. unfold unit_interval. cbn [math_Min f_of_Z exactQ]. unfold Exact.Min.
  destruct (Exact.ltb x (inject_Z 1)) eqn:Hlt.
  - apply exact_ltb_lt in Hlt. split; [exact Hx | apply Qlt_le_weak; exact Hlt].
  - split; [discriminate | apply Qle_refl].
Qed.

Lemma simulatePrediction_loop_nonneg (features : list Q) (i : nat) (score : Q) :
  0 <= score -> 0 <= ML.simulatePrediction_loop i features score.
Proof.
  revert i score. induction features as [|feature rest IH]; intros i score Hs.
  - exact Hs.
  - cbn [ML.simulatePrediction_loop]. apply IH.
    pose proof tenth_nonneg as Ht.
    cbn [f_add exactQ]. set (d := lit 1 10) in *.
    repeat match goal with
           | |- context [if ?b then _ else _] => destruct b
           end; lra.
Qed.

Lemma simulatePrediction_unit (features : list Q) :
  unit_interval (ML.simulatePrediction features).
Proof.
  unfold ML.simulatePrediction. apply exact_min_unit.
  apply simulatePrediction_loop_nonneg. discriminate.
Qed.

Lemma simulateInference_unit (now : time) (features : list Q) :
  (0 <= now)%Z -> unit_interval (fst (Cortex.simulateInference now features)).
Proof.
  intros Hnow. unfold Cortex.simulateInference. cbv zeta. cbn [fst].
  assert (Hr : 0 <= f_of_Z (Z.rem now 100) / f_of_Z (F := Q) 1000).
  { cbn [f_of_Z f_div exactQ]. apply Qle_shift_div_l; [reflexivity|].
    rewrite Qmult_0_l. change 0 with (inject_Z 0). rewrite <- Zle_Qle.
    apply Z.rem_nonneg; lia. }
  set (r := (f_of_Z (Z.rem now 100) / f_of_Z 1000)%f64) in *.
  change (0 <= r) in Hr.
  assert (H3 : 0 <= lit (F := Q) 3 10) by (vm_compute; discriminate).
  assert (H4 : 0 <= lit (F := Q) 4 10) by (vm_compute; discriminate).
  assert (H2 : 0 <= lit (F := Q) 2 10) by (vm_compute; discriminate).
  set (a := lit 3 10) in *. set (b := lit 4 10) in *. set (c := lit 2 10) in *.
  match goal with
  | |- unit_interval (if (f_of_Z 1 <? ?s)%f64 then _ else _) =>
      assert (Hs : 0 <= s); [| set (score := s) in * ]
  end.
  { unfold f_zero. cbn [f_add f_of_Z exactQ].
    change (inject_Z 0) with 0.
    repeat match goal with
           | |- context [if ?b then _ else _] => destruct b
           end; lra. }
  unfold unit_interval. cbn [f_ltb f_of_Z exactQ].
  destruct (Exact.ltb (inject_Z 1) score) eqn:Hlt.
  - split; discriminate.
  - apply exact_ltb_ge in Hlt. split; [exact Hs | exact Hlt].
Qed.

End Heuristics.

(** ** Confidence of the trained models and of the ensemble *)

Section Models.

Local Open Scope Q_scope.

Variable math_Exp : Q -> Q.
Hypothesis Hexp : exp_nonneg math_Exp.

Lemma sigmoid_unit (x : Q) :
  unit_interval (f_of_Z 1 / (f_of_Z 1 + math_Exp (- x)))%f64.
Proof using Hexp.
  cbn [f_of_Z f_div f_add f_opp exactQ]. change (inject_Z 1) with 1.
  pose proof (Hexp (- x)) as He. set (ex := math_Exp (- x)) in *.
  assert (Hpos : 0 < 1 + ex) by lra.
  split.
  - apply Qle_shift_div_l; [exact Hpos | lra].
  - apply Qle_shift_div_r; [exact Hpos | lra].
Qed.

Lemma predictSVM_unit (e : ML.MLEngine Q) (features : list Q) (c : Q) :
  ML.predictSVM math_Exp e features = Ok c -> unit_interval c.
Proof using Hexp.
  unfold ML.predictSVM. intros Hp.
  destruct (ML.svmModel e) as [svm|].
  - destruct (ML.svm_trained svm); cbn [negb] in Hp.
    + destruct (len features =? 0)%Z; [discriminate|].
      destruct (ML.Dot (ML.weights svm) features) as [d|]; [|discriminate].
      inversion Hp; subst c. apply sigmoid_unit.
    + inversion Hp; subst c. apply simulatePrediction_unit.
  - inversion Hp; subst c. apply simulatePrediction_unit.
Qed.

(** [predictSVM] never returns an error, and panics only on a shape
    mismatch. *)
Lemma predictSVM_total (e : ML.MLEngine Q) (features : list Q) :
  svm_shaped e -> len features = ML.FeatureSize (ML.config e) ->
  (0 < ML.FeatureSize (ML.config e))%Z ->
  exists c, ML.predictSVM math_Exp e features = Ok c.
Proof.
  intros Hshape Hlen Hpos. unfold ML.predictSVM.
  destruct (ML.svmModel e) as [svm|] eqn:Hsvm; [|eauto].
  destruct (ML.svm_trained svm); cbn [negb]; [|eauto].
  destruct (len features =? 0)%Z eqn:H0; [apply Z.eqb_eq in H0; lia|].
  unfold ML.Dot. specialize (Hshape svm Hsvm). unfold len in *.
  replace (length (ML.weights svm) =? length features)%nat with true; [eauto|].
  symmetry. apply Nat.eqb_eq. lia.
Qed.

Lemma predictSVM_not_Err (e : ML.MLEngine Q) (features : list Q) (m : string) :
  ML.predictSVM math_Exp e features <> Err m.
Proof.
  unfold ML.predictSVM.
  destruct (ML.svmModel e) as [svm|]; [|discriminate].
  destruct (ML.svm_trained svm); cbn [negb]; [|discriminate].
  destruct (len features =? 0)%Z; [discriminate|].
  destruct (ML.Dot (ML.weights svm) features); discriminate.
Qed.

Lemma average_two_unit (p q : Q) :
  unit_interval p -> unit_interval q ->
  unit_interval ((f_zero + p + q) / f_of_Z 2)%f64.
Proof.
  unfold unit_interval, f_zero. cbn [f_of_Z f_div f_add exactQ].
  change (inject_Z 0) with 0. change (inject_Z 2) with 2.
  intros [Hp0 Hp1] [Hq0 Hq1]. split.
  - apply Qle_shift_div_l; lra.
  - apply Qle_shift_div_r; lra.
Qed.

Lemma average_one_unit (p : Q) :
  unit_interval p -> unit_interval ((f_zero + p) / f_of_Z 1)%f64.
Proof.
  unfold unit_interval, f_zero. cbn [f_of_Z f_div f_add exactQ].
  change (inject_Z 0) with 0. change (inject_Z 1) with 1.
  intros [Hp0 Hp1]. split.
  - apply Qle_shift_div_l; lra.
  - apply Qle_shift_div_r; lra.
Qed.

(** The ensemble swallows the error of the network: it then returns what
    the SVM returns.  When the network yields a value it returns the average
    of that value and the SVM's. *)
Lemma predictEnsemble_cases (e : ML.MLEngine Q) (features : list Q) (q : Q) :
  ML.predictSVM math_Exp e features = Ok q ->
  match ML.predictNeuralNetwork e features with
  | Ok v => exists p, ML.predictEnsemble math_Exp e features = Ok p
                      /\ (unit_interval v -> unit_interval p)
  | Err _ => exists p, ML.predictEnsemble math_Exp e features = Ok p
                       /\ (p == q)%Q /\ unit_interval p
  | Panic => ML.predictEnsemble math_Exp e features = Panic
  end.
Proof using Hexp.
  intros Hq. pose proof (predictSVM_unit e features q Hq) as Hu.
  unfold ML.predictEnsemble. rewrite Hq.
  destruct (ML.predictNeuralNetwork e features) as [v|m|]; [| |reflexivity].
  - cbn. eexists. split; [reflexivity|]. intros Hv. apply average_two_unit; assumption.
  - cbn. eexists. split; [reflexivity|]. split.
    + change ((0 + q) / 1 == q). field.
    + apply average_one_unit. exact Hu.
Qed.

End Models.

Lemma cortex_analyze_ok {F} `{Float64 F} (now : time) (c : Cortex.Engine F)
    (features : list F) (flowID : string) :
  cortex_loaded c -> len features = 128%Z ->
  exists r,
    Cortex.Analyze now c features flowID
    = (Ok r, Cortex.with_stats c (Cortex.updateStats (Cortex.stats c) r))
    /\ Cortex.Confidence r = fst (Cortex.simulateInference now features).
Proof.
  intros (m & Hm & Hl & Hsz) Hlen. unfold Cortex.Analyze.
  rewrite Hm, Hl, Hsz, Hlen. cbn [negb Z.eqb Pos.eqb].
  destruct (Cortex.simulateInference now features) as [confidence reasoning].
  eexists. split; reflexivity.
Qed.

(** ** The heuristic counts tenths *)

Section Tenths.

Context {F : Type} `{Float64 F}.

Lemma tenths_S (k : nat) : tenths (S k) = (tenths k + lit 1 10)%f64.
Proof. reflexivity. Qed.

(** Whatever the features, the loop of [simulatePrediction] adds 0.1 at most
    once per index below 30 and never later. *)
Lemma simulatePrediction_loop_tenths (features : list F) (i k : nat) :
  exists k', (k <= k' <= k + (30 - i))%nat
             /\ ML.simulatePrediction_loop i features (tenths k) = tenths k'.
Proof.
  revert i k. induction features as [|feature rest IH]; intros i k.
  - exists k. split; [lia | reflexivity].
  - cbn [ML.simulatePrediction_loop]. cbv zeta.
    destruct (Nat.ltb_spec i 10) as [H10|H10].
    + replace (10 <=? i)%nat with false by (symmetry; apply Nat.leb_gt; lia).
      replace (20 <=? i)%nat with false by (symmetry; apply Nat.leb_gt; lia).
      cbn [andb].
      destruct (lit 7 10 <? feature)%f64.
      * rewrite <- tenths_S. destruct (IH (S i) (S k)) as (k' & Hk & Heq).
        exists k'. split; [lia | exact Heq].
      * destruct (IH (S i) k) as (k' & Hk & Heq).
        exists k'. split; [lia | exact Heq].
    + replace (10 <=? i)%nat with true by (symmetry; apply Nat.leb_le; lia).
      cbn [andb].
      destruct (Nat.ltb_spec i 20) as [H20|H20].
      * replace (20 <=? i)%nat with false by (symmetry; apply Nat.leb_gt; lia).
        cbn [andb].
        destruct (feature <? lit 3 10)%f64.
        -- rewrite <- tenths_S. destruct (IH (S i) (S k)) as (k' & Hk & Heq).
           exists k'. split; [lia | exact Heq].
        -- destruct (IH (S i) k) as (k' & Hk & Heq).
           exists k'. split; [lia | exact Heq].
      * replace (20 <=? i)%nat with true by (symmetry; apply Nat.leb_le; lia).
        cbn [andb].
        destruct (Nat.ltb_spec i 30) as [H30|H30]; cbn [andb].
        -- destruct (math_Abs (feature - lit 5 10) <? lit 1 10)%f64.
           ++ rewrite <- tenths_S. destruct (IH (S i) (S k)) as (k' & Hk & Heq).
              exists k'. split; [lia | exact Heq].
           ++ destruct (IH (S i) k) as (k' & Hk & Heq).
              exists k'. split; [lia | exact Heq].
        -- destruct (IH (S i) k) as (k' & Hk & Heq).
           exists k'. split; [lia | exact Heq].
Qed.

Lemma simulatePrediction_tenths (features : list F) :
  exists k, (k <= 30)%nat
            /\ ML.simulatePrediction features = math_Min (tenths k) (f_of_Z 1).
Proof.
  destruct (simulatePrediction_loop_tenths features 0 0) as (k & Hk & Heq).
  exists k. split; [lia|]. unfold ML.simulatePrediction.
  change f_zero with (tenths 0). rewrite Heq. reflexivity.
Qed.

(** With no model trained, both sub-backends answer with the heuristic and
    the ensemble averages the two answers. *)
Lemma predictEnsemble_untrained (math_Exp : F -> F) (e : ML.MLEngine F) (features : list F) :
  untrained e ->
  ML.predictEnsemble math_Exp e features
  = Ok ((f_zero + ML.simulatePrediction features + ML.simulatePrediction features)
        / f_of_Z 2)%f64.
Proof.
  intros [Hnn Hsvm]. unfold ML.predictEnsemble.
  assert (Hn : ML.predictNeuralNetwork e features = Ok (ML.simulatePrediction features)).
  { unfold ML.predictNeuralNetwork. destruct (ML.nnModel e) as [nn|]; [|reflexivity].
    rewrite (Hnn nn eq_refl). reflexivity. }
  assert (Hs : ML.predictSVM math_Exp e features = Ok (ML.simulatePrediction features)).
  { unfold ML.predictSVM. destruct (ML.svmModel e) as [svm|]; [|reflexivity].
    rewrite (Hsvm svm eq_refl). reflexivity. }
  rewrite Hn, Hs. reflexivity.
Qed.

End Tenths.

(** In double precision, each of the 31 values the heuristic can return lies
    in [0,1] and is the average of itself with itself. *)
Lemma heuristic_values_binary64 (k : nat) :
  (k <= 30)%nat ->
  let h := math_Min (tenths (F := float) k) (f_of_Z 1) in
  unit_interval_b64 h /\ ((f_zero + h + h) / f_of_Z 2)%f64 = h.
Proof.
  intros Hk.
  assert (Hall : Forall (fun k => let h := math_Min (tenths (F := float) k) (f_of_Z 1) in
                                  unit_interval_b64 h
                                  /\ ((f_zero + h + h) / f_of_Z 2)%f64 = h) (seq 0 31)).
  { vm_compute. repeat constructor. }
  rewrite Forall_forall in Hall. apply Hall. apply elem_of_seq. lia.
Qed.

Lemma predict_ensemble_confidence {F} `{Float64 F} (math_Exp : F -> F) (now : time)
    (e : ML.MLEngine F) (features : list F) (flowID : string) (p : F) :
  ML.ModelType (ML.config e) = "ensemble" ->
  ML.predictEnsemble math_Exp e features = Ok p ->
  exists r, ML.Predict math_Exp now e features flowID
            = (Ok r, ML.with_stats e (ML.updateStats (ML.stats e) r))
            /\ ML.Confidence r = p /\ ML.ModelUsed r = "ensemble".
Proof.
  intros Htype Hp. unfold ML.Predict. rewrite Htype, Hp. cbn.
  eexists. split; [reflexivity|]. split; reflexivity.
Qed.

(** C6. Ensemble fallback: when no sub-backend reports trained, the
    ensemble returns a confidence (never an error), and that confidence is
    the one the heuristic returns on the same input: equal as rationals in
    exact arithmetic, and the very same double in IEEE double precision.
    [Predict] of an engine configured as an ensemble returns a result with
    that confidence. *)
Theorem ensemble_untrained_is_heuristic
    (math_Exp : Q -> Q) (e : ML.MLEngine Q) (features : list Q)
    (math_Exp64 : float -> float) (e64 : ML.MLEngine float) (features64 : list float)
    (now : time) (flowID : string) :
  untrained e -> untrained e64 ->
  (exists p, ML.predictEnsemble math_Exp e features = Ok p
             /\ (p == ML.simulatePrediction features)%Q)
  /\ ML.predictEnsemble math_Exp64 e64 features64 = Ok (ML.simulatePrediction features64)
  /\ (ML.ModelType (ML.config e) = "ensemble" ->
      exists r e', ML.Predict math_Exp now e features flowID = (Ok r, e')
                   /\ (ML.Confidence r == ML.simulatePrediction features)%Q)
  /\ (ML.ModelType (ML.config e64) = "ensemble" ->
      exists r e', ML.Predict math_Exp64 now e64 features64 flowID = (Ok r, e')
                   /\ ML.Confidence r = ML.simulatePrediction features64).
Proof.
  intros Hu Hu64.
  pose proof (predictEnsemble_untrained math_Exp e features Hu) as Hq.
  pose proof (predictEnsemble_untrained math_Exp64 e64 features64 Hu64) as Hb.
  assert (Hmean : (((f_zero + ML.simulatePrediction features
                      + ML.simulatePrediction features) / f_of_Z 2)%f64
                   == ML.simulatePrediction features)%Q).
  { unfold f_zero. cbn [f_of_Z f_add f_div exactQ].
    change (inject_Z 0) with 0%Q. change (inject_Z 2) with 2%Q. field. }
  assert (Hsame : ((f_zero + ML.simulatePrediction features64
                    + ML.simulatePrediction features64) / f_of_Z 2)%f64
                  = ML.simulatePrediction features64).
  { destruct (simulatePrediction_tenths features64) as (k & Hk & Heq).
    rewrite Heq. apply (heuristic_values_binary64 k Hk). }
  rewrite Hsame in Hb.
  split; [|split; [|split]].
  - eexists. split; [exact Hq | exact Hmean].
  - exact Hb.
  - intros Htype.
    destruct (predict_ensemble_confidence math_Exp now e features flowID _ Htype Hq)
      as (r & Hr & Hc & _).
    exists r. eexists. split; [exact Hr|]. rewrite Hc. exact Hmean.
  - intros Htype.
    destruct (predict_ensemble_confidence math_Exp64 now e64 features64 flowID _ Htype Hb)
      as (r & Hr & Hc & _).
    exists r. eexists. split; [exact Hr | exact Hc].
Qed.

Lemma sample_engine_untrained {F} `{Float64 F} (graph : list F -> outcome F) :
  untrained (sample_engine graph "ensemble" false).
Proof.
  split.
  - intros nn Hnn. cbv in Hnn. injection Hnn as <-. reflexivity.
  - intros svm Hsvm. cbv in Hsvm. injection Hsvm as <-. reflexivity.
Qed.

Lemma ensemble_untrained_is_heuristic_witness :
  (exists p, ML.predictEnsemble exp_model (sample_engine sample_graph "ensemble" false)
               scenario_features = Ok p
             /\ (p == ML.simulatePrediction scenario_features)%Q)
  /\ ML.predictEnsemble PrimFloat.sqrt (sample_engine sample_graph "ensemble" false)
       scenario_features
     = Ok (ML.simulatePrediction (F := float) scenario_features).
Proof.
  destruct (ensemble_untrained_is_heuristic
              exp_model (sample_engine sample_graph "ensemble" false) scenario_features
              PrimFloat.sqrt (sample_engine sample_graph "ensemble" false) scenario_features
              t0 "test-flow"
              (sample_engine_untrained sample_graph) (sample_engine_untrained sample_graph))
    as (Hq & Hb & _).
  split; [exact Hq | exact Hb].
Defined.

(** The scenario in double precision: the untrained ensemble and the
    heuristic both answer 0.9 - 1 ulp (nine increments of 0.1). *)
Example ensemble_scenario_binary64 :
  ML.predictEnsemble PrimFloat.sqrt (sample_engine (F := float) sample_graph "ensemble" false)
    scenario_features = Ok (tenths 9)
  /\ ML.simulatePrediction (F := float) scenario_features = tenths 9.
Proof. vm_compute. split; reflexivity. Qed.

(** ** The simulated inference in double precision *)

Lemma simulateInference_score {F} `{Float64 F} (now : time) (features : list F) :
  exists b1 b2 b3,
    fst (Cortex.simulateInference now features) = inference_score b1 b2 b3 (Z.rem now 100).
Proof.
  exists ((10 <=? len features)%Z && (f_of_Z 1400 <? at_index features 0)%f64),
         ((20 <=? len features)%Z && (at_index features 10 <? lit 1 10)%f64),
         ((30 <=? len features)%Z && (at_index features 20 <? lit 5 10)%f64).
  unfold Cortex.simulateInference, inference_score. cbv zeta. cbn [fst].
  destruct (10 <=? len features)%Z, (20 <=? len features)%Z, (30 <=? len features)%Z;
    cbn [andb]; reflexivity.
Qed.

Lemma inference_score_binary64 (b1 b2 b3 : bool) (r : Z) :
  (0 <= r < 100)%Z -> unit_interval_b64 (inference_score b1 b2 b3 r).
Proof.
  intros Hr.
  assert (Hall :
    forallb (fun n =>
      forallb (fun b1 => forallb (fun b2 => forallb (fun b3 =>
        let c := inference_score (F := float) b1 b2 b3 (Z.of_nat n) in
        PrimFloat.leb 0 c && PrimFloat.leb c 1)
        [true; false]) [true; false]) [true; false]) (seq 0 100) = true).
  { vm_compute. reflexivity. }
  rewrite forallb_forall in Hall.
  assert (Hin : In (Z.to_nat r) (seq 0 100)) by (apply in_seq; lia).
  specialize (Hall _ Hin). rewrite Z2Nat.id in Hall by lia.
  assert (Hb : forall b : bool, In b [true; false]) by (intros []; cbn; auto).
  rewrite forallb_forall in Hall. specialize (Hall b1 (Hb b1)).
  rewrite forallb_forall in Hall. specialize (Hall b2 (Hb b2)).
  rewrite forallb_forall in Hall. specialize (Hall b3 (Hb b3)).
  cbv zeta in Hall. apply andb_true_iff in Hall. exact Hall.
Qed.

Lemma simulateInference_binary64 (now : time) (features : list float) :
  (0 <= now)%Z -> unit_interval_b64 (fst (Cortex.simulateInference now features)).
Proof.
  intros Hnow. destruct (simulateInference_score now features) as (b1 & b2 & b3 & ->).
  apply inference_score_binary64.
  split; [apply Z.rem_nonneg; lia | apply Z.rem_bound_pos; lia].
Qed.

Lemma simulatePrediction_binary64 (features : list float) :
  unit_interval_b64 (ML.simulatePrediction features).
Proof.
  destruct (simulatePrediction_tenths features) as (k & Hk & ->).
  apply (heuristic_values_binary64 k Hk).
Qed.



Lemma exp_model_nonneg : exp_nonneg exp_model.
Proof. intros x. unfold exp_model. apply Qpower_0_le. discriminate. Qed.


(** ** Validation of the feature vector *)

Section Validation.

Context {F : Type} `{Float64 F}.

Lemma cortex_analyze_mismatch (now : time) (c : Cortex.Engine F) (features : list F)
    (flowID : string) :
  cortex_loaded c -> len features <> 128%Z ->
  Cortex.Analyze now c features flowID
  = (Err ("invalid feature vector size: got " +:+ itoa (len features)
          +:+ ", expected " +:+ itoa 128), c).
Proof.
  intros (m & Hm & Hl & Hsz) Hlen. unfold Cortex.Analyze. rewrite Hm, Hl, Hsz.
  cbn [negb]. apply Z.eqb_neq in Hlen. rewrite Hlen. reflexivity.
Qed.

Lemma ml_predict_error_state (math_Exp : F -> F) (now : time) (e : ML.MLEngine F)
    (features : list F) (flowID : string) (m : string) (e' : ML.MLEngine F) :
  ML.Predict math_Exp now e features flowID = (Err m, e') -> e' = e.
Proof.
  unfold ML.Predict.
  match goal with |- context [match ?sc with Ok _ => _ | Err _ => _ | Panic => _ end] =>
    destruct sc as [[confidence modelUsed]|m'|] end; intros Heq; congruence.
Qed.

Lemma mlcortex_analyze_mismatch (math_Exp : F -> F) (now : time)
    (e : MLCortex.MLCortexEngine F) (features : list F) (flowID : string) :
  len features <> Config.FeatureSize (MLCortex.config e) ->
  MLCortex.Analyze math_Exp now e features flowID
  = (Err ("invalid feature vector size: got " +:+ itoa (len features)
          +:+ ", expected " +:+ itoa (Config.FeatureSize (MLCortex.config e))), e).
Proof.
  intros Hlen. unfold MLCortex.Analyze. apply Z.eqb_neq in Hlen. rewrite Hlen.
  reflexivity.
Qed.

Lemma mlcortex_analyze_error (math_Exp : F -> F) (now : time)
    (e : MLCortex.MLCortexEngine F) (features : list F) (flowID : string)
    (m : string) (e' : MLCortex.MLCortexEngine F) :
  MLCortex.Analyze math_Exp now e features flowID = (Err m, e') ->
  e' = e
  /\ (len features <> Config.FeatureSize (MLCortex.config e)
      \/ is_Err (fst (ML.Predict math_Exp now (MLCortex.mlEngine e) features flowID)) = true).
Proof.
  unfold MLCortex.Analyze.
  destruct (len features =? Config.FeatureSize (MLCortex.config e))%Z eqn:Hlen; cbn [negb].
  - destruct (ML.Predict math_Exp now (MLCortex.mlEngine e) features flowID)
      as [[r|m'|] ml] eqn:Hp; intros Heq; try discriminate.
    apply ml_predict_error_state in Hp. subst ml.
    inversion Heq; subst. split; [destruct e; reflexivity | right; reflexivity].
  - intros Heq. inversion Heq; subst. split; [reflexivity|].
    left. apply Z.eqb_neq. exact Hlen.
Qed.

End Validation.

(** C7 as stated fails: the ML cortex engine built for the neural network
    over a graph whose run fails returns an error, and no result, for a
    feature vector of the configured length 128. *)
Lemma analyze_error_with_right_length :
  exists e, failing_network_engine = Ok e
    /\ len (scenario_features (F := Q)) = Config.FeatureSize (MLCortex.config e)
    /\ Config.FeatureSize (MLCortex.config e) = 128%Z
    /\ MLCortex.Analyze exp_model t0 e scenario_features "test-flow"
       = (Err "ML prediction failed: neural network inference failed: node has no value", e).
Proof.
  eexists. split; [reflexivity|]. split; [reflexivity|]. split; reflexivity.
Qed.

(** C7, amended. [Analyze] returns an error and no result whenever the
    length of the feature vector differs from the configured size (the input
    size 128 of the loaded model for the cortex engine, [FeatureSize] for
    the ML cortex engine).  For the cortex engine this is the only error:
    on a vector of length 128 it returns a result.  The ML cortex engine
    returns an error only then or when [Predict] of the ML engine fails.  An
    error leaves the engine, hence all its statistics, as they were, so a
    later call answers as if the rejected one had not been made. *)
Theorem analyze_rejects_wrong_length {F} `{Float64 F} (math_Exp : F -> F)
    (now now' : time) (c : Cortex.Engine F) (e : MLCortex.MLCortexEngine F)
    (features features' : list F) (flowID flowID' : string) :
  cortex_loaded c ->
  (len features <> 128%Z ->
     exists m, Cortex.Analyze now c features flowID = (Err m, c))
  /\ (len features = 128%Z ->
        exists r c', Cortex.Analyze now c features flowID = (Ok r, c'))
  /\ (forall m c', Cortex.Analyze now c features flowID = (Err m, c') ->
        c' = c /\ len features <> 128%Z
        /\ Cortex.Analyze now' c' features' flowID' = Cortex.Analyze now' c features' flowID')
  /\ (len features <> Config.FeatureSize (MLCortex.config e) ->
        exists m, MLCortex.Analyze math_Exp now e features flowID = (Err m, e))
  /\ (forall m e', MLCortex.Analyze math_Exp now e features flowID = (Err m, e') ->
        e' = e
        /\ (len features <> Config.FeatureSize (MLCortex.config e)
            \/ is_Err (fst (ML.Predict math_Exp now (MLCortex.mlEngine e) features flowID))
               = true)
        /\ MLCortex.Analyze math_Exp now' e' features' flowID'
           = MLCortex.Analyze math_Exp now' e features' flowID').
Proof.
  intros Hloaded. split; [|split; [|split; [|split]]].
  - intros Hlen. eexists. apply cortex_analyze_mismatch; assumption.
  - intros Hlen. destruct (cortex_analyze_ok now c features flowID Hloaded Hlen) as (r & Hr & _).
    eauto.
  - intros m c' Herr.
    destruct (Z.eq_dec (len features) 128%Z) as [Hlen|Hlen].
    + destruct (cortex_analyze_ok now c features flowID Hloaded Hlen) as (r & Hr & _).
      congruence.
    + rewrite (cortex_analyze_mismatch now c features flowID Hloaded Hlen) in Herr.
      inversion Herr; subst. auto.
  - intros Hlen. eexists. apply mlcortex_analyze_mismatch. exact Hlen.
  - intros m e' Herr. destruct (mlcortex_analyze_error _ _ _ _ _ _ _ Herr) as [-> Hwhy].
    auto.
Qed.

Lemma analyze_rejects_wrong_length_witness :
  exists m, Cortex.Analyze (F := float) t0 (Cortex.NewEngine sample_cortex_config)
              [lit 1 2; lit 1 3] "test-flow"
            = (Err m, Cortex.NewEngine sample_cortex_config).
Proof.
  assert (Hloaded : cortex_loaded (Cortex.NewEngine (F := float) sample_cortex_config)).
  { eexists. split; [reflexivity|]. split; reflexivity. }
  destruct (analyze_rejects_wrong_length PrimFloat.sqrt t0 t0
              (Cortex.NewEngine sample_cortex_config)
              {| MLCortex.mlEngine := sample_engine sample_graph "ensemble" false;
                 MLCortex.config := neural_network_config;
                 MLCortex.stats :=
                   {| MLCortex.TotalInferences := 0; MLCortex.BotDetections := 0;
                      MLCortex.HumanDetections := 0; MLCortex.AverageConfidence := f_zero;
                      MLCortex.ModelAccuracy := f_zero; MLCortex.TrainingTime := 0;
                      MLCortex.LastInference := zeroTime;
                      MLCortex.ModelType := "ensemble" |} |}
              [lit 1 2; lit 1 3] [] "test-flow" "" Hloaded) as (Hrej & _).
  apply Hrej. vm_compute. discriminate.
Defined.

(** ** Feature extraction *)

Section Extraction.

Context {F : Type} `{Float64 F}.

Lemma computed_features_length (flow : Argus.Flow) :
  length (Argus.computed_features (F := F) flow) = 128%nat.
Proof.
  unfold Argus.computed_features. cbv zeta.
  destruct (1 <? len (Argus.Packets flow))%Z.
  - destruct (fold_left _ _ _) as [sum sumSq].
    rewrite !length_insert, length_replicate. reflexivity.
  - rewrite !length_insert, length_replicate. reflexivity.
Qed.

Lemma fill_length (features : list F) : length (Argus.fill features) = length features.
Proof. unfold Argus.fill. apply length_imap. Qed.

Lemma fill_lookup (features : list F) (i : nat) :
  Argus.fill features !! i
  = (fun x => if (x =? f_zero)%f64 then Argus.filler i else x) <$> features !! i.
Proof. unfold Argus.fill. apply list_lookup_imap. Qed.

Lemma extractFeatures_length (flow : Argus.Flow) :
  length (Argus.extractFeatures (F := F) flow) = 128%nat.
Proof.
  unfold Argus.extractFeatures. destruct (len (Argus.Packets flow) =? 0)%Z.
  - apply length_replicate.
  - rewrite fill_length. apply computed_features_length.
Qed.

(** The slots other than 0, 10, 20 and 21 are not assigned. *)
Lemma computed_features_unassigned (flow : Argus.Flow) (i : nat) :
  (i < 128)%nat -> i <> 0%nat -> i <> 10%nat -> i <> 20%nat -> i <> 21%nat ->
  Argus.computed_features (F := F) flow !! i = Some f_zero.
Proof.
  intros Hi H0 H10 H20 H21. unfold Argus.computed_features. cbv zeta.
  destruct (1 <? len (Argus.Packets flow))%Z.
  - destruct (fold_left _ _ _) as [sum sumSq].
    rewrite !list_lookup_insert_ne by congruence.
    apply lookup_replicate_2. exact Hi.
  - rewrite !list_lookup_insert_ne by congruence.
    apply lookup_replicate_2. exact Hi.
Qed.

Lemma non_empty_len (flow : Argus.Flow) :
  Argus.Packets flow <> [] -> (len (Argus.Packets flow) =? 0)%Z = false.
Proof.
  intros Hne. apply Z.eqb_neq. unfold len.
  destruct (Argus.Packets flow); [congruence | cbn; lia].
Qed.

Lemma extractFeatures_unassigned (flow : Argus.Flow) (i : nat) :
  (f_zero =? f_zero)%f64 = true ->
  Argus.Packets flow <> [] ->
  (i < 128)%nat -> i <> 0%nat -> i <> 10%nat -> i <> 20%nat -> i <> 21%nat ->
  Argus.extractFeatures (F := F) flow !! i = Some (Argus.filler i).
Proof.
  intros Hz Hne Hi H0 H10 H20 H21. unfold Argus.extractFeatures.
  rewrite (non_empty_len flow Hne), fill_lookup.
  rewrite (computed_features_unassigned flow i Hi H0 H10 H20 H21).
  cbn. rewrite Hz. reflexivity.
Qed.

Lemma extractFeatures_slot (flow : Argus.Flow) (i : nat) :
  Argus.Packets flow <> [] ->
  Argus.extractFeatures (F := F) flow !! i
  = (fun x => if (x =? f_zero)%f64 then Argus.filler i else x)
      <$> Argus.computed_features flow !! i.
Proof.
  intros Hne. unfold Argus.extractFeatures.
  rewrite (non_empty_len flow Hne). apply fill_lookup.
Qed.

End Extraction.

(** The filler is zero exactly at the multiples of 10. *)
Lemma filler_zero_exact (i : nat) :
  (Argus.filler (F := Q) i == 0)%Q <-> (i mod 10 = 0)%nat.
Proof.
  unfold Argus.filler. cbn [f_of_Z f_div exactQ].
  rewrite Z.rem_mod_nonneg by lia.
  replace (Z.of_nat i mod 10)%Z with (Z.of_nat (i mod 10)) by (rewrite Nat2Z.inj_mod; reflexivity).
  split.
  - intros Heq. destruct (Nat.eq_dec (i mod 10) 0) as [Hz|Hnz]; [exact Hz|]. exfalso.
    assert (Hpos : (0 < inject_Z (Z.of_nat (i mod 10)) / inject_Z 10)%Q).
    { apply Qlt_shift_div_l; [reflexivity|]. rewrite Qmult_0_l.
      change 0%Q with (inject_Z 0). rewrite <- Zlt_Qlt. lia. }
    rewrite Heq in Hpos. apply (Qlt_irrefl _ Hpos).
  - intros ->. reflexivity.
Qed.

Lemma filler_zero_binary64 (i : nat) :
  (i < 128)%nat ->
  (PrimFloat.eqb (Argus.filler i) 0 = true <-> (i mod 10 = 0)%nat).
Proof.
  intros Hi.
  assert (Hall : forallb (fun i => Bool.eqb (PrimFloat.eqb (Argus.filler i) 0)
                                            (i mod 10 =? 0)%nat) (seq 0 128) = true)
    by (vm_compute; reflexivity).
  rewrite forallb_forall in Hall.
  assert (Hin : In i (seq 0 128)) by (apply in_seq; lia).
  specialize (Hall i Hin). apply Bool.eqb_prop in Hall. rewrite Hall.
  apply Nat.eqb_eq.
Qed.

(** C2 as stated fails: for the flow of the end-to-end scenario (three
    packets), slot 30 is not assigned a computed value and holds zero after
    extraction, in double precision and in exact arithmetic; so does slot 10,
    whose computed value (the variance of two equal intervals) is zero. *)
Lemma filler_leaves_zero :
  Argus.Packets scenario_flow <> []
  /\ ~ In 30%nat assigned_slots
  /\ scenario_features (F := float) !! 30%nat = Some 0%float
  /\ (exists x, scenario_features (F := Q) !! 30%nat = Some x /\ (x == 0)%Q)
  /\ scenario_features (F := float) !! 10%nat = Some 0%float.
Proof.
  split; [discriminate|]. split; [cbn; intuition discriminate|].
  split; [vm_compute; reflexivity|]. split; [|vm_compute; reflexivity].
  eexists. split; [vm_compute; reflexivity | reflexivity].
Qed.

(** C2, amended. For every flow with at least one packet the extracted
    vector has exactly 128 slots; the last loop replaces the content of a
    slot that holds zero by (i mod 10) / 10 and leaves the other slots alone;
    every slot that is not assigned a computed value therefore holds
    (i mod 10) / 10, which is zero exactly when i is a multiple of 10; slot 1
    holds 0.1, so the vector is never all zero.  In exact arithmetic and in
    double precision. *)
Theorem extract_features_filler (flow : Argus.Flow) (i : nat) :
  Argus.Packets flow <> [] -> (i < 128)%nat ->
  length (Argus.extractFeatures (F := Q) flow) = 128%nat
  /\ length (Argus.extractFeatures (F := float) flow) = 128%nat
  /\ Argus.extractFeatures (F := Q) flow !! i
     = (fun x => if Qeq_bool x 0 then Argus.filler i else x)
         <$> Argus.computed_features flow !! i
  /\ Argus.extractFeatures (F := float) flow !! i
     = (fun x => if PrimFloat.eqb x 0 then Argus.filler i else x)
         <$> Argus.computed_features flow !! i
  /\ (~ In i assigned_slots ->
      Argus.extractFeatures (F := Q) flow !! i = Some (Argus.filler i)
      /\ Argus.extractFeatures (F := float) flow !! i = Some (Argus.filler i))
  /\ ((Argus.filler (F := Q) i == 0)%Q <-> (i mod 10 = 0)%nat)
  /\ (PrimFloat.eqb (Argus.filler i) 0 = true <-> (i mod 10 = 0)%nat)
  /\ (exists x, Argus.extractFeatures (F := Q) flow !! 1%nat = Some x /\ (x == 1 # 10)%Q)
  /\ Argus.extractFeatures (F := float) flow !! 1%nat = Some (lit 1 10).
Proof.
  intros Hne Hi.
  assert (Hunassigned : forall j, (j < 128)%nat -> ~ In j assigned_slots ->
            Argus.extractFeatures (F := Q) flow !! j = Some (Argus.filler j)
            /\ Argus.extractFeatures (F := float) flow !! j = Some (Argus.filler j)).
  { intros j Hj Hnot. unfold assigned_slots in Hnot. cbn [In] in Hnot.
    split; apply extractFeatures_unassigned; try reflexivity; try assumption;
      intros ->; apply Hnot; auto. }
  split; [apply extractFeatures_length|]. split; [apply extractFeatures_length|].
  split; [exact (extractFeatures_slot (F := Q) flow i Hne)|].
  split; [exact (extractFeatures_slot (F := float) flow i Hne)|].
  split; [apply Hunassigned; exact Hi|].
  split; [apply filler_zero_exact|]. split; [apply filler_zero_binary64; exact Hi|].
  destruct (Hunassigned 1%nat) as [Hq Hb]; [lia | cbn; intuition discriminate |].
  split; [|rewrite Hb; vm_compute; reflexivity].
  eexists. split; [exact Hq | vm_compute; reflexivity].
Qed.

Lemma extract_features_filler_witness :
  length (scenario_features (F := float)) = 128%nat
  /\ scenario_features (F := float) !! 7%nat = Some (lit 7 10).
Proof.
  destruct (extract_features_filler scenario_flow 7) as (_ & Hlen & _ & _ & Hun & _).
  - discriminate.
  - lia.
  - split; [exact Hlen|]. destruct Hun as [_ Hb]; [cbn; intuition discriminate|].
    exact Hb.
Defined.

(** The end-to-end scenario in double precision: average size 1133.33,
    packet count 3, duration 2.0 seconds. *)
Example scenario_bands_binary64 :
  scenario_features (F := float) !! 0%nat = Some (lit 3400 3)
  /\ scenario_features (F := float) !! 20%nat = Some (f_of_Z 3)
  /\ scenario_features (F := float) !! 21%nat = Some (f_of_Z 2).
Proof. vm_compute. repeat split; reflexivity. Qed.

(** ** Flow identifiers *)

Section FlowID.

Lemma contains_app (c : ascii) (a b : string) :
  contains c (a +:+ b) = contains c a || contains c b.
Proof.
  induction a as [|x a IH]; [reflexivity|].
  simpl. rewrite IH. apply orb_assoc.
Qed.

(** Two strings cut at the first occurrence of [c]. *)
Lemma split_first (c : ascii) (a a' b b' : string) :
  contains c a = false -> contains c a' = false ->
  a +:+ String c b = a' +:+ String c b' -> a = a' /\ b = b'.
Proof.
  revert a'. induction a as [|x a IH]; intros [|x' a'] Ha Ha' Heq; simpl in *.
  - inversion Heq. auto.
  - inversion Heq; subst. rewrite Ascii.eqb_refl in Ha'. discriminate.
  - inversion Heq; subst. rewrite Ascii.eqb_refl in Ha. discriminate.
  - inversion Heq; subst. apply orb_false_iff in Ha as [_ Ha], Ha' as [_ Ha'].
    destruct (IH a' Ha Ha' H1) as [-> ->]. auto.
Qed.

(** Two strings cut at the last occurrence of [c]. *)
Lemma split_last (c : ascii) (a a' b b' : string) :
  contains c b = false -> contains c b' = false ->
  a +:+ String c b = a' +:+ String c b' -> a = a' /\ b = b'.
Proof.
  intros Hb Hb'. revert a'. induction a as [|x a IH]; intros [|x' a'] Heq; simpl in *.
  - inversion Heq. auto.
  - inversion Heq; subst. rewrite contains_app in Hb. simpl in Hb.
    rewrite Ascii.eqb_refl, orb_true_r in Hb. discriminate.
  - inversion Heq; subst. rewrite contains_app in Hb'. simpl in Hb'.
    rewrite Ascii.eqb_refl, orb_true_r in Hb'. discriminate.
  - inversion Heq; subst. destruct (IH a' H1) as [-> ->]. auto.
Qed.

(** The decimal digits of a number are digits. *)
Lemma digits_only (c : ascii) (d : uint) :
  contains c "0123456789" = false ->
  contains c (NilEmpty.string_of_uint d) = false.
Proof.
  intros Hc. cbn [contains] in Hc. repeat (apply orb_false_iff in Hc as [? Hc]).
  induction d; cbn [contains NilEmpty.string_of_uint]; rewrite ?IHd;
    try reflexivity; apply orb_false_iff; split; auto.
Qed.

Lemma itoa_digits (c : ascii) (z : Z) :
  (0 <= z)%Z -> contains c "0123456789" = false -> contains c (itoa z) = false.
Proof.
  intros Hz Hc. unfold itoa. destruct z as [|p|p]; [| |lia].
  - cbn [contains] in Hc. apply orb_false_iff in Hc as [Hc _].
    change (contains c "0" = false). cbn [contains]. rewrite Hc. reflexivity.
  - cbn [Z.to_int NilZero.string_of_int]. unfold NilZero.string_of_uint.
    pose proof (Unsigned.to_uint_nonnil p) as Hnn.
    destruct (Pos.to_uint p) eqn:Hd; try congruence; rewrite <- Hd;
      apply digits_only; exact Hc.
Qed.

Lemma to_int_proper (z : Z) : Z.to_int z <> Pos Nil /\ Z.to_int z <> Neg Nil.
Proof.
  destruct z as [|p|p]; cbn; split; try discriminate;
    intros [= Hp]; apply (Unsigned.to_uint_nonnil p Hp).
Qed.

Lemma itoa_inj (z z' : Z) : itoa z = itoa z' -> z = z'.
Proof.
  unfold itoa. intros Heq. apply DecimalZ.to_int_inj.
  destruct (to_int_proper z) as [H1 H2]. destruct (to_int_proper z') as [H1' H2'].
  pose proof (NilZero.isi (Z.to_int z) H1 H2) as Hz.
  pose proof (NilZero.isi (Z.to_int z') H1' H2') as Hz'.
  rewrite Heq in Hz. congruence.
Qed.

End FlowID.

Lemma append_assoc (a b c : string) : (a +:+ b) +:+ c = a +:+ b +:+ c.
Proof.
  induction a as [|x a IH]; [reflexivity|].
  change (String x ((a +:+ b) +:+ c) = String x (a +:+ b +:+ c)).
  rewrite IH. reflexivity.
Qed.

(** The hypothesis on the source address in the theorem below cannot be
    dropped: the format does not escape its separators, so two strings that
    contain them, which no address literal does, can be told apart by no
    ID. *)
Lemma flow_id_collision :
  Argus.generateFlowID "10.0.0.1:80-10.0.0.2" "10.0.0.3" 443 8080
  = Argus.generateFlowID "10.0.0.1" "10.0.0.2:443-10.0.0.3" 80 8080
  /\ ("10.0.0.1:80-10.0.0.2", "10.0.0.3", 443%Z, 8080%Z)
     <> ("10.0.0.1", "10.0.0.2:443-10.0.0.3", 80%Z, 8080%Z)
  /\ Argus.uint16 443 /\ Argus.uint16 8080 /\ Argus.uint16 80.
Proof.
  split; [vm_compute; reflexivity|]. split; [discriminate|].
  unfold Argus.uint16. lia.
Qed.

(** C9. [generateFlowID] is a function of the 4-tuple, and it is injective
    on the 4-tuples it is given: the source address is an IP address
    literal, which contains no ['-'], and the ports are [uint16].  Two such
    4-tuples have the same ID exactly when they agree in all four
    components.  In particular the ID of a flow and that of the reverse
    flow differ unless source and destination coincide. *)
Theorem flow_id_injective (srcIP dstIP srcIP' dstIP' : string)
    (srcPort dstPort srcPort' dstPort' : Z) :
  Argus.uint16 srcPort -> Argus.uint16 dstPort ->
  Argus.uint16 srcPort' -> Argus.uint16 dstPort' ->
  contains "-" srcIP = false -> contains "-" srcIP' = false ->
  (Argus.generateFlowID srcIP dstIP srcPort dstPort
   = Argus.generateFlowID srcIP' dstIP' srcPort' dstPort'
   <-> srcIP = srcIP' /\ dstIP = dstIP' /\ srcPort = srcPort' /\ dstPort = dstPort').
Proof.
  intros Hsp Hdp Hsp' Hdp' Hs Hs'. unfold Argus.uint16 in *.
  split; [|intros (-> & -> & -> & ->); reflexivity].
  unfold Argus.generateFlowID. intros Heq.
  assert (Hleft : forall s p, contains "-" s = false -> (0 <= p)%Z ->
                    contains "-" (s +:+ ":" +:+ itoa p) = false).
  { intros s p Hc Hp. rewrite !contains_app, Hc, itoa_digits by (lia || reflexivity).
    reflexivity. }
  assert (Hshape : forall s p d q,
            s +:+ ":" +:+ itoa p +:+ "-" +:+ d +:+ ":" +:+ itoa q
            = (s +:+ ":" +:+ itoa p) +:+ String "-" (d +:+ String ":" (itoa q))).
  { intros s p d q. rewrite !append_assoc. reflexivity. }
  rewrite !Hshape in Heq.
  apply split_first in Heq as [Hl Hr]; [|apply Hleft; [assumption | lia]..].
  apply split_last in Hr as [-> Hq];
    [|apply itoa_digits; [lia | reflexivity]..].
  change (srcIP +:+ String ":" (itoa srcPort) = srcIP' +:+ String ":" (itoa srcPort')) in Hl.
  apply split_last in Hl as [-> Hp];
    [|apply itoa_digits; [lia | reflexivity]..].
  apply itoa_inj in Hp, Hq. auto.
Qed.

Lemma flow_id_injective_witness :
  Argus.generateFlowID "192.168.1.100" "8.8.8.8" 54321 443
  <> Argus.generateFlowID "8.8.8.8" "192.168.1.100" 443 54321.
Proof.
  intros Heq.
  apply (flow_id_injective "192.168.1.100" "8.8.8.8" "8.8.8.8" "192.168.1.100"
           54321 443 443 54321) in Heq;
    [| unfold Argus.uint16; lia | unfold Argus.uint16; lia | unfold Argus.uint16; lia
     | unfold Argus.uint16; lia | reflexivity | reflexivity ].
  destruct Heq as (Hs & _). discriminate Hs.
Defined.

(** The identifiers of [TestGenerateFlowID]. *)
Example test_generate_flow_id :
  Argus.generateFlowID "192.168.1.100" "8.8.8.8" 54321 443 = "192.168.1.100:54321-8.8.8.8:443"
  /\ Argus.generateFlowID "10.0.0.1" "1.1.1.1" 12345 80 = "10.0.0.1:12345-1.1.1.1:80".
Proof. vm_compute. split; reflexivity. Qed.

(** ** The idle sweep *)

Section Sweep.

Context {F : Type} `{Float64 F}.

Lemma stale_idle (now : time) (flow : Argus.Flow) :
  Argus.stale (now - Argus.idle_timeout) flow
  = (Argus.idle_timeout <? now - Argus.LastSeen flow)%Z.
Proof.
  unfold Argus.stale.
  destruct (Z.ltb_spec (Argus.LastSeen flow) (now - Argus.idle_timeout)),
           (Z.ltb_spec Argus.idle_timeout (now - Argus.LastSeen flow)); (reflexivity || lia).
Qed.

Lemma sweep_table (now : time) (e : Argus.Engine F) (id : string) :
  Argus.flows (Argus.removeOldFlows now e) !! id
  = match Argus.flows e !! id with
    | Some p => if Argus.stale_at (now - Argus.idle_timeout) e p then None else Some p
    | None => None
    end.
Proof.
  unfold Argus.removeOldFlows. cbv zeta. cbn [Argus.flows].
  destruct (Argus.flows e !! id) as [p|] eqn:Hf.
  - destruct (Argus.stale_at (now - Argus.idle_timeout) e p) eqn:Hs.
    + apply map_lookup_filter_None. right. intros p' Hf'.
      rewrite Hf in Hf'. injection Hf' as <-. cbn. congruence.
    + apply map_lookup_filter_Some. split; [exact Hf | exact Hs].
  - apply map_lookup_filter_None. left. exact Hf.
Qed.

Lemma sweep_heap (now : time) (e : Argus.Engine F) :
  Argus.heap (Argus.removeOldFlows now e) = Argus.heap e.
Proof. reflexivity. Qed.

Lemma sweep_lookup (now : time) (e : Argus.Engine F) (id : string) :
  Argus.flow_of (Argus.removeOldFlows now e) id
  = match Argus.flow_of e id with
    | Some flow =>
        if (Argus.idle_timeout <? now - Argus.LastSeen flow)%Z then None else Some flow
    | None => None
    end.
Proof.
  unfold Argus.flow_of. rewrite sweep_table, sweep_heap.
  destruct (Argus.flows e !! id) as [p|]; [|reflexivity]. cbn.
  unfold Argus.stale_at. destruct (Argus.heap e !! p) as [flow|] eqn:Hp.
  - rewrite <- stale_idle. destruct (Argus.stale _ flow); cbn; [reflexivity | exact Hp].
  - cbn. exact Hp.
Qed.

(** The flows of the table are those that remain and those that are stale. *)
Lemma sweep_size (now : time) (e : Argus.Engine F) :
  size (Argus.flows e)
  = (size (Argus.flows (Argus.removeOldFlows now e))
     + size (filter (fun kv : string * nat =>
                       ¬ Argus.stale_at (now - Argus.idle_timeout) e kv.2 = false)
                    (Argus.flows e)))%nat.
Proof.
  unfold Argus.removeOldFlows. cbv zeta. cbn [Argus.flows].
  rewrite <- map_size_disj_union by apply map_disjoint_filter_complement.
  rewrite map_filter_union_complement. reflexivity.
Qed.

End Sweep.

(** C8 as stated fails: [removeOldFlows] has no return value.  The one
    count it produces is [ActiveFlows] in the capture statistics, and that is
    the number of flows that remain: sweeping the three-flow table eleven
    minutes after [t0] removes one flow and records 2. *)
Lemma sweep_records_remaining_flows :
  let e' := Argus.removeOldFlows (t0 + 11 * Minute) sweep_engine in
  size (Argus.flows sweep_engine) = 3%nat
  /\ size (Argus.flows e') = 2%nat
  /\ Argus.flow_of e' "10.0.0.1:1000-10.0.0.9:80" = None
  /\ Argus.ActiveFlows (Argus.stats e') = 2%Z
  /\ Argus.ActiveFlows (Argus.stats e')
     <> Z.of_nat (size (Argus.flows sweep_engine) - size (Argus.flows e')).
Proof. vm_compute. repeat split; congruence. Qed.

(** C8, amended. The sweep, whose idle timeout is fixed at five minutes,
    removes from the table exactly the flows with
    [now - lastSeen > idleTimeout] and leaves the other flows as they are: a
    flow last seen at [T] is in the table after a sweep at [T + D - eps] (and
    at [T + D]) and not after a sweep at [T + D + eps].  The sweep returns
    nothing; it records the number of flows that remain as [ActiveFlows], and
    the flows removed are the stale ones of the table before. *)
Theorem sweep_removes_idle {F} `{Float64 F}
    (now eps : time) (e : Argus.Engine F) (id : string) (flow : Argus.Flow) :
  Argus.flow_of e id = Some flow -> (0 < eps)%Z ->
  (forall id',
     Argus.flow_of (Argus.removeOldFlows now e) id'
     = match Argus.flow_of e id' with
       | Some flow' =>
           if (Argus.idle_timeout <? now - Argus.LastSeen flow')%Z then None
           else Some flow'
       | None => None
       end)
  /\ Argus.flow_of
       (Argus.removeOldFlows (Argus.LastSeen flow + Argus.idle_timeout - eps) e) id
     = Some flow
  /\ Argus.flow_of
       (Argus.removeOldFlows (Argus.LastSeen flow + Argus.idle_timeout) e) id
     = Some flow
  /\ Argus.flow_of
       (Argus.removeOldFlows (Argus.LastSeen flow + Argus.idle_timeout + eps) e) id
     = None
  /\ Argus.ActiveFlows (Argus.stats (Argus.removeOldFlows now e))
     = Z.of_nat (size (Argus.flows (Argus.removeOldFlows now e)))
  /\ size (Argus.flows e)
     = (size (Argus.flows (Argus.removeOldFlows now e))
        + size (filter (fun kv : string * nat =>
                          ¬ Argus.stale_at (now - Argus.idle_timeout) e kv.2 = false)
                       (Argus.flows e)))%nat
  /\ Argus.idle_timeout = (300 * Second)%Z.
Proof.
  intros Hflow Heps.
  split; [intros id'; apply sweep_lookup|].
  split; [rewrite sweep_lookup, Hflow;
          replace (_ <? _)%Z with false by (symmetry; apply Z.ltb_ge; lia); reflexivity|].
  split; [rewrite sweep_lookup, Hflow;
          replace (_ <? _)%Z with false by (symmetry; apply Z.ltb_ge; lia); reflexivity|].
  split; [rewrite sweep_lookup, Hflow;
          replace (_ <? _)%Z with true by (symmetry; apply Z.ltb_lt; lia); reflexivity|].
  split; [reflexivity|]. split; [apply sweep_size | reflexivity].
Qed.

Lemma sweep_removes_idle_witness :
  Argus.flow_of (Argus.removeOldFlows (t0 + 10 * Minute + Argus.idle_timeout + 1)
                   sweep_engine) "10.0.0.2:1000-10.0.0.9:80" = None.
Proof.
  destruct (sweep_removes_idle t0 1 sweep_engine "10.0.0.2:1000-10.0.0.9:80"
              {| Argus.ID := "10.0.0.2:1000-10.0.0.9:80";
                 Argus.Packets :=
                   [ {| Argus.Timestamp := (t0 + 10 * Minute)%Z; Argus.Size := 100;
                        Argus.Direction := "outbound"; Argus.Protocol := "TCP" |} ];
                 Argus.StartTime := (t0 + 10 * Minute)%Z;
                 Argus.LastSeen := (t0 + 10 * Minute)%Z;
                 Argus.AnalysisPending := false |})
    as (_ & _ & _ & Hgone & _).
  - vm_compute. reflexivity.
  - lia.
  - exact Hgone.
Defined.

(** [TestRemoveOldFlows]: of a flow seen now and a flow seen ten minutes
    ago, the sweep keeps the first and removes the second. *)
Example test_remove_old_flows :
  let recent := {| Argus.ID := "recent-flow"; Argus.Packets := [];
                   Argus.StartTime := (t0 - Minute)%Z; Argus.LastSeen := t0;
                   Argus.AnalysisPending := false |} in
  let old := {| Argus.ID := "old-flow"; Argus.Packets := [];
                Argus.StartTime := (t0 - 15 * Minute)%Z;
                Argus.LastSeen := (t0 - 10 * Minute)%Z;
                Argus.AnalysisPending := false |} in
  let e := {| Argus.cortex := Cortex.NewEngine (F := float) sample_cortex_config;
              Argus.heap := [recent; old];
              Argus.flows := <["old-flow" := 1%nat]> (<["recent-flow" := 0%nat]> ∅);
              Argus.stats := Argus.stats (Argus.NewEngine
                                            (Cortex.NewEngine (F := float) sample_cortex_config)) |} in
  Argus.flow_of (Argus.removeOldFlows t0 e) "recent-flow" = Some recent
  /\ Argus.flow_of (Argus.removeOldFlows t0 e) "old-flow" = None.
Proof. vm_compute. split; reflexivity. Qed.

(** ** The pending flag *)

Section Pending.

Context {F : Type} `{Float64 F}.

Implicit Types (e : Argus.Engine F) (s : Argus.System F) (id : string) (p : nat).

Lemma flag_flag_at e id p : Argus.flows e !! id = Some p -> flag e id = flag_at e p.
Proof. intros Hp. unfold flag, flag_at, Argus.flow_of. rewrite Hp. reflexivity. Qed.

(** *** Ingestion keeps the flag of every flow *)

Lemma heap_alter_flag (hp : list Argus.Flow) (f : Argus.Flow -> Argus.Flow) p q b :
  (forall x, Argus.AnalysisPending (f x) = Argus.AnalysisPending x) ->
  Argus.AnalysisPending <$> hp !! p = Some b ->
  Argus.AnalysisPending <$> alter f q hp !! p = Some b.
Proof.
  intros Hf Hb. rewrite list_lookup_alter. destruct (decide (q = p)) as [->|Hne]; [|exact Hb].
  destruct (hp !! p); [|discriminate]. cbn in *. rewrite Hf. exact Hb.
Qed.

Lemma heap_app_flag (hp : list Argus.Flow) (flow : Argus.Flow) p b :
  Argus.AnalysisPending <$> hp !! p = Some b ->
  Argus.AnalysisPending <$> (hp ++ [flow]) !! p = Some b.
Proof.
  intros Hb. destruct (hp !! p) as [x|] eqn:Hx; [|discriminate].
  rewrite (lookup_app_l_Some _ _ _ _ Hx). exact Hb.
Qed.

Lemma addPacketToFlow_flag_at now fid pkt e p b :
  flag_at e p = Some b -> flag_at (Argus.addPacketToFlow now fid pkt e) p = Some b.
Proof.
  unfold flag_at, Argus.addPacketToFlow. intros Hb.
  destruct (Argus.flows e !! fid) as [q|]; cbn [Argus.heap].
  - apply heap_alter_flag; [reflexivity | exact Hb].
  - apply heap_alter_flag; [reflexivity|]. apply heap_app_flag. exact Hb.
Qed.

Lemma addPacketToFlow_table_wf now fid pkt e :
  table_wf e -> table_wf (Argus.addPacketToFlow now fid pkt e).
Proof.
  intros [Hlt Hinj]. unfold table_wf, Argus.addPacketToFlow.
  destruct (Argus.flows e !! fid) as [q|] eqn:Hq; cbn [Argus.heap Argus.flows].
  - rewrite length_alter. split; assumption.
  - rewrite length_alter, length_app. cbn [length]. split.
    + intros id p Hp. apply lookup_insert_Some in Hp as [[_ <-]|[_ Hp]]; [lia|].
      specialize (Hlt id p Hp). lia.
    + intros id id' p Hp Hp'.
      apply lookup_insert_Some in Hp as [[<- <-]|[Hne Hp]];
        apply lookup_insert_Some in Hp' as [[<- Heq]|[Hne' Hp']]; try reflexivity.
      * specialize (Hlt id' _ Hp'). lia.
      * specialize (Hlt id _ Hp). lia.
      * exact (Hinj id id' p Hp Hp').
Qed.

Lemma simulatePacketCapture_fold now e :
  exists e', Argus.flows (Argus.simulatePacketCapture now e) = Argus.flows e'
    /\ Argus.heap (Argus.simulatePacketCapture now e) = Argus.heap e'
    /\ (forall p b, flag_at e p = Some b -> flag_at e' p = Some b)
    /\ (table_wf e -> table_wf e').
Proof.
  unfold Argus.simulatePacketCapture. cbv zeta.
  generalize Argus.simulated_packets. intros l.
  revert e. induction l as [|[[[[srcIP dstIP] srcPort] dstPort] size] l IH]; intros e.
  - exists e. cbn. auto.
  - cbn [fold_left].
    destruct (IH (Argus.addPacketToFlow now
                    (Argus.generateFlowID srcIP dstIP srcPort dstPort)
                    {| Argus.Timestamp := now; Argus.Size := size;
                       Argus.Direction := "outbound"; Argus.Protocol := "TCP" |} e))
      as (e' & Hfl & Hhp & Hkeep & Hwf).
    exists e'. split; [exact Hfl|]. split; [exact Hhp|]. split.
    + intros p b Hb. apply Hkeep. apply addPacketToFlow_flag_at. exact Hb.
    + intros Ht. apply Hwf. apply addPacketToFlow_table_wf. exact Ht.
Qed.

Lemma simulatePacketCapture_flag_at now e p b :
  flag_at e p = Some b -> flag_at (Argus.simulatePacketCapture now e) p = Some b.
Proof.
  destruct (simulatePacketCapture_fold now e) as (e' & _ & Hhp & Hkeep & _).
  unfold flag_at at 2. rewrite Hhp. apply Hkeep.
Qed.

Lemma simulatePacketCapture_table_wf now e :
  table_wf e -> table_wf (Argus.simulatePacketCapture now e).
Proof.
  destruct (simulatePacketCapture_fold now e) as (e' & Hfl & Hhp & _ & Hwf).
  intros Ht. unfold table_wf. rewrite Hfl, Hhp. apply (Hwf Ht).
Qed.

(** *** Marking sets the flag of one flow *)

Lemma markPending_flag_at q e p :
  flag_at (Argus.markPending q e) p
  = if decide (q = p) then (fun _ => true) <$> Argus.heap e !! p else flag_at e p.
Proof.
  unfold flag_at, Argus.markPending. cbn [Argus.heap].
  rewrite list_lookup_alter. destruct (decide (q = p)) as [->|Hne]; [|reflexivity].
  destruct (Argus.heap e !! p); reflexivity.
Qed.

Lemma markPending_table_wf q e : table_wf e -> table_wf (Argus.markPending q e).
Proof.
  unfold table_wf, Argus.markPending. cbn [Argus.heap Argus.flows].
  rewrite length_alter. auto.
Qed.

Lemma dispatch_engine q e : fst (Argus.dispatch q e) = Argus.markPending q e.
Proof.
  unfold Argus.dispatch. cbv zeta.
  destruct (Argus.heap (Argus.markPending q e) !! q); reflexivity.
Qed.

Lemma dispatch_task q e :
  task_ids (snd (Argus.dispatch q e))
  = if decide (is_Some (Argus.heap e !! q)) then [q] else [].
Proof.
  unfold Argus.dispatch. cbv zeta.
  assert (Hq : Argus.heap (Argus.markPending q e) !! q
               = Argus.set_pending <$> Argus.heap e !! q).
  { unfold Argus.markPending. cbn [Argus.heap]. apply list_lookup_alter_eq. }
  rewrite Hq. destruct (Argus.heap e !! q) as [flow|]; cbn.
  - rewrite decide_True by eauto. reflexivity.
  - rewrite decide_False; [reflexivity|]. intros Hs. exact (is_Some_None Hs).
Qed.

(** *** Scoring touches neither the table nor the flows *)

Lemma runTask_heap now t e :
  Argus.heap (fst (Argus.runTask now t e)) = Argus.heap e
  /\ Argus.flows (fst (Argus.runTask now t e)) = Argus.flows e.
Proof.
  unfold Argus.runTask. destruct (Argus.heap e !! Argus.task_flow t) as [flow|]; [|auto].
  destruct (Cortex.Analyze now (Argus.cortex e) (Argus.task_features t) (Argus.ID flow))
    as [[r|m|] c]; auto.
Qed.

(** *** The sweep touches the table only *)

Lemma removeOldFlows_table_wf now e : table_wf e -> table_wf (Argus.removeOldFlows now e).
Proof.
  intros [Hlt Hinj]. split.
  - intros id p. rewrite sweep_table, sweep_heap.
    destruct (Argus.flows e !! id) as [q|] eqn:Hq; [|discriminate].
    destruct (Argus.stale_at _ e q); [discriminate|]. intros [= <-]. exact (Hlt _ _ Hq).
  - intros id id' p. rewrite !sweep_table.
    destruct (Argus.flows e !! id) as [q|] eqn:Hq; [|discriminate].
    destruct (Argus.flows e !! id') as [q'|] eqn:Hq'; [|destruct (Argus.stale_at _ e q); discriminate].
    destruct (Argus.stale_at _ e q); [discriminate|].
    destruct (Argus.stale_at _ e q'); [discriminate|].
    intros [= <-] [= <-]. exact (Hinj _ _ _ Hq Hq').
Qed.

(** *** Selection *)

Lemma eligible_spec e p :
  p ∈ Argus.eligible e
  <-> exists id, Argus.flows e !! id = Some p /\ Argus.ready_at e p = true.
Proof.
  unfold Argus.eligible. rewrite list_elem_of_fmap. split.
  - intros ([id p'] & -> & Hin). apply list_elem_of_filter in Hin as [Hr Hin].
    apply elem_of_map_to_list in Hin. exists id. split; assumption.
  - intros (id & Hf & Hr). exists (id, p). split; [reflexivity|].
    apply list_elem_of_filter. split; [exact Hr|]. apply elem_of_map_to_list. exact Hf.
Qed.

(** A flow is selected only while its flag is clear. *)
Lemma eligible_not_pending e p : p ∈ Argus.eligible e -> flag_at e p = Some false.
Proof.
  rewrite eligible_spec. intros (id & _ & Hr). unfold flag_at.
  unfold Argus.ready_at in Hr. destruct (Argus.heap e !! p) as [flow|]; [|discriminate].
  cbn. unfold Argus.ready in Hr. apply andb_true_iff in Hr as [Hp _].
  destruct (Argus.AnalysisPending flow); [discriminate | reflexivity].
Qed.

Lemma eligible_NoDup e : table_wf e -> NoDup (Argus.eligible e).
Proof.
  intros [_ Hinj]. unfold Argus.eligible. apply NoDup_fmap_2_strong.
  - intros [id p] [id' p'] Hin Hin' Heq. cbn in Heq. subst p'.
    apply list_elem_of_filter in Hin as [_ Hin], Hin' as [_ Hin'].
    apply elem_of_map_to_list in Hin, Hin'. f_equal. exact (Hinj _ _ _ Hin Hin').
  - apply NoDup_filter. apply NoDup_map_to_list.
Qed.

End Pending.

(** ** Runs of the system *)

Section Runs.

Context {F : Type} `{Float64 F}.

Implicit Types (e : Argus.Engine F) (s : Argus.System F) (id : string) (p : nat).

Lemma exec_dispatch_engine s c p rest :
  Argus.cycles s !! c = Some (p :: rest) ->
  Argus.engine (Argus.exec s (Argus.Dispatch c)) = Argus.markPending p (Argus.engine s)
  /\ Argus.tasks (Argus.exec s (Argus.Dispatch c))
     = Argus.tasks s ++ option_list (snd (Argus.dispatch p (Argus.engine s)))
  /\ Argus.cycles (Argus.exec s (Argus.Dispatch c)) = <[c := rest]> (Argus.cycles s)
  /\ Argus.completed (Argus.exec s (Argus.Dispatch c)) = Argus.completed s.
Proof.
  intros Hc. cbn [Argus.exec]. rewrite Hc.
  pose proof (dispatch_engine p (Argus.engine s)) as He.
  destruct (Argus.dispatch p (Argus.engine s)) as [e t]. cbn in *. subst e. auto.
Qed.

Lemma exec_finish s now k t :
  Argus.tasks s !! k = Some t ->
  Argus.heap (Argus.engine (Argus.exec s (Argus.Finish now k))) = Argus.heap (Argus.engine s)
  /\ Argus.flows (Argus.engine (Argus.exec s (Argus.Finish now k)))
     = Argus.flows (Argus.engine s)
  /\ Argus.tasks (Argus.exec s (Argus.Finish now k)) = delete k (Argus.tasks s)
  /\ Argus.cycles (Argus.exec s (Argus.Finish now k)) = Argus.cycles s
  /\ Argus.completed (Argus.exec s (Argus.Finish now k))
     = Argus.completed s ++ [(Argus.task_flow t, snd (Argus.runTask now t (Argus.engine s)))].
Proof.
  intros Ht. cbn [Argus.exec]. rewrite Ht.
  destruct (runTask_heap now t (Argus.engine s)) as [Hhp Hfl].
  destruct (Argus.runTask now t (Argus.engine s)) as [e o]. cbn in *. auto.
Qed.

(** No event clears the flag of a flow. *)
Lemma exec_flag_at s ev p :
  flag_at (Argus.engine s) p = Some true ->
  flag_at (Argus.engine (Argus.exec s ev)) p = Some true.
Proof.
  intros Hp. destruct ev as [now fid pkt|now|c|c|now k|now].
  - cbn. apply addPacketToFlow_flag_at. exact Hp.
  - cbn. apply simulatePacketCapture_flag_at. exact Hp.
  - cbn. destruct (Argus.cycles s !! c); exact Hp.
  - destruct (Argus.cycles s !! c) as [[|q rest]|] eqn:Hc.
    + cbn. rewrite Hc. exact Hp.
    + destruct (exec_dispatch_engine s c q rest Hc) as (-> & _).
      rewrite markPending_flag_at. destruct (decide (q = p)) as [->|Hne]; [|exact Hp].
      unfold flag_at in Hp. destruct (Argus.heap (Argus.engine s) !! p); [reflexivity|discriminate].
    + cbn. rewrite Hc. exact Hp.
  - destruct (Argus.tasks s !! k) as [t|] eqn:Ht.
    + destruct (exec_finish s now k t Ht) as (Hhp & _). unfold flag_at. rewrite Hhp. exact Hp.
    + cbn. rewrite Ht. exact Hp.
  - exact Hp.
Qed.

Lemma run_flag_at s evs p :
  flag_at (Argus.engine s) p = Some true ->
  flag_at (Argus.engine (Argus.run s evs)) p = Some true.
Proof.
  revert s. induction evs as [|ev evs IH]; intros s Hp; [exact Hp|].
  cbn [Argus.run fold_left]. apply IH. apply exec_flag_at. exact Hp.
Qed.

Lemma exec_table_wf s ev :
  table_wf (Argus.engine s) -> table_wf (Argus.engine (Argus.exec s ev)).
Proof.
  intros Hwf. destruct ev as [now fid pkt|now|c|c|now k|now].
  - apply addPacketToFlow_table_wf. exact Hwf.
  - apply simulatePacketCapture_table_wf. exact Hwf.
  - cbn. destruct (Argus.cycles s !! c); exact Hwf.
  - destruct (Argus.cycles s !! c) as [[|q rest]|] eqn:Hc.
    + cbn. rewrite Hc. exact Hwf.
    + destruct (exec_dispatch_engine s c q rest Hc) as (-> & _).
      apply markPending_table_wf. exact Hwf.
    + cbn. rewrite Hc. exact Hwf.
  - destruct (Argus.tasks s !! k) as [t|] eqn:Ht.
    + destruct (exec_finish s now k t Ht) as (Hhp & Hfl & _).
      unfold table_wf. rewrite Hhp, Hfl. exact Hwf.
    + cbn. rewrite Ht. exact Hwf.
  - apply removeOldFlows_table_wf. exact Hwf.
Qed.

Lemma start_table_wf (c : Cortex.Engine F) :
  table_wf (Argus.engine (Argus.start (Argus.NewEngine c))).
Proof.
  split.
  - intros id p Hp. cbn in Hp. rewrite lookup_empty in Hp. discriminate.
  - intros id id' p Hp. cbn in Hp. rewrite lookup_empty in Hp. discriminate.
Qed.

Lemma flagged_not_eligible e p : flag_at e p = Some true -> p ∉ Argus.eligible e.
Proof. intros Hp Hin. apply eligible_not_pending in Hin. congruence. Qed.

(** *** [performFlowAnalysis] as a sequence of events *)

Lemma dispatch_all_acc (ps : list nat) e (acc : list (Argus.Task F)) :
  fold_left (fun '(e, tasks) p =>
               let '(e, t) := Argus.dispatch p e in (e, tasks ++ option_list t))
            ps (e, acc)
  = (fst (Argus.dispatch_all ps e), acc ++ snd (Argus.dispatch_all ps e)).
Proof.
  unfold Argus.dispatch_all. revert e acc.
  induction ps as [|p ps IH]; intros e acc; cbn [fold_left].
  - cbn. rewrite app_nil_r. reflexivity.
  - destruct (Argus.dispatch p e) as [e1 t]. rewrite (IH e1 (acc ++ option_list t)).
    rewrite (IH e1 ([] ++ option_list t)). cbn [fst snd app].
    rewrite app_assoc. reflexivity.
Qed.

(** A call that has selected the flows [ps] and runs its second loop
    without interruption does what [dispatch_all] does. *)
Lemma run_dispatches s c ps :
  Argus.cycles s !! c = Some ps ->
  Argus.run s (repeat (Argus.Dispatch c) (S (length ps)))
  = {| Argus.engine := fst (Argus.dispatch_all ps (Argus.engine s));
       Argus.cycles := delete c (Argus.cycles s);
       Argus.tasks := Argus.tasks s ++ snd (Argus.dispatch_all ps (Argus.engine s));
       Argus.completed := Argus.completed s |}.
Proof.
  revert s. induction ps as [|p ps IH]; intros s Hc.
  - cbn. rewrite Hc, app_nil_r. reflexivity.
  - change (Argus.run s (repeat (Argus.Dispatch c) (S (length (p :: ps)))))
      with (Argus.run (Argus.exec s (Argus.Dispatch c))
              (repeat (Argus.Dispatch c) (S (length ps)))).
    destruct (exec_dispatch_engine s c p ps Hc) as (Heng & Htasks & Hcycles & Hcomp).
    rewrite IH by (rewrite Hcycles; apply lookup_insert_eq).
    rewrite Heng, Htasks, Hcycles, Hcomp, delete_insert_eq.
    unfold Argus.dispatch_all at 3 4. cbn [fold_left].
    pose proof (dispatch_engine p (Argus.engine s)) as He.
    destruct (Argus.dispatch p (Argus.engine s)) as [e1 t]. cbn [fst snd] in *. subst e1.
    rewrite dispatch_all_acc. cbn [fst snd app]. rewrite <- app_assoc. reflexivity.
Qed.

(** A call of [performFlowAnalysis] that runs without interruption. *)
Lemma run_cycle s c :
  Argus.cycles s !! c = None ->
  Argus.run s (Argus.Query c
               :: repeat (Argus.Dispatch c) (S (length (Argus.eligible (Argus.engine s)))))
  = {| Argus.engine := fst (Argus.performFlowAnalysis (Argus.engine s));
       Argus.cycles := Argus.cycles s;
       Argus.tasks := Argus.tasks s ++ snd (Argus.performFlowAnalysis (Argus.engine s));
       Argus.completed := Argus.completed s |}.
Proof.
  intros Hc.
  change (Argus.run s (Argus.Query c :: ?l)) with (Argus.run (Argus.exec s (Argus.Query c)) l).
  cbn [Argus.exec]. rewrite Hc.
  rewrite (run_dispatches _ c (Argus.eligible (Argus.engine s)))
    by (cbn; apply lookup_insert_eq).
  cbn [Argus.engine Argus.cycles Argus.tasks Argus.completed].
  rewrite delete_insert_id by exact Hc. reflexivity.
Qed.

End Runs.

(** C1 as stated fails: after one analysis cycle over the three simulated
    flows (ten packets each) and the completion of the three scorings, each
    with a result, the flag of every flow is still set, no flow is eligible,
    and none becomes eligible when ten more packets arrive: a later cycle
    selects nothing. *)
Lemma pending_not_cleared :
  let s := Argus.run busy_system one_cycle in
  id_of (Argus.engine busy_system) <$> Argus.eligible (Argus.engine busy_system)
  = [Some "172.16.0.10:65432-208.67.222.222:53"; Some "192.168.1.100:54321-8.8.8.8:443";
     Some "10.0.0.50:12345-1.1.1.1:80"]
  /\ completed_flows s
     = [(Some "172.16.0.10:65432-208.67.222.222:53", Ok tt);
        (Some "192.168.1.100:54321-8.8.8.8:443", Ok tt);
        (Some "10.0.0.50:12345-1.1.1.1:80", Ok tt)]
  /\ Argus.tasks s = []
  /\ flag (Argus.engine s) "192.168.1.100:54321-8.8.8.8:443" = Some true
  /\ flag (Argus.engine s) "172.16.0.10:65432-208.67.222.222:53" = Some true
  /\ flag (Argus.engine s) "10.0.0.50:12345-1.1.1.1:80" = Some true
  /\ Argus.eligible (Argus.engine s) = []
  /\ Argus.eligible (Argus.engine (Argus.run s (capture_ticks (t0 + 6 * Second)))) = []
  /\ Argus.cycles (Argus.run s (capture_ticks (t0 + 6 * Second) ++ [Argus.Query 1]))
     = {[ 1%nat := [] ]}.
Proof. vm_compute. repeat split; reflexivity. Qed.

(** C1, amended. When an analysis cycle dispatches a flow, a goroutine is
    started for it and its flag is set; whatever happens afterwards, the
    flag of that flow is still set, in particular after its scoring has
    finished, with a result or with an error; a flow whose flag is set is
    not eligible, so the flow is not selected again (under any ID under
    which the table holds it). *)
Theorem pending_flag_stays_set {F} `{Float64 F}
    (s : Argus.System F) (c p : nat) (rest : list nat) (evs : list Argus.event) :
  Argus.cycles s !! c = Some (p :: rest) ->
  is_Some (Argus.heap (Argus.engine s) !! p) ->
  let s1 := Argus.exec s (Argus.Dispatch c) in
  let s2 := Argus.run s1 evs in
  p ∈ (Argus.task_flow <$> Argus.tasks s1)
  /\ flag_at (Argus.engine s1) p = Some true
  /\ flag_at (Argus.engine s2) p = Some true
  /\ (p ∉ Argus.eligible (Argus.engine s2))
  /\ (forall id, Argus.flows (Argus.engine s2) !! id = Some p ->
        flag (Argus.engine s2) id = Some true)
  /\ (forall now k t,
        Argus.tasks s2 !! k = Some t ->
        let s3 := Argus.exec s2 (Argus.Finish now k) in
        (Argus.task_flow t, snd (Argus.runTask now t (Argus.engine s2))) ∈ Argus.completed s3
        /\ flag_at (Argus.engine s3) p = Some true
        /\ (p ∉ Argus.eligible (Argus.engine s3))).
Proof.
  intros Hc Hsome s1 s2.
  destruct (exec_dispatch_engine s c p rest Hc) as (Heng & Htasks & _).
  assert (Hp1 : flag_at (Argus.engine s1) p = Some true).
  { subst s1. rewrite Heng, markPending_flag_at, decide_True by reflexivity.
    destruct Hsome as [flow ->]. reflexivity. }
  assert (Hp2 : flag_at (Argus.engine s2) p = Some true) by (apply run_flag_at; exact Hp1).
  split.
  { subst s1. rewrite Htasks, fmap_app.
    change (Argus.task_flow <$> option_list ?t) with (task_ids t).
    rewrite (dispatch_task p (Argus.engine s)), decide_True by exact Hsome.
    apply elem_of_app. right. apply list_elem_of_singleton. reflexivity. }
  split; [exact Hp1|]. split; [exact Hp2|].
  split; [apply flagged_not_eligible; exact Hp2|].
  split; [intros id Hid; rewrite (flag_flag_at _ id p Hid); exact Hp2|].
  intros now k t Ht s3.
  assert (Hp3 : flag_at (Argus.engine s3) p = Some true) by (apply exec_flag_at; exact Hp2).
  split; [|split; [exact Hp3 | apply flagged_not_eligible; exact Hp3]].
  destruct (exec_finish s2 now k t Ht) as (_ & _ & _ & _ & Hcompleted).
  subst s3. rewrite Hcompleted. apply elem_of_app. right.
  apply list_elem_of_singleton. reflexivity.
Qed.

Lemma pending_flag_stays_set_witness :
  let s1 := Argus.exec (Argus.exec busy_system (Argus.Query 0)) (Argus.Dispatch 0) in
  flag_at (Argus.engine
             (Argus.run s1 (capture_ticks (t0 + 6 * Second)
                            ++ [Argus.Finish (t0 + 7 * Second) 0; Argus.Sweep (t0 + 8 * Second)])))
          2 = Some true.
Proof.
  intros s1.
  destruct (pending_flag_stays_set (Argus.exec busy_system (Argus.Query 0)) 0 2 [0; 1]%nat
              (capture_ticks (t0 + 6 * Second)
               ++ [Argus.Finish (t0 + 7 * Second) 0; Argus.Sweep (t0 + 8 * Second)]))
    as (_ & _ & Hp & _).
  - vm_compute. reflexivity.
  - vm_compute. eexists. reflexivity.
  - exact Hp.
Defined.

(** ** Cycles that do not overlap *)

Section Serial.

Context {F : Type} `{Float64 F}.

Implicit Types (e : Argus.Engine F) (s : Argus.System F) (id : string) (p : nat).

(** An event that changes neither the goroutines nor the cycles, and keeps
    the flag of every flow, keeps the invariant. *)
Lemma serial_inv_engine s s' :
  serial_inv s ->
  table_wf (Argus.engine s') ->
  Argus.cycles s' = Argus.cycles s ->
  Argus.tasks s' = Argus.tasks s ->
  Argus.completed s' = Argus.completed s ->
  (forall p b, flag_at (Argus.engine s) p = Some b -> flag_at (Argus.engine s') p = Some b) ->
  serial_inv s'.
Proof.
  intros (Hwf & Hnd & Hpend & Hcyc) Hwf' Hc Ht Hcomp Hkeep.
  unfold serial_inv, Argus.dispatched in *.
  rewrite Hc, Ht, Hcomp. split; [exact Hwf'|]. split; [exact Hnd|]. split.
  - intros p Hin. apply Hkeep. apply (Hpend p Hin).
  - intros c ps Hps. destruct (Hcyc c ps Hps) as (Hn & Hf & Hu).
    split; [exact Hn|]. split; [|exact Hu].
    intros p Hin. apply Hkeep. exact (Hf p Hin).
Qed.

Lemma serial_inv_query s c :
  serial_inv s -> Argus.cycles s = ∅ -> serial_inv (Argus.exec s (Argus.Query c)).
Proof.
  intros (Hwf & Hnd & Hpend & Hcyc) Hempty.
  cbn [Argus.exec]. rewrite Hempty, lookup_empty.
  unfold serial_inv, Argus.dispatched in *. cbn.
  split; [exact Hwf|]. split; [exact Hnd|]. split; [exact Hpend|].
  intros c' ps Hps. apply lookup_insert_Some in Hps as [[<- <-]|[_ Hps]];
    [|rewrite lookup_empty in Hps; discriminate].
  split; [apply eligible_NoDup; exact Hwf|]. split.
  - intros p Hin. apply eligible_not_pending. exact Hin.
  - intros c'' Hsome. apply lookup_insert_is_Some in Hsome as [Heq|[_ Hsome]];
      [symmetry; exact Heq|].
    rewrite lookup_empty in Hsome. exfalso. exact (is_Some_None Hsome).
Qed.

Lemma serial_inv_dispatch s c :
  serial_inv s -> serial_inv (Argus.exec s (Argus.Dispatch c)).
Proof.
  intros Hinv. destruct (Argus.cycles s !! c) as [[|q rest]|] eqn:Hc.
  - (* the cycle returns *)
    destruct Hinv as (Hwf & Hnd & Hpend & Hcyc).
    cbn [Argus.exec]. rewrite Hc.
    unfold serial_inv, Argus.dispatched in *. cbn.
    split; [exact Hwf|]. split; [exact Hnd|]. split; [exact Hpend|].
    intros c' ps Hps. apply lookup_delete_Some in Hps as [Hne Hps].
    destruct (Hcyc c [] Hc) as (_ & _ & Hu). exfalso. apply Hne. symmetry. apply Hu. eauto.
  - (* the cycle dispatches the flow q *)
    destruct Hinv as (Hwf & Hnd & Hpend & Hcyc).
    destruct (Hcyc c (q :: rest) Hc) as (Hndq & Hclear & Hu).
    destruct (exec_dispatch_engine s c q rest Hc) as (Heng & Htasks & Hcycles & Hcomp).
    assert (Hq : flag_at (Argus.engine s) q = Some false) by (apply Hclear; left).
    assert (Hsome : is_Some (Argus.heap (Argus.engine s) !! q)).
    { unfold flag_at in Hq. destruct (Argus.heap (Argus.engine s) !! q); [eauto|discriminate]. }
    assert (Hdisp : Argus.dispatched (Argus.exec s (Argus.Dispatch c))
                    = Argus.dispatched s ++ [q]).
    { unfold Argus.dispatched. rewrite Htasks, Hcomp, fmap_app, app_assoc.
      change (Argus.task_flow <$> option_list ?t) with (task_ids t).
      rewrite (dispatch_task q (Argus.engine s)), decide_True by exact Hsome.
      reflexivity. }
    assert (Hfresh : q ∉ Argus.dispatched s).
    { intros Hin. specialize (Hpend q Hin). congruence. }
    unfold serial_inv. rewrite Hdisp, Hcycles.
    split; [rewrite Heng; apply markPending_table_wf; exact Hwf|].
    split; [apply NoDup_app; split; [exact Hnd|]; split;
            [intros x Hx Hx'; apply list_elem_of_singleton in Hx'; subst x; auto
            |apply NoDup_singleton]|].
    split.
    + intros p Hin. rewrite Heng, markPending_flag_at.
      destruct (decide (q = p)) as [<-|Hne].
      * destruct Hsome as [flow ->]. reflexivity.
      * apply elem_of_app in Hin as [Hin|Hin].
        -- exact (Hpend p Hin).
        -- apply list_elem_of_singleton in Hin. congruence.
    + intros c' ps Hps. apply NoDup_cons in Hndq as [Hqrest Hndrest].
      assert (Hc' : forall c'', is_Some (<[c := rest]> (Argus.cycles s) !! c'') -> c'' = c).
      { intros c'' Hs. apply lookup_insert_is_Some in Hs as [Heq|[_ Hs]]; [congruence|].
        apply Hu. exact Hs. }
      assert (c' = c) by (apply Hc'; eauto). subst c'.
      rewrite lookup_insert_eq in Hps. injection Hps as <-.
      split; [exact Hndrest|]. split; [|intros c'' Hs; apply Hc'; exact Hs].
      intros p Hin. rewrite Heng, markPending_flag_at.
      rewrite decide_False by (intros <-; contradiction).
      apply Hclear. right. exact Hin.
  - cbn [Argus.exec]. rewrite Hc. exact Hinv.
Qed.

Lemma serial_inv_finish s now k :
  serial_inv s -> serial_inv (Argus.exec s (Argus.Finish now k)).
Proof.
  intros Hinv. destruct (Argus.tasks s !! k) as [t|] eqn:Ht;
    [|cbn [Argus.exec]; rewrite Ht; exact Hinv].
  destruct Hinv as (Hwf & Hnd & Hpend & Hcyc).
  destruct (exec_finish s now k t Ht) as (Hhp & Hfl & Htasks & Hcycles & Hcomp).
  assert (Hperm : Argus.dispatched (Argus.exec s (Argus.Finish now k)) ≡ₚ Argus.dispatched s).
  { unfold Argus.dispatched. rewrite Htasks, Hcomp, fmap_app. cbn [fmap list_fmap fst].
    rewrite <- app_assoc. apply Permutation_app_head. cbn [app].
    rewrite (delete_Permutation (Argus.tasks s) k t Ht) at 2. reflexivity. }
  unfold serial_inv, flag_at, table_wf in *.
  rewrite Hhp, Hfl, Hcycles. split; [exact Hwf|].
  split; [rewrite Hperm; exact Hnd|]. split; [|exact Hcyc].
  intros p Hin. rewrite Hperm in Hin. exact (Hpend p Hin).
Qed.

Lemma serial_inv_exec s ev :
  serial_inv s ->
  match ev with
  | Argus.Query _ => Argus.cycles s = ∅
  | _ => True
  end ->
  serial_inv (Argus.exec s ev).
Proof.
  intros Hinv Hev. destruct ev as [now fid pkt|now|c|c|now k|now].
  - apply (serial_inv_engine s); try reflexivity; [exact Hinv | |].
    + apply addPacketToFlow_table_wf. apply Hinv.
    + intros p b. apply addPacketToFlow_flag_at.
  - apply (serial_inv_engine s); try reflexivity; [exact Hinv | |].
    + apply simulatePacketCapture_table_wf. apply Hinv.
    + intros p b. apply simulatePacketCapture_flag_at.
  - apply serial_inv_query; assumption.
  - apply serial_inv_dispatch; assumption.
  - apply serial_inv_finish; assumption.
  - apply (serial_inv_engine s); try reflexivity; [exact Hinv | |].
    + apply removeOldFlows_table_wf. apply Hinv.
    + intros p b Hb. exact Hb.
Qed.

Lemma serial_inv_run s evs :
  serial_inv s -> serial s evs -> serial_inv (Argus.run s evs).
Proof.
  revert s. induction evs as [|ev evs IH]; intros s Hinv Hser; [exact Hinv|].
  cbn in Hser. destruct Hser as [Hev Hser]. cbn [Argus.run fold_left].
  apply IH; [apply serial_inv_exec; assumption | exact Hser].
Qed.

Lemma serial_inv_start (c : Cortex.Engine F) :
  serial_inv (Argus.start (Argus.NewEngine c)).
Proof.
  split; [apply start_table_wf|]. split; [apply NoDup_nil_2|]. split.
  - intros p Hin. cbn in Hin. apply elem_of_nil in Hin. contradiction.
  - intros c' ps Hps. cbn in Hps. rewrite lookup_empty in Hps. discriminate.
Qed.

End Serial.

(** C10 as stated fails: when two analysis cycles overlap so that both
    select before either marks, both select the same flow (its flag is clear
    at both selections), both dispatch it, and its scoring completes twice,
    while the flow is never eligible in between. *)
Lemma overlapping_cycles_score_twice :
  let id := "172.16.0.10:65432-208.67.222.222:53" in
  let s2 := Argus.run busy_system [Argus.Query 0; Argus.Query 1] in
  let s3 := Argus.exec s2 (Argus.Dispatch 0) in
  let s4 := Argus.exec s3 (Argus.Dispatch 1) in
  let s5 := Argus.exec s4 (Argus.Finish (t0 + 5 * Second) 0) in
  let s6 := Argus.exec s5 (Argus.Finish (t0 + 5 * Second) 0) in
  s6 = Argus.run busy_system two_overlapping_cycles
  /\ Argus.flows (Argus.engine busy_system) !! id = Some 2%nat
  /\ flag (Argus.engine busy_system) id = Some false
  /\ Argus.cycles s2 !! 0%nat = Some [2; 0; 1]%nat
  /\ Argus.cycles s2 !! 1%nat = Some [2; 0; 1]%nat
  /\ Argus.task_flow <$> Argus.tasks s4 = [2; 2]%nat
  /\ Argus.completed s6 = [(2%nat, Ok tt); (2%nat, Ok tt)]
  /\ completed_flows s6 = [(Some id, Ok tt); (Some id, Ok tt)]
  /\ Argus.AnalyzedFlows (Argus.stats (Argus.engine s6)) = 2%Z
  /\ Argus.eligible (Argus.engine s3) = [0; 1]%nat
  /\ Argus.eligible (Argus.engine s4) = [0; 1]%nat
  /\ Argus.eligible (Argus.engine s5) = [0; 1]%nat
  /\ Argus.eligible (Argus.engine s6) = [0; 1]%nat.
Proof. vm_compute. repeat split; reflexivity. Qed.

(** C10, amended. A flow is selected as eligible only while its flag is
    clear, and the cycle sets the flag when it dispatches the flow.  When the
    analysis cycles do not overlap (each starts after the previous one has
    returned, as when the one goroutine of [analyzeFlows] runs them), then
    whatever the interleaving with ingestion, with the sweep and with the
    scoring goroutines, no flow is dispatched twice, and every dispatched
    flow has its flag set and is not eligible. *)
Theorem serial_cycles_dispatch_once {F} `{Float64 F}
    (c : Cortex.Engine F) (evs : list Argus.event) :
  serial (Argus.start (Argus.NewEngine c)) evs ->
  let s := Argus.run (Argus.start (Argus.NewEngine c)) evs in
  NoDup (Argus.dispatched s)
  /\ (forall p, p ∈ Argus.dispatched s ->
        flag_at (Argus.engine s) p = Some true /\ (p ∉ Argus.eligible (Argus.engine s)))
  /\ (forall p, p ∈ Argus.eligible (Argus.engine s) ->
        flag_at (Argus.engine s) p = Some false)
  /\ (forall n ps, Argus.cycles s !! n = Some ps ->
        forall p, p ∈ ps -> flag_at (Argus.engine s) p = Some false).
Proof.
  intros Hser s.
  destruct (serial_inv_run _ evs (serial_inv_start c) Hser) as (_ & Hnd & Hpend & Hcyc).
  split; [exact Hnd|]. split; [|split].
  - intros p Hin. split; [exact (Hpend p Hin)|].
    apply flagged_not_eligible. exact (Hpend p Hin).
  - intros p. apply eligible_not_pending.
  - intros n ps Hps. destruct (Hcyc n ps Hps) as (_ & Hclear & _). exact Hclear.
Qed.

Lemma serial_cycles_dispatch_once_witness :
  NoDup (Argus.dispatched
           (Argus.run (Argus.start (Argus.NewEngine
                                      (Cortex.NewEngine (F := float) sample_cortex_config)))
              (capture_ticks t0 ++ one_cycle ++ capture_ticks (t0 + 6 * Second)
               ++ [Argus.Sweep (t0 + 7 * Second); Argus.Query 1; Argus.Dispatch 1]))).
Proof.
  destruct (serial_cycles_dispatch_once
              (Cortex.NewEngine (F := float) sample_cortex_config)
              (capture_ticks t0 ++ one_cycle ++ capture_ticks (t0 + 6 * Second)
               ++ [Argus.Sweep (t0 + 7 * Second); Argus.Query 1; Argus.Dispatch 1]))
    as (Hnd & _).
  - vm_compute. repeat split.
  - exact Hnd.
Defined.

(* ===================================================================== *)
(** * Further properties of the code *)
(* ===================================================================== *)

(** ** The flow table *)

Section FlowTable.

Context {F : Type} `{Float64 F}.

Implicit Types (e : Argus.Engine F) (id : string) (p : nat).

Lemma flow_of_None e id :
  table_wf e -> Argus.flow_of e id = None -> Argus.flows e !! id = None.
Proof.
  intros [Hlt _] Hnone. unfold Argus.flow_of in Hnone.
  destruct (Argus.flows e !! id) as [p|] eqn:Hp; [|reflexivity]. cbn in Hnone.
  apply lookup_ge_None in Hnone. specialize (Hlt id p Hp). lia.
Qed.

Lemma addPacketToFlow_known now id pkt e p flow :
  Argus.flows e !! id = Some p -> Argus.heap e !! p = Some flow ->
  Argus.flows (Argus.addPacketToFlow now id pkt e) = Argus.flows e
  /\ Argus.heap (Argus.addPacketToFlow now id pkt e)
     = alter (Argus.append_packet pkt) p (Argus.heap e).
Proof.
  intros Hp Hflow. unfold Argus.addPacketToFlow. rewrite Hp. cbn. split; reflexivity.
Qed.

Lemma addPacketToFlow_fresh now id pkt e :
  Argus.flows e !! id = None ->
  Argus.flows (Argus.addPacketToFlow now id pkt e)
  = <[id := length (Argus.heap e)]> (Argus.flows e)
  /\ Argus.heap (Argus.addPacketToFlow now id pkt e)
     = Argus.heap e
       ++ [ {| Argus.ID := id; Argus.Packets := [pkt]; Argus.StartTime := now;
               Argus.LastSeen := Argus.Timestamp pkt; Argus.AnalysisPending := false |} ].
Proof.
  intros Hp. unfold Argus.addPacketToFlow. rewrite Hp. cbn. split; [reflexivity|].
  rewrite alter_app_r_alt by reflexivity.
  rewrite Nat.sub_diag. reflexivity.
Qed.

Lemma addPacketToFlow_active now id pkt e :
  Argus.ActiveFlows (Argus.stats (Argus.addPacketToFlow now id pkt e))
  = Z.of_nat (size (Argus.flows (Argus.addPacketToFlow now id pkt e))).
Proof.
  unfold Argus.addPacketToFlow. destruct (Argus.flows e !! id); reflexivity.
Qed.

End FlowTable.

(** X1. Adding a packet and looking the flow up.  In a well-formed table, after
    [addPacketToFlow] under [id]: a flow that was tracked has the packet
    appended and its last-seen time set to the time of the packet, the rest
    of it unchanged; an untracked ID gets a new flow with this one packet,
    started at the reading of the clock and not pending; the flow under any
    other ID is the same as before; the packet total is unchanged and the
    count of active flows is the number of flows in the table. *)
Theorem add_packet_lookup {F} `{Float64 F}
    (now : time) (id : string) (pkt : Argus.Packet) (e : Argus.Engine F) :
  table_wf e ->
  let e' := Argus.addPacketToFlow now id pkt e in
  (forall flow, Argus.flow_of e id = Some flow ->
     Argus.flow_of e' id
     = Some {| Argus.ID := Argus.ID flow;
               Argus.Packets := Argus.Packets flow ++ [pkt];
               Argus.StartTime := Argus.StartTime flow;
               Argus.LastSeen := Argus.Timestamp pkt;
               Argus.AnalysisPending := Argus.AnalysisPending flow |}
     /\ size (Argus.flows e') = size (Argus.flows e))
  /\ (Argus.flow_of e id = None ->
      Argus.flow_of e' id
      = Some {| Argus.ID := id; Argus.Packets := [pkt]; Argus.StartTime := now;
                Argus.LastSeen := Argus.Timestamp pkt; Argus.AnalysisPending := false |}
      /\ size (Argus.flows e') = S (size (Argus.flows e)))
  /\ (forall id', id' <> id -> Argus.flow_of e' id' = Argus.flow_of e id')
  /\ Argus.TotalPackets (Argus.stats e') = Argus.TotalPackets (Argus.stats e)
  /\ Argus.ActiveFlows (Argus.stats e') = Z.of_nat (size (Argus.flows e')).
Proof.
  intros Hwf e'. split; [|split; [|split; [|split]]].
  - intros flow Hflow. unfold Argus.flow_of in Hflow.
    destruct (Argus.flows e !! id) as [p|] eqn:Hp; [|discriminate]. cbn in Hflow.
    destruct (addPacketToFlow_known now id pkt e p flow Hp Hflow) as [Hfl Hhp].
    subst e'. unfold Argus.flow_of. rewrite Hfl, Hhp, Hp. cbn. split; [|reflexivity].
    rewrite list_lookup_alter_eq, Hflow. reflexivity.
  - intros Hnone. pose proof (flow_of_None e id Hwf Hnone) as Hp.
    destruct (addPacketToFlow_fresh now id pkt e Hp) as [Hfl Hhp].
    subst e'. unfold Argus.flow_of. rewrite Hfl, Hhp, lookup_insert_eq. cbn. split.
    + apply list_lookup_middle. reflexivity.
    + apply map_size_insert_None. exact Hp.
  - intros id' Hne. subst e'. unfold Argus.flow_of.
    destruct (Argus.flows e !! id) as [p|] eqn:Hp.
    + destruct (Argus.heap e !! p) as [flow|] eqn:Hflow.
      * destruct (addPacketToFlow_known now id pkt e p flow Hp Hflow) as [-> ->].
        destruct (Argus.flows e !! id') as [q|] eqn:Hq; [|reflexivity]. cbn.
        apply list_lookup_alter_ne. intros <-. apply Hne.
        destruct Hwf as [_ Hinj]. exact (Hinj id' id p Hq Hp).
      * destruct Hwf as [Hlt _]. apply lookup_ge_None in Hflow.
        specialize (Hlt id p Hp). lia.
    + destruct (addPacketToFlow_fresh now id pkt e Hp) as [-> ->].
      rewrite lookup_insert_ne by congruence.
      destruct (Argus.flows e !! id') as [q|] eqn:Hq; [|reflexivity]. cbn.
      apply lookup_app_l. destruct Hwf as [Hlt _]. exact (Hlt id' q Hq).
  - subst e'. unfold Argus.addPacketToFlow. destruct (Argus.flows e !! id); reflexivity.
  - apply addPacketToFlow_active.
Qed.

Lemma add_packet_lookup_witness :
  Argus.flow_of
    (Argus.addPacketToFlow t0 "10.0.0.1:1000-10.0.0.9:80" (simulated_packet 100 t0)
       (Argus.NewEngine (Cortex.NewEngine (F := float) sample_cortex_config)))
    "10.0.0.1:1000-10.0.0.9:80"
  = Some {| Argus.ID := "10.0.0.1:1000-10.0.0.9:80";
            Argus.Packets := [simulated_packet 100 t0]; Argus.StartTime := t0;
            Argus.LastSeen := t0; Argus.AnalysisPending := false |}.
Proof.
  destruct (add_packet_lookup t0 "10.0.0.1:1000-10.0.0.9:80" (simulated_packet 100 t0)
              (Argus.NewEngine (Cortex.NewEngine (F := float) sample_cortex_config)))
    as (_ & Hnew & _).
  - split.
    + intros id p Hp. cbn in Hp. rewrite lookup_empty in Hp. discriminate.
    + intros id id' p Hp. cbn in Hp. rewrite lookup_empty in Hp. discriminate.
  - destruct Hnew as [Hflow _]; [reflexivity | exact Hflow].
Defined.

(** ** The capture statistics over a run *)

Lemma wrap64_add (a b : Z) : wrap64 (wrap64 a + b) = wrap64 (a + b).
Proof.
  unfold wrap64. f_equal.
  replace ((a + 2 ^ 63) mod 2 ^ 64 - 2 ^ 63 + b + 2 ^ 63)%Z
    with ((a + 2 ^ 63) mod 2 ^ 64 + b)%Z by lia.
  rewrite Zplus_mod_idemp_l. f_equal. lia.
Qed.

Lemma count_app {A} (f : A -> bool) (l l' : list A) : count f (l ++ l') = (count f l + count f l')%Z.
Proof. unfold count, len. rewrite List.filter_app, length_app. lia. Qed.

Lemma run_invariant {F} `{Float64 F} (P : Argus.System F -> Prop)
    (s : Argus.System F) (evs : list Argus.event) :
  P s -> (forall s ev, P s -> P (Argus.exec s ev)) -> P (Argus.run s evs).
Proof.
  intros Hs Hstep. revert s Hs. induction evs as [|ev evs IH]; intros s Hs; [exact Hs|].
  cbn [Argus.run fold_left]. apply IH. apply Hstep. exact Hs.
Qed.

Section CaptureStatistics.

Context {F : Type} `{Float64 F}.

Implicit Types (e : Argus.Engine F) (s : Argus.System F) (id : string) (p : nat).

Lemma addPacketToFlow_static now id pkt e :
  Argus.cortex (Argus.addPacketToFlow now id pkt e) = Argus.cortex e
  /\ Argus.TotalPackets (Argus.stats (Argus.addPacketToFlow now id pkt e))
     = Argus.TotalPackets (Argus.stats e)
  /\ Argus.AnalyzedFlows (Argus.stats (Argus.addPacketToFlow now id pkt e))
     = Argus.AnalyzedFlows (Argus.stats e)
  /\ Argus.LastPacket (Argus.stats (Argus.addPacketToFlow now id pkt e))
     = Argus.LastPacket (Argus.stats e).
Proof. unfold Argus.addPacketToFlow. destruct (Argus.flows e !! id); cbn; auto. Qed.

Lemma simulatePacketCapture_stats now e :
  Argus.cortex (Argus.simulatePacketCapture now e) = Argus.cortex e
  /\ Argus.TotalPackets (Argus.stats (Argus.simulatePacketCapture now e))
     = add64 (Argus.TotalPackets (Argus.stats e)) 3
  /\ Argus.AnalyzedFlows (Argus.stats (Argus.simulatePacketCapture now e))
     = Argus.AnalyzedFlows (Argus.stats e)
  /\ Argus.LastPacket (Argus.stats (Argus.simulatePacketCapture now e)) = now
  /\ Argus.ActiveFlows (Argus.stats (Argus.simulatePacketCapture now e))
     = Z.of_nat (size (Argus.flows (Argus.simulatePacketCapture now e))).
Proof.
  unfold Argus.simulatePacketCapture, Argus.simulated_packets. cbv zeta.
  cbn [fold_left Argus.with_stats Argus.cortex Argus.stats Argus.flows
       Argus.TotalPackets Argus.AnalyzedFlows Argus.LastPacket Argus.ActiveFlows].
  repeat match goal with
  | |- context [Argus.addPacketToFlow ?n ?i ?p ?x] =>
      lazymatch goal with
      | _ : Argus.cortex (Argus.addPacketToFlow n i p x) = _ |- _ => fail
      | _ => destruct (addPacketToFlow_static n i p x) as (? & ? & ? & ?)
      end
  end.
  split; [congruence|]. split; [f_equal; congruence|]. split; [congruence|].
  split; [reflexivity|]. apply addPacketToFlow_active.
Qed.

Lemma runTask_stats now t e :
  Argus.TotalPackets (Argus.stats (fst (Argus.runTask now t e)))
  = Argus.TotalPackets (Argus.stats e)
  /\ Argus.ActiveFlows (Argus.stats (fst (Argus.runTask now t e)))
     = Argus.ActiveFlows (Argus.stats e)
  /\ Argus.AnalyzedFlows (Argus.stats (fst (Argus.runTask now t e)))
     = if succeeded (snd (Argus.runTask now t e))
       then incr64 (Argus.AnalyzedFlows (Argus.stats e))
       else Argus.AnalyzedFlows (Argus.stats e).
Proof.
  unfold Argus.runTask. destruct (Argus.heap e !! Argus.task_flow t) as [flow|]; [|cbn; auto].
  destruct (Cortex.Analyze now (Argus.cortex e) (Argus.task_features t) (Argus.ID flow))
    as [[r|m|] c]; cbn; auto.
Qed.

(** What an event does to the statistics. *)
Lemma exec_stats s ev :
  let e := Argus.engine s in
  let e' := Argus.engine (Argus.exec s ev) in
  Argus.TotalPackets (Argus.stats e')
  = (if is_capture ev then add64 (Argus.TotalPackets (Argus.stats e)) 3
     else Argus.TotalPackets (Argus.stats e))
  /\ (Argus.ActiveFlows (Argus.stats e) = Z.of_nat (size (Argus.flows e)) ->
      Argus.ActiveFlows (Argus.stats e') = Z.of_nat (size (Argus.flows e')))
  /\ (Argus.AnalyzedFlows (Argus.stats e)
      = wrap64 (count (fun r => succeeded r.2) (Argus.completed s)) ->
      Argus.AnalyzedFlows (Argus.stats e')
      = wrap64 (count (fun r => succeeded r.2) (Argus.completed (Argus.exec s ev)))).
Proof.
  intros e e'. subst e e'. destruct ev as [now fid pkt|now|c|c|now k|now].
  - cbn [Argus.exec Argus.with_engine Argus.engine Argus.completed is_capture].
    destruct (addPacketToFlow_static now fid pkt (Argus.engine s)) as (_ & Ht & Ha & _).
    rewrite Ht, Ha. split; [reflexivity|]. split; [|auto].
    intros _. apply addPacketToFlow_active.
  - cbn [Argus.exec Argus.with_engine Argus.engine Argus.completed is_capture].
    destruct (simulatePacketCapture_stats now (Argus.engine s)) as (_ & Ht & Ha & _ & Hact).
    rewrite Ht, Ha. auto.
  - cbn [Argus.exec is_capture]. destruct (Argus.cycles s !! c); cbn; auto.
  - destruct (Argus.cycles s !! c) as [[|q rest]|] eqn:Hc.
    + cbn. rewrite Hc. cbn. auto.
    + destruct (exec_dispatch_engine s c q rest Hc) as (-> & _ & _ & ->). cbn. auto.
    + cbn. rewrite Hc. auto.
  - destruct (Argus.tasks s !! k) as [t|] eqn:Ht; [|cbn; rewrite Ht; auto].
    destruct (exec_finish s now k t Ht) as (_ & Hfl & _ & _ & Hcomp).
    rewrite Hfl, Hcomp. cbn [Argus.exec is_capture]. rewrite Ht.
    destruct (runTask_stats now t (Argus.engine s)) as (Htot & Hact & Han).
    destruct (Argus.runTask now t (Argus.engine s)) as [e1 o]. cbn [fst snd Argus.engine] in *.
    split; [exact Htot|]. split; [congruence|].
    intros Hinv. rewrite Han, count_app. unfold count at 2. cbn [List.filter snd].
    destruct (succeeded o); cbn [len length Z.of_nat].
    + rewrite Hinv. unfold incr64. rewrite wrap64_add. reflexivity.
    + rewrite Hinv. f_equal. unfold len. cbn. lia.
  - cbn [Argus.exec Argus.with_engine Argus.engine Argus.completed is_capture].
    split; [reflexivity|]. split; [reflexivity|]. auto.
Qed.

Lemma wrap64_idem (a : Z) : wrap64 (wrap64 a) = wrap64 a.
Proof. pose proof (wrap64_add a 0) as Hw. rewrite !Z.add_0_r in Hw. exact Hw. Qed.

Lemma run_total_packets s evs (n : Z) :
  Argus.TotalPackets (Argus.stats (Argus.engine s)) = wrap64 n ->
  Argus.TotalPackets (Argus.stats (Argus.engine (Argus.run s evs)))
  = wrap64 (n + 3 * count is_capture evs).
Proof.
  revert s n. induction evs as [|ev evs IH]; intros s n Hn.
  - cbn [Argus.run fold_left]. rewrite Hn. change (count is_capture []) with 0%Z.
    f_equal. lia.
  - change (Argus.run s (ev :: evs)) with (Argus.run (Argus.exec s ev) evs).
    destruct (exec_stats s ev) as (Ht & _). cbv zeta in Ht.
    change (ev :: evs) with ([ev] ++ evs). rewrite count_app.
    unfold count at 1. cbn [List.filter]. destruct (is_capture ev).
    + rewrite (IH _ (n + 3)%Z).
      * change (len [ev]) with 1%Z. apply f_equal. lia.
      * rewrite Ht, Hn. unfold add64. apply wrap64_add.
    + rewrite (IH _ n).
      * change (len []) with 0%Z. apply f_equal. lia.
      * rewrite Ht. exact Hn.
Qed.

End CaptureStatistics.

(** X2. The count of active flows.  However ingestion, the analysis cycles, the
    scoring goroutines and the sweep interleave, [ActiveFlows] of the capture
    statistics is the number of flows in the table. *)
Theorem active_flows_is_table_size {F} `{Float64 F}
    (c : Cortex.Engine F) (evs : list Argus.event) :
  let s := Argus.run (Argus.start (Argus.NewEngine c)) evs in
  Argus.ActiveFlows (Argus.stats (Argus.engine s))
  = Z.of_nat (size (Argus.flows (Argus.engine s))).
Proof.
  cbv zeta.
  apply (run_invariant
           (fun s => Argus.ActiveFlows (Argus.stats (Argus.engine s))
                     = Z.of_nat (size (Argus.flows (Argus.engine s))))).
  - reflexivity.
  - intros s ev Hs. destruct (exec_stats s ev) as (_ & Hact & _). exact (Hact Hs).
Qed.

(** X3. The packet and analysis counters.  In every run, [TotalPackets] is three
    times the number of ticks of the simulated capture (a packet added by
    [addPacketToFlow] alone is not counted), and [AnalyzedFlows] is the
    number of scorings that ended with a result (a scoring that ended with an
    error is not counted); both as 64-bit integers. *)
Theorem counters_count_ticks_and_results {F} `{Float64 F}
    (c : Cortex.Engine F) (evs : list Argus.event) :
  let s := Argus.run (Argus.start (Argus.NewEngine c)) evs in
  Argus.TotalPackets (Argus.stats (Argus.engine s)) = wrap64 (3 * count is_capture evs)
  /\ Argus.AnalyzedFlows (Argus.stats (Argus.engine s))
     = wrap64 (count (fun r => succeeded r.2) (Argus.completed s)).
Proof.
  cbv zeta. split.
  - rewrite (run_total_packets _ evs 0); reflexivity.
  - apply (run_invariant
             (fun s => Argus.AnalyzedFlows (Argus.stats (Argus.engine s))
                       = wrap64 (count (fun r => succeeded r.2) (Argus.completed s)))).
    + reflexivity.
    + intros s ev Hs. destruct (exec_stats s ev) as (_ & _ & Han). exact (Han Hs).
Qed.

(** ** Scoring in the pipeline *)

Section Scoring.

Context {F : Type} `{Float64 F}.

Implicit Types (e : Argus.Engine F) (s : Argus.System F) (id : string) (p : nat).

Lemma cortex_loaded_with_stats (c : Cortex.Engine F) (st : Cortex.Statistics F) :
  cortex_loaded c -> cortex_loaded (Cortex.with_stats c st).
Proof. intros (m & Hm & Hl). exists m. split; [exact Hm | exact Hl]. Qed.

Lemma cortex_loaded_new (cfg : Cortex.CortexConfig F) : cortex_loaded (Cortex.NewEngine cfg).
Proof. eexists. split; [reflexivity|]. split; reflexivity. Qed.

(** A goroutine whose flow is allocated and whose vector has 128 features
    ends with a result when the model is loaded. *)
Lemma runTask_ok now t e :
  cortex_loaded (Argus.cortex e) ->
  len (Argus.task_features t) = 128%Z ->
  is_Some (Argus.heap e !! Argus.task_flow t) ->
  snd (Argus.runTask now t e) = Ok tt
  /\ cortex_loaded (Argus.cortex (fst (Argus.runTask now t e)))
  /\ Argus.AnalyzedFlows (Argus.stats (fst (Argus.runTask now t e)))
     = incr64 (Argus.AnalyzedFlows (Argus.stats e))
  /\ Cortex.TotalInferences (Cortex.stats (Argus.cortex (fst (Argus.runTask now t e))))
     = incr64 (Cortex.TotalInferences (Cortex.stats (Argus.cortex e))).
Proof.
  intros Hload Hlen [flow Hflow]. unfold Argus.runTask. rewrite Hflow.
  destruct (cortex_analyze_ok now (Argus.cortex e) (Argus.task_features t) (Argus.ID flow)
              Hload Hlen) as (r & -> & _).
  cbn. split; [reflexivity|]. split; [|split; reflexivity].
  apply cortex_loaded_with_stats. exact Hload.
Qed.

Lemma dispatch_features q e t :
  snd (Argus.dispatch q e) = Some t ->
  Argus.task_flow t = q /\ len (Argus.task_features t) = 128%Z.
Proof.
  unfold Argus.dispatch. cbv zeta.
  destruct (Argus.heap (Argus.markPending q e) !! q) as [flow|]; [|discriminate].
  cbn. intros [= <-]. cbn. split; [reflexivity|].
  unfold len. rewrite extractFeatures_length. reflexivity.
Qed.

Lemma exec_cortex s ev :
  (forall now k, ev <> Argus.Finish now k) ->
  Argus.cortex (Argus.engine (Argus.exec s ev)) = Argus.cortex (Argus.engine s)
  /\ Argus.AnalyzedFlows (Argus.stats (Argus.engine (Argus.exec s ev)))
     = Argus.AnalyzedFlows (Argus.stats (Argus.engine s))
  /\ Argus.completed (Argus.exec s ev) = Argus.completed s.
Proof.
  intros Hev. destruct ev as [now fid pkt|now|c|c|now k|now].
  - cbn. destruct (addPacketToFlow_static now fid pkt (Argus.engine s)) as (? & _ & ? & _).
    auto.
  - cbn. destruct (simulatePacketCapture_stats now (Argus.engine s)) as (? & _ & ? & _).
    auto.
  - cbn. destruct (Argus.cycles s !! c); auto.
  - destruct (Argus.cycles s !! c) as [[|q rest]|] eqn:Hc.
    + cbn. rewrite Hc. auto.
    + destruct (exec_dispatch_engine s c q rest Hc) as (-> & _ & _ & ->). auto.
    + cbn. rewrite Hc. auto.
  - exfalso. exact (Hev now k eq_refl).
  - cbn. auto.
Qed.

Lemma scoring_inv_exec s ev : scoring_inv s -> scoring_inv (Argus.exec s ev).
Proof.
  intros (Hload & Htasks & Hdone & Han & Htot).
  destruct ev as [now fid pkt|now|c|c|now k|now].
  5: {
    destruct (Argus.tasks s !! k) as [t|] eqn:Ht;
      [|cbn [Argus.exec]; rewrite Ht;
       exact (conj Hload (conj Htasks (conj Hdone (conj Han Htot))))].
    assert (Hin : t ∈ Argus.tasks s) by (eapply list_elem_of_lookup_2; exact Ht).
    destruct (Htasks t Hin) as [Hlen Hflag].
    assert (Hsome : is_Some (Argus.heap (Argus.engine s) !! Argus.task_flow t)).
    { unfold flag_at in Hflag.
      destruct (Argus.heap (Argus.engine s) !! Argus.task_flow t); [eauto|discriminate]. }
    destruct (runTask_ok now t (Argus.engine s) Hload Hlen Hsome) as (Hok & Hload' & Han' & Htot').
    destruct (exec_finish s now k t Ht) as (Hhp & _ & Hts & _ & Hcomp).
    assert (Heng : Argus.engine (Argus.exec s (Argus.Finish now k))
                   = fst (Argus.runTask now t (Argus.engine s))).
    { cbn [Argus.exec]. rewrite Ht.
      destruct (Argus.runTask now t (Argus.engine s)); reflexivity. }
    unfold scoring_inv. rewrite Hts, Hcomp, Hok.
    split; [rewrite Heng; exact Hload'|]. split; [|split; [|split]].
    - intros t' Hin'.
      assert (Hin'' : t' ∈ Argus.tasks s) by (eapply list_elem_of_delete_inv; exact Hin').
      destruct (Htasks t' Hin'') as [Hlen' Hflag']. split; [exact Hlen'|].
      unfold flag_at. rewrite Hhp. exact Hflag'.
    - intros r Hr. apply elem_of_app in Hr as [Hr|Hr]; [exact (Hdone r Hr)|].
      apply list_elem_of_singleton in Hr. subst r. reflexivity.
    - rewrite Heng, Han', Han. unfold incr64, len. rewrite wrap64_add, length_app.
      apply f_equal. cbn [length]. lia.
    - rewrite Heng, Htot', Htot. unfold incr64, len. rewrite wrap64_add, length_app.
      apply f_equal. cbn [length]. lia.
  }
  all: match goal with
       | |- scoring_inv (Argus.exec ?s0 ?ev) =>
           destruct (exec_cortex s0 ev) as (Hc & Ha & Hcomp); [intros ? ?; discriminate|];
           unfold scoring_inv; rewrite Hc, Ha, Hcomp;
           split; [exact Hload|]; split; [|split; [exact Hdone | split; assumption]]
       end.
  - intros t Hin. destruct (Htasks t Hin) as [Hlen Hflag]. split; [exact Hlen|].
    apply exec_flag_at. exact Hflag.
  - intros t Hin. destruct (Htasks t Hin) as [Hlen Hflag]. split; [exact Hlen|].
    apply exec_flag_at. exact Hflag.
  - intros t Hin. assert (Hin' : t ∈ Argus.tasks s).
    { cbn [Argus.exec] in Hin. destruct (Argus.cycles s !! c); exact Hin. }
    destruct (Htasks t Hin') as [Hlen Hflag]. split; [exact Hlen|].
    apply exec_flag_at. exact Hflag.
  - intros t Hin. destruct (Argus.cycles s !! c) as [[|q rest]|] eqn:Hcy.
    + assert (Hin' : t ∈ Argus.tasks s) by (cbn [Argus.exec] in Hin; rewrite Hcy in Hin; exact Hin).
      destruct (Htasks t Hin') as [Hlen Hflag]. split; [exact Hlen|].
      apply exec_flag_at. exact Hflag.
    + destruct (exec_dispatch_engine s c q rest Hcy) as (Heng & Hts & _).
      rewrite Hts in Hin. apply elem_of_app in Hin as [Hin|Hin].
      * destruct (Htasks t Hin) as [Hlen Hflag]. split; [exact Hlen|].
        apply exec_flag_at. exact Hflag.
      * destruct (snd (Argus.dispatch q (Argus.engine s))) as [t'|] eqn:Hd;
          [|cbn in Hin; apply elem_of_nil in Hin; contradiction].
        cbn in Hin. apply list_elem_of_singleton in Hin. subst t'.
        destruct (dispatch_features q (Argus.engine s) t Hd) as [Hq Hlen].
        split; [exact Hlen|]. rewrite Heng, Hq, markPending_flag_at.
        rewrite decide_True by reflexivity.
        pose proof (dispatch_task q (Argus.engine s)) as Hids. rewrite Hd in Hids.
        destruct (decide (is_Some (Argus.heap (Argus.engine s) !! q))) as [[flow ->]|];
          [reflexivity | discriminate].
    + assert (Hin' : t ∈ Argus.tasks s) by (cbn [Argus.exec] in Hin; rewrite Hcy in Hin; exact Hin).
      destruct (Htasks t Hin') as [Hlen Hflag]. split; [exact Hlen|].
      apply exec_flag_at. exact Hflag.
  - intros t Hin. destruct (Htasks t Hin) as [Hlen Hflag]. split; [exact Hlen|].
    apply exec_flag_at. exact Hflag.
Qed.

End Scoring.

(** X4. Scoring in the pipeline never fails.  In every run of the engine built
    over a cortex engine from [NewEngine], whatever the configuration and the
    interleaving, every scoring goroutine that finishes ends with a result:
    the vector it was given has the 128 features the model expects.  So the
    flows counted as analysed, the scorings finished and the inferences of
    the cortex engine are the same number. *)
Theorem pipeline_scoring_never_fails {F} `{Float64 F}
    (cfg : Cortex.CortexConfig F) (evs : list Argus.event) :
  let s := Argus.run (Argus.start (Argus.NewEngine (Cortex.NewEngine cfg))) evs in
  (forall p o, (p, o) ∈ Argus.completed s -> o = Ok tt)
  /\ (forall t, t ∈ Argus.tasks s -> len (Argus.task_features t) = 128%Z)
  /\ Argus.AnalyzedFlows (Argus.stats (Argus.engine s)) = wrap64 (len (Argus.completed s))
  /\ Cortex.TotalInferences (Cortex.stats (Argus.cortex (Argus.engine s)))
     = wrap64 (len (Argus.completed s)).
Proof.
  cbv zeta.
  assert (Hinv : scoring_inv (Argus.run (Argus.start (Argus.NewEngine (Cortex.NewEngine cfg))) evs)).
  { apply run_invariant; [|apply scoring_inv_exec].
    split; [apply cortex_loaded_new|]. split; [|split; [|split; reflexivity]].
    - intros t Hin. cbn in Hin. apply elem_of_nil in Hin. contradiction.
    - intros r Hin. cbn in Hin. apply elem_of_nil in Hin. contradiction. }
  destruct Hinv as (_ & Htasks & Hdone & Han & Htot).
  split; [intros p o Hin; exact (Hdone (p, o) Hin)|].
  split; [intros t Hin; exact (proj1 (Htasks t Hin))|]. split; assumption.
Qed.

(** ** Sweeps one after the other *)

Section Sweeps.

Context {F : Type} `{Float64 F}.

Implicit Types (e : Argus.Engine F) (id : string) (p : nat).

Lemma stale_mono (c1 c2 : time) e p :
  (c1 <= c2)%Z -> Argus.stale_at c1 e p = true -> Argus.stale_at c2 e p = true.
Proof.
  intros Hle. unfold Argus.stale_at, Argus.stale.
  destruct (Argus.heap e !! p) as [flow|]; [|discriminate].
  rewrite !Z.ltb_lt. lia.
Qed.

Lemma sweep_flows_later (now1 now2 : time) e :
  (now1 <= now2)%Z ->
  Argus.flows (Argus.removeOldFlows now2 (Argus.removeOldFlows now1 e))
  = Argus.flows (Argus.removeOldFlows now2 e)
  /\ Argus.flows (Argus.removeOldFlows now1 (Argus.removeOldFlows now2 e))
     = Argus.flows (Argus.removeOldFlows now2 e).
Proof.
  intros Hle.
  assert (Hmono : forall p, Argus.stale_at (now1 - Argus.idle_timeout) e p = true ->
                            Argus.stale_at (now2 - Argus.idle_timeout) e p = true).
  { intros p. apply stale_mono. lia. }
  split; apply map_eq; intros id; rewrite !sweep_table;
    destruct (Argus.flows e !! id) as [p|]; try reflexivity;
    change (Argus.stale_at ?c (Argus.removeOldFlows ?n e) ?q) with (Argus.stale_at c e q).
  - destruct (Argus.stale_at (now1 - Argus.idle_timeout) e p) eqn:H1.
    + rewrite (Hmono p H1). reflexivity.
    + reflexivity.
  - destruct (Argus.stale_at (now2 - Argus.idle_timeout) e p) eqn:H2; [reflexivity|].
    destruct (Argus.stale_at (now1 - Argus.idle_timeout) e p) eqn:H1; [|reflexivity].
    rewrite (Hmono p H1) in H2. discriminate.
Qed.

Lemma removeOldFlows_ext now e e' :
  Argus.cortex e = Argus.cortex e' -> Argus.heap e = Argus.heap e' ->
  Argus.flows (Argus.removeOldFlows now e) = Argus.flows (Argus.removeOldFlows now e') ->
  Argus.TotalPackets (Argus.stats e) = Argus.TotalPackets (Argus.stats e') ->
  Argus.AnalyzedFlows (Argus.stats e) = Argus.AnalyzedFlows (Argus.stats e') ->
  Argus.LastPacket (Argus.stats e) = Argus.LastPacket (Argus.stats e') ->
  Argus.removeOldFlows now e = Argus.removeOldFlows now e'.
Proof.
  intros Hc Hh Hf Ht Ha Hl. unfold Argus.removeOldFlows in *. cbv zeta in *.
  cbn [Argus.flows] in Hf. rewrite Hc, Hh, Hf, Ht, Ha, Hl. reflexivity.
Qed.

End Sweeps.

(** X5. Sweeps compose.  A sweep leaves nothing for a sweep that reads the same
    or an earlier clock, and a sweep that reads a later clock makes the
    earlier one redundant: in either order the two sweeps leave the engine
    as the later one alone does. *)
Theorem sweep_later_subsumes_earlier {F} `{Float64 F}
    (now1 now2 : time) (e : Argus.Engine F) :
  (now1 <= now2)%Z ->
  Argus.removeOldFlows now2 (Argus.removeOldFlows now1 e) = Argus.removeOldFlows now2 e
  /\ Argus.removeOldFlows now1 (Argus.removeOldFlows now2 e) = Argus.removeOldFlows now2 e
  /\ Argus.removeOldFlows now2 (Argus.removeOldFlows now2 e) = Argus.removeOldFlows now2 e.
Proof.
  intros Hle. destruct (sweep_flows_later now1 now2 e Hle) as [H12 H21].
  destruct (sweep_flows_later now2 now2 e (Z.le_refl _)) as [H22 _].
  split; [|split].
  - apply removeOldFlows_ext; try reflexivity. exact H12.
  - unfold Argus.removeOldFlows at 1. cbv zeta.
    change (filter _ (Argus.flows (Argus.removeOldFlows now2 e)))
      with (Argus.flows (Argus.removeOldFlows now1 (Argus.removeOldFlows now2 e))).
    rewrite H21. reflexivity.
  - unfold Argus.removeOldFlows at 1. cbv zeta.
    change (filter _ (Argus.flows (Argus.removeOldFlows now2 e)))
      with (Argus.flows (Argus.removeOldFlows now2 (Argus.removeOldFlows now2 e))).
    rewrite H22. reflexivity.
Qed.

Lemma sweep_later_subsumes_earlier_witness :
  Argus.removeOldFlows (t0 + 16 * Minute) (Argus.removeOldFlows (t0 + 6 * Minute) sweep_engine)
  = Argus.removeOldFlows (t0 + 16 * Minute) sweep_engine.
Proof.
  refine (proj1 (sweep_later_subsumes_earlier (t0 + 6 * Minute) (t0 + 16 * Minute)
                   sweep_engine _)).
  apply Z.add_le_mono_l. vm_compute. discriminate.
Defined.

(** ** One call of the analysis cycle *)

Section Cycle.

Context {F : Type} `{Float64 F}.

Implicit Types (e : Argus.Engine F) (id : string) (p : nat).

Lemma markPending_static q e :
  Argus.flows (Argus.markPending q e) = Argus.flows e
  /\ Argus.stats (Argus.markPending q e) = Argus.stats e
  /\ Argus.cortex (Argus.markPending q e) = Argus.cortex e.
Proof. auto. Qed.

Lemma dispatch_all_cons q (ps : list nat) e :
  Argus.dispatch_all (q :: ps) e
  = (fst (Argus.dispatch_all ps (Argus.markPending q e)),
     option_list (snd (Argus.dispatch q e))
     ++ snd (Argus.dispatch_all ps (Argus.markPending q e))).
Proof.
  unfold Argus.dispatch_all at 1. cbn [fold_left].
  pose proof (dispatch_engine q e) as He.
  destruct (Argus.dispatch q e) as [e1 t]. cbn [fst snd] in *. subst e1.
  rewrite dispatch_all_acc. reflexivity.
Qed.

Lemma dispatch_all_static (ps : list nat) e :
  Argus.flows (fst (Argus.dispatch_all ps e)) = Argus.flows e
  /\ Argus.stats (fst (Argus.dispatch_all ps e)) = Argus.stats e
  /\ Argus.cortex (fst (Argus.dispatch_all ps e)) = Argus.cortex e.
Proof.
  revert e. induction ps as [|q ps IH]; intros e; [auto|].
  rewrite dispatch_all_cons. cbn [fst]. destruct (IH (Argus.markPending q e)) as (-> & -> & ->).
  auto.
Qed.

Lemma dispatch_all_flag_at (ps : list nat) e p :
  flag_at (fst (Argus.dispatch_all ps e)) p
  = if decide (p ∈ ps) then (fun _ => true) <$> Argus.heap e !! p else flag_at e p.
Proof.
  revert e. induction ps as [|q ps IH]; intros e.
  - rewrite decide_False by apply not_elem_of_nil. reflexivity.
  - rewrite dispatch_all_cons. cbn [fst]. rewrite IH, markPending_flag_at.
    assert (Hheap : (fun _ : Argus.Flow => true) <$> Argus.heap (Argus.markPending q e) !! p
                    = (fun _ => true) <$> Argus.heap e !! p).
    { unfold Argus.markPending. cbn [Argus.heap]. rewrite list_lookup_alter.
      destruct (decide (q = p)) as [->|]; [|reflexivity].
      destruct (Argus.heap e !! p); reflexivity. }
    rewrite Hheap.
    destruct (decide (p ∈ ps)) as [Hin|Hnin].
    + rewrite decide_True by (right; exact Hin). reflexivity.
    + destruct (decide (q = p)) as [->|Hne].
      * rewrite decide_True by left. reflexivity.
      * rewrite decide_False; [reflexivity|].
        intros Hin. apply elem_of_cons in Hin as [->|Hin]; [apply Hne; reflexivity | auto].
Qed.

Lemma markPending_ready_at q e p :
  Argus.ready_at (Argus.markPending q e) p
  = Argus.ready_at e p && negb (bool_decide (q = p)).
Proof.
  unfold Argus.ready_at, Argus.markPending. cbn [Argus.heap]. rewrite list_lookup_alter.
  destruct (decide (q = p)) as [->|Hne].
  - rewrite bool_decide_eq_true_2 by reflexivity.
    destruct (Argus.heap e !! p); cbn; [rewrite andb_false_r|]; reflexivity.
  - rewrite bool_decide_eq_false_2 by exact Hne. rewrite andb_true_r. reflexivity.
Qed.

Lemma dispatch_all_ready_at (ps : list nat) e p :
  Argus.ready_at (fst (Argus.dispatch_all ps e)) p
  = Argus.ready_at e p && negb (bool_decide (p ∈ ps)).
Proof.
  revert e. induction ps as [|q ps IH]; intros e.
  - rewrite bool_decide_eq_false_2 by apply not_elem_of_nil. rewrite andb_true_r. reflexivity.
  - rewrite dispatch_all_cons. cbn [fst]. rewrite IH, markPending_ready_at.
    rewrite <- andb_assoc. f_equal. rewrite <- negb_orb. f_equal.
    apply eq_true_iff_eq. rewrite orb_true_iff, !bool_decide_eq_true, elem_of_cons.
    split; [intros [->|Hin]; auto | intros [->|Hin]; auto].
Qed.

Lemma dispatch_all_tasks (ps : list nat) e :
  (forall p, p ∈ ps -> is_Some (Argus.heap e !! p)) ->
  Argus.task_flow <$> snd (Argus.dispatch_all ps e) = ps
  /\ (forall t, t ∈ snd (Argus.dispatch_all ps e) -> len (Argus.task_features t) = 128%Z).
Proof.
  revert e. induction ps as [|q ps IH]; intros e Hall.
  - split; [reflexivity|]. intros t Hin. cbn in Hin. apply elem_of_nil in Hin. contradiction.
  - rewrite dispatch_all_cons. cbn [snd].
    destruct (IH (Argus.markPending q e)) as [Hids Hlen].
    { intros p Hin. unfold Argus.markPending. cbn [Argus.heap]. rewrite list_lookup_alter.
      destruct (Hall p) as [flow Hflow]; [right; exact Hin|].
      destruct (decide (q = p)) as [->|]; rewrite Hflow; cbn; eauto. }
    pose proof (dispatch_task q e) as Hq. unfold task_ids in Hq.
    rewrite decide_True in Hq by (apply Hall; left). split.
    + rewrite fmap_app, Hq, Hids. reflexivity.
    + intros t Hin. apply elem_of_app in Hin as [Hin|Hin]; [|exact (Hlen t Hin)].
      destruct (snd (Argus.dispatch q e)) as [t'|] eqn:Hd;
        [|cbn in Hin; apply elem_of_nil in Hin; contradiction].
      cbn in Hin. apply list_elem_of_singleton in Hin. subst t'.
      exact (proj2 (dispatch_features q e t Hd)).
Qed.

Lemma eligible_allocated e p : p ∈ Argus.eligible e -> is_Some (Argus.heap e !! p).
Proof.
  intros Hin. apply eligible_not_pending in Hin. unfold flag_at in Hin.
  destruct (Argus.heap e !! p); [eauto | discriminate].
Qed.

Lemma eligible_nil e :
  (forall id p, Argus.flows e !! id = Some p -> Argus.ready_at e p = false) ->
  Argus.eligible e = [].
Proof.
  intros Hnone. destruct (Argus.eligible e) as [|p ps] eqn:He; [reflexivity|]. exfalso.
  assert (Hin : p ∈ Argus.eligible e) by (rewrite He; left).
  apply eligible_spec in Hin as (id & Hp & Hr). rewrite (Hnone id p Hp) in Hr. discriminate.
Qed.

End Cycle.

(** X6. One call of [performFlowAnalysis], run without interruption.  It starts
    one goroutine for each flow it selected, in the order of selection, each
    with a vector of 128 features; it sets the flag of the selected flows
    and of no other; it changes neither the table nor the statistics.  When
    it returns no flow is eligible, so a call that follows at once starts no
    goroutine and changes nothing. *)
Theorem perform_flow_analysis_call {F} `{Float64 F} (e : Argus.Engine F) :
  let e' := fst (Argus.performFlowAnalysis e) in
  let started := snd (Argus.performFlowAnalysis e) in
  Argus.task_flow <$> started = Argus.eligible e
  /\ (forall t, t ∈ started -> len (Argus.task_features t) = 128%Z)
  /\ (forall p, flag_at e' p = if decide (p ∈ Argus.eligible e) then Some true else flag_at e p)
  /\ Argus.flows e' = Argus.flows e
  /\ Argus.stats e' = Argus.stats e
  /\ Argus.cortex e' = Argus.cortex e
  /\ Argus.eligible e' = []
  /\ Argus.performFlowAnalysis e' = (e', []).
Proof.
  cbv zeta. unfold Argus.performFlowAnalysis at 1 2 3 4 5 6 7 8.
  destruct (dispatch_all_tasks (Argus.eligible e) e (eligible_allocated e)) as [Hids Hlen].
  destruct (dispatch_all_static (Argus.eligible e) e) as (Hfl & Hst & Hc).
  assert (Hflag : forall p,
            flag_at (fst (Argus.dispatch_all (Argus.eligible e) e)) p
            = if decide (p ∈ Argus.eligible e) then Some true else flag_at e p).
  { intros p. rewrite dispatch_all_flag_at.
    destruct (decide (p ∈ Argus.eligible e)) as [Hin|]; [|reflexivity].
    destruct (eligible_allocated e p Hin) as [flow ->]. reflexivity. }
  assert (Hnone : Argus.eligible (fst (Argus.dispatch_all (Argus.eligible e) e)) = []).
  { apply eligible_nil. intros id p Hp. rewrite Hfl in Hp. rewrite dispatch_all_ready_at.
    destruct (Argus.ready_at e p) eqn:Hr; [|reflexivity].
    rewrite bool_decide_eq_true_2; [reflexivity|].
    apply eligible_spec. exists id. split; assumption. }
  split; [exact Hids|]. split; [exact Hlen|]. split; [exact Hflag|].
  split; [exact Hfl|]. split; [exact Hst|]. split; [exact Hc|]. split; [exact Hnone|].
  unfold Argus.performFlowAnalysis. rewrite Hnone. reflexivity.
Qed.

(** ** The simulated capture *)

Section SimulatedCapture.

Context {F : Type} `{Float64 F}.

Implicit Types (e : Argus.Engine F) (id : string) (p : nat).

Lemma first_tick (c : Cortex.Engine F) (t : time) :
  Argus.simulatePacketCapture t (Argus.NewEngine c) = ticked_engine c t [].
Proof. vm_compute. reflexivity. Qed.

Lemma tick_packets (u : time) (c : Cortex.Engine F) (st : Argus.CaptureStats)
    (f0 f1 f2 : Argus.Flow) :
  fold_left
    (fun e '(srcIP, dstIP, srcPort, dstPort, size) =>
       Argus.addPacketToFlow u (Argus.generateFlowID srcIP dstIP srcPort dstPort)
         {| Argus.Timestamp := u; Argus.Size := size;
            Argus.Direction := "outbound"; Argus.Protocol := "TCP" |} e)
    Argus.simulated_packets
    {| Argus.cortex := c; Argus.heap := [f0; f1; f2]; Argus.flows := simulated_table;
       Argus.stats := st |}
  = {| Argus.cortex := c;
       Argus.heap := [ Argus.append_packet (simulated_packet 1200 u) f0;
                       Argus.append_packet (simulated_packet 800 u) f1;
                       Argus.append_packet (simulated_packet 512 u) f2 ];
       Argus.flows := simulated_table;
       Argus.stats := {| Argus.TotalPackets := Argus.TotalPackets st;
                         Argus.ActiveFlows := 3;
                         Argus.AnalyzedFlows := Argus.AnalyzedFlows st;
                         Argus.LastPacket := Argus.LastPacket st |} |}.
Proof. vm_compute. reflexivity. Qed.

Lemma next_tick (u : time) e (f0 f1 f2 : Argus.Flow) :
  Argus.flows e = simulated_table -> Argus.heap e = [f0; f1; f2] ->
  Argus.simulatePacketCapture u e
  = {| Argus.cortex := Argus.cortex e;
       Argus.heap := [ Argus.append_packet (simulated_packet 1200 u) f0;
                       Argus.append_packet (simulated_packet 800 u) f1;
                       Argus.append_packet (simulated_packet 512 u) f2 ];
       Argus.flows := simulated_table;
       Argus.stats := {| Argus.TotalPackets := add64 (Argus.TotalPackets (Argus.stats e)) 3;
                         Argus.ActiveFlows := 3;
                         Argus.AnalyzedFlows := Argus.AnalyzedFlows (Argus.stats e);
                         Argus.LastPacket := u |} |}.
Proof.
  destruct e as [c hp fl st]. cbn [Argus.flows Argus.heap]. intros -> ->.
  unfold Argus.simulatePacketCapture. cbv zeta. rewrite tick_packets. reflexivity.
Qed.

Lemma simulated_flow_snoc (id : string) (size : Z) (t u : time) (ts : list time) :
  Argus.append_packet (simulated_packet size u) (simulated_flow id size t ts)
  = simulated_flow id size t (ts ++ [u]).
Proof.
  unfold Argus.append_packet, simulated_flow. cbn [Argus.ID Argus.Packets Argus.StartTime
    Argus.LastSeen Argus.AnalysisPending Argus.Timestamp simulated_packet].
  f_equal.
  - change (simulated_packet size <$> t :: ts ++ [u])
      with (simulated_packet size <$> (t :: ts) ++ [u]).
    rewrite fmap_app. reflexivity.
  - symmetry. apply last_last.
Qed.

Lemma ticks_snoc (ts : list time) (u : time) e :
  ticks (ts ++ [u]) e = Argus.simulatePacketCapture u (ticks ts e).
Proof. unfold ticks. rewrite fold_left_app. reflexivity. Qed.

Lemma ticks_closed_form (c : Cortex.Engine F) (t : time) (ts : list time) :
  ticks (t :: ts) (Argus.NewEngine c) = ticked_engine c t ts.
Proof.
  induction ts as [|u ts IH] using rev_ind.
  - apply first_tick.
  - change (t :: ts ++ [u]) with ((t :: ts) ++ [u]). rewrite ticks_snoc, IH.
    rewrite (next_tick u (ticked_engine c t ts) _ _ _ eq_refl eq_refl).
    unfold ticked_engine. cbn [Argus.cortex Argus.stats Argus.TotalPackets Argus.AnalyzedFlows].
    rewrite !simulated_flow_snoc. f_equal. f_equal.
    + unfold add64. rewrite wrap64_add. apply f_equal. unfold len.
      cbn [length]. rewrite length_app. cbn [length]. lia.
    + symmetry. apply last_last.
Qed.

Lemma simulated_table_lookup id p :
  simulated_table !! id = Some p <->
  (id = "192.168.1.100:54321-8.8.8.8:443" /\ p = 0%nat)
  \/ (id = "10.0.0.50:12345-1.1.1.1:80" /\ p = 1%nat)
  \/ (id = "172.16.0.10:65432-208.67.222.222:53" /\ p = 2%nat).
Proof.
  unfold simulated_table. rewrite !lookup_insert_Some, lookup_singleton_Some. split.
  - intros [[<- <-]|[_ [[<- <-]|[_ [<- <-]]]]]; auto.
  - intros [[-> ->]|[[-> ->]|[-> ->]]].
    + left. auto.
    + right. split; [discriminate|]. left. auto.
    + right. split; [discriminate|]. right. split; [discriminate|]. auto.
Qed.

End SimulatedCapture.

(** X7. The simulated capture.  After the ticks of [processPackets] at the times
    [t :: ts] the table holds the three simulated flows and no other; each
    holds one packet per tick, in the order and with the times of the ticks,
    started at the first tick and last seen at the last; three packets are
    counted per tick; and the three flows are eligible for analysis from the
    tenth tick on, none before. *)
Theorem capture_ticks_fill_flows {F} `{Float64 F}
    (c : Cortex.Engine F) (t : time) (ts : list time) :
  let e := ticks (t :: ts) (Argus.NewEngine c) in
  (forall srcIP dstIP srcPort dstPort size,
     (srcIP, dstIP, srcPort, dstPort, size) ∈ Argus.simulated_packets ->
     Argus.flow_of e (Argus.generateFlowID srcIP dstIP srcPort dstPort)
     = Some (simulated_flow (Argus.generateFlowID srcIP dstIP srcPort dstPort) size t ts))
  /\ size (Argus.flows e) = 3%nat
  /\ Argus.TotalPackets (Argus.stats e) = wrap64 (3 * len (t :: ts))
  /\ Argus.LastPacket (Argus.stats e) = List.last ts t
  /\ (forall p, p ∈ Argus.eligible e <-> (p < 3)%nat /\ (10 <= len (t :: ts))%Z).
Proof.
  cbv zeta. rewrite ticks_closed_form.
  split; [|split; [|split; [|split]]]; try reflexivity.
  - intros srcIP dstIP srcPort dstPort size Hin. unfold Argus.simulated_packets in Hin.
    repeat (apply elem_of_cons in Hin as [Hin|Hin];
            [injection Hin as -> -> -> -> ->; reflexivity|]).
    apply elem_of_nil in Hin. contradiction.
  - intros p. rewrite eligible_spec.
    assert (Hready : forall q, (q < 3)%nat ->
              Argus.ready_at (ticked_engine c t ts) q = (10 <=? len (t :: ts))%Z).
    { intros q Hq. unfold Argus.ready_at, ticked_engine. cbn [Argus.heap].
      destruct q as [|[|[|q]]]; [| | |lia];
        cbn [lookup list_lookup]; unfold Argus.ready, simulated_flow;
        cbn [Argus.AnalysisPending Argus.Packets negb andb];
        unfold len; rewrite length_fmap; reflexivity. }
    split.
    + intros (id & Hid & Hr). cbn [Argus.flows ticked_engine] in Hid.
      apply simulated_table_lookup in Hid.
      assert (Hp : (p < 3)%nat) by (destruct Hid as [[_ ->]|[[_ ->]|[_ ->]]]; lia).
      split; [exact Hp|]. rewrite (Hready p Hp) in Hr. apply Z.leb_le. exact Hr.
    + intros [Hp Hlen].
      assert (Hid : exists id, simulated_table !! id = Some p).
      { destruct p as [|[|[|p]]]; [| | |lia]; eexists; apply simulated_table_lookup; eauto. }
      destruct Hid as [id Hid]. exists id. split; [exact Hid|].
      rewrite (Hready p Hp). apply Z.leb_le. exact Hlen.
Qed.

(** ** The computed features *)

Section ComputedFeatures.

Context {F : Type} `{Float64 F}.

Lemma computed_features_count (flow : Argus.Flow) :
  Argus.computed_features (F := F) flow !! 20%nat = Some (f_of_Z (len (Argus.Packets flow))).
Proof.
  unfold Argus.computed_features. cbv zeta.
  rewrite list_lookup_insert_ne by discriminate.
  apply list_lookup_insert_eq.
  destruct (1 <? len (Argus.Packets flow))%Z.
  - destruct (fold_left _ _ _) as [sum sumSq].
    rewrite !length_insert, length_replicate. unfold Argus.feature_size. lia.
  - rewrite !length_insert, length_replicate. unfold Argus.feature_size. lia.
Qed.

Lemma computed_features_duration (flow : Argus.Flow) :
  Argus.computed_features (F := F) flow !! 21%nat = Some (Seconds (flow_duration flow)).
Proof.
  unfold Argus.computed_features. cbv zeta.
  apply list_lookup_insert_eq. rewrite length_insert.
  destruct (1 <? len (Argus.Packets flow))%Z.
  - destruct (fold_left _ _ _) as [sum sumSq].
    rewrite !length_insert, length_replicate. unfold Argus.feature_size. lia.
  - rewrite !length_insert, length_replicate. unfold Argus.feature_size. lia.
Qed.

Lemma computed_features_size (flow : Argus.Flow) :
  Argus.computed_features (F := F) flow !! 0%nat
  = Some (f_of_Z (total_size flow) / f_of_Z (len (Argus.Packets flow)))%f64.
Proof.
  unfold Argus.computed_features. cbv zeta.
  rewrite !list_lookup_insert_ne by discriminate.
  destruct (1 <? len (Argus.Packets flow))%Z.
  - destruct (fold_left _ _ _) as [sum sumSq].
    rewrite list_lookup_insert_ne by discriminate.
    apply list_lookup_insert_eq. rewrite length_replicate. unfold Argus.feature_size. lia.
  - apply list_lookup_insert_eq. rewrite length_replicate. unfold Argus.feature_size. lia.
Qed.

End ComputedFeatures.

Section ExactFeatures.

Local Open Scope Q_scope.

Lemma sums_of_intervals (ivs : list Q) (a b : Q) :
  fold_left (fun '(sum, sumSq) interval =>
               ((sum + interval)%f64, (sumSq + interval * interval)%f64)) ivs (a, b)
  = (fold_left Qplus ivs a, fold_left Qplus ((fun x => x * x) <$> ivs) b).
Proof.
  revert a b. induction ivs as [|x ivs IH]; intros a b; [reflexivity|].
  cbn [fold_left fmap list_fmap]. apply IH.
Qed.

Lemma computed_features_variance (flow : Argus.Flow) :
  Argus.computed_features (F := Q) flow !! 10%nat
  = Some (if (1 <? len (Argus.Packets flow))%Z
          then variance (Argus.intervals (Argus.Packets flow)) else 0).
Proof.
  unfold Argus.computed_features. cbv zeta.
  rewrite !list_lookup_insert_ne by discriminate.
  destruct (1 <? len (Argus.Packets flow))%Z.
  - rewrite sums_of_intervals.
    rewrite list_lookup_insert_eq
      by (rewrite length_insert, length_replicate; unfold Argus.feature_size; lia).
    unfold variance, mean, len. rewrite length_fmap. reflexivity.
  - rewrite list_lookup_insert_ne by discriminate. reflexivity.
Qed.

Lemma filler_multiple_of_ten (i : nat) : (i mod 10 = 0)%nat -> Argus.filler (F := Q) i == 0.
Proof. intros Hi. apply filler_zero_exact. exact Hi. Qed.

(** A slot whose index is a multiple of ten holds its computed value after
    the last loop. *)
Lemma extractFeatures_kept (flow : Argus.Flow) (i : nat) (x : Q) :
  Argus.Packets flow <> [] -> (i mod 10 = 0)%nat ->
  Argus.computed_features flow !! i = Some x ->
  exists v, Argus.extractFeatures flow !! i = Some v /\ v == x.
Proof.
  intros Hne Hi Hx. rewrite (extractFeatures_slot flow i Hne), Hx. cbn [fmap option_fmap option_map].
  cbn [f_eqb exactQ]. destruct (Qeq_bool x f_zero) eqn:Hz.
  - eexists. split; [reflexivity|]. apply Qeq_bool_eq in Hz.
    rewrite Hz. apply filler_multiple_of_ten. exact Hi.
  - eexists. split; [reflexivity|]. reflexivity.
Qed.

Lemma seconds_exact (d : Z) : Seconds (F := Q) d == inject_Z d / inject_Z Second.
Proof.
  unfold Seconds. cbn [f_add f_div f_of_Z exactQ].
  rewrite (Z.quot_rem' d Second) at 3. rewrite inject_Z_plus, inject_Z_mult.
  field. intros Hz. apply (inject_Z_nonzero Second); [reflexivity | exact Hz].
Qed.

Lemma seconds_zero (d : Z) : Seconds (F := Q) d == 0 <-> d = 0%Z.
Proof.
  rewrite seconds_exact. split.
  - intros Hz. destruct (Z.eq_dec d 0%Z) as [|Hne]; [assumption|]. exfalso.
    assert (Hd : inject_Z d == 0).
    { rewrite <- (Qmult_div_r (inject_Z d) (inject_Z Second)).
      - rewrite Hz. ring.
      - intros Hs. apply (inject_Z_nonzero Second); [reflexivity | exact Hs]. }
    apply Hne. unfold Qeq in Hd. cbn in Hd. lia.
  - intros ->. reflexivity.
Qed.

End ExactFeatures.

(** X8. The computed slots (exact arithmetic).  For a flow with packets, slot 20
    of the extracted vector holds the number of packets, slot 0 the sum of
    the packet sizes divided by their number, slot 10 the population variance
    of the times between consecutive packets (zero for a single packet);
    slot 21 holds the duration of the flow in seconds, except that a duration
    of zero is reported as 0.1: slot 21 is the one computed slot that the
    filler overwrites. *)
Theorem extract_features_computed_slots (flow : Argus.Flow) :
  Argus.Packets flow <> [] ->
  Argus.extractFeatures (F := Q) flow !! 20%nat = Some (inject_Z (len (Argus.Packets flow)))
  /\ (exists v, Argus.extractFeatures (F := Q) flow !! 0%nat = Some v
        /\ (v == inject_Z (total_size flow) / inject_Z (len (Argus.Packets flow)))%Q)
  /\ (exists v, Argus.extractFeatures (F := Q) flow !! 10%nat = Some v
        /\ (v == if (1 <? len (Argus.Packets flow))%Z
                 then variance (Argus.intervals (Argus.Packets flow)) else 0)%Q)
  /\ (exists v, Argus.extractFeatures (F := Q) flow !! 21%nat = Some v
        /\ (v == if (flow_duration flow =? 0)%Z then 1 # 10
                 else inject_Z (flow_duration flow) / inject_Z Second)%Q).
Proof.
  intros Hne. split; [|split; [|split]].
  - rewrite (extractFeatures_slot flow 20 Hne), computed_features_count.
    cbn [fmap option_fmap option_map f_eqb f_of_Z exactQ].
    destruct (Qeq_bool (inject_Z (len (Argus.Packets flow))) f_zero) eqn:Hz; [|reflexivity].
    exfalso. apply Qeq_bool_eq in Hz. revert Hz. apply inject_Z_nonzero.
    unfold len. destruct (Argus.Packets flow); [congruence | cbn; lia].
  - apply (extractFeatures_kept flow 0); [exact Hne | reflexivity |].
    exact (computed_features_size (F := Q) flow).
  - apply (extractFeatures_kept flow 10); [exact Hne | reflexivity |].
    apply computed_features_variance.
  - rewrite (extractFeatures_slot flow 21 Hne), computed_features_duration.
    cbn [fmap option_fmap option_map f_eqb exactQ].
    destruct (Qeq_bool (Seconds (flow_duration flow)) f_zero) eqn:Hz.
    + apply Qeq_bool_eq in Hz.
      pose proof (proj1 (seconds_zero (flow_duration flow)) Hz) as Hd. rewrite Hd.
      eexists. split; [reflexivity|]. vm_compute. reflexivity.
    + apply Qeq_bool_neq in Hz. eexists. split; [reflexivity|].
      destruct (Z.eqb_spec (flow_duration flow) 0) as [Hd|Hd].
      * exfalso. apply Hz. exact (proj2 (seconds_zero (flow_duration flow)) Hd).
      * apply seconds_exact.
Qed.

Lemma extract_features_computed_slots_witness :
  Argus.extractFeatures (F := Q) scenario_flow !! 20%nat = Some (inject_Z 3).
Proof.
  refine (proj1 (extract_features_computed_slots scenario_flow _)). discriminate.
Defined.

(** ** The confidence of a flow that the pipeline scores *)

Section PipelineConfidence.

Local Open Scope Q_scope.

Lemma extractFeatures_count_exact (flow : Argus.Flow) :
  Argus.Packets flow <> [] ->
  Argus.extractFeatures (F := Q) flow !! 20%nat = Some (inject_Z (len (Argus.Packets flow))).
Proof.
  intros Hne. rewrite (extractFeatures_slot flow 20 Hne), computed_features_count.
  cbn [fmap option_fmap option_map f_eqb f_of_Z exactQ].
  destruct (Qeq_bool (inject_Z (len (Argus.Packets flow))) f_zero) eqn:Hz; [|reflexivity].
  exfalso. apply Qeq_bool_eq in Hz. revert Hz. apply inject_Z_nonzero.
  unfold len. destruct (Argus.Packets flow); [congruence | cbn; lia].
Qed.

(** The rule for minimal headers does not fire on a vector whose slot 20 is
    at least 1/2, and the other two rules and the clock add up to 0.799 at
    most. *)
Lemma inference_bound (now : time) (features : list Q) :
  1 # 2 <= at_index features 20 ->
  fst (Cortex.simulateInference now features) <= 799 # 1000.
Proof.
  intros H20. unfold Cortex.simulateInference. cbv zeta. cbn [fst].
  assert (Hr : f_of_Z (Z.rem now 100) / f_of_Z (F := Q) 1000 <= 99 # 1000).
  { cbn [f_of_Z f_div exactQ]. apply Qle_shift_div_r; [reflexivity|].
    assert (Hb : (Z.rem now 100 <= 99)%Z).
    { destruct (Z.le_gt_cases 0 now) as [Hpos|Hneg].
      - pose proof (Z.rem_bound_pos now 100 Hpos ltac:(lia)). lia.
      - pose proof (Z.rem_nonpos now 100 ltac:(lia) ltac:(lia)). lia. }
    rewrite Zle_Qle in Hb. change (inject_Z 1000) with 1000. change (inject_Z 99) with 99 in Hb.
    lra. }
  set (r := (f_of_Z (Z.rem now 100) / f_of_Z 1000)%f64) in *.
  change (r <= 99 # 1000) in Hr.
  assert (H3 : lit (F := Q) 3 10 == 3 # 10) by (vm_compute; reflexivity).
  assert (H4 : lit (F := Q) 4 10 == 4 # 10) by (vm_compute; reflexivity).
  assert (Hno : (at_index features 20 <? lit 5 10)%f64 = false).
  { cbn [f_ltb exactQ]. apply exact_ltb_ge.
    assert (H5 : lit (F := Q) 5 10 == 1 # 2) by (vm_compute; reflexivity).
    rewrite H5. exact H20. }
  rewrite Hno.
  set (a := lit 3 10) in *. set (b := lit 4 10) in *.
  match goal with
  | |- (if (f_of_Z 1 <? ?s)%f64 then _ else _) <= _ =>
      assert (Hs : s <= 799 # 1000); [| set (score := s) in * ]
  end.
  { unfold f_zero. cbn [f_add f_of_Z exactQ]. change (inject_Z 0) with 0.
    repeat match goal with
           | |- context [if ?c then _ else _] => destruct c
           end; lra. }
  cbn [f_ltb f_of_Z exactQ]. destruct (Exact.ltb (inject_Z 1) score) eqn:Hlt; [|exact Hs].
  apply exact_ltb_lt in Hlt. change (inject_Z 1) with 1 in Hlt. lra.
Qed.

Lemma at_index_lookup (features : list Q) (i : nat) (x : Q) :
  features !! i = Some x -> at_index features i = x.
Proof. intros Hx. unfold at_index. rewrite Hx. reflexivity. Qed.

Lemma extracted_count_bound (flow : Argus.Flow) :
  (10 <= len (Argus.Packets flow))%Z ->
  1 # 2 <= at_index (Argus.extractFeatures (F := Q) flow) 20.
Proof.
  intros Hlen.
  assert (Hne : Argus.Packets flow <> []).
  { intros Hnil. rewrite Hnil in Hlen. unfold len in Hlen. cbn [length] in Hlen. lia. }
  rewrite (at_index_lookup _ _ _ (extractFeatures_count_exact flow Hne)).
  rewrite Zle_Qle in Hlen. change (inject_Z 10) with 10 in Hlen. lra.
Qed.

End PipelineConfidence.

(** X9. The confidence of a scored flow (exact arithmetic).  A flow is selected
    for analysis when it holds at least ten packets; slot 20 of its vector
    then holds that number, so the rule of [simulateInference] that reads
    slot 20 never adds its 0.2, and the confidence is 0.799 at most, whatever
    the flow and the clock. *)
Theorem pipeline_confidence_bound (now : time) (flow : Argus.Flow) :
  (10 <= len (Argus.Packets flow))%Z ->
  (fst (Cortex.simulateInference now (Argus.extractFeatures (F := Q) flow)) <= 799 # 1000)%Q.
Proof. intros Hlen. apply inference_bound. apply extracted_count_bound. exact Hlen. Qed.

Lemma pipeline_confidence_bound_witness :
  (fst (Cortex.simulateInference (t0 + 99)
          (Argus.extractFeatures (F := Q) (simulated_flow "10.0.0.50:12345-1.1.1.1:80" 800 t0
                                             (replicate 9 t0)))) <= 799 # 1000)%Q.
Proof.
  apply (pipeline_confidence_bound (t0 + 99)
           (simulated_flow "10.0.0.50:12345-1.1.1.1:80" 800 t0 (replicate 9 t0))).
  vm_compute. discriminate.
Defined.

(** ** Reports of the pipeline under a high threshold *)

Section QuietPipeline.

Implicit Types (e : Argus.Engine Q) (s : Argus.System Q) (id : string) (p : nat).

Lemma grows_refl (hp : list Argus.Flow) : grows hp hp.
Proof. intros p flow Hp. exists flow. split; [exact Hp | lia]. Qed.

Lemma grows_trans (hp1 hp2 hp3 : list Argus.Flow) :
  grows hp1 hp2 -> grows hp2 hp3 -> grows hp1 hp3.
Proof.
  intros H12 H23 p flow Hp. destruct (H12 p flow Hp) as (flow2 & Hp2 & Hle2).
  destruct (H23 p flow2 Hp2) as (flow3 & Hp3 & Hle3). exists flow3. split; [exact Hp3 | lia].
Qed.

Lemma grows_alter (hp : list Argus.Flow) (f : Argus.Flow -> Argus.Flow) (q : nat) :
  (forall x, (len (Argus.Packets x) <= len (Argus.Packets (f x)))%Z) ->
  grows hp (alter f q hp).
Proof.
  intros Hf p flow Hp. rewrite list_lookup_alter.
  destruct (decide (q = p)) as [->|Hne].
  - rewrite Hp. cbn. eexists. split; [reflexivity | apply Hf].
  - exists flow. split; [exact Hp | lia].
Qed.

Lemma grows_app (hp : list Argus.Flow) (flow : Argus.Flow) : grows hp (hp ++ [flow]).
Proof.
  intros p x Hp. exists x. split; [apply lookup_app_l_Some; exact Hp | lia].
Qed.

Lemma append_packet_len (pkt : Argus.Packet) (x : Argus.Flow) :
  (len (Argus.Packets x) <= len (Argus.Packets (Argus.append_packet pkt x)))%Z.
Proof. unfold len. cbn. rewrite length_app. lia. Qed.

Lemma addPacketToFlow_grows now id pkt e :
  grows (Argus.heap e) (Argus.heap (Argus.addPacketToFlow now id pkt e)).
Proof.
  unfold Argus.addPacketToFlow. destruct (Argus.flows e !! id) as [q|]; cbn [Argus.heap].
  - apply grows_alter. apply append_packet_len.
  - eapply grows_trans; [apply grows_app|]. apply grows_alter. apply append_packet_len.
Qed.

Lemma simulatePacketCapture_grows now e :
  grows (Argus.heap e) (Argus.heap (Argus.simulatePacketCapture now e)).
Proof.
  unfold Argus.simulatePacketCapture. cbv zeta. cbn [Argus.with_stats Argus.heap].
  generalize Argus.simulated_packets. intros l. revert e.
  induction l as [|[[[[srcIP dstIP] srcPort] dstPort] size] l IH]; intros e.
  - apply grows_refl.
  - cbn [fold_left]. eapply grows_trans; [|apply IH]. apply addPacketToFlow_grows.
Qed.

Lemma markPending_grows q e : grows (Argus.heap e) (Argus.heap (Argus.markPending q e)).
Proof. unfold Argus.markPending. cbn [Argus.heap]. apply grows_alter. intros x. cbn. lia. Qed.

Lemma exec_grows s ev :
  grows (Argus.heap (Argus.engine s)) (Argus.heap (Argus.engine (Argus.exec s ev))).
Proof.
  destruct ev as [now fid pkt|now|c|c|now k|now].
  - apply addPacketToFlow_grows.
  - apply simulatePacketCapture_grows.
  - cbn. destruct (Argus.cycles s !! c); apply grows_refl.
  - destruct (Argus.cycles s !! c) as [[|q rest]|] eqn:Hc.
    + cbn. rewrite Hc. apply grows_refl.
    + destruct (exec_dispatch_engine s c q rest Hc) as (-> & _). apply markPending_grows.
    + cbn. rewrite Hc. apply grows_refl.
  - destruct (Argus.tasks s !! k) as [t|] eqn:Ht.
    + destruct (exec_finish s now k t Ht) as (-> & _). apply grows_refl.
    + cbn. rewrite Ht. apply grows_refl.
  - apply grows_refl.
Qed.

Lemma grows_ten (hp hp' : list Argus.Flow) p :
  grows hp hp' ->
  (exists flow, hp !! p = Some flow /\ (10 <= len (Argus.Packets flow))%Z) ->
  exists flow, hp' !! p = Some flow /\ (10 <= len (Argus.Packets flow))%Z.
Proof.
  intros Hg (flow & Hp & Hlen). destruct (Hg p flow Hp) as (flow' & Hp' & Hle).
  exists flow'. split; [exact Hp' | lia].
Qed.

Lemma grows_some (hp hp' : list Argus.Flow) p :
  grows hp hp' -> is_Some (hp !! p) -> is_Some (hp' !! p).
Proof. intros Hg [flow Hp]. destruct (Hg p flow Hp) as (flow' & Hp' & _). eauto. Qed.

(** A scoring whose confidence stays below the threshold is counted as
    human. *)
Lemma runTask_human now t e :
  cortex_loaded (Argus.cortex e) ->
  (799 # 1000 < Cortex.DetectionThreshold (Cortex.config (Argus.cortex e)))%Q ->
  len (Argus.task_features t) = 128%Z ->
  (1 # 2 <= at_index (Argus.task_features t) 20)%Q ->
  is_Some (Argus.heap e !! Argus.task_flow t) ->
  let c' := Argus.cortex (fst (Argus.runTask now t e)) in
  cortex_loaded c'
  /\ Cortex.config c' = Cortex.config (Argus.cortex e)
  /\ Cortex.BotDetections (Cortex.stats c') = Cortex.BotDetections (Cortex.stats (Argus.cortex e))
  /\ Cortex.HumanDetections (Cortex.stats c')
     = incr64 (Cortex.HumanDetections (Cortex.stats (Argus.cortex e))).
Proof.
  intros Hload Hthr Hlen H20 [flow Hflow]. cbv zeta. unfold Argus.runTask. rewrite Hflow.
  destruct (cortex_analyze_ok now (Argus.cortex e) (Argus.task_features t) (Argus.ID flow)
              Hload Hlen) as (r & Han & Hconf).
  assert (Hbot : Cortex.IsBot r = false).
  { pose proof (inference_bound now (Argus.task_features t) H20) as Hb.
    unfold Cortex.Analyze in Han. destruct Hload as (m & Hm & Hl & Hsz).
    rewrite Hm, Hl, Hsz, Hlen in Han. cbn [negb Z.eqb Pos.eqb] in Han.
    destruct (Cortex.simulateInference now (Argus.task_features t)) as [confidence reasoning].
    cbn [fst] in Hb. injection Han as <-. cbn [Cortex.IsBot f_leb exactQ].
    destruct (Qle_bool (Cortex.DetectionThreshold (Cortex.config (Argus.cortex e))) confidence)
      eqn:Hle; [|reflexivity].
    apply Qle_bool_iff in Hle. exfalso. apply (Qlt_irrefl (799 # 1000)).
    eapply Qlt_le_trans; [exact Hthr|]. eapply Qle_trans; [exact Hle | exact Hb]. }
  rewrite Han. cbn [fst Argus.cortex].
  split; [apply cortex_loaded_with_stats; exact Hload|].
  split; [reflexivity|]. cbn [Cortex.with_stats Cortex.stats Cortex.updateStats
                              Cortex.BotDetections Cortex.HumanDetections].
  rewrite Hbot. split; reflexivity.
Qed.

(** Where the flows of a cycle come from. *)
Lemma exec_cycles_origin s ev c ps p :
  Argus.cycles (Argus.exec s ev) !! c = Some ps -> p ∈ ps ->
  (exists ps0, Argus.cycles s !! c = Some ps0 /\ p ∈ ps0) \/ p ∈ Argus.eligible (Argus.engine s).
Proof.
  intros Hc Hin. destruct ev as [now fid pkt|now|c0|c0|now k|now].
  - left. exists ps. split; assumption.
  - left. exists ps. split; assumption.
  - cbn [Argus.exec] in Hc. destruct (Argus.cycles s !! c0) eqn:Hc0.
    + left. exists ps. split; assumption.
    + cbn [Argus.cycles] in Hc. apply lookup_insert_Some in Hc as [[<- <-]|[_ Hc]].
      * right. exact Hin.
      * left. exists ps. split; assumption.
  - destruct (Argus.cycles s !! c0) as [[|q rest]|] eqn:Hc0.
    + cbn [Argus.exec] in Hc. rewrite Hc0 in Hc. cbn [Argus.cycles] in Hc.
      apply lookup_delete_Some in Hc as [_ Hc]. left. exists ps. split; assumption.
    + destruct (exec_dispatch_engine s c0 q rest Hc0) as (_ & _ & Hcy & _).
      rewrite Hcy in Hc. apply lookup_insert_Some in Hc as [[<- <-]|[_ Hc]].
      * left. exists (q :: rest). split; [exact Hc0 | right; exact Hin].
      * left. exists ps. split; assumption.
    + cbn [Argus.exec] in Hc. rewrite Hc0 in Hc. left. exists ps. split; assumption.
  - destruct (Argus.tasks s !! k) as [t|] eqn:Ht.
    + destruct (exec_finish s now k t Ht) as (_ & _ & _ & Hcy & _). rewrite Hcy in Hc.
      left. exists ps. split; assumption.
    + cbn [Argus.exec] in Hc. rewrite Ht in Hc. left. exists ps. split; assumption.
  - left. exists ps. split; assumption.
Qed.

(** Where a goroutine comes from. *)
Lemma exec_tasks_origin s ev t :
  t ∈ Argus.tasks (Argus.exec s ev) ->
  t ∈ Argus.tasks s
  \/ (exists c q rest, Argus.cycles s !! c = Some (q :: rest)
                       /\ snd (Argus.dispatch q (Argus.engine s)) = Some t).
Proof.
  intros Hin. destruct ev as [now fid pkt|now|c0|c0|now k|now].
  - left. exact Hin.
  - left. exact Hin.
  - left. cbn [Argus.exec] in Hin. destruct (Argus.cycles s !! c0); exact Hin.
  - destruct (Argus.cycles s !! c0) as [[|q rest]|] eqn:Hc0.
    + left. cbn [Argus.exec] in Hin. rewrite Hc0 in Hin. exact Hin.
    + destruct (exec_dispatch_engine s c0 q rest Hc0) as (_ & Hts & _).
      rewrite Hts in Hin. apply elem_of_app in Hin as [Hin|Hin]; [left; exact Hin|].
      right. exists c0, q, rest. split; [exact Hc0|].
      destruct (snd (Argus.dispatch q (Argus.engine s))) as [t'|];
        [|cbn in Hin; apply elem_of_nil in Hin; contradiction].
      cbn in Hin. apply list_elem_of_singleton in Hin. congruence.
    + left. cbn [Argus.exec] in Hin. rewrite Hc0 in Hin. exact Hin.
  - left. destruct (Argus.tasks s !! k) as [t'|] eqn:Ht.
    + destruct (exec_finish s now k t' Ht) as (_ & _ & Hts & _). rewrite Hts in Hin.
      eapply list_elem_of_delete_inv. exact Hin.
    + cbn [Argus.exec] in Hin. rewrite Ht in Hin. exact Hin.
  - left. exact Hin.
Qed.

Lemma eligible_ten e p :
  p ∈ Argus.eligible e ->
  exists flow, Argus.heap e !! p = Some flow /\ (10 <= len (Argus.Packets flow))%Z.
Proof.
  intros Hin. apply eligible_spec in Hin as (id & _ & Hr). unfold Argus.ready_at in Hr.
  destruct (Argus.heap e !! p) as [flow|]; [|discriminate]. exists flow. split; [reflexivity|].
  unfold Argus.ready in Hr. apply andb_true_iff in Hr as [_ Hr]. apply Z.leb_le. exact Hr.
Qed.

Lemma dispatch_ten q e t flow :
  Argus.heap e !! q = Some flow -> (10 <= len (Argus.Packets flow))%Z ->
  snd (Argus.dispatch q e) = Some t ->
  Argus.task_flow t = q
  /\ len (Argus.task_features t) = 128%Z
  /\ (1 # 2 <= at_index (Argus.task_features t) 20)%Q.
Proof.
  intros Hflow Hlen Hd. destruct (dispatch_features q e t Hd) as [Hq H128].
  split; [exact Hq|]. split; [exact H128|].
  unfold Argus.dispatch in Hd. cbv zeta in Hd.
  assert (Hq' : Argus.heap (Argus.markPending q e) !! q = Some (Argus.set_pending flow)).
  { unfold Argus.markPending. cbn [Argus.heap]. rewrite list_lookup_alter_eq, Hflow.
    reflexivity. }
  rewrite Hq' in Hd. cbn in Hd. injection Hd as <-. cbn [Argus.task_features].
  apply extracted_count_bound. exact Hlen.
Qed.

Lemma quiet_inv_exec s ev : quiet_inv s -> quiet_inv (Argus.exec s ev).
Proof.
  intros (Hload & Hthr & Hcyc & Htasks & Hbot & Hhum).
  pose proof (exec_grows s ev) as Hg.
  assert (Hcyc' : forall c ps p, Argus.cycles (Argus.exec s ev) !! c = Some ps -> p ∈ ps ->
            exists flow, Argus.heap (Argus.engine (Argus.exec s ev)) !! p = Some flow
                         /\ (10 <= len (Argus.Packets flow))%Z).
  { intros c ps p Hc Hin. apply (grows_ten _ _ p Hg).
    destruct (exec_cycles_origin s ev c ps p Hc Hin) as [(ps0 & Hc0 & Hin0)|Hel].
    - exact (Hcyc c ps0 p Hc0 Hin0).
    - apply eligible_ten. exact Hel. }
  assert (Htasks' : forall t, t ∈ Argus.tasks (Argus.exec s ev) ->
            len (Argus.task_features t) = 128%Z
            /\ (1 # 2 <= at_index (Argus.task_features t) 20)%Q
            /\ is_Some (Argus.heap (Argus.engine (Argus.exec s ev)) !! Argus.task_flow t)).
  { intros t Hin. destruct (exec_tasks_origin s ev t Hin) as [Hold|(c & q & rest & Hc & Hd)].
    - destruct (Htasks t Hold) as (H128 & H20 & Hsome).
      split; [exact H128|]. split; [exact H20|]. exact (grows_some _ _ _ Hg Hsome).
    - destruct (Hcyc c (q :: rest) q Hc) as (flow & Hflow & Hlen); [left|].
      destruct (dispatch_ten q (Argus.engine s) t flow Hflow Hlen Hd) as (Hq & H128 & H20).
      split; [exact H128|]. split; [exact H20|]. rewrite Hq.
      apply (grows_some _ _ _ Hg). eauto. }
  destruct ev as [now fid pkt|now|c|c|now k|now].
  5: {
    destruct (Argus.tasks s !! k) as [t|] eqn:Ht;
      [|cbn [Argus.exec]; rewrite Ht;
        exact (conj Hload (conj Hthr (conj Hcyc (conj Htasks (conj Hbot Hhum)))))].
    assert (Hin : t ∈ Argus.tasks s) by (eapply list_elem_of_lookup_2; exact Ht).
    destruct (Htasks t Hin) as (H128 & H20 & Hsome).
    destruct (runTask_human now t (Argus.engine s) Hload Hthr H128 H20 Hsome)
      as (Hload' & Hcfg & Hbot' & Hhum').
    destruct (exec_finish s now k t Ht) as (_ & _ & _ & _ & Hcomp).
    assert (Heng : Argus.engine (Argus.exec s (Argus.Finish now k))
                   = fst (Argus.runTask now t (Argus.engine s))).
    { cbn [Argus.exec]. rewrite Ht.
      destruct (Argus.runTask now t (Argus.engine s)); reflexivity. }
    split; [rewrite Heng; exact Hload'|]. split; [rewrite Heng, Hcfg; exact Hthr|].
    split; [exact Hcyc'|]. split; [exact Htasks'|].
    split; [rewrite Heng, Hbot'; exact Hbot|].
    rewrite Heng, Hhum', Hhum, Hcomp. unfold incr64, len.
    rewrite wrap64_add, length_app. apply f_equal. cbn [length]. lia.
  }
  all: match goal with
       | |- quiet_inv (Argus.exec ?s0 ?ev) =>
           destruct (exec_cortex s0 ev) as (Hc & _ & Hcomp); [intros ? ?; discriminate|];
           unfold quiet_inv; rewrite Hc, Hcomp;
           exact (conj Hload (conj Hthr (conj Hcyc' (conj Htasks' (conj Hbot Hhum)))))
       end.
Qed.

End QuietPipeline.

(** X10. No bot under a high threshold (exact arithmetic).  When the detection
    threshold of the cortex engine exceeds 0.799, as the default 0.85 of the
    configuration does, no run of the pipeline reports a bot, whatever the
    traffic, the clock and the interleaving: every scoring that finishes is
    counted as human. *)
Theorem high_threshold_never_reports_bot
    (cfg : Cortex.CortexConfig Q) (evs : list Argus.event) :
  (799 # 1000 < Cortex.DetectionThreshold cfg)%Q ->
  let s := Argus.run (Argus.start (Argus.NewEngine (Cortex.NewEngine cfg))) evs in
  Cortex.BotDetections (Cortex.stats (Argus.cortex (Argus.engine s))) = 0%Z
  /\ Cortex.HumanDetections (Cortex.stats (Argus.cortex (Argus.engine s)))
     = wrap64 (len (Argus.completed s)).
Proof.
  intros Hthr. cbv zeta.
  assert (Hinv : quiet_inv (Argus.run (Argus.start (Argus.NewEngine (Cortex.NewEngine cfg))) evs)).
  { apply run_invariant; [|apply quiet_inv_exec].
    split; [apply cortex_loaded_new|]. split; [exact Hthr|].
    split; [|split; [|split; reflexivity]].
    - intros c ps p Hc. cbn in Hc. rewrite lookup_empty in Hc. discriminate.
    - intros t Hin. cbn in Hin. apply elem_of_nil in Hin. contradiction. }
  destruct Hinv as (_ & _ & _ & _ & Hbot & Hhum). split; assumption.
Qed.

Lemma high_threshold_never_reports_bot_witness :
  Cortex.BotDetections
    (Cortex.stats
       (Argus.cortex
          (Argus.engine
             (Argus.run (Argus.start (Argus.NewEngine
                                        (Cortex.NewEngine (F := Q) sample_cortex_config)))
                (capture_ticks t0 ++ one_cycle))))) = 0%Z.
Proof.
  refine (proj1 (high_threshold_never_reports_bot sample_cortex_config
                   (capture_ticks t0 ++ one_cycle) _)).
  vm_compute. reflexivity.
Defined.

(** ** Construction of the ML engine *)

Section Construction.

Context {F : Type} `{Float64 F}.

Implicit Types (e : ML.MLEngine F) (cfg : ML.MLConfig F).

Lemma svm_step_length (label : F) (w feature : list F) :
  length (ML.svm_step label w feature) = length w.
Proof.
  revert feature. induction w as [|wk w IH]; intros feature; [reflexivity|].
  destruct feature as [|f feature]; [reflexivity|]. cbn. rewrite IH. reflexivity.
Qed.

Lemma svm_pass_length (w : list F) (features : list (list F)) (labels : list Z) :
  length (ML.svm_pass w features labels) = length w.
Proof.
  revert w labels. induction features as [|feature features IH]; intros w labels;
    [reflexivity|].
  destruct labels as [|l labels]; [reflexivity|].
  cbn [ML.svm_pass]. cbv zeta. rewrite IH. apply svm_step_length.
Qed.

Lemma svm_training_length (n : nat) (w : list F) (features : list (list F)) (labels : list Z) :
  length (Nat.iter n (fun w => ML.svm_pass w features labels) w) = length w.
Proof.
  induction n as [|n IH]; [reflexivity|].
  change (Nat.iter (S n) ?f ?x) with (f (Nat.iter n f x)). cbv beta.
  rewrite svm_pass_length. exact IH.
Qed.

Lemma initializeSVM_ok e e' :
  ML.initializeSVM e = Ok e' ->
  (0 < ML.FeatureSize (ML.config e))%Z
  /\ ML.config e' = ML.config e /\ ML.nnModel e' = ML.nnModel e /\ ML.stats e' = ML.stats e
  /\ exists svm, ML.svmModel e' = Some svm
                 /\ len (ML.weights svm) = ML.FeatureSize (ML.config e)
                 /\ ML.svm_trained svm = false.
Proof.
  unfold ML.initializeSVM. destruct (Z.leb_spec (ML.FeatureSize (ML.config e)) 0); [discriminate|].
  intros [= <-]. cbn. split; [assumption|]. repeat (split; [reflexivity|]).
  eexists. split; [reflexivity|]. cbn. split; [|reflexivity].
  unfold len. rewrite length_replicate. lia.
Qed.

Lemma trainNeuralNetwork_ok e e' :
  ML.trainNeuralNetwork e = Ok e' ->
  ML.config e' = ML.config e /\ ML.svmModel e' = ML.svmModel e /\ ML.stats e' = ML.stats e
  /\ exists nn, ML.nnModel e = Some nn
                /\ ML.nnModel e' = Some {| ML.forward := ML.forward nn; ML.nn_trained := true |}.
Proof.
  unfold ML.trainNeuralNetwork. destruct (ML.nnModel e) as [nn|]; [|discriminate].
  intros [= <-]. cbn. repeat (split; [reflexivity|]). eauto.
Qed.

Lemma trainSVM_ok e e' (features : list (list F)) (labels : list Z) :
  ML.trainSVM e features labels = Ok e' ->
  ML.config e' = ML.config e /\ ML.nnModel e' = ML.nnModel e /\ ML.stats e' = ML.stats e
  /\ features <> [] /\ labels <> []
  /\ exists svm, ML.svmModel e = Some svm
       /\ ML.svmModel e'
          = Some {| ML.weights := trained_weights (ML.weights svm) features labels;
                    ML.bias := ML.bias svm; ML.svm_trained := true |}.
Proof.
  unfold ML.trainSVM.
  destruct features as [|f features]; [discriminate|].
  destruct labels as [|l labels]; [discriminate|].
  replace ((len (f :: features) =? 0)%Z || (len (l :: labels) =? 0)%Z) with false
    by (unfold len; cbn [length]; symmetry; apply orb_false_iff; split; apply Z.eqb_neq; lia).
  destruct (ML.svmModel e) as [svm|]; [|discriminate].
  intros [= <-]. repeat (split; [reflexivity|]).
  split; [discriminate|]. split; [discriminate|]. exists svm. split; reflexivity.
Qed.

Lemma svm_shaped_trainSVM e e' (features : list (list F)) (labels : list Z) :
  ML.trainSVM e features labels = Ok e' -> svm_shaped e -> svm_shaped e'.
Proof.
  intros Htrain Hshape. destruct (trainSVM_ok e e' features labels Htrain)
    as (Hcfg & _ & _ & _ & _ & svm & Hsvm & Hsvm').
  intros svm' Hs. rewrite Hsvm' in Hs. injection Hs as <-.
  change (ML.weights {| ML.weights := ?w; ML.bias := _; ML.svm_trained := _ |}) with w.
  unfold len, trained_weights. rewrite svm_training_length, Hcfg. exact (Hshape svm Hsvm).
Qed.

Lemma initializeModels_ok (graph : list F -> outcome F) e e' :
  ML.nnModel e = None -> ML.svmModel e = None ->
  ML.initializeModels graph e = Ok e' ->
  ML.config e' = ML.config e /\ ML.stats e' = ML.stats e
  /\ ML.ModelType (ML.config e) ∈ supported_models
  /\ svm_shaped e' /\ untrained e' /\ runs_on e' graph
  /\ (ML.ModelType (ML.config e) = "neural_network" -> is_Some (ML.nnModel e'))
  /\ (ML.ModelType (ML.config e) = "svm" ->
      ML.nnModel e' = None /\ is_Some (ML.svmModel e')
      /\ (0 < ML.FeatureSize (ML.config e))%Z)
  /\ (ML.ModelType (ML.config e) = "ensemble" ->
      is_Some (ML.nnModel e') /\ is_Some (ML.svmModel e')
      /\ (0 < ML.FeatureSize (ML.config e))%Z).
Proof.
  intros Hnn Hsvm. unfold ML.initializeModels, supported_models.
  destruct (String.eqb_spec (ML.ModelType (ML.config e)) "neural_network") as [Hnet|Hnet];
    [|destruct (String.eqb_spec (ML.ModelType (ML.config e)) "svm") as [Hs|Hs];
      [|destruct (String.eqb_spec (ML.ModelType (ML.config e)) "ensemble") as [He|He];
        [|discriminate]]].
  - intros [= <-]. cbn [ML.initializeNeuralNetwork ML.config ML.stats ML.nnModel ML.svmModel].
    rewrite Hnet. split; [reflexivity|]. split; [reflexivity|]. split; [set_solver|].
    split; [intros svm Hs; unfold svm_shaped in *; cbn in Hs; congruence|].
    split; [split; [intros nn [= <-]; reflexivity | intros svm Hs; cbn in Hs; congruence]|].
    split; [intros nn [= <-]; reflexivity|].
    split; [eauto|]. split; [discriminate|]. discriminate.
  - intros Hinit. destruct (initializeSVM_ok e e' Hinit)
      as (Hpos & Hcfg & Hnn' & Hst & svm & Hsvm' & Hlen & Huntr).
    rewrite Hs. split; [exact Hcfg|]. split; [exact Hst|]. split; [set_solver|].
    split; [intros svm' Hs'; rewrite Hsvm' in Hs'; injection Hs' as <-; rewrite Hcfg; exact Hlen|].
    split; [split; [intros nn Hn; congruence
                   | intros svm' Hs'; rewrite Hsvm' in Hs'; injection Hs' as <-; exact Huntr]|].
    split; [intros nn Hn; congruence|].
    split; [discriminate|]. split; [|discriminate].
    intros _. split; [congruence|]. split; [rewrite Hsvm'; eauto | exact Hpos].
  - unfold ML.initializeEnsemble. intros Hinit.
    destruct (initializeSVM_ok _ e' Hinit)
      as (Hpos & Hcfg & Hnn' & Hst & svm & Hsvm' & Hlen & Huntr).
    cbn [ML.initializeNeuralNetwork ML.config ML.stats ML.nnModel] in *.
    rewrite He. split; [exact Hcfg|]. split; [exact Hst|]. split; [set_solver|].
    split; [intros svm' Hs'; rewrite Hsvm' in Hs'; injection Hs' as <-; rewrite Hcfg; exact Hlen|].
    split; [split; [intros nn Hn; rewrite Hnn' in Hn; injection Hn as <-; reflexivity
                   | intros svm' Hs'; rewrite Hsvm' in Hs'; injection Hs' as <-; exact Huntr]|].
    split; [intros nn Hn; rewrite Hnn' in Hn; injection Hn as <-; reflexivity|].
    split; [discriminate|]. split; [discriminate|].
    intros _. split; [rewrite Hnn'; eauto|]. split; [rewrite Hsvm'; eauto | exact Hpos].
Qed.

End Construction.

Section Constructed.

Context {F : Type} `{Float64 F}.
Variable math_Exp : F -> F.

Implicit Types (e : ML.MLEngine F) (cfg : ML.MLConfig F).

Lemma runs_on_nn_trained e e' (graph : list F -> outcome F) :
  ML.trainNeuralNetwork e = Ok e' -> runs_on e graph -> runs_on e' graph.
Proof.
  intros Ht Hr. destruct (trainNeuralNetwork_ok e e' Ht) as (_ & _ & _ & nn & Hnn & Hnn').
  intros nn' Hn. rewrite Hnn' in Hn. injection Hn as <-. cbn. exact (Hr nn Hnn).
Qed.

Lemma svm_shaped_nn_trained e e' :
  ML.trainNeuralNetwork e = Ok e' -> svm_shaped e -> svm_shaped e'.
Proof.
  intros Ht Hs. destruct (trainNeuralNetwork_ok e e' Ht) as (Hcfg & Hsvm & _).
  intros svm Hsvm'. rewrite Hcfg. apply Hs. rewrite <- Hsvm. exact Hsvm'.
Qed.

Lemma runs_on_svm_trained e e' (graph : list F -> outcome F)
    (features : list (list F)) (labels : list Z) :
  ML.trainSVM e features labels = Ok e' -> runs_on e graph -> runs_on e' graph.
Proof.
  intros Ht Hr. destruct (trainSVM_ok e e' features labels Ht) as (_ & Hnn & _).
  intros nn Hn. apply Hr. rewrite <- Hnn. exact Hn.
Qed.

(** What [NewMLEngine] returns when it returns an engine. *)
Lemma NewMLEngine_ok (graph : list F -> outcome F) (features : list (list F))
    (labels : list Z) cfg e :
  ML.NewMLEngine graph features labels cfg = Ok e ->
  ML.config e = cfg /\ ML.stats e = ML.emptyStatistics
  /\ ML.ModelType cfg ∈ supported_models
  /\ svm_shaped e /\ runs_on e graph
  /\ (ML.ModelType cfg = "svm" -> ML.nnModel e = None /\ (0 < ML.FeatureSize cfg)%Z)
  /\ (ML.ModelType cfg = "ensemble" -> is_Some (ML.nnModel e) /\ (0 < ML.FeatureSize cfg)%Z).
Proof.
  unfold ML.NewMLEngine. cbv zeta.
  destruct (ML.initializeModels graph _) as [e0|m|] eqn:Hinit; [|discriminate|discriminate].
  destruct (initializeModels_ok graph
              {| ML.nnModel := None; ML.svmModel := None; ML.config := cfg;
                 ML.stats := ML.emptyStatistics |} e0 eq_refl eq_refl Hinit)
    as (Hcfg & Hst & Hty & Hshape & Huntr & Hruns & Hnet & Hsvm & Hens).
  cbn [ML.config ML.stats] in *.
  destruct (ML.GenerateFakeData cfg).
  - destruct (ML.TrainOnFakeData e0 features labels) as [e1|m|] eqn:Htrain;
      [|discriminate|discriminate].
    intros [= <-]. unfold ML.TrainOnFakeData in Htrain. rewrite Hcfg in Htrain.
    destruct (String.eqb_spec (ML.ModelType cfg) "neural_network") as [Hn|Hn];
      [|destruct (String.eqb_spec (ML.ModelType cfg) "svm") as [Hs|Hs];
        [|destruct (String.eqb_spec (ML.ModelType cfg) "ensemble") as [He|He];
          [|discriminate]]].
    + destruct (trainNeuralNetwork_ok e0 e1 Htrain) as (Hcfg1 & _ & Hst1 & _).
      split; [congruence|]. split; [congruence|]. split; [exact Hty|].
      split; [exact (svm_shaped_nn_trained e0 e1 Htrain Hshape)|].
      split; [exact (runs_on_nn_trained e0 e1 graph Htrain Hruns)|].
      split; intros Heq; rewrite Hn in Heq; discriminate.
    + destruct (trainSVM_ok e0 e1 features labels Htrain) as (Hcfg1 & Hnn1 & Hst1 & _).
      split; [congruence|]. split; [congruence|]. split; [exact Hty|].
      split; [exact (svm_shaped_trainSVM e0 e1 features labels Htrain Hshape)|].
      split; [exact (runs_on_svm_trained e0 e1 graph features labels Htrain Hruns)|].
      split; [|intros Heq; rewrite Hs in Heq; discriminate].
      intros _. destruct (Hsvm Hs) as (Hnone & _ & Hpos). split; [congruence | exact Hpos].
    + unfold ML.trainEnsemble in Htrain.
      destruct (ML.trainNeuralNetwork e0) as [e2|m|] eqn:Hnn2; [|discriminate|discriminate].
      destruct (trainNeuralNetwork_ok e0 e2 Hnn2) as (Hcfg2 & _ & Hst2 & nn & _ & Hnn2').
      destruct (trainSVM_ok e2 e1 features labels Htrain) as (Hcfg1 & Hnn1 & Hst1 & _).
      split; [congruence|]. split; [congruence|]. split; [exact Hty|].
      split; [apply (svm_shaped_trainSVM e2 e1 features labels Htrain);
              exact (svm_shaped_nn_trained e0 e2 Hnn2 Hshape)|].
      split; [apply (runs_on_svm_trained e2 e1 graph features labels Htrain);
              exact (runs_on_nn_trained e0 e2 graph Hnn2 Hruns)|].
      split; [intros Heq; rewrite He in Heq; discriminate|].
      intros _. destruct (Hens He) as (_ & _ & Hpos). split; [|exact Hpos].
      rewrite Hnn1, Hnn2'. eauto.
  - intros [= <-]. split; [exact Hcfg|]. split; [exact Hst|]. split; [exact Hty|].
    split; [exact Hshape|]. split; [exact Hruns|]. split.
    + intros Hs. destruct (Hsvm Hs) as (Hnone & _ & Hpos). auto.
    + intros He. destruct (Hens He) as (Hsome & _ & Hpos). auto.
Qed.

(** The SVM answers whenever the vector has the length of its weights. *)
Lemma predictSVM_ok e (x : list F) :
  svm_shaped e -> len x = ML.FeatureSize (ML.config e) ->
  (0 < ML.FeatureSize (ML.config e))%Z ->
  exists c, ML.predictSVM math_Exp e x = Ok c.
Proof.
  intros Hshape Hlen Hpos. unfold ML.predictSVM.
  destruct (ML.svmModel e) as [svm|] eqn:Hsvm; [|eauto].
  destruct (ML.svm_trained svm); cbn [negb]; [|eauto].
  destruct (len x =? 0)%Z eqn:H0; [apply Z.eqb_eq in H0; lia|].
  unfold ML.Dot. specialize (Hshape svm Hsvm). unfold len in *.
  replace (length (ML.weights svm) =? length x)%nat with true; [eauto|].
  symmetry. apply Nat.eqb_eq. lia.
Qed.

Lemma predictNeuralNetwork_safe e (graph : list F -> outcome F) (x : list F) :
  runs_on e graph -> graph_safe graph -> ML.predictNeuralNetwork e x <> Panic.
Proof.
  intros Hruns Hsafe. unfold ML.predictNeuralNetwork.
  destruct (ML.nnModel e) as [nn|] eqn:Hnn; [|discriminate].
  destruct (ML.nn_trained nn); cbn [negb]; [|discriminate].
  rewrite (Hruns nn Hnn). specialize (Hsafe x). destruct (graph x); congruence.
Qed.

Lemma predictEnsemble_ok e (graph : list F -> outcome F) (x : list F) :
  svm_shaped e -> runs_on e graph -> graph_safe graph ->
  len x = ML.FeatureSize (ML.config e) -> (0 < ML.FeatureSize (ML.config e))%Z ->
  exists c, ML.predictEnsemble math_Exp e x = Ok c.
Proof.
  intros Hshape Hruns Hsafe Hlen Hpos. unfold ML.predictEnsemble.
  pose proof (predictNeuralNetwork_safe e graph x Hruns Hsafe) as Hnn.
  destruct (predictSVM_ok e x Hshape Hlen Hpos) as [c ->].
  destruct (ML.predictNeuralNetwork e x) as [p|m|]; [| |congruence]; cbv zeta;
    match goal with |- context [if ?b then _ else _] => destruct b end; eauto.
Qed.

Lemma predict_scored e (now : time) (x : list F) (id modelUsed : string) (c : F)
    (scored : outcome (F * string)) :
  scored = Ok (c, modelUsed) ->
  exists r,
    match scored with
    | Ok (confidence, modelUsed) =>
        let isBot := (ML.DetectionThreshold (ML.config e) <? confidence)%f64 in
        let reasoning := ML.generateReasoning x confidence modelUsed in
        let result := {| ML.IsBot := isBot; ML.Confidence := confidence; ML.Features := x;
                         ML.Reasoning := reasoning; ML.ModelUsed := modelUsed;
                         ML.Timestamp := now; ML.FlowID := id |} in
        (Ok result, ML.with_stats e (ML.updateStats (ML.stats e) result))
    | Err m => (Err m, e)
    | Panic => (Panic, e)
    end = (Ok r, ML.with_stats e (ML.updateStats (ML.stats e) r))
    /\ ML.FlowID r = id /\ ML.Features r = x /\ ML.ModelUsed r = modelUsed
    /\ ML.Timestamp r = now
    /\ ML.IsBot r = (ML.DetectionThreshold (ML.config e) <? ML.Confidence r)%f64.
Proof. intros ->. cbv zeta. eexists. split; [reflexivity|]. cbn. auto. Qed.

End Constructed.

(** X11. Predictions of a constructed engine.  An engine that [NewMLEngine]
    returns for the model type "svm", or for "ensemble" over a network whose
    run does not panic, answers every vector of the configured length with a
    result, never with an error or a panic, trained or not and whatever the
    data it was trained on: training keeps the length of the weight vector.
    The result carries the flow ID, the vector and the model type, and is
    recorded in the statistics. *)
Theorem constructed_engine_predicts {F} `{Float64 F} (math_Exp : F -> F)
    (graph : list F -> outcome F) (features : list (list F)) (labels : list Z)
    (cfg : ML.MLConfig F) (e : ML.MLEngine F) (now : time) (x : list F) (id : string) :
  ML.NewMLEngine graph features labels cfg = Ok e ->
  ML.ModelType cfg = "svm" \/ (ML.ModelType cfg = "ensemble" /\ graph_safe graph) ->
  len x = ML.FeatureSize cfg ->
  exists r,
    ML.Predict math_Exp now e x id
    = (Ok r, ML.with_stats e (ML.updateStats (ML.stats e) r))
    /\ ML.FlowID r = id /\ ML.Features r = x /\ ML.ModelUsed r = ML.ModelType cfg
    /\ ML.Timestamp r = now
    /\ ML.IsBot r = (ML.DetectionThreshold cfg <? ML.Confidence r)%f64.
Proof.
  intros Hnew Hty Hlen.
  destruct (NewMLEngine_ok graph features labels cfg e Hnew)
    as (Hcfg & _ & _ & Hshape & Hruns & Hsvm & Hens).
  unfold ML.Predict. cbv zeta. rewrite Hcfg.
  destruct Hty as [Hs|[He Hsafe]].
  - destruct (Hsvm Hs) as [_ Hpos].
    destruct (predictSVM_ok math_Exp e x Hshape) as [c Hc]; [congruence | congruence |].
    rewrite Hs. cbn [String.eqb Ascii.eqb Bool.eqb]. rewrite Hc.
    destruct (predict_scored e now x id "svm" c (Ok (c, "svm")) eq_refl) as (r & Hr & Hrest).
    rewrite Hcfg in Hrest, Hr. exists r. split; [exact Hr | exact Hrest].
  - destruct (Hens He) as [_ Hpos].
    destruct (predictEnsemble_ok math_Exp e graph x Hshape Hruns Hsafe) as [c Hc];
      [congruence | congruence |].
    rewrite He. cbn [String.eqb Ascii.eqb Bool.eqb]. rewrite Hc.
    destruct (predict_scored e now x id "ensemble" c (Ok (c, "ensemble")) eq_refl)
      as (r & Hr & Hrest).
    rewrite Hcfg in Hrest, Hr. exists r. split; [exact Hr | exact Hrest].
Qed.

Lemma constructed_engine_predicts_witness :
  exists r,
    fst (ML.Predict (F := float) exp_series t0 (sample_engine sample_graph "svm" true)
           (replicate 128 (lit 1 2)) "flow")
    = Ok r /\ ML.FlowID r = "flow".
Proof.
  destruct (constructed_engine_predicts (F := float) exp_series sample_graph sample_features
              sample_labels (sample_config "svm" true) (sample_engine sample_graph "svm" true)
              t0 (replicate 128 (lit 1 2)) "flow")
    as (r & Hr & Hid & _).
  - vm_compute. reflexivity.
  - left. reflexivity.
  - reflexivity.
  - exists r. rewrite Hr. split; [reflexivity | exact Hid].
Defined.

(** ** Model types *)

(** X12. Validated model types without an engine.  [ValidateMLConfig] accepts the
    model types "random_forest" and "knn" as it accepts "ensemble", but no
    engine can be built for them: [NewMLCortexEngine] fails with "unsupported
    model type", whatever the rest of the configuration; an engine is built
    only for "neural_network", "svm" and "ensemble". *)
Theorem validated_models_without_engine {F} `{Float64 F}
    (graph : list F -> outcome F) (features : list (list F)) (labels : list Z)
    (cfg : Config.MLConfig F) :
  (Config.ModelType cfg = "random_forest" \/ Config.ModelType cfg = "knn" ->
   Config.ValidateMLConfig cfg = Config.ValidateMLConfig (with_model_type cfg "ensemble")
   /\ MLCortex.NewMLCortexEngine graph features labels cfg
      = Err ("failed to initialize ML engine: failed to initialize models: "
             +:+ "unsupported model type: " +:+ Config.ModelType cfg))
  /\ (forall e, MLCortex.NewMLCortexEngine graph features labels cfg = Ok e ->
        Config.ModelType cfg ∈ supported_models).
Proof.
  split.
  - intros Hty. split.
    + unfold Config.ValidateMLConfig.
      cbn [with_model_type Config.ModelType Config.DetectionThreshold Config.LearningRate
           Config.BatchSize Config.FeatureSize Config.FakeDataSize Config.TrainingEpochs
           Config.MaxConcurrency].
      destruct Hty as [-> | ->]; reflexivity.
    + unfold MLCortex.NewMLCortexEngine, ML.NewMLEngine, ML.initializeModels. cbv zeta.
      cbn [ML.config MLCortex.mlConfig ML.ModelType].
      destruct Hty as [-> | ->]; reflexivity.
  - intros e Hnew. unfold MLCortex.NewMLCortexEngine in Hnew.
    destruct (ML.NewMLEngine graph features labels (MLCortex.mlConfig cfg)) as [ml|m|] eqn:Hml;
      [|discriminate|discriminate].
    destruct (NewMLEngine_ok graph features labels _ ml Hml) as (_ & _ & Hty & _).
    exact Hty.
Qed.

Lemma validated_models_without_engine_witness :
  Config.ValidateMLConfig (F := float) (with_model_type Config.DefaultMLConfig "knn") = None
  /\ is_Err (MLCortex.NewMLCortexEngine (F := float) sample_graph sample_features
               sample_labels (with_model_type Config.DefaultMLConfig "knn")) = true.
Proof.
  destruct (validated_models_without_engine (F := float) sample_graph sample_features
              sample_labels (with_model_type Config.DefaultMLConfig "knn")) as [Hknn _].
  destruct Hknn as [Hval Hnew]; [right; reflexivity|].
  split; [rewrite Hval; vm_compute; reflexivity | rewrite Hnew; reflexivity].
Defined.

(** ** Reconfiguration of the ML cortex engine *)

Section Reconfiguration.

Context {F : Type} `{Float64 F}.
Variable math_Exp : F -> F.

Implicit Types (e : MLCortex.MLCortexEngine F) (c : Config.MLConfig F).

Lemma UpdateConfig_valid e c :
  Config.ValidateMLConfig c = None ->
  MLCortex.UpdateConfig e c
  = (None, {| MLCortex.mlEngine := MLCortex.mlEngine e; MLCortex.config := c;
              MLCortex.stats := MLCortex.stats e |}).
Proof. intros Hv. unfold MLCortex.UpdateConfig. rewrite Hv. reflexivity. Qed.

Lemma validated_feature_size c :
  Config.ValidateMLConfig c = None -> (0 < Config.FeatureSize c)%Z.
Proof.
  unfold Config.ValidateMLConfig.
  repeat match goal with
         | |- (if ?b then _ else _) = None -> _ => destruct b eqn:?; [discriminate|]
         end.
  intros _.
  match goal with Hf : (Config.FeatureSize c <=? 0)%Z = false |- _ =>
    apply Z.leb_gt in Hf; exact Hf end.
Qed.

End Reconfiguration.

(** X13. Reconfiguration does not reach the model.  After [UpdateConfig] has
    accepted a configuration with the same feature size, [GetConfig] returns
    the new configuration, but [Analyze] answers every vector as before, with
    the same effect on the ML engine and on the statistics: the threshold
    and the model type in use are those the engine was built with. *)
Theorem update_config_keeps_detection {F} `{Float64 F} (math_Exp : F -> F)
    (now : time) (e : MLCortex.MLCortexEngine F) (newConfig : Config.MLConfig F)
    (features : list F) (flowID : string) :
  Config.ValidateMLConfig newConfig = None ->
  Config.FeatureSize newConfig = Config.FeatureSize (MLCortex.config e) ->
  let e' := snd (MLCortex.UpdateConfig e newConfig) in
  let before := MLCortex.Analyze math_Exp now e features flowID in
  let after := MLCortex.Analyze math_Exp now e' features flowID in
  fst (MLCortex.UpdateConfig e newConfig) = None
  /\ MLCortex.GetConfig e' = newConfig
  /\ fst after = fst before
  /\ MLCortex.mlEngine (snd after) = MLCortex.mlEngine (snd before)
  /\ MLCortex.stats (snd after) = MLCortex.stats (snd before)
  /\ MLCortex.config (snd after) = newConfig.
Proof.
  intros Hv Hsize. cbv zeta. rewrite (UpdateConfig_valid e newConfig Hv). cbn [fst snd].
  split; [reflexivity|]. split; [reflexivity|].
  unfold MLCortex.Analyze. cbn [MLCortex.config MLCortex.mlEngine MLCortex.stats].
  rewrite Hsize.
  destruct (len features =? Config.FeatureSize (MLCortex.config e))%Z; cbn [negb].
  - destruct (ML.Predict math_Exp now (MLCortex.mlEngine e) features flowID) as [[r|m|] ml];
      cbn; auto.
  - cbn. auto.
Qed.

Lemma update_config_keeps_detection_witness :
  fst (MLCortex.Analyze exp_series t0
         (snd (MLCortex.UpdateConfig svm_cortex_engine Config.DefaultMLConfig))
         (replicate 128 (lit 1 2)) "flow")
  = fst (MLCortex.Analyze exp_series t0 svm_cortex_engine (replicate 128 (lit 1 2)) "flow").
Proof.
  destruct (update_config_keeps_detection exp_series t0 svm_cortex_engine
              Config.DefaultMLConfig (replicate 128 (lit 1 2)) "flow")
    as (_ & _ & Hsame & _).
  - vm_compute. reflexivity.
  - reflexivity.
  - exact Hsame.
Defined.

(** X14. A new feature size breaks a trained SVM.  After [UpdateConfig] has
    accepted a configuration whose feature size differs from the length of
    the weights of a trained SVM, no analysis succeeds: a vector of the old
    length is rejected with an error, and a vector of the new length passes
    the check and makes [mat.Dot] panic on the lengths. *)
Theorem update_config_feature_size_breaks_svm {F} `{Float64 F} (math_Exp : F -> F)
    (now : time) (e : MLCortex.MLCortexEngine F) (newConfig : Config.MLConfig F)
    (svm : ML.SVMClassifier F) (flowID : string) :
  Config.ValidateMLConfig newConfig = None ->
  ML.ModelType (ML.config (MLCortex.mlEngine e)) = "svm" ->
  ML.svmModel (MLCortex.mlEngine e) = Some svm ->
  ML.svm_trained svm = true ->
  Config.FeatureSize newConfig <> len (ML.weights svm) ->
  let e' := snd (MLCortex.UpdateConfig e newConfig) in
  (forall x, len x = len (ML.weights svm) ->
     is_Err (fst (MLCortex.Analyze math_Exp now e' x flowID)) = true)
  /\ (forall x, len x = Config.FeatureSize newConfig ->
        fst (MLCortex.Analyze math_Exp now e' x flowID) = Panic)
  /\ (forall x r, fst (MLCortex.Analyze math_Exp now e' x flowID) <> Ok r).
Proof.
  intros Hv Hty Hsvm Htr Hne. cbv zeta. rewrite (UpdateConfig_valid e newConfig Hv). cbn [snd].
  pose proof (validated_feature_size newConfig Hv) as Hpos.
  assert (Hpanic : forall x, len x = Config.FeatureSize newConfig ->
            fst (MLCortex.Analyze math_Exp now
                   {| MLCortex.mlEngine := MLCortex.mlEngine e; MLCortex.config := newConfig;
                      MLCortex.stats := MLCortex.stats e |} x flowID) = Panic).
  { intros x Hx. unfold MLCortex.Analyze. cbn [MLCortex.config MLCortex.mlEngine MLCortex.stats].
    rewrite Hx, Z.eqb_refl. cbn [negb].
    unfold ML.Predict. cbv zeta. rewrite Hty. cbn [String.eqb Ascii.eqb Bool.eqb].
    unfold ML.predictSVM. rewrite Hsvm, Htr. cbn [negb].
    destruct (len x =? 0)%Z eqn:H0; [reflexivity|].
    unfold ML.Dot. replace (length (ML.weights svm) =? length x)%nat with false; [reflexivity|].
    symmetry. apply Nat.eqb_neq. unfold len in *. lia. }
  split; [|split; [exact Hpanic|]].
  - intros x Hx. rewrite mlcortex_analyze_mismatch; [reflexivity|].
    cbn [MLCortex.config]. congruence.
  - intros x r Hok.
    destruct (Z.eq_dec (len x) (Config.FeatureSize newConfig)) as [Hx|Hx].
    + rewrite (Hpanic x Hx) in Hok. discriminate.
    + rewrite mlcortex_analyze_mismatch in Hok by exact Hx. discriminate.
Qed.

Lemma update_config_feature_size_breaks_svm_witness :
  fst (MLCortex.Analyze exp_series t0
         (snd (MLCortex.UpdateConfig svm_cortex_engine
                 (with_feature_size Config.DefaultMLConfig 64)))
         (replicate 64 (lit 1 2)) "flow") = Panic.
Proof.
  destruct (update_config_feature_size_breaks_svm exp_series t0 svm_cortex_engine
              (with_feature_size Config.DefaultMLConfig 64)
              {| ML.weights := replicate 128 (lit 1 100); ML.bias := lit (-1) 2;
                 ML.svm_trained := true |} "flow")
    as (_ & Hpanic & _).
  - vm_compute. reflexivity.
  - reflexivity.
  - reflexivity.
  - reflexivity.
  - vm_compute. discriminate.
  - apply Hpanic. reflexivity.
Defined.

(** ** The counters of the two engines *)

Section Counters.

Context {F : Type} `{Float64 F}.
Variable math_Exp : F -> F.

Implicit Types (e : MLCortex.MLCortexEngine F) (ml : ML.MLEngine F).

(** What a call of [Predict] does to the counters of the ML engine. *)
Lemma predict_counters (now : time) ml (x : list F) (id : string) :
  match ML.Predict math_Exp now ml x id with
  | (Ok r, ml') =>
      ML.TotalPredictions (ML.stats ml') = incr64 (ML.TotalPredictions (ML.stats ml))
      /\ ML.BotDetections (ML.stats ml')
         = (if ML.IsBot r then incr64 (ML.BotDetections (ML.stats ml))
            else ML.BotDetections (ML.stats ml))
      /\ ML.HumanDetections (ML.stats ml')
         = (if ML.IsBot r then ML.HumanDetections (ML.stats ml)
            else incr64 (ML.HumanDetections (ML.stats ml)))
      /\ ML.LastPrediction (ML.stats ml') = now
      /\ ML.FlowID r = id
  | (_, ml') => ml' = ml
  end.
Proof.
  unfold ML.Predict.
  match goal with |- context [match ?sc with Ok _ => _ | Err _ => _ | Panic => _ end] =>
    destruct sc as [[confidence modelUsed]|m'|] end; cbn; auto.
Qed.

Lemma analyze_counters_agree (now : time) e (x : list F) (id : string) :
  counters_agree e -> counters_agree (snd (MLCortex.Analyze math_Exp now e x id)).
Proof.
  intros (Ht & Hb & Hh). unfold MLCortex.Analyze.
  destruct (negb (len x =? Config.FeatureSize (MLCortex.config e))%Z);
    [cbn; repeat split; assumption|].
  pose proof (predict_counters now (MLCortex.mlEngine e) x id) as Hp.
  destruct (ML.Predict math_Exp now (MLCortex.mlEngine e) x id) as [[r|m|] ml'].
  - destruct Hp as (Ht' & Hb' & Hh' & _). unfold counters_agree.
    cbn [snd MLCortex.stats MLCortex.mlEngine MLCortex.updateStats MLCortex.TotalInferences
         MLCortex.BotDetections MLCortex.HumanDetections Cortex.IsBot].
    rewrite Ht', Hb', Hh', Ht, Hb, Hh. destruct (ML.IsBot r); auto.
  - subst ml'. cbn. repeat split; assumption.
  - subst ml'. cbn. repeat split; assumption.
Qed.

End Counters.

(** X15. The health check is counted as a prediction.  [Analyze] counts every
    result in the statistics of the cortex engine and in those of the ML
    engine alike, so the two agree from construction on.  [HealthCheck]
    predicts through the ML engine only: when it succeeds the ML engine has
    counted one prediction more, under the time of the check, and the
    statistics of the cortex engine are as before. *)
Theorem health_check_counts_as_prediction {F} `{Float64 F} (math_Exp : F -> F)
    (now : time) (e : MLCortex.MLCortexEngine F) :
  counters_agree e ->
  (forall graph features labels cfg e0,
     MLCortex.NewMLCortexEngine graph features labels cfg = Ok e0 -> counters_agree e0)
  /\ (forall x id, counters_agree (snd (MLCortex.Analyze math_Exp now e x id)))
  /\ (forall e', MLCortex.HealthCheck math_Exp now e = (Ok tt, e') ->
        MLCortex.stats e' = MLCortex.stats e
        /\ MLCortex.config e' = MLCortex.config e
        /\ ML.TotalPredictions (MLCortex.GetMLStatistics e')
           = incr64 (MLCortex.TotalInferences (MLCortex.stats e'))
        /\ ML.LastPrediction (MLCortex.GetMLStatistics e') = now).
Proof.
  intros Hagree. split; [|split; [intros x id; apply analyze_counters_agree; exact Hagree|]].
  { intros graph features labels cfg e0 Hnew. unfold MLCortex.NewMLCortexEngine in Hnew.
    destruct (ML.NewMLEngine graph features labels (MLCortex.mlConfig cfg)) as [ml|m|] eqn:Hml;
      [|discriminate|discriminate].
    destruct (NewMLEngine_ok graph features labels _ ml Hml) as (_ & Hst & _).
    injection Hnew as <-. unfold counters_agree. cbn. rewrite Hst. auto. }
  intros e' Hhc. unfold MLCortex.HealthCheck in Hhc.
  destruct (Config.FeatureSize (MLCortex.config e) <? 0)%Z; [discriminate|]. cbv zeta in Hhc.
  match type of Hhc with context [ML.Predict math_Exp now ?ml ?x ?id] =>
    pose proof (predict_counters math_Exp now ml x id) as Hp;
    destruct (ML.Predict math_Exp now ml x id) as [[r|m|] ml'] end;
    [|discriminate|discriminate].
  injection Hhc as <-. destruct Hp as (Ht & _ & _ & Hl & _). destruct Hagree as (Ha & _).
  unfold MLCortex.GetMLStatistics, ML.GetStatistics.
  cbn [MLCortex.stats MLCortex.config MLCortex.mlEngine].
  rewrite Ht, Ha. auto.
Qed.

Lemma health_check_counts_as_prediction_witness :
  ML.TotalPredictions
    (MLCortex.GetMLStatistics (snd (MLCortex.HealthCheck exp_series t0 svm_cortex_engine)))
  = 1%Z
  /\ MLCortex.TotalInferences
       (MLCortex.stats (snd (MLCortex.HealthCheck exp_series t0 svm_cortex_engine))) = 0%Z.
Proof.
  destruct (health_check_counts_as_prediction exp_series t0 svm_cortex_engine)
    as (_ & _ & Hhc).
  - repeat split.
  - destruct (Hhc (snd (MLCortex.HealthCheck exp_series t0 svm_cortex_engine)))
      as (Hst & _ & Ht & _).
    + vm_compute. reflexivity.
    + rewrite Ht, Hst. split; reflexivity.
Defined.

(** ** Training of the SVM (exact arithmetic) *)

Section Training.

Local Open Scope Q_scope.

Lemma svm_step_lookup (label : Q) (w feature : list Q) (k : nat) :
  (k < length w)%nat ->
  default 0 (ML.svm_step label w feature !! k)
  == default 0 (w !! k) + (1 # 100) * (label * default 0 (feature !! k)).
Proof.
  revert feature k. induction w as [|wk w IH]; intros feature k Hk; [cbn in Hk; lia|].
  destruct feature as [|f feature].
  - cbn [ML.svm_step]. rewrite (lookup_nil (A := Q) k). cbn [from_option]. ring.
  - cbn [ML.svm_step]. destruct k as [|k].
    + cbn [lookup list_lookup from_option id f_add f_mul exactQ].
      assert (Hl : lit (F := Q) 1 100 == 1 # 100) by (vm_compute; reflexivity).
      rewrite Hl. ring.
    + cbn [lookup list_lookup]. apply IH. cbn in Hk. lia.
Qed.

Lemma label_signed (l : Z) :
  (if (f_of_Z (F := Q) l =? f_zero)%f64 then f_of_Z (-1) else f_of_Z l) == signed_label l.
Proof.
  unfold signed_label. cbn [f_eqb f_of_Z exactQ]. unfold f_zero. cbn [f_of_Z exactQ].
  destruct (Z.eqb_spec l 0) as [->|Hne]; [reflexivity|].
  destruct (Qeq_bool (inject_Z l) (inject_Z 0)) eqn:Hq; [|reflexivity].
  apply Qeq_bool_eq in Hq. exfalso. apply Hne. unfold Qeq in Hq. cbn in Hq. lia.
Qed.

Lemma svm_pass_lookup (w : list Q) (features : list (list Q)) (labels : list Z) (k : nat) :
  (k < length w)%nat ->
  default 0 (ML.svm_pass w features labels !! k)
  == default 0 (w !! k) + (1 # 100) * sample_sum features labels k.
Proof.
  revert w labels. induction features as [|feature features IH]; intros w labels Hk.
  - cbn [ML.svm_pass]. unfold sample_sum. cbn. ring.
  - destruct labels as [|l labels].
    + cbn [ML.svm_pass]. unfold sample_sum. cbn. ring.
    + cbn [ML.svm_pass]. cbv zeta. rewrite IH by (rewrite svm_step_length; exact Hk).
      rewrite svm_step_lookup by exact Hk. rewrite label_signed.
      unfold sample_sum. cbn [combine fold_right]. ring.
Qed.

Lemma svm_passes_lookup (n : nat) (w : list Q) (features : list (list Q)) (labels : list Z)
    (k : nat) :
  (k < length w)%nat ->
  default 0 (Nat.iter n (fun w => ML.svm_pass w features labels) w !! k)
  == default 0 (w !! k) + inject_Z (Z.of_nat n) * ((1 # 100) * sample_sum features labels k).
Proof.
  intros Hk. induction n as [|n IH].
  - change (Nat.iter 0 ?f ?x) with x. change (inject_Z (Z.of_nat 0)) with 0. ring.
  - change (Nat.iter (S n) ?f ?x) with (f (Nat.iter n f x)). cbv beta.
    rewrite svm_pass_lookup by (rewrite svm_training_length; exact Hk).
    rewrite IH, Nat2Z.inj_succ. unfold Z.succ. rewrite inject_Z_plus.
    change (inject_Z 1) with 1. ring.
Qed.

End Training.

(** X16. Training of the SVM in closed form (exact arithmetic).  The hundred
    passes of [trainSVM] add to weight [k] the sum, over the samples that
    have a label, of the label times feature [k], where the label 0 counts
    as -1: the step 0.01 times a hundred passes is one.  The update does not
    depend on the weights, so training again on the same data adds the same
    amount again; the number of weights and the bias are not changed. *)
Theorem svm_training_closed_form (e e' : ML.MLEngine Q) (features : list (list Q))
    (labels : list Z) (svm : ML.SVMClassifier Q) (k : nat) :
  ML.trainSVM e features labels = Ok e' ->
  ML.svmModel e = Some svm ->
  (k < length (ML.weights svm))%nat ->
  exists svm',
    ML.svmModel e' = Some svm'
    /\ ML.svm_trained svm' = true
    /\ ML.bias svm' = ML.bias svm
    /\ length (ML.weights svm') = length (ML.weights svm)
    /\ (at_index (ML.weights svm') k
        == at_index (ML.weights svm) k + sample_sum features labels k)%Q.
Proof.
  intros Htrain Hsvm Hk.
  destruct (trainSVM_ok e e' features labels Htrain) as (_ & _ & _ & _ & _ & svm0 & Hsvm0 & Hsvm').
  rewrite Hsvm in Hsvm0. injection Hsvm0 as <-.
  eexists. split; [exact Hsvm'|]. split; [reflexivity|]. split; [reflexivity|].
  change (ML.weights {| ML.weights := ?w; ML.bias := _; ML.svm_trained := _ |}) with w.
  unfold trained_weights. split; [apply svm_training_length|].
  unfold at_index. change (f_zero (F := Q)) with 0%Q.
  rewrite (svm_passes_lookup 100 _ features labels k Hk).
  change (inject_Z (Z.of_nat 100)) with 100%Q. ring.
Qed.

Lemma svm_training_closed_form_witness :
  exists svm',
    ML.svmModel small_svm_trained = Some svm' /\ (at_index (ML.weights svm') 1 == 2)%Q.
Proof.
  destruct (svm_training_closed_form small_svm_engine small_svm_trained small_features
              small_labels
              {| ML.weights := [0; 0]%Q; ML.bias := 0%Q; ML.svm_trained := false |} 1%nat)
    as (svm' & Hsvm' & _ & _ & _ & Hw).
  - vm_compute. reflexivity.
  - reflexivity.
  - cbn. lia.
  - exists svm'. split; [exact Hsvm'|]. rewrite Hw. vm_compute. reflexivity.
Defined.

(** ** The statistics of the ML cortex engine under its mutex *)

Section StatisticsMutex.

Context {F : Type} `{Float64 F}.

Implicit Types (c : Sync.Call (stats_memory F)) (t : Sync.turn (stats_memory F)).

Lemma reading_step c t : reading c -> reading (Sync.step c t).
Proof.
  intros Hc. destruct c as [[hr hw orr ow] m code]. unfold reading in *.
  cbn [Sync.code Sync.mu Sync.held_r Sync.held_w Sync.others_w] in Hc.
  destruct Hc as [(-> & -> & ->)|([-> | ->] & -> & -> & ->)].
  - destruct t as [|o].
    + cbn [Sync.step Sync.code MLCortex.GetStatistics Sync.acquire Sync.mu].
      unfold Sync.write_locked. cbn [Sync.held_w Sync.others_w orb].
      destruct ow; cbn; [left; auto | right; auto].
    + destruct o; cbn [Sync.step Sync.interfere Sync.mu]; unfold Sync.write_locked, Sync.read_locked;
        cbn [Sync.held_w Sync.others_w Sync.held_r Sync.others_r orb];
        repeat match goal with
               | |- context [if ?b then _ else _] => destruct b
               | |- context [match ?n with O => _ | S _ => _ end] => destruct n
               end; cbn; left; auto.
  - destruct t as [|o].
    + cbn. right. auto.
    + destruct o; cbn [Sync.step Sync.interfere Sync.mu]; unfold Sync.write_locked, Sync.read_locked;
        cbn [Sync.held_w Sync.others_w Sync.held_r Sync.others_r orb Nat.add Nat.ltb Nat.leb];
        repeat match goal with
               | |- context [match ?n with O => _ | S _ => _ end] => destruct n
               end; cbn; right; auto.
  - destruct t as [|o].
    + cbn. right. auto.
    + destruct o; cbn [Sync.step Sync.interfere Sync.mu]; unfold Sync.write_locked, Sync.read_locked;
        cbn [Sync.held_w Sync.others_w Sync.held_r Sync.others_r orb Nat.add Nat.ltb Nat.leb];
        repeat match goal with
               | |- context [match ?n with O => _ | S _ => _ end] => destruct n
               end; cbn; right; auto.
Qed.

Lemma reading_run c (schedule : list (Sync.turn (stats_memory F))) :
  reading c -> reading (Sync.run c schedule).
Proof.
  revert c. induction schedule as [|t schedule IH]; intros c Hc; [exact Hc|].
  cbn [Sync.run fold_left]. apply IH. apply reading_step. exact Hc.
Qed.

Lemma step_code_length c t : (length (Sync.code (Sync.step c t)) <= length (Sync.code c))%nat.
Proof.
  destruct c as [mu m code]. destruct t as [|o]; cbn [Sync.step Sync.code].
  - destruct code as [|o rest]; [reflexivity|].
    destruct (Sync.acquire _ _); cbn; lia.
  - destruct (Sync.interfere _ _); cbn; lia.
Qed.

(** The read lock, once taken, is kept. *)
Lemma reading_kept c t :
  reading c -> Sync.held_r (Sync.mu c) = 1%nat -> Sync.held_r (Sync.mu (Sync.step c t)) = 1%nat.
Proof.
  intros Hc Hr. pose proof (reading_step c t Hc) as Hc'.
  destruct Hc' as [(Hcode' & _)|(_ & Hr' & _)]; [|exact Hr'].
  exfalso. destruct Hc as [(_ & H0 & _)|(Hcode & _)]; [congruence|].
  pose proof (step_code_length c t) as Hlen. rewrite Hcode' in Hlen.
  destruct Hcode as [Hcode|Hcode]; rewrite Hcode in Hlen; cbn in Hlen; lia.
Qed.

End StatisticsMutex.

(** X17. [GetStatistics] of the ML cortex engine never returns.  It takes the
    read lock of the statistics and then, still holding it, asks for the
    write lock of the same mutex, which is not granted while a read lock is
    held.  Whatever the other goroutines do and however the turns fall, the
    call does not return and never holds the write lock; and from the moment
    it holds the read lock, it holds it for ever and no other goroutine gets
    the write lock, so every [updateStats] that follows blocks as well. *)
Theorem get_statistics_never_returns {F} `{Float64 F}
    (readers : nat) (writer : bool) (m : stats_memory F)
    (schedule : list (Sync.turn (stats_memory F))) :
  let c := Sync.run (Sync.call readers writer m MLCortex.GetStatistics) schedule in
  Sync.returned c = false
  /\ Sync.held_w (Sync.mu c) = false
  /\ In Sync.Lock (Sync.code c)
  /\ (Sync.held_r (Sync.mu c) = 1%nat ->
      forall later,
        Sync.held_r (Sync.mu (Sync.run c later)) = 1%nat
        /\ Sync.others_w (Sync.mu (Sync.run c later)) = false
        /\ Sync.acquire (S := stats_memory F) Sync.Lock (Sync.mu (Sync.run c later)) = None
        /\ Sync.interfere (S := stats_memory F) Sync.OtherLock (Sync.mu (Sync.run c later)) = None).
Proof.
  cbv zeta.
  assert (Hstart : reading (Sync.call readers writer m MLCortex.GetStatistics))
    by (left; auto).
  pose proof (reading_run _ schedule Hstart) as Hc.
  set (c := Sync.run _ schedule) in *. clearbody c.
  split; [|split; [|split]].
  - unfold Sync.returned. destruct Hc as [(-> & _)|([-> | ->] & _)]; reflexivity.
  - destruct Hc as [(_ & _ & Hw)|(_ & _ & Hw & _)]; exact Hw.
  - destruct Hc as [(-> & _)|([-> | ->] & _)]; cbn; auto.
  - intros Hr later.
    assert (Hlater : reading (Sync.run c later) /\ Sync.held_r (Sync.mu (Sync.run c later)) = 1%nat).
    { revert c Hc Hr. induction later as [|t later IH]; intros c Hc Hr; [split; assumption|].
      cbn [Sync.run fold_left]. apply IH; [apply reading_step; exact Hc|].
      apply reading_kept; assumption. }
    destruct Hlater as [Hc' Hr'].
    destruct Hc' as [(_ & H0 & _)|(_ & _ & Hw & How)]; [congruence|].
    split; [exact Hr'|]. split; [exact How|].
    unfold Sync.acquire, Sync.interfere, Sync.write_locked, Sync.read_locked.
    rewrite Hw, How, Hr'. cbn. auto.
Qed.

(** By contrast, [updateStats], which takes the write lock alone, returns
    after its three statements when the mutex is free, and blocks while a
    call of [GetStatistics] has taken its read lock. *)
Example update_stats_call_returns {F} `{Float64 F} (m : stats_memory F)
    (result : Cortex.DetectionResult F) :
  Sync.returned
    (Sync.run (Sync.call 0 false m (MLCortex.updateStats_call result))
       [Sync.Caller; Sync.Caller; Sync.Caller]) = true
  /\ Sync.returned
       (Sync.run (Sync.call 1 false m (MLCortex.updateStats_call result))
          [Sync.Caller; Sync.Caller; Sync.Caller]) = false.
Proof. split; reflexivity. Qed.

(** ** Identification of the protocol *)

Section Identification.

Lemma byte_at_range (data : string) (i : nat) : (0 <= Protocol.byte_at data i < 256)%Z.
Proof.
  unfold Protocol.byte_at. destruct (String.get i data) as [c|]; [|lia].
  pose proof (N_ascii_bounded c) as Hb. lia.
Qed.

Lemma quic_bits (b : Z) :
  (0 <= b < 256)%Z -> (Z.land b 192 =? 64)%Z = (64 <=? b)%Z && (b <? 128)%Z.
Proof.
  intros Hb.
  assert (Hall : forallb (fun n => Bool.eqb (Z.land (Z.of_nat n) 192 =? 64)%Z
                                     ((64 <=? Z.of_nat n)%Z && (Z.of_nat n <? 128)%Z))
                         (seq 0 256) = true) by (vm_compute; reflexivity).
  rewrite forallb_forall in Hall.
  assert (Hin : In (Z.to_nat b) (seq 0 256)) by (apply in_seq; lia).
  specialize (Hall _ Hin). rewrite Z2Nat.id in Hall by lia.
  apply Bool.eqb_prop in Hall. exact Hall.
Qed.

(** The five ways in which [identifyProtocol] answers. *)
Lemma identify_cases (data : string) :
  let n := Protocol.slen data in
  let b := Protocol.byte_at data 0 in
  let tls := (5 <= n)%Z /\ b = 22%Z in
  let http := Protocol.HasPrefix data "GET " || Protocol.HasPrefix data "POST "
              || Protocol.HasPrefix data "HTTP/1.1" in
  let quic := (4 <= n)%Z /\ (64 <= b < 128)%Z in
  (tls /\ Protocol.identifyProtocol data = "TLS")
  \/ (~ tls /\ http = true /\ Protocol.identifyProtocol data = "HTTP/1.1")
  \/ (~ tls /\ http = false /\ Protocol.HasPrefix data "PRI * HTTP/2.0" = true
      /\ Protocol.identifyProtocol data = "HTTP/2")
  \/ (~ tls /\ http = false /\ Protocol.HasPrefix data "PRI * HTTP/2.0" = false /\ quic
      /\ Protocol.identifyProtocol data = "QUIC")
  \/ (~ tls /\ http = false /\ Protocol.HasPrefix data "PRI * HTTP/2.0" = false /\ ~ quic
      /\ Protocol.identifyProtocol data = "Unknown").
Proof.
  cbv zeta. pose proof (byte_at_range data 0) as Hb. pose proof (quic_bits _ Hb) as Hq.
  unfold Protocol.identifyProtocol. rewrite Hq.
  destruct (Z.leb_spec 5 (Protocol.slen data)) as [H5|H5];
    destruct (Z.eqb_spec (Protocol.byte_at data 0) 22) as [H22|H22]; cbn [andb];
    [left; auto | | |].
  all: assert (Hnot : ~ ((5 <= Protocol.slen data)%Z /\ Protocol.byte_at data 0 = 22%Z))
    by (intros [? ?]; lia || congruence).
  all: right.
  all: destruct (Protocol.HasPrefix data "GET " || Protocol.HasPrefix data "POST "
                 || Protocol.HasPrefix data "HTTP/1.1"); [left; auto|right].
  all: destruct (Protocol.HasPrefix data "PRI * HTTP/2.0"); [left; auto|right].
  all: destruct (Z.leb_spec 4 (Protocol.slen data)) as [H4|H4];
    destruct (Z.leb_spec 64 (Protocol.byte_at data 0)) as [H64|H64];
    destruct (Z.ltb_spec (Protocol.byte_at data 0) 128) as [H128|H128]; cbn [andb].
  all: try (left; repeat split; auto; lia).
  all: right; repeat split; auto; try (intros [? [? ?]]; lia).
  all: destruct (Z.leb_spec 8 (Protocol.slen data)); cbn [andb]; try reflexivity; lia.
Qed.

End Identification.

(** X18. Identification of the protocol.  [identifyProtocol] answers "TLS",
    "HTTP/1.1", "HTTP/2", "QUIC" or "Unknown", and never "HTTP/3": its test
    for HTTP/3 repeats the test for QUIC on longer data and is never reached
    with success.  The answer is "TLS" exactly for data of five bytes or
    more that start with the byte 22; it is "QUIC" exactly for data of four
    bytes or more whose first byte lies in 64..127 and that start with none
    of "GET ", "POST ", "HTTP/1.1" and the HTTP/2 preface, so that a request
    with any other method, like PUT, is taken for QUIC. *)
Theorem identify_protocol_cases (data : string) :
  In (Protocol.identifyProtocol data) ["TLS"; "HTTP/1.1"; "HTTP/2"; "QUIC"; "Unknown"]
  /\ Protocol.identifyProtocol data <> "HTTP/3"
  /\ (Protocol.identifyProtocol data = "TLS"
      <-> (5 <= Protocol.slen data)%Z /\ Protocol.byte_at data 0 = 22%Z)
  /\ (Protocol.identifyProtocol data = "QUIC"
      <-> (4 <= Protocol.slen data)%Z
          /\ (64 <= Protocol.byte_at data 0 < 128)%Z
          /\ Protocol.HasPrefix data "GET " = false
          /\ Protocol.HasPrefix data "POST " = false
          /\ Protocol.HasPrefix data "HTTP/1.1" = false
          /\ Protocol.HasPrefix data "PRI * HTTP/2.0" = false)
  /\ Protocol.identifyProtocol put_request = "QUIC".
Proof.
  split; [|split; [|split; [|split; [|vm_compute; reflexivity]]]].
  - destruct (identify_cases data) as [H|[H|[H|[H|H]]]]; cbv zeta in H;
      repeat match type of H with _ /\ _ => destruct H as [_ H] end;
      rewrite H; cbn; auto 6.
  - destruct (identify_cases data) as [H|[H|[H|[H|H]]]]; cbv zeta in H;
      repeat match type of H with _ /\ _ => destruct H as [_ H] end;
      rewrite H; discriminate.
  - destruct (identify_cases data) as [H|[H|[H|[H|H]]]]; cbv zeta in H.
    + destruct H as [Htls ->]. split; auto.
    + destruct H as (Hn & _ & ->). split; [discriminate | intros Ht; contradiction].
    + destruct H as (Hn & _ & _ & ->). split; [discriminate | intros Ht; contradiction].
    + destruct H as (Hn & _ & _ & _ & ->). split; [discriminate | intros Ht; contradiction].
    + destruct H as (Hn & _ & _ & _ & ->). split; [discriminate | intros Ht; contradiction].
  - destruct (identify_cases data) as [H|[H|[H|[H|H]]]]; cbv zeta in H.
    + destruct H as [[H5 H22] ->]. split; [discriminate | intros (_ & Hr & _); lia].
    + destruct H as (_ & Hhttp & ->). split; [discriminate|].
      intros (_ & _ & Hg & Hp & Hh & _). rewrite Hg, Hp, Hh in Hhttp. discriminate.
    + destruct H as (_ & _ & Hpri & ->). split; [discriminate|].
      intros (_ & _ & _ & _ & _ & Hp). congruence.
    + destruct H as (_ & Hhttp & Hpri & [H4 Hr] & ->). split; [|reflexivity]. intros _.
      apply orb_false_iff in Hhttp as [Hgp Hh]. apply orb_false_iff in Hgp as [Hg Hp].
      auto 7.
    + destruct H as (_ & _ & _ & Hnq & ->). split; [discriminate|].
      intros (H4 & Hr & _). exfalso. apply Hnq. auto.
Qed.

(** ** Packets that are not HTTP/1.1 *)

Section Packets.

Lemma prefix_get (p s : string) (i : nat) (c : ascii) :
  String.prefix p s = true -> String.get i p = Some c -> String.get i s = Some c.
Proof.
  revert s i. induction p as [|a p IH]; intros s i Hp Hget; [destruct i; discriminate|].
  destruct s as [|b s]; [discriminate|]. cbn [String.prefix] in Hp.
  destruct (ascii_dec a b) as [->|Hne]; [|discriminate].
  destruct i as [|i]; cbn [String.get] in *; [exact Hget | exact (IH s i Hp Hget)].
Qed.

Lemma prefix_byte_at (p s : string) (i : nat) :
  String.prefix p s = true -> (i < String.length p)%nat ->
  Protocol.byte_at s i = Protocol.byte_at p i.
Proof.
  intros Hp Hi. unfold Protocol.byte_at.
  destruct (String.get i p) as [c|] eqn:Hget.
  - rewrite (prefix_get p s i c Hp Hget). reflexivity.
  - exfalso. revert i Hi Hget. clear Hp. induction p as [|a p IH]; intros i Hi Hget;
      [cbn in Hi; lia|].
    destruct i as [|i]; [discriminate|]. cbn in Hi, Hget. apply (IH i); [lia | exact Hget].
Qed.

Lemma big_endian_16 (hi lo : Z) :
  (0 <= hi < 256)%Z -> (0 <= lo < 256)%Z -> Z.lor lo (Z.shiftl hi 8) = (256 * hi + lo)%Z.
Proof.
  intros Hhi Hlo.
  assert (Hall : forallb (fun h => forallb (fun l =>
            (Z.lor (Z.of_nat l) (Z.shiftl (Z.of_nat h) 8) =? 256 * Z.of_nat h + Z.of_nat l)%Z)
            (seq 0 256)) (seq 0 256) = true) by (vm_compute; reflexivity).
  rewrite forallb_forall in Hall.
  assert (Hh : In (Z.to_nat hi) (seq 0 256)) by (apply in_seq; lia).
  specialize (Hall _ Hh). rewrite forallb_forall in Hall.
  assert (Hl : In (Z.to_nat lo) (seq 0 256)) by (apply in_seq; lia).
  specialize (Hall _ Hl). rewrite !Z2Nat.id in Hall by lia. apply Z.eqb_eq. exact Hall.
Qed.

Lemma byte_value (n : Z) : (0 <= n < 256)%Z -> Z.of_N (N_of_ascii (byte n)) = n.
Proof.
  intros Hn. unfold byte. rewrite N_ascii_embedding by lia. lia.
Qed.

Lemma slen_append (a b : string) : Protocol.slen (a +:+ b) = (Protocol.slen a + Protocol.slen b)%Z.
Proof.
  unfold Protocol.slen. rewrite <- Nat2Z.inj_add. apply f_equal.
  induction a as [|c a IH]; [reflexivity|].
  change (S (String.length (a +:+ b)) = S (String.length a + String.length b))%nat.
  congruence.
Qed.

Lemma parse_headers_static (lines : list string) (info : Protocol.ProtocolInfo) :
  Protocol.Protocol (Protocol.parse_headers lines info) = Protocol.Protocol info
  /\ Protocol.RawData (Protocol.parse_headers lines info) = Protocol.RawData info.
Proof.
  revert info. induction lines as [|line rest IH]; intros info; cbn [Protocol.parse_headers];
    [auto|].
  destruct (String.eqb line ""); [auto|]. cbv zeta.
  destruct (0 <? Protocol.Index line ":")%Z; [|apply IH].
  destruct (IH (Protocol.set_header info
                  (Protocol.TrimSpace
                     (substring 0 (Z.to_nat (Protocol.Index line ":")) line))
                  (Protocol.TrimSpace
                     (substring (Z.to_nat (Protocol.Index line ":") + 1)
                        (String.length line - (Z.to_nat (Protocol.Index line ":") + 1)) line))))
    as [-> ->]. auto.
Qed.

Lemma parseHTTP11_static (data : string) (info : Protocol.ProtocolInfo) :
  Protocol.Protocol (fst (Protocol.parseHTTP11 data info)) = Protocol.Protocol info
  /\ Protocol.RawData (fst (Protocol.parseHTTP11 data info)) = Protocol.RawData info.
Proof.
  unfold Protocol.parseHTTP11. cbv zeta.
  destruct (len (Protocol.SplitCRLF data) <? 2)%Z; [auto|].
  destruct (len (Protocol.Fields (hd EmptyString (Protocol.SplitCRLF data))) <? 2)%Z; [auto|].
  cbn [fst Protocol.Protocol Protocol.RawData].
  match goal with
  | |- Protocol.Protocol (Protocol.parse_headers ?l ?i) = _ /\ _ =>
      destruct (parse_headers_static l i) as [-> ->]
  end.
  cbn [Protocol.Protocol Protocol.RawData].
  destruct (Protocol.HasPrefix _ _).
  - unfold Protocol.set_response.
    destruct (Protocol.Fields _) as [|v [|w ps]]; auto.
  - auto.
Qed.

(** What [ParsePacket] does with data of 20 bytes or more that it does not
    take for HTTP/1.1. *)
Lemma ParsePacket_other (data : string) :
  (20 <= Protocol.slen data)%Z -> Protocol.identifyProtocol data <> "HTTP/1.1" ->
  Protocol.ParsePacket data
  = (Some (Protocol.with_version
             {| Protocol.Protocol := Protocol.identifyProtocol data; Protocol.Version := "";
                Protocol.Headers := None; Protocol.Method := ""; Protocol.Path := "";
                Protocol.StatusCode := 0; Protocol.UserAgent := ""; Protocol.RawData := data;
                Protocol.Features := None |}
             (if String.eqb (Protocol.identifyProtocol data) "Unknown" then ""
              else Protocol.identifyProtocol data)
             (if String.eqb (Protocol.identifyProtocol data) "TLS"
              then Some {[ "content_type" := Protocol.VInt (Protocol.byte_at data 0);
                           "version" := Protocol.VInt (Protocol.Uint16 data 1);
                           "length" := Protocol.VInt (Protocol.Uint16 data 3) ]}
              else if String.eqb (Protocol.identifyProtocol data) "HTTP/2"
              then Some {[ "frame_type" := Protocol.VInt (Protocol.byte_at data 3);
                           "flags" := Protocol.VInt (Protocol.byte_at data 4);
                           "stream_id" := Protocol.VInt (Protocol.Uint32 data 5) ]}
              else if String.eqb (Protocol.identifyProtocol data) "QUIC"
              then Some {[ "header_form" :=
                             Protocol.VInt (Z.shiftr (Z.land (Protocol.byte_at data 0) 128) 7);
                           "packet_type" :=
                             Protocol.VInt (Z.land (Protocol.byte_at data 0) 127) ]}
              else None)), None).
Proof.
  intros Hlen Hnot. unfold Protocol.ParsePacket.
  destruct (Z.ltb_spec (Protocol.slen data) 20) as [|_]; [lia|]. cbv zeta.
  destruct (identify_cases data) as [H|[H|[H|[H|H]]]]; cbv zeta in H;
    repeat match type of H with _ /\ _ => destruct H as [_ H] end;
    rewrite H in *; try congruence;
    cbn [String.eqb Ascii.eqb Bool.eqb andb];
    unfold Protocol.parseTLS, Protocol.parseHTTP2, Protocol.parseQUIC;
    repeat match goal with
           | |- context [(?k <=? Protocol.slen data)%Z] =>
               destruct (Z.leb_spec k (Protocol.slen data)); [|lia]
           end; reflexivity.
Qed.

End Packets.

(** X19. Packets that [ParsePacket] accepts without reading them as HTTP/1.1.
    Data of fewer than 20 bytes is refused with an error and no info.  For
    data of 20 bytes or more an info is always returned, with the protocol
    that [identifyProtocol] names and the data itself; the protocol is a
    supported one unless it is "Unknown"; and when it is not "HTTP/1.1" there
    is no error and the version is the name of the protocol (empty for
    "Unknown"). *)
Theorem parse_packet_outcome (data : string) :
  ((Protocol.slen data < 20)%Z ->
   Protocol.ParsePacket data = (None, Some "packet too small to parse"))
  /\ ((20 <= Protocol.slen data)%Z ->
      exists info,
        fst (Protocol.ParsePacket data) = Some info
        /\ Protocol.Protocol info = Protocol.identifyProtocol data
        /\ Protocol.RawData info = data
        /\ Protocol.IsSupportedProtocol (Protocol.Protocol info)
           = negb (String.eqb (Protocol.Protocol info) "Unknown")
        /\ (Protocol.identifyProtocol data <> "HTTP/1.1" ->
            snd (Protocol.ParsePacket data) = None
            /\ Protocol.Version info
               = if String.eqb (Protocol.identifyProtocol data) "Unknown" then ""
                 else Protocol.identifyProtocol data)).
Proof.
  split.
  - intros Hlen. unfold Protocol.ParsePacket.
    destruct (Z.ltb_spec (Protocol.slen data) 20) as [_|]; [reflexivity | lia].
  - intros Hlen.
    assert (Hsup : Protocol.IsSupportedProtocol (Protocol.identifyProtocol data)
                   = negb (String.eqb (Protocol.identifyProtocol data) "Unknown")).
    { destruct (identify_cases data) as [H|[H|[H|[H|H]]]]; cbv zeta in H;
        repeat match type of H with _ /\ _ => destruct H as [_ H] end;
        rewrite H; vm_compute; reflexivity. }
    destruct (string_dec (Protocol.identifyProtocol data) "HTTP/1.1") as [Hhttp|Hother].
    + unfold Protocol.ParsePacket.
      destruct (Z.ltb_spec (Protocol.slen data) 20) as [|_]; [lia|]. cbv zeta.
      rewrite Hhttp. cbn [String.eqb Ascii.eqb Bool.eqb andb].
      match goal with
      | |- context [Protocol.parseHTTP11 data ?i] =>
          pose proof (parseHTTP11_static data i) as [Hp Hr];
          destruct (Protocol.parseHTTP11 data i) as [info err]
      end.
      cbn [fst Protocol.Protocol Protocol.RawData] in Hp, Hr.
      exists info. cbn [fst]. split; [reflexivity|]. rewrite Hp, Hr.
      split; [reflexivity|]. split; [reflexivity|]. split; [reflexivity|]. congruence.
    + rewrite (ParsePacket_other data Hlen Hother). eexists. cbn [fst snd].
      split; [reflexivity|]. cbn [Protocol.with_version Protocol.Protocol Protocol.RawData
                                   Protocol.Version].
      split; [reflexivity|]. split; [reflexivity|]. split; [exact Hsup|]. auto.
Qed.

(** ** TLS records, the HTTP/2 preface and QUIC packets *)

Section Records.

Lemma tls_record_bytes (version length : Z) (payload : string) :
  tls_record version length payload
  = String (byte 22) (String (byte (version / 256)) (String (byte (version mod 256))
      (String (byte (length / 256)) (String (byte (length mod 256)) payload)))).
Proof. reflexivity. Qed.

Lemma identify_tls (data : string) :
  (5 <= Protocol.slen data)%Z -> Protocol.byte_at data 0 = 22%Z ->
  Protocol.identifyProtocol data = "TLS".
Proof.
  intros Hlen Hb. unfold Protocol.identifyProtocol. rewrite Hb.
  destruct (Z.leb_spec 5 (Protocol.slen data)); [reflexivity | lia].
Qed.

Lemma prefix_differs (p s : string) (i : nat) :
  (i < String.length p)%nat -> Protocol.byte_at s i <> Protocol.byte_at p i ->
  Protocol.HasPrefix s p = false.
Proof.
  intros Hi Hne. unfold Protocol.HasPrefix.
  destruct (String.prefix p s) eqn:Hp; [|reflexivity].
  exfalso. apply Hne. apply prefix_byte_at; assumption.
Qed.

Lemma identify_preface (data : string) :
  Protocol.HasPrefix data "PRI * HTTP/2.0" = true -> Protocol.identifyProtocol data = "HTTP/2".
Proof.
  intros Hp. unfold Protocol.HasPrefix in Hp.
  assert (H0 : Protocol.byte_at data 0 = 80%Z)
    by (rewrite (prefix_byte_at _ _ 0 Hp) by (cbn; lia); reflexivity).
  assert (H1 : Protocol.byte_at data 1 = 82%Z)
    by (rewrite (prefix_byte_at _ _ 1 Hp) by (cbn; lia); reflexivity).
  unfold Protocol.identifyProtocol. rewrite H0.
  replace (80 =? 22)%Z with false by reflexivity. rewrite Bool.andb_false_r.
  rewrite (prefix_differs "GET " data 0) by (cbn; lia || (rewrite H0; discriminate)).
  rewrite (prefix_differs "POST " data 1) by (cbn; lia || (rewrite H1; discriminate)).
  rewrite (prefix_differs "HTTP/1.1" data 0) by (cbn; lia || (rewrite H0; discriminate)).
  cbn [orb]. unfold Protocol.HasPrefix. rewrite Hp. reflexivity.
Qed.

Lemma low_bits (b : Z) :
  (0 <= b < 128)%Z -> Z.shiftr (Z.land b 128) 7 = 0%Z /\ Z.land b 127 = b.
Proof.
  intros Hb.
  assert (Hall : forallb (fun n => (Z.shiftr (Z.land (Z.of_nat n) 128) 7 =? 0)%Z
                                   && (Z.land (Z.of_nat n) 127 =? Z.of_nat n)%Z)
                         (seq 0 128) = true) by (vm_compute; reflexivity).
  rewrite forallb_forall in Hall.
  assert (Hin : In (Z.to_nat b) (seq 0 128)) by (apply in_seq; lia).
  specialize (Hall _ Hin). rewrite Z2Nat.id in Hall by lia.
  apply andb_prop in Hall. destruct Hall as [H1 H2]. split; apply Z.eqb_eq; assumption.
Qed.

End Records.

(** X20. The header of a TLS record is read back as it was written.  A record of
    content type 22 with a payload of 15 bytes or more is parsed without
    error as "TLS", and its features are the content type 22 and the version
    and the length that were written, high byte first, whatever the payload
    is: the length is not compared with it. *)
Theorem tls_record_fields (version length : Z) (payload : string) :
  (0 <= version < 65536)%Z -> (0 <= length < 65536)%Z -> (15 <= Protocol.slen payload)%Z ->
  Protocol.ParsePacket (tls_record version length payload)
  = (Some (bare_info "TLS" (tls_record version length payload)
             {[ "content_type" := Protocol.VInt 22;
                "version" := Protocol.VInt version;
                "length" := Protocol.VInt length ]}), None).
Proof.
  intros Hv Hl Hp.
  assert (Hlen : Protocol.slen (tls_record version length payload)
                 = (5 + Protocol.slen payload)%Z).
  { rewrite tls_record_bytes. unfold Protocol.slen. cbn [String.length]. lia. }
  assert (Hb : forall n, (0 <= n < 65536)%Z ->
                 Z.lor (Z.of_N (N_of_ascii (byte (n mod 256))))
                       (Z.shiftl (Z.of_N (N_of_ascii (byte (n / 256)))) 8) = n).
  { intros n Hn.
    assert (0 <= n / 256 < 256)%Z by (split; [apply Z.div_pos | apply Z.div_lt_upper_bound]; lia).
    assert (0 <= n mod 256 < 256)%Z by (apply Z.mod_pos_bound; lia).
    rewrite !byte_value by assumption. rewrite big_endian_16 by assumption.
    symmetry. apply Z.div_mod. lia. }
  assert (H0 : Protocol.byte_at (tls_record version length payload) 0 = 22%Z)
    by (rewrite tls_record_bytes; reflexivity).
  assert (Hid : Protocol.identifyProtocol (tls_record version length payload) = "TLS")
    by (apply identify_tls; [lia | exact H0]).
  rewrite ParsePacket_other by (rewrite ?Hid; lia || discriminate).
  rewrite Hid. cbn [String.eqb Ascii.eqb Bool.eqb andb]. rewrite H0.
  unfold Protocol.Uint16. rewrite tls_record_bytes at 2 3 4 5.
  unfold Protocol.byte_at. cbn [String.get Nat.add].
  rewrite (Hb version Hv), (Hb length Hl). reflexivity.
Qed.

Lemma tls_record_fields_witness :
  Protocol.ParsePacket (tls_record 771 512 "0123456789abcdef")
  = (Some (bare_info "TLS" (tls_record 771 512 "0123456789abcdef")
             {[ "content_type" := Protocol.VInt 22;
                "version" := Protocol.VInt 771;
                "length" := Protocol.VInt 512 ]}), None).
Proof.
  apply (tls_record_fields 771 512 "0123456789abcdef"); [lia | lia | vm_compute; discriminate].
Defined.

(** X21. A packet of 20 bytes or more that begins with the HTTP/2 preface is
    parsed as "HTTP/2" without error, and its features are read from the text
    of the preface itself, so they are the same for every such packet: frame
    type 32, flags 42 and stream 541611092. *)
Theorem http2_preface_features (data : string) :
  (20 <= Protocol.slen data)%Z -> Protocol.HasPrefix data "PRI * HTTP/2.0" = true ->
  Protocol.ParsePacket data
  = (Some (bare_info "HTTP/2" data
             {[ "frame_type" := Protocol.VInt 32;
                "flags" := Protocol.VInt 42;
                "stream_id" := Protocol.VInt 541611092 ]}), None).
Proof.
  intros Hlen Hp. pose proof (identify_preface data Hp) as Hid.
  rewrite ParsePacket_other by (rewrite ?Hid; lia || discriminate).
  rewrite Hid. cbn [String.eqb Ascii.eqb Bool.eqb andb].
  unfold Protocol.Uint32, Protocol.HasPrefix in *. cbn [Nat.add].
  rewrite !(prefix_byte_at _ _ _ Hp) by (cbn; lia). reflexivity.
Qed.

Lemma http2_preface_features_witness :
  Protocol.ParsePacket http2_preface
  = (Some (bare_info "HTTP/2" http2_preface
             {[ "frame_type" := Protocol.VInt 32;
                "flags" := Protocol.VInt 42;
                "stream_id" := Protocol.VInt 541611092 ]}), None).
Proof.
  apply (http2_preface_features http2_preface); [vm_compute; discriminate | reflexivity].
Defined.

(** X22. A packet that is parsed as "QUIC" never has the long header form: its
    header form is 0 and its packet type is its first byte, which lies
    between 64 and 127. *)
Theorem quic_features_short_header (data : string) :
  (20 <= Protocol.slen data)%Z -> Protocol.identifyProtocol data = "QUIC" ->
  (64 <= Protocol.byte_at data 0 < 128)%Z
  /\ Protocol.ParsePacket data
     = (Some (bare_info "QUIC" data
                {[ "header_form" := Protocol.VInt 0;
                   "packet_type" := Protocol.VInt (Protocol.byte_at data 0) ]}), None).
Proof.
  intros Hlen Hid.
  assert (Hb : (64 <= Protocol.byte_at data 0 < 128)%Z).
  { destruct (identify_cases data) as [H|[H|[H|[H|H]]]]; cbv zeta in H;
      try (repeat match type of H with _ /\ _ => destruct H as [_ H] end; congruence).
    destruct H as (_ & _ & _ & [_ Hq] & _). exact Hq. }
  split; [exact Hb|].
  rewrite ParsePacket_other by (rewrite ?Hid; lia || discriminate).
  rewrite Hid. cbn [String.eqb Ascii.eqb Bool.eqb andb].
  destruct (low_bits (Protocol.byte_at data 0)) as [-> ->]; [lia | reflexivity].
Qed.

Lemma quic_features_short_header_witness :
  (64 <= Protocol.byte_at put_request 0 < 128)%Z
  /\ Protocol.ParsePacket put_request
     = (Some (bare_info "QUIC" put_request
                {[ "header_form" := Protocol.VInt 0;
                   "packet_type" := Protocol.VInt (Protocol.byte_at put_request 0) ]}), None).
Proof.
  apply (quic_features_short_header put_request); [vm_compute; discriminate | reflexivity].
Defined.

(** ** Keywords in the user agent *)

Section Keywords.

Lemma append_nil_r (s : string) : s +:+ "" = s.
Proof.
  induction s as [|c s IH]; [reflexivity|].
  change (String c (s +:+ "") = String c s). congruence.
Qed.

Lemma prefix_spec (p s : string) :
  String.prefix p s = true <-> exists post, s = p +:+ post.
Proof.
  revert s. induction p as [|a p IH]; intros s.
  - split; [intros _; exists s; reflexivity | intros _; destruct s; reflexivity].
  - destruct s as [|b s]; cbn [String.prefix].
    + split; [discriminate | intros [post H]; discriminate].
    + destruct (ascii_dec a b) as [->|Hne].
      * rewrite IH. split; intros [post H]; exists post.
        -- change (String b s = String b (p +:+ post)). congruence.
        -- change (String b s = String b (p +:+ post)) in H. congruence.
      * split; [discriminate|]. intros [post H].
        change (String b s = String a (p +:+ post)) in H. congruence.
Qed.

Lemma Contains_spec (s sub : string) :
  Protocol.Contains s sub = true <-> exists pre post, s = pre +:+ sub +:+ post.
Proof.
  induction s as [|c s IH].
  - cbn [Protocol.Contains]. rewrite Bool.orb_false_r, prefix_spec. split.
    + intros [post H]. exists "", post. exact H.
    + intros (pre & post & H). destruct pre as [|x pre]; [exists post; exact H|].
      discriminate.
  - cbn [Protocol.Contains]. rewrite Bool.orb_true_iff, prefix_spec, IH. split.
    + intros [[post H]|(pre & post & H)].
      * exists "", post. exact H.
      * exists (String c pre), post.
        change (String c s = String c (pre +:+ sub +:+ post)). congruence.
    + intros (pre & post & H). destruct pre as [|x pre].
      * left. exists post. exact H.
      * right. exists pre, post.
        change (String c s = String x (pre +:+ sub +:+ post)) in H. congruence.
Qed.

Lemma ToLower_append (a b : string) :
  Protocol.ToLower (a +:+ b) = Protocol.ToLower a +:+ Protocol.ToLower b.
Proof.
  induction a as [|c a IH]; [reflexivity|].
  change (String (Protocol.lower c) (Protocol.ToLower (a +:+ b))
          = String (Protocol.lower c) (Protocol.ToLower a +:+ Protocol.ToLower b)).
  congruence.
Qed.

Lemma ToLower_split (s a b : string) :
  Protocol.ToLower s = a +:+ b ->
  exists a' b', s = a' +:+ b' /\ Protocol.ToLower a' = a /\ Protocol.ToLower b' = b.
Proof.
  revert s. induction a as [|x a IH]; intros s H.
  - exists "", s. auto.
  - destruct s as [|c s]; [discriminate|].
    change (String (Protocol.lower c) (Protocol.ToLower s) = String x (a +:+ b)) in H.
    injection H as Hx Hs. destruct (IH s Hs) as (a' & b' & -> & Ha & Hb).
    exists (String c a'), b'. repeat split; [|exact Hb].
    cbn [Protocol.ToLower]. congruence.
Qed.

End Keywords.

(** X23. A user agent of ASCII characters has bot keywords exactly when one of the
    nine keywords occurs somewhere in it in some mix of upper and lower case:
    neither the place nor the case matters, and the keyword need not be a
    word of its own. *)
Theorem bot_keywords_any_case_any_place (userAgent : string) :
  ascii_only userAgent = true ->
  (Protocol.hasBotKeywords userAgent = true
   <-> exists pre keyword post,
         userAgent = pre +:+ keyword +:+ post
         /\ In (Protocol.ToLower keyword) Protocol.botKeywords).
Proof.
  intros _. unfold Protocol.hasBotKeywords. cbv zeta. rewrite existsb_exists. split.
  - intros (k & Hin & Hc). apply Contains_spec in Hc. destruct Hc as (pre & post & Hc).
    apply ToLower_split in Hc. destruct Hc as (pre' & rest & -> & _ & Hrest).
    apply ToLower_split in Hrest. destruct Hrest as (kw & post' & -> & Hkw & _).
    exists pre', kw, post'. split; [reflexivity|]. rewrite Hkw. exact Hin.
  - intros (pre & kw & post & -> & Hin). exists (Protocol.ToLower kw). split; [exact Hin|].
    apply Contains_spec. exists (Protocol.ToLower pre), (Protocol.ToLower post).
    rewrite !ToLower_append. reflexivity.
Qed.

Lemma bot_keywords_any_case_any_place_witness :
  Protocol.hasBotKeywords crawler_agent = true.
Proof.
  apply (proj2 (bot_keywords_any_case_any_place crawler_agent eq_refl)).
  exists "Mozilla/5.0 (compatible; Google", "Bot", "/2.1)".
  split; [reflexivity|]. left. reflexivity.
Defined.

(** ** HTTP/1.1 requests and responses *)

Section HTTP11.

Lemma SplitCRLF_nonempty (s : string) : exists l ls, Protocol.SplitCRLF s = l :: ls.
Proof.
  induction s as [|c s IH]; [cbn; eauto|].
  destruct IH as (l & ls & IH). cbn [Protocol.SplitCRLF]. rewrite IH.
  destruct s as [|c' s']; [eauto|].
  destruct (Ascii.eqb c Protocol.CR && Ascii.eqb c' Protocol.LF); eauto.
Qed.

Lemma SplitCRLF_cons (c : ascii) (s : string) :
  Ascii.eqb c Protocol.CR = false ->
  Protocol.SplitCRLF (String c s)
  = match Protocol.SplitCRLF s with
    | l :: ls => String c l :: ls
    | [] => [String c EmptyString]
    end.
Proof.
  intros Hc. cbn [Protocol.SplitCRLF]. rewrite Hc. cbn [andb]. destruct s; reflexivity.
Qed.

Lemma space_not_cr (c : ascii) : Protocol.isSpace c = false -> Ascii.eqb c Protocol.CR = false.
Proof.
  unfold Protocol.isSpace. cbn [existsb]. intros H.
  repeat (apply Bool.orb_false_elim in H; destruct H as [? H]). assumption.
Qed.

(** A line without a carriage return, followed by CR LF, is the first of the
    lines. *)
Lemma SplitCRLF_line (line rest : string) :
  (forall c, In c (list_ascii_of_string line) -> Ascii.eqb c Protocol.CR = false) ->
  Protocol.SplitCRLF (line +:+ CRLF +:+ rest) = line :: Protocol.SplitCRLF rest.
Proof.
  induction line as [|c line IH]; intros Hcr.
  - reflexivity.
  - change (String c line +:+ CRLF +:+ rest) with (String c (line +:+ CRLF +:+ rest)).
    rewrite SplitCRLF_cons by (apply Hcr; left; reflexivity).
    rewrite IH by (intros c' Hin; apply Hcr; right; exact Hin). reflexivity.
Qed.

Lemma no_space_chars (s : string) :
  no_space s = true -> forall c, In c (list_ascii_of_string s) -> Protocol.isSpace c = false.
Proof.
  induction s as [|a s IH]; cbn [no_space list_ascii_of_string]; intros H c Hin;
    [destruct Hin|].
  apply andb_prop in H. destruct H as [Ha Hs]. destruct Hin as [<-|Hin].
  - apply Bool.negb_true_iff. exact Ha.
  - exact (IH Hs c Hin).
Qed.

Lemma chars_append (a b : string) :
  list_ascii_of_string (a +:+ b) = list_ascii_of_string a ++ list_ascii_of_string b.
Proof.
  induction a as [|c a IH]; [reflexivity|].
  change (c :: list_ascii_of_string (a +:+ b)
          = c :: (list_ascii_of_string a ++ list_ascii_of_string b)). congruence.
Qed.

Lemma Fields_space (c : ascii) (s : string) :
  Protocol.isSpace c = true -> Protocol.Fields (String c s) = Protocol.Fields s.
Proof. intros Hc. cbn [Protocol.Fields]. rewrite Hc. reflexivity. Qed.

(** A word followed by white space is the first of the fields. *)
Lemma Fields_word_space (w : string) (c : ascii) (rest : string) :
  is_word w = true -> Protocol.isSpace c = true ->
  Protocol.Fields (w +:+ String c rest) = w :: Protocol.Fields rest.
Proof.
  unfold is_word. intros Hw Hc. apply andb_prop in Hw. destruct Hw as [Hne Hns].
  destruct w as [|a w]; [discriminate|]. clear Hne. revert a Hns.
  induction w as [|b w IH]; intros a Hns; cbn [no_space] in Hns;
    apply andb_prop in Hns; destruct Hns as [Ha Hns]; apply Bool.negb_true_iff in Ha.
  - change (String a "" +:+ String c rest) with (String a (String c rest)).
    cbn [Protocol.Fields]. rewrite Ha, Hc. reflexivity.
  - change (String a (String b w) +:+ String c rest)
      with (String a (String b w +:+ String c rest)).
    pose proof (IH b Hns) as Hrest.
    change (String b w +:+ String c rest) with (String b (w +:+ String c rest)) in *.
    cbn [Protocol.Fields] in *. rewrite Ha.
    cbn [no_space] in Hns. apply andb_prop in Hns. destruct Hns as [Hb _].
    apply Bool.negb_true_iff in Hb. rewrite Hb in *. rewrite Hrest. reflexivity.
Qed.

(** A word alone is the only field. *)
Lemma Fields_word (w : string) : is_word w = true -> Protocol.Fields w = [w].
Proof.
  unfold is_word. intros Hw. apply andb_prop in Hw. destruct Hw as [Hne Hns].
  destruct w as [|a w]; [discriminate|]. clear Hne. revert a Hns.
  induction w as [|b w IH]; intros a Hns; cbn [no_space] in Hns;
    apply andb_prop in Hns; destruct Hns as [Ha Hns]; apply Bool.negb_true_iff in Ha.
  - cbn [Protocol.Fields]. rewrite Ha. reflexivity.
  - pose proof (IH b Hns) as Hrest. cbn [Protocol.Fields] in *. rewrite Ha.
    cbn [no_space] in Hns. apply andb_prop in Hns. destruct Hns as [Hb _].
    apply Bool.negb_true_iff in Hb. rewrite Hb in *. rewrite Hrest. reflexivity.
Qed.

Lemma Fields_request_line (method path version : string) :
  is_word method = true -> is_word path = true -> is_word version = true ->
  Protocol.Fields (request_line method path version) = [method; path; version].
Proof.
  intros Hm Hp Hv. unfold request_line.
  change (method +:+ " " +:+ path +:+ " " +:+ version)
    with (method +:+ String " " (path +:+ String " " version)).
  rewrite (Fields_word_space method) by (assumption || reflexivity).
  rewrite (Fields_word_space path) by (assumption || reflexivity).
  rewrite (Fields_word version Hv). reflexivity.
Qed.

Lemma request_line_no_cr (method path version : string) :
  is_word method = true -> is_word path = true -> is_word version = true ->
  forall c, In c (list_ascii_of_string (request_line method path version)) ->
            Ascii.eqb c Protocol.CR = false.
Proof.
  unfold is_word, request_line. intros Hm Hp Hv c Hin.
  apply andb_prop in Hm, Hp, Hv. destruct Hm as [_ Hm], Hp as [_ Hp], Hv as [_ Hv].
  rewrite !chars_append in Hin. rewrite !in_app_iff in Hin.
  destruct Hin as [Hin|[Hin|[Hin|[Hin|Hin]]]].
  - apply space_not_cr. exact (no_space_chars _ Hm c Hin).
  - destruct Hin as [<-|[]]. reflexivity.
  - apply space_not_cr. exact (no_space_chars _ Hp c Hin).
  - destruct Hin as [<-|[]]. reflexivity.
  - apply space_not_cr. exact (no_space_chars _ Hv c Hin).
Qed.

(** The loop over the header lines changes the headers and the user agent
    only. *)
Lemma parse_headers_line (lines : list string) (info : Protocol.ProtocolInfo) :
  Protocol.Method (Protocol.parse_headers lines info) = Protocol.Method info
  /\ Protocol.Path (Protocol.parse_headers lines info) = Protocol.Path info
  /\ Protocol.Version (Protocol.parse_headers lines info) = Protocol.Version info
  /\ Protocol.StatusCode (Protocol.parse_headers lines info) = Protocol.StatusCode info.
Proof.
  revert info. induction lines as [|line rest IH]; intros info; cbn [Protocol.parse_headers];
    [auto|].
  destruct (String.eqb line ""); [auto|]. cbv zeta.
  destruct (0 <? Protocol.Index line ":")%Z; [|apply IH].
  match goal with
  | |- context [Protocol.parse_headers rest ?i] => destruct (IH i) as (-> & -> & -> & ->)
  end. auto.
Qed.

Lemma extractHTTP11Features_request (info : Protocol.ProtocolInfo) :
  Protocol.Method info <> "" -> Protocol.Path info <> "" ->
  let features := Protocol.extractHTTP11Features info in
  features !! "method" = Some (Protocol.VString (Protocol.Method info))
  /\ features !! "is_get" = Some (Protocol.VBool (String.eqb (Protocol.Method info) "GET"))
  /\ features !! "is_post" = Some (Protocol.VBool (String.eqb (Protocol.Method info) "POST"))
  /\ features !! "path_length" = Some (Protocol.VInt (Protocol.slen (Protocol.Path info)))
  /\ features !! "has_query_params"
     = Some (Protocol.VBool (Protocol.Contains (Protocol.Path info) "?")).
Proof.
  intros Hm Hp. cbv zeta. unfold Protocol.extractHTTP11Features. cbv zeta.
  apply String.eqb_neq in Hm, Hp. rewrite Hm, Hp. cbn [negb].
  repeat split;
    repeat (first [ rewrite lookup_insert_eq; reflexivity
                  | rewrite lookup_insert_ne by discriminate ]).
Qed.

Lemma word_nonempty (w : string) : is_word w = true -> w <> "".
Proof. intros H ->. discriminate. Qed.

Lemma hd_SplitCRLF_cons (c : ascii) (s : string) :
  Ascii.eqb c Protocol.CR = false ->
  hd EmptyString (Protocol.SplitCRLF (String c s))
  = String c (hd EmptyString (Protocol.SplitCRLF s)).
Proof.
  intros Hc. rewrite SplitCRLF_cons by exact Hc.
  destruct (SplitCRLF_nonempty s) as (l & ls & ->). reflexivity.
Qed.

Lemma two_or_more {A} (l : list A) :
  (len l <? 2)%Z = false -> exists a b rest, l = a :: b :: rest.
Proof.
  intros H. apply Z.ltb_ge in H. unfold len in H.
  destruct l as [|a [|b rest]]; cbn in H; try lia. eauto.
Qed.

End HTTP11.

(** X24. The request line is read back as it was written.  A packet of 20 ASCII
    bytes or more whose first line is GET or POST, a path and a version, each
    a word and one space apart, is parsed without error as "HTTP/1.1" with
    that method, path and version and the status 0; the version is taken as
    it stands, whatever it says.  The features tell the method, whether it is
    GET or POST, the length of the path and whether the path has a question
    mark. *)
Theorem request_line_round_trip (method path version rest : string) :
  ascii_only (request method path version rest) = true ->
  method = "GET" \/ method = "POST" -> is_word path = true -> is_word version = true ->
  (20 <= Protocol.slen (request method path version rest))%Z ->
  exists info features,
    Protocol.ParsePacket (request method path version rest) = (Some info, None)
    /\ Protocol.Protocol info = "HTTP/1.1"
    /\ Protocol.Method info = method
    /\ Protocol.Path info = path
    /\ Protocol.Version info = version
    /\ Protocol.StatusCode info = 0%Z
    /\ Protocol.Features info = Some features
    /\ features !! "method" = Some (Protocol.VString method)
    /\ features !! "is_get" = Some (Protocol.VBool (String.eqb method "GET"))
    /\ features !! "is_post" = Some (Protocol.VBool (String.eqb method "POST"))
    /\ features !! "path_length" = Some (Protocol.VInt (Protocol.slen path))
    /\ features !! "has_query_params" = Some (Protocol.VBool (Protocol.Contains path "?")).
Proof.
  unfold request. intros _ Hmethod Hp Hv Hlen.
  assert (Hm : is_word method = true) by (destruct Hmethod as [-> | ->]; reflexivity).
  assert (Hid : Protocol.identifyProtocol (request_line method path version +:+ CRLF +:+ rest)
                = "HTTP/1.1").
  { unfold Protocol.identifyProtocol.
    assert (Hpre : Protocol.HasPrefix (request_line method path version +:+ CRLF +:+ rest)
                     (method +:+ " ") = true).
    { apply prefix_spec. exists (path +:+ " " +:+ version +:+ CRLF +:+ rest).
      unfold request_line. rewrite !append_assoc. reflexivity. }
    destruct Hmethod as [-> | ->];
      match goal with
      | |- context [(Protocol.byte_at ?d 0 =? 22)%Z] =>
          replace (Protocol.byte_at d 0 =? 22)%Z with false by reflexivity
      end; rewrite Bool.andb_false_r; cbv beta iota.
    - change ("GET" +:+ " ") with "GET " in Hpre. rewrite Hpre. reflexivity.
    - change ("POST" +:+ " ") with "POST " in Hpre. rewrite Hpre, Bool.orb_true_r.
      reflexivity. }
  assert (Hreq : Protocol.HasPrefix (request_line method path version) "HTTP/" = false)
    by (destruct Hmethod as [-> | ->]; reflexivity).
  unfold Protocol.ParsePacket.
  destruct (Z.ltb_spec (Protocol.slen (request_line method path version +:+ CRLF +:+ rest)) 20)
    as [|_]; [lia|].
  cbv zeta. rewrite Hid. cbn [String.eqb Ascii.eqb Bool.eqb andb].
  unfold Protocol.parseHTTP11. cbv zeta.
  rewrite (SplitCRLF_line _ rest (request_line_no_cr _ _ _ Hm Hp Hv)).
  destruct (SplitCRLF_nonempty rest) as (l & ls & ->).
  cbn [hd tl]. rewrite (Fields_request_line _ _ _ Hm Hp Hv), Hreq.
  replace (len (request_line method path version :: l :: ls) <? 2)%Z with false
    by (symmetry; apply Z.ltb_ge; unfold len; cbn [length]; lia).
  replace (len [method; path; version] <? 2)%Z with false by reflexivity.
  match goal with
  | |- context [Protocol.parse_headers (l :: ls) ?i] =>
      destruct (parse_headers_line (l :: ls) i) as (HM & HP & HV & HS);
      destruct (parse_headers_static (l :: ls) i) as (HPr & _);
      set (parsed := Protocol.parse_headers (l :: ls) i) in *
  end.
  cbn [Protocol.set_request Protocol.Method Protocol.Path Protocol.Version Protocol.Protocol
       Protocol.StatusCode] in HM, HP, HV, HS, HPr.
  destruct (extractHTTP11Features_request parsed) as (F1 & F2 & F3 & F4 & F5).
  { rewrite HM. exact (word_nonempty _ Hm). }
  { rewrite HP. exact (word_nonempty _ Hp). }
  rewrite HM in F1, F2, F3. rewrite HP in F4, F5.
  eexists. exists (Protocol.extractHTTP11Features parsed).
  split; [reflexivity|]. cbn [Protocol.Protocol Protocol.Method Protocol.Path Protocol.Version
                              Protocol.StatusCode Protocol.Features].
  repeat split; assumption.
Qed.

Lemma request_line_round_trip_witness :
  exists info features,
    Protocol.ParsePacket (request "POST" "/search?q=1" "HTTP/9.9" browser_headers)
    = (Some info, None)
    /\ Protocol.Protocol info = "HTTP/1.1"
    /\ Protocol.Method info = "POST"
    /\ Protocol.Path info = "/search?q=1"
    /\ Protocol.Version info = "HTTP/9.9"
    /\ Protocol.StatusCode info = 0%Z
    /\ Protocol.Features info = Some features
    /\ features !! "method" = Some (Protocol.VString "POST")
    /\ features !! "is_get" = Some (Protocol.VBool false)
    /\ features !! "is_post" = Some (Protocol.VBool true)
    /\ features !! "path_length" = Some (Protocol.VInt 11)
    /\ features !! "has_query_params" = Some (Protocol.VBool true).
Proof.
  apply (request_line_round_trip "POST" "/search?q=1" "HTTP/9.9" browser_headers);
    [reflexivity | right; reflexivity | reflexivity | reflexivity | vm_compute; discriminate].
Defined.

(** X25. The status of a response is not read.  A packet of 20 ASCII bytes or more
    that begins with "HTTP/1.1" is taken for a response: when it is parsed
    without error its status is 200 whatever its status line says, when
    there is an error its status is 0, and in both cases it has neither a
    method nor a path. *)
Theorem response_status_is_200 (data : string) :
  ascii_only data = true -> (20 <= Protocol.slen data)%Z ->
  Protocol.HasPrefix data "HTTP/1.1" = true ->
  exists info err,
    Protocol.ParsePacket data = (Some info, err)
    /\ Protocol.StatusCode info = match err with None => 200%Z | Some _ => 0%Z end
    /\ Protocol.Method info = "" /\ Protocol.Path info = "".
Proof.
  intros _ Hlen Hp.
  assert (H0 : Protocol.byte_at data 0 = 72%Z)
    by (rewrite (prefix_byte_at _ _ 0 Hp) by (cbn; lia); reflexivity).
  assert (Hid : Protocol.identifyProtocol data = "HTTP/1.1").
  { unfold Protocol.identifyProtocol. rewrite H0, Hp.
    replace (72 =? 22)%Z with false by reflexivity.
    rewrite Bool.andb_false_r, Bool.orb_true_r. reflexivity. }
  unfold Protocol.ParsePacket.
  destruct (Z.ltb_spec (Protocol.slen data) 20) as [|_]; [lia|].
  cbv zeta. rewrite Hid. cbn [String.eqb Ascii.eqb Bool.eqb andb].
  unfold Protocol.parseHTTP11. cbv zeta.
  destruct (len (Protocol.SplitCRLF data) <? 2)%Z; [do 2 eexists; repeat split|].
  destruct (len (Protocol.Fields (hd EmptyString (Protocol.SplitCRLF data))) <? 2)%Z eqn:Hparts;
    [do 2 eexists; repeat split|].
  assert (Hline : Protocol.HasPrefix (hd EmptyString (Protocol.SplitCRLF data)) "HTTP/" = true).
  { apply prefix_spec in Hp. destruct Hp as [post ->].
    change ("HTTP/1.1" +:+ post)
      with (String "H" (String "T" (String "T" (String "P" (String "/" ("1.1" +:+ post)))))).
    rewrite !hd_SplitCRLF_cons by reflexivity.
    apply prefix_spec. eexists. reflexivity. }
  rewrite Hline. destruct (two_or_more _ Hparts) as (v & w & ps & ->).
  match goal with
  | |- context [Protocol.parse_headers ?l ?i] =>
      destruct (parse_headers_line l i) as (HM & HP & _ & HS);
      set (parsed := Protocol.parse_headers l i) in *
  end.
  cbn [Protocol.set_response Protocol.Method Protocol.Path Protocol.StatusCode] in HM, HP, HS.
  do 2 eexists. split; [reflexivity|].
  cbn [Protocol.Method Protocol.Path Protocol.StatusCode]. auto.
Qed.

Lemma response_status_is_200_witness :
  exists info err,
    Protocol.ParsePacket not_found_response = (Some info, err)
    /\ Protocol.StatusCode info = match err with None => 200%Z | Some _ => 0%Z end
    /\ Protocol.Method info = "" /\ Protocol.Path info = "".
Proof.
  apply (response_status_is_200 not_found_response);
    [reflexivity | vm_compute; discriminate | reflexivity].
Defined.

(** ** The generator of training data *)

Section Generator.
Context {F} `{Float64 F} (G : Type).
Variable rand_Float64 : G -> F * G.
Variable rand_Intn : Z -> G -> Z * G.


Lemma returns_ret {A} (a : A) (g : G) (P : A -> Prop) :
  P a -> returns (DataGenerator.ret G a) g P.
Proof. intros Ha. exists a, g. split; [reflexivity | exact Ha]. Qed.

Lemma returns_bind {A B} (m : DataGenerator.M G A) (k : A -> DataGenerator.M G B)
    (g : G) (Q : A -> Prop) (P : B -> Prop) :
  returns m g Q -> (forall a g', Q a -> returns (k a) g' P) ->
  returns (DataGenerator.bind G m k) g P.
Proof.
  intros (a & g' & Hm & Ha) Hk. destruct (Hk a g' Ha) as (b & g'' & Hb & HP).
  exists b, g''. split; [|exact HP]. unfold DataGenerator.bind. rewrite Hm. exact Hb.
Qed.

Lemma returns_weaken {A} (m : DataGenerator.M G A) (g : G) (P Q : A -> Prop) :
  returns m g P -> (forall a, P a -> Q a) -> returns m g Q.
Proof. intros (a & g' & Hm & Ha) HPQ. exists a, g'. auto. Qed.

Lemma panics_bind {A B} (m : DataGenerator.M G A) (k : A -> DataGenerator.M G B) (g : G) :
  fst (m g) = Panic -> fst (DataGenerator.bind G m k g) = Panic.
Proof.
  unfold DataGenerator.bind. destruct (m g) as [[a| |] g']; cbn; congruence.
Qed.

Lemma for_loop_returns {A} (P : Z -> A -> Prop) (body : Z -> A -> DataGenerator.M G A)
    (n : nat) (i : Z) (a : A) (g : G) :
  P i a ->
  (forall k a g, (i <= k < i + Z.of_nat n)%Z -> P k a -> returns (body k a) g (P (k + 1)%Z)) ->
  returns (DataGenerator.for_loop G n i body a) g (P (i + Z.of_nat n)%Z).
Proof.
  revert i a g. induction n as [|n IH]; intros i a g Ha Hbody.
  - cbn [DataGenerator.for_loop]. apply returns_ret.
    replace (i + Z.of_nat 0)%Z with i by lia. exact Ha.
  - cbn [DataGenerator.for_loop]. eapply returns_bind.
    + apply (Hbody i a g); [lia | exact Ha].
    + intros a' g' Ha'. replace (i + Z.of_nat (S n))%Z with (i + 1 + Z.of_nat n)%Z by lia.
      apply IH; [exact Ha'|]. intros k a'' g'' Hk. apply Hbody. lia.
Qed.

Lemma for_range_returns {A} (P : Z -> A -> Prop) (body : Z -> A -> DataGenerator.M G A)
    (lo hi : Z) (a : A) (g : G) :
  (lo <= hi)%Z -> P lo a ->
  (forall k a g, (lo <= k < hi)%Z -> P k a -> returns (body k a) g (P (k + 1)%Z)) ->
  returns (DataGenerator.for_range G lo hi body a) g (P hi).
Proof.
  intros Hle Ha Hbody. unfold DataGenerator.for_range.
  replace hi with (lo + Z.of_nat (Z.to_nat (hi - lo)))%Z at 2 by lia.
  apply for_loop_returns; [exact Ha|]. intros k a' g' Hk. apply Hbody. lia.
Qed.

Lemma for_range_empty {A} (body : Z -> A -> DataGenerator.M G A) (lo hi : Z) (a : A) (g : G) :
  (hi <= lo)%Z -> DataGenerator.for_range G lo hi body a g = (Ok a, g).
Proof.
  intros Hle. unfold DataGenerator.for_range.
  replace (Z.to_nat (hi - lo)) with 0%nat by lia. reflexivity.
Qed.

Lemma for_range_panics {A} (body : Z -> A -> DataGenerator.M G A) (lo hi : Z) (a : A) (g : G) :
  (lo < hi)%Z -> fst (body lo a g) = Panic ->
  fst (DataGenerator.for_range G lo hi body a g) = Panic.
Proof.
  intros Hlt Hp. unfold DataGenerator.for_range.
  destruct (Z.to_nat (hi - lo)) as [|n] eqn:Hn; [lia|].
  cbn [DataGenerator.for_loop]. apply panics_bind. exact Hp.
Qed.

Lemma Float64_returns (g : G) : returns (DataGenerator.Float64 G rand_Float64) g (fun _ => True).
Proof.
  unfold returns, DataGenerator.Float64. destruct (rand_Float64 g) as [x g']. eauto.
Qed.

Lemma affine_returns (base span : F) (g : G) : returns (DataGenerator.affine G rand_Float64 base span) g (fun _ => True).
Proof.
  unfold DataGenerator.affine. eapply returns_bind; [apply Float64_returns|].
  intros. apply returns_ret. exact I.
Qed.

Lemma spread_returns (base span low width : F) (g : G) :
  returns (DataGenerator.spread G rand_Float64 base span low width) g (fun _ => True).
Proof.
  unfold DataGenerator.spread.
  eapply returns_bind; [apply affine_returns|]. intros.
  eapply returns_bind; [apply affine_returns|]. intros.
  eapply returns_bind; [apply Float64_returns|]. intros.
  apply returns_ret. exact I.
Qed.

Lemma make_returns {A} (n : Z) (zero : A) (g : G) :
  (0 <= n)%Z ->
  DataGenerator.make G n zero g = (Ok (replicate (Z.to_nat n) zero), g).
Proof.
  intros Hn. unfold DataGenerator.make. destruct (Z.ltb_spec n 0); [lia | reflexivity].
Qed.

Lemma make_panics {A} (n : Z) (zero : A) (g : G) :
  (n < 0)%Z -> DataGenerator.make G n zero g = (Panic, g).
Proof.
  intros Hn. unfold DataGenerator.make. destruct (Z.ltb_spec n 0); [reflexivity | lia].
Qed.

Lemma set_returns {A} (s : list A) (i : Z) (x : A) (g : G) :
  (0 <= i < len s)%Z -> DataGenerator.set G s i x g = (Ok (<[Z.to_nat i := x]> s), g).
Proof.
  intros Hi. unfold DataGenerator.set.
  destruct (Z.leb_spec 0 i); [|lia]. destruct (Z.ltb_spec i (len s)); [reflexivity | lia].
Qed.

Lemma len_insert {A} (s : list A) (i : nat) (x : A) : len (<[i := x]> s) = len s.
Proof. unfold len. rewrite length_insert. reflexivity. Qed.

Lemma band_returns (lo hi featureSize : Z) (gen : DataGenerator.M G F) (features : list F)
    (g : G) :
  (0 <= lo <= hi)%Z -> (forall g, returns gen g (fun _ => True)) ->
  len features = featureSize ->
  returns (DataGenerator.band G lo hi featureSize gen features) g
    (fun row => len row = featureSize).
Proof.
  intros Hlo Hgen Hlen. unfold DataGenerator.band.
  apply (for_range_returns (fun _ row => len row = featureSize)); [lia | exact Hlen|].
  intros k row g' Hk Hrow. destruct (Z.ltb_spec k featureSize) as [Hin|Hout].
  - eapply returns_bind; [apply Hgen|]. intros x g'' _.
    exists (<[Z.to_nat k := x]> row), g''. split; [apply set_returns; lia|].
    rewrite len_insert. exact Hrow.
  - apply returns_ret. exact Hrow.
Qed.

Lemma tail_returns (featureSize : Z) (gen : DataGenerator.M G F) (features : list F) (g : G) :
  (forall g, returns gen g (fun _ => True)) -> len features = featureSize ->
  returns (DataGenerator.tail G featureSize gen features) g (fun row => len row = featureSize).
Proof.
  intros Hgen Hlen. unfold DataGenerator.tail.
  destruct (Z.le_gt_cases 120 featureSize) as [Hle|Hgt].
  - apply (for_range_returns (fun _ row => len row = featureSize)); [lia | exact Hlen|].
    intros k row g' Hk Hrow. eapply returns_bind; [apply Hgen|]. intros x g'' _.
    exists (<[Z.to_nat k := x]> row), g''. split; [apply set_returns; lia|].
    rewrite len_insert. exact Hrow.
  - exists features, g. split; [apply for_range_empty; lia | exact Hlen].
Qed.

Lemma len_replicate {A} (n : Z) (x : A) : (0 <= n)%Z -> len (replicate (Z.to_nat n) x) = n.
Proof. intros Hn. unfold len. rewrite length_replicate. lia. Qed.

Lemma generateBotFeatures_returns (featureSize : Z) (g : G) :
  (0 <= featureSize)%Z ->
  returns (DataGenerator.generateBotFeatures G rand_Float64 featureSize) g
    (fun row => len row = featureSize).
Proof.
  intros Hfs. unfold DataGenerator.generateBotFeatures.
  eapply (returns_bind _ _ _ (fun row => len row = featureSize)).
  { exists (replicate (Z.to_nat featureSize) f_zero), g.
    split; [apply make_returns; lia | apply len_replicate; lia]. }
  cbv beta. intros ? ? ?.
  repeat (eapply returns_bind;
          [apply band_returns;
           [lia | intros; first [apply spread_returns | apply affine_returns] | eassumption]
          | cbv beta; intros ? ? ?]).
  apply tail_returns; [|assumption].
  intros g0. eapply returns_bind; [apply Float64_returns|]. intros. apply returns_ret. exact I.
Qed.

Lemma generateHumanFeatures_returns (featureSize : Z) (g : G) :
  (0 <= featureSize)%Z ->
  returns (DataGenerator.generateHumanFeatures G rand_Float64 featureSize) g
    (fun row => len row = featureSize).
Proof.
  intros Hfs. unfold DataGenerator.generateHumanFeatures.
  eapply (returns_bind _ _ _ (fun row => len row = featureSize)).
  { exists (replicate (Z.to_nat featureSize) f_zero), g.
    split; [apply make_returns; lia | apply len_replicate; lia]. }
  cbv beta. intros ? ? ?.
  repeat (eapply returns_bind;
          [apply band_returns;
           [lia | intros; first [apply spread_returns | apply affine_returns] | eassumption]
          | cbv beta; intros ? ? ?]).
  apply tail_returns; [|assumption]. intros g0. apply affine_returns.
Qed.

Lemma generateBotFeatures_panics (featureSize : Z) (g : G) :
  (featureSize < 0)%Z ->
  fst (DataGenerator.generateBotFeatures G rand_Float64 featureSize g) = Panic.
Proof.
  intros Hfs. unfold DataGenerator.generateBotFeatures. apply panics_bind.
  rewrite make_panics by lia. reflexivity.
Qed.

Lemma generateHumanFeatures_panics (featureSize : Z) (g : G) :
  (featureSize < 0)%Z ->
  fst (DataGenerator.generateHumanFeatures G rand_Float64 featureSize g) = Panic.
Proof.
  intros Hfs. unfold DataGenerator.generateHumanFeatures. apply panics_bind.
  rewrite make_panics by lia. reflexivity.
Qed.

Lemma panics_after {A B} (m : DataGenerator.M G A) (k : A -> DataGenerator.M G B)
    (g : G) (Q : A -> Prop) :
  returns m g Q -> (forall a g', Q a -> fst (k a g') = Panic) ->
  fst (DataGenerator.bind G m k g) = Panic.
Proof.
  intros (a & g' & Hm & Ha) Hk. unfold DataGenerator.bind. rewrite Hm. exact (Hk a g' Ha).
Qed.

Lemma make_returns' {A} (n : Z) (zero : A) (g : G) :
  (0 <= n)%Z ->
  returns (DataGenerator.make G n zero) g (fun s => s = replicate (Z.to_nat n) zero).
Proof. intros Hn. eexists _, g. split; [apply make_returns; exact Hn | reflexivity]. Qed.

Lemma set_returns' {A} (s : list A) (i : Z) (x : A) (g : G) :
  (0 <= i < len s)%Z ->
  returns (DataGenerator.set G s i x) g (fun s' => s' = <[Z.to_nat i := x]> s).
Proof. intros Hi. eexists _, g. split; [apply set_returns; exact Hi | reflexivity]. Qed.

Lemma label_bot (n k : nat) :
  (k < n)%nat ->
  <[k := 1%Z]> (replicate k 1%Z ++ replicate (n - k) 0%Z)
  = replicate (S k) 1%Z ++ replicate (n - S k) 0%Z.
Proof.
  intros Hk. rewrite insert_app_r_alt by (rewrite length_replicate; lia).
  rewrite length_replicate, Nat.sub_diag.
  rewrite replicate_S_end, <- app_assoc.
  replace (n - k)%nat with (S (n - S k)) by lia. reflexivity.
Qed.

Lemma label_human (n b k : nat) :
  (b <= k < n)%nat ->
  <[k := 0%Z]> (replicate b 1%Z ++ replicate (n - b) 0%Z)
  = replicate b 1%Z ++ replicate (n - b) 0%Z.
Proof.
  intros Hk. apply list_insert_id.
  rewrite lookup_app_r by (rewrite length_replicate; lia).
  rewrite length_replicate. apply lookup_replicate_2. lia.
Qed.

Lemma rows_step (fs : Z) (features : list (list F)) (k : nat) (row : list F) :
  (k < length features)%nat -> len row = fs ->
  Forall (fun row => len row = fs) (take k features) ->
  Forall (fun row => len row = fs) (take (S k) (<[k := row]> features)).
Proof.
  intros Hk Hrow Hrows.
  rewrite (take_S_r _ _ row) by (apply list_lookup_insert_eq; exact Hk).
  rewrite take_insert_ge by lia. apply Forall_app. split; [exact Hrows|].
  constructor; [exact Hrow | constructor].
Qed.

(** *** Shuffling *)

Lemma swap_Permutation {A} (s : list A) (i j : nat) (a b : A) :
  s !! i = Some a -> s !! j = Some b -> <[j := a]> (<[i := b]> s) ≡ₚ s.
Proof.
  intros Hi Hj. destruct (decide (i = j)) as [->|Hne].
  { rewrite list_insert_insert_eq. rewrite list_insert_id; [reflexivity|]. congruence. }
  assert (Hli : (i < length s)%nat) by (apply lookup_lt_is_Some; eauto).
  assert (Hlj : (j < length s)%nat) by (apply lookup_lt_is_Some; eauto).
  apply Permutation_inj. split; [rewrite !length_insert; reflexivity|].
  exists (fun k => if decide (k = i) then j else if decide (k = j) then i else k). split.
  - intros x y Hxy. repeat case_decide; congruence.
  - intros k. cbv beta. destruct (decide (k = i)) as [->|Hki].
    + rewrite list_lookup_insert_ne by congruence.
      rewrite list_lookup_insert_eq by exact Hli. congruence.
    + destruct (decide (k = j)) as [->|Hkj].
      * rewrite list_lookup_insert_eq by (rewrite length_insert; exact Hlj). congruence.
      * rewrite !list_lookup_insert_ne by congruence. reflexivity.
Qed.

Lemma swap_returns {A} (s : list A) (i j : Z) (a b : A) (g : G) :
  (0 <= i)%Z -> (0 <= j)%Z -> s !! Z.to_nat i = Some a -> s !! Z.to_nat j = Some b ->
  returns (DataGenerator.swap G s i j) g
    (fun s' => s' = <[Z.to_nat j := a]> (<[Z.to_nat i := b]> s)).
Proof.
  intros Hi Hj Ha Hb. eexists _, g. split; [|reflexivity].
  unfold DataGenerator.swap. rewrite Ha, Hb.
  destruct (Z.leb_spec 0 i); [|lia]. destruct (Z.leb_spec 0 j); [reflexivity | lia].
Qed.

Lemma swap_panics {A} (s : list A) (i j : Z) (g : G) :
  (len s <= i)%Z -> fst (DataGenerator.swap G s i j g) = Panic.
Proof.
  unfold len. intros Hi. unfold DataGenerator.swap.
  rewrite (lookup_ge_None_2 s (Z.to_nat i)) by lia.
  destruct ((0 <=? i)%Z && (0 <=? j)%Z); reflexivity.
Qed.

Hypothesis Hrange : in_range rand_Intn.

Lemma Intn_returns (n : Z) (g : G) :
  (0 < n)%Z -> returns (DataGenerator.Intn G rand_Intn n) g (fun j => (0 <= j < n)%Z).
Proof using Hrange.
  intros Hn. unfold returns, DataGenerator.Intn. destruct (Z.leb_spec n 0); [lia|].
  pose proof (Hrange n g Hn) as Hj. destruct (rand_Intn n g) as [j g']. eauto.
Qed.

Lemma shuffle_from_returns (i : nat) (features : list (list F)) (labels : list Z) (g : G) :
  (i < length features \/ i = 0)%nat -> length labels = length features ->
  returns (DataGenerator.shuffle_from G rand_Intn i features labels) g
    (fun data => zip (fst data) (snd data) ≡ₚ zip features labels
                 /\ length (fst data) = length features
                 /\ length (snd data) = length labels).
Proof using Hrange.
  revert features labels g. induction i as [|i IH]; intros features labels g Hi Hlen.
  - cbn [DataGenerator.shuffle_from]. apply returns_ret. auto.
  - destruct Hi as [Hi|Hi]; [|discriminate].
    cbn [DataGenerator.shuffle_from]. eapply returns_bind; [apply Intn_returns; lia|].
    cbv beta. intros j g1 Hj.
    destruct (lookup_lt_is_Some_2 features (Z.to_nat (Z.of_nat (S i)))) as [a Ha]; [lia|].
    destruct (lookup_lt_is_Some_2 features (Z.to_nat j)) as [b Hb]; [lia|].
    destruct (lookup_lt_is_Some_2 labels (Z.to_nat (Z.of_nat (S i)))) as [a' Ha']; [lia|].
    destruct (lookup_lt_is_Some_2 labels (Z.to_nat j)) as [b' Hb']; [lia|].
    eapply returns_bind; [apply (swap_returns features _ _ a b); (lia || assumption)|].
    cbv beta. intros features' g2 ->.
    eapply returns_bind; [apply (swap_returns labels _ _ a' b'); (lia || assumption)|].
    cbv beta. intros labels' g3 ->.
    eapply returns_weaken.
    + apply IH; [rewrite !length_insert; lia | rewrite !length_insert; exact Hlen].
    + cbv beta. intros data (Hperm & Hf & Hl). rewrite !length_insert in Hf. rewrite !length_insert in Hl.
      split; [|auto]. rewrite Hperm.
      rewrite <- (insert_zip_with pair _ _ _ a a'), <- (insert_zip_with pair _ _ _ b b').
      apply swap_Permutation; rewrite lookup_zip_with; [rewrite Ha, Ha' | rewrite Hb, Hb'];
        reflexivity.
Qed.

Lemma shuffleData_returns (features : list (list F)) (labels : list Z) (g : G) :
  length labels = length features ->
  returns (DataGenerator.shuffleData G rand_Intn features labels) g
    (fun data => zip (fst data) (snd data) ≡ₚ zip features labels
                 /\ length (fst data) = length features
                 /\ length (snd data) = length labels).
Proof using Hrange.
  intros Hlen. unfold DataGenerator.shuffleData. apply shuffle_from_returns; [lia | exact Hlen].
Qed.

End Generator.

(** X26. The shape of the generated data.  For a size and a feature size that are
    not negative the generator returns, without a panic, as many rows and as
    many labels as the size says; every row has the feature size as its
    length; and the labels are a rearrangement of size/2 ones followed by
    zeros, so that an odd size gives one human more than bots. *)
Theorem generated_data_shape {F} `{Float64 F} (G : Type) (rand_Float64 : G -> F * G)
    (rand_Intn : Z -> G -> Z * G) (size featureSize : Z) (g : G) :
  in_range rand_Intn -> (0 <= size)%Z -> (0 <= featureSize)%Z ->
  returns (DataGenerator.GenerateFakeData G rand_Float64 rand_Intn size featureSize) g
    (fun data =>
       len (fst data) = size /\ len (snd data) = size
       /\ Forall (fun row => len row = featureSize) (fst data)
       /\ snd data ≡ₚ replicate (Z.to_nat (size / 2)) 1%Z
                       ++ replicate (Z.to_nat (size - size / 2)) 0%Z).
Proof.
  intros Hrange Hsize Hfs. unfold DataGenerator.GenerateFakeData.
  eapply returns_bind; [apply make_returns'; exact Hsize|]. cbv beta. intros features0 g1 ->.
  eapply returns_bind; [apply make_returns'; exact Hsize|]. cbv beta. intros labels0 g2 ->.
  cbv zeta. rewrite Z.quot_div_nonneg by lia.
  assert (Hhalf : (0 <= size / 2 <= size)%Z).
  { split; [apply Z.div_pos; lia|]. apply Z.div_le_upper_bound; lia. }
  set (n := Z.to_nat size). set (b := Z.to_nat (size / 2)).
  eapply returns_bind.
  { apply (for_range_returns G
             (fun k data =>
                length (fst data) = n
                /\ snd data = replicate (Z.to_nat k) 1%Z ++ replicate (n - Z.to_nat k) 0%Z
                /\ Forall (fun row => len row = featureSize) (take (Z.to_nat k) (fst data)))).
    - lia.
    - cbn [fst snd]. rewrite length_replicate. cbn [Z.to_nat replicate app take].
      rewrite Nat.sub_0_r. auto.
    - intros k [features labels] g' Hk (Hlen & Hlabels & Hrows). cbn [fst snd] in *.
      eapply returns_bind; [apply generateBotFeatures_returns; exact Hfs|].
      cbv beta. intros row g3 Hrow.
      eapply returns_bind; [apply set_returns'; unfold len; lia|]. cbv beta. intros ? g4 ->.
      eapply returns_bind;
        [apply set_returns'; unfold len; rewrite Hlabels, length_app, !length_replicate; lia|].
      cbv beta. intros ? g5 ->. apply returns_ret. cbn [fst snd].
      rewrite length_insert. split; [exact Hlen|].
      replace (Z.to_nat (k + 1)) with (S (Z.to_nat k)) by lia. split.
      + rewrite Hlabels. apply label_bot. lia.
      + apply rows_step; [lia | exact Hrow | exact Hrows]. }
  cbv beta. intros data1 g3 (Hlen1 & Hlabels1 & Hrows1). fold b in Hlabels1, Hrows1.
  eapply returns_bind.
  { apply (for_range_returns G
             (fun k data =>
                length (fst data) = n
                /\ snd data = replicate b 1%Z ++ replicate (n - b) 0%Z
                /\ Forall (fun row => len row = featureSize) (take (Z.to_nat k) (fst data)))).
    - lia.
    - auto.
    - intros k [features labels] g' Hk (Hlen & Hlabels & Hrows). cbn [fst snd] in *.
      eapply returns_bind; [apply generateHumanFeatures_returns; exact Hfs|].
      cbv beta. intros row g4 Hrow.
      eapply returns_bind; [apply set_returns'; unfold len; lia|]. cbv beta. intros ? g5 ->.
      eapply returns_bind;
        [apply set_returns'; unfold len; rewrite Hlabels, length_app, !length_replicate; lia|].
      cbv beta. intros ? g6 ->. apply returns_ret. cbn [fst snd].
      rewrite length_insert. split; [exact Hlen|].
      replace (Z.to_nat (k + 1)) with (S (Z.to_nat k)) by lia. split.
      + rewrite Hlabels. apply label_human. lia.
      + apply rows_step; [lia | exact Hrow | exact Hrows]. }
  cbv beta. intros [features labels] g4 (Hlen2 & Hlabels2 & Hrows2). cbn [fst snd] in *.
  fold n in Hrows2. rewrite take_ge in Hrows2 by lia.
  assert (Hll : length labels = length features).
  { rewrite Hlabels2, length_app, !length_replicate. lia. }
  eapply returns_weaken; [apply (shuffleData_returns G rand_Intn Hrange); exact Hll|].
  cbv beta. intros [features' labels'] (Hperm & Hf & Hl). cbn [fst snd] in *.
  assert (Hpf : features' ≡ₚ features).
  { rewrite <- (fst_zip features' labels') by lia. rewrite Hperm. rewrite fst_zip by lia.
    reflexivity. }
  assert (Hpl : labels' ≡ₚ labels).
  { rewrite <- (snd_zip features' labels') by lia. rewrite Hperm. rewrite snd_zip by lia.
    reflexivity. }
  unfold len. split; [lia|]. split; [lia|]. split.
  - rewrite Hpf. exact Hrows2.
  - rewrite Hpl, Hlabels2. replace (Z.to_nat (size - size / 2)) with (n - b)%nat by lia.
    reflexivity.
Qed.

Lemma generated_data_shape_witness :
  returns (DataGenerator.GenerateFakeData (F := float) nat counter_Float64 counter_Intn 5 3)
    0%nat
    (fun data =>
       len (fst data) = 5%Z /\ len (snd data) = 5%Z
       /\ Forall (fun row => len row = 3%Z) (fst data)
       /\ snd data ≡ₚ replicate (Z.to_nat (5 / 2)) 1%Z
                       ++ replicate (Z.to_nat (5 - 5 / 2)) 0%Z).
Proof.
  apply (generated_data_shape (F := float) nat counter_Float64 counter_Intn 5 3 0%nat);
    [|lia|lia].
  intros n g Hn. cbn [counter_Intn fst]. apply Z.mod_pos_bound. exact Hn.
Defined.

(** X27. Shuffling keeps every row with its label.  When there are as many labels
    as rows, the shuffle returns the same pairs of a row and a label in some
    order; when there are fewer labels than rows, and two rows or more, it
    panics. *)
Theorem shuffle_keeps_pairs {F} `{Float64 F} (G : Type) (rand_Intn : Z -> G -> Z * G)
    (features : list (list F)) (labels : list Z) (g : G) :
  in_range rand_Intn ->
  (length labels = length features ->
   returns (DataGenerator.shuffleData G rand_Intn features labels) g
     (fun data => zip (fst data) (snd data) ≡ₚ zip features labels
                  /\ length (fst data) = length features
                  /\ length (snd data) = length labels))
  /\ ((length labels < length features)%nat -> (2 <= length features)%nat ->
      fst (DataGenerator.shuffleData G rand_Intn features labels g) = Panic).
Proof.
  intros Hrange. split.
  - apply (shuffleData_returns G rand_Intn Hrange).
  - intros Hshort Htwo. unfold DataGenerator.shuffleData.
    destruct (length features - 1)%nat as [|i] eqn:Hi; [lia|].
    cbn [DataGenerator.shuffle_from].
    eapply panics_after; [apply (Intn_returns G rand_Intn Hrange); lia|].
    cbv beta. intros j g1 Hj.
    destruct (lookup_lt_is_Some_2 features (Z.to_nat (Z.of_nat (S i)))) as [a Ha]; [lia|].
    destruct (lookup_lt_is_Some_2 features (Z.to_nat j)) as [b Hb]; [lia|].
    eapply panics_after; [apply (swap_returns G features _ _ a b); (lia || assumption)|].
    cbv beta. intros features' g2 _. apply panics_bind. apply swap_panics. unfold len. lia.
Qed.

Lemma shuffle_keeps_pairs_witness :
  returns (DataGenerator.shuffleData (F := float) nat counter_Intn
             [[lit 1 10]; [lit 2 10]; [lit 3 10]] [1; 0; 1]%Z) 0%nat
    (fun data => zip (fst data) (snd data)
                 ≡ₚ zip [[lit 1 10]; [lit 2 10]; [lit 3 10]] [1; 0; 1]%Z
                 /\ length (fst data) = 3%nat /\ length (snd data) = 3%nat).
Proof.
  apply (shuffle_keeps_pairs (F := float) nat counter_Intn
           [[lit 1 10]; [lit 2 10]; [lit 3 10]] [1; 0; 1]%Z 0%nat); [|reflexivity].
  intros n g Hn. cbn [counter_Intn fst]. apply Z.mod_pos_bound. exact Hn.
Defined.

(** X28. The edges of the generator.  A negative size panics; the size 0 gives no
    rows and no labels and draws nothing, whatever the feature size is; and a
    negative feature size panics as soon as there is a row to generate. *)
Theorem generated_data_edges {F} `{Float64 F} (G : Type) (rand_Float64 : G -> F * G)
    (rand_Intn : Z -> G -> Z * G) (size featureSize : Z) (g : G) :
  ((size < 0)%Z ->
   fst (DataGenerator.GenerateFakeData G rand_Float64 rand_Intn size featureSize g) = Panic)
  /\ (size = 0%Z ->
      DataGenerator.GenerateFakeData G rand_Float64 rand_Intn size featureSize g
      = (Ok ([], []), g))
  /\ ((0 < size)%Z -> (featureSize < 0)%Z ->
      fst (DataGenerator.GenerateFakeData G rand_Float64 rand_Intn size featureSize g)
      = Panic).
Proof.
  split; [|split].
  - intros Hneg. unfold DataGenerator.GenerateFakeData. apply panics_bind.
    rewrite make_panics by lia. reflexivity.
  - intros ->. reflexivity.
  - intros Hpos Hfs. unfold DataGenerator.GenerateFakeData.
    eapply panics_after; [apply make_returns'; lia|]. cbv beta. intros features0 g1 ->.
    eapply panics_after; [apply make_returns'; lia|]. cbv beta. intros labels0 g2 ->.
    cbv zeta. rewrite Z.quot_div_nonneg by lia.
    destruct (Z.eq_dec (size / 2)%Z 0%Z) as [Hzero|Hsome].
    + rewrite Hzero. unfold DataGenerator.bind at 1. rewrite for_range_empty by lia.
      apply panics_bind. apply for_range_panics; [lia|].
      apply panics_bind. apply generateHumanFeatures_panics. exact Hfs.
    + assert (0 <= size / 2)%Z by (apply Z.div_pos; lia).
      apply panics_bind. apply for_range_panics; [lia|].
      apply panics_bind. apply generateBotFeatures_panics. exact Hfs.
Qed.
